(* ===== verification/_CoqProject ===== *)
-Q . S2P
Prelude.v
GoStrings.v
Domain.v
Base64.v
Identity.v
Documents.v
Lanes.v
Diff.v
GoPath.v
ConflictRisk.v
Risk.v
PolicyValidation.v
Policy.v
Mutations.v
Analyzers.v
RuntimeGraph.v
Scan.v
Events.v
Store.v
Access.v
ControlPlane.v
Http.v
Grpc.v
Runes.v
Github.v
Checks.v
Ingest.v
Agreement.v
Jwt.v
Config.v
Startup.v
Resolve.v
Cli.v
Mcp.v
GithubClient.v
Postgres.v
PostgresView.v
PostgresService.v
Migrations.v
Nats.v
Bootstrap.v
Scm.v
Telemetry.v
Serve.v
