(* ===== verification/Prelude.v ===== *)
(** * A verification of merger

    merger is a change-control plane for pull requests: it turns a diff into a
    _Change Packet_ (what mutated, what it touches at run time, how risky it is,
    what the policy asks for), assigns the packet to a merge lane (GREEN, YELLOW,
    RED, BLACK), reports the lane as a GitHub check, and then keeps the evidence
    that the policy required.  This library is a shallow embedding of its Go
    sources ([src/]) with the theorems that make it correct.

    ** The parts, and the files that model them

    The _analysis_ of one change:
    - [Domain]: the data, [internal/domain];
    - [Identity]: identifiers, [pkg/identity/id.go];
    - [Diff]: unified diffs, [pkg/diff/parser.go];
    - [Mutations], [Analyzers]: rules, signals and analyzers,
      [internal/mutations];
    - [RuntimeGraph]: affected systems and owners, [internal/runtimegraph];
    - [ConflictRisk], [Risk]: [internal/conflictrisk], [internal/risk];
    - [PolicyValidation], [Policy]: [internal/policy] (model, validation,
      matchers, evaluation, engine);
    - [Lanes]: [internal/lanes/assigner.go];
    - [Scan]: the offline pipeline over these, [internal/scan/scan.go].

    The _control plane_, which keeps the packets:
    - [Events]: [internal/events/bus.go], [recording_bus.go];
    - [Store]: the repository interface with its laws ([Repository],
      [RepositoryLaws] over an abstract [View]; a write happens whole or not at
      all, also when its answer gets lost) and the memory repository that
      satisfies them, [internal/store/store.go], [memory.go];
    - [Postgres], [Migrations]: the second repository, statement by statement over
      tables on a server that may fail at any round trip, and the schema that its
      migrations make, [internal/store/postgres.go], [postgres_migrations.go];
    - [PostgresView]: the contents of those tables; the database satisfies
      [RepositoryLaws] too, and agrees with the memory repository;
    - [PostgresService]: the service over the database, as an instance;
    - [Access], [Jwt]: principals, roles, the static and the JWT authenticator,
      [internal/access];
    - [ControlPlane]: the service, [internal/controlplane/service.go]; its
      theorems are proved against the interface, and hold of both repositories;
    - [Http], [Grpc]: the two servers, [internal/controlplane/http.go],
      [access.go], [internal/controlplanegrpc], and their wiring in
      [internal/app/controlplane/app.go];
    - [Serve]: the application of both servers and the loop that waits for them,
      [internal/app/controlplane/app.go].

    The _ingest service_, from GitHub to the control plane:
    - [Github]: webhooks and the service interface, [internal/github/webhook.go],
      [types.go], [noop.go];
    - [GithubClient] (over [Base64]): the REST client, the JWT of the app and the
      cache of installation tokens, the rest of [internal/github];
    - [Nats]: the bus over NATS JetStream, [internal/events/nats.go];
    - [Checks] (over [Runes]): the check that reports a packet,
      [internal/checks/publisher.go];
    - [Ingest]: the workflows of a pull request and of a check run, and the
      webhook handler, [internal/ingest];
    - [Agreement]: the two pipelines that analyse a change, [Scan.Run] and
      [Ingest.ProcessPROpened], compared.

    The _process_ around them:
    - [Config]: [internal/config/config.go] and [internal/policy/loader.go];
    - [Startup]: the authenticator of [cmd/merger-controlplane/main.go];
    - [Bootstrap]: how both services are put together of a configuration,
      [internal/bootstrap], [internal/events/factory.go],
      [internal/app/ingest/app.go], [cmd/merger-ingest], and the rest of
      [cmd/merger-controlplane];
    - [Telemetry]: request contexts and the logger, [internal/telemetry];
    - [Resolve]: configuration and policy discovery,
      [internal/resolve/resolve.go], and what [pkg/merger/scan.go] adds to it;
    - [Cli]: the [merger] command, [internal/cli] and [cmd/merger/main.go];
    - [Mcp]: the tools and the session of [internal/mcpserver];
    - [Scm]: the GitLab and Bitbucket clients of the SDK, [pkg/extensions].

    [Prelude] (this file) has what all of them share: the [result] and [stateE]
    monads with their inversion lemmas, loops that may fail ([foldM],
    [forallM], with an invariant rule and the rule [foldM_fresh] for loops that
    refuse duplicates), map iteration, sums, unique appends, tactics.
    [GoStrings], [GoPath], [Runes] are the parts of Go's standard library the
    sources call, and [Documents] the parsed forms of YAML, JSON and Go.

    ** How the code is modelled

    A pure Go function is a function; a loop is a fold of a named step or a
    [Fixpoint]; an [error] is a constructor of the component's error type with
    the data the message prints; a method that changes its receiver or calls out
    is a function in [stateE S E], from the state to the result _and_ the state
    it leaves, since in Go an error undoes nothing.  A [time.Time] is the number
    of nanoseconds since the zero time, [int] is [Z] (wrapped where the code
    converts: [int32] of the gRPC mapping, [time.Unix] of the JWT dates), a
    string is its bytes, and a map is a [gmap] whose [range] order is a parameter
    ([MapOrder]).  Where two goroutines may interleave, the two halves of the
    operation are separate definitions ([checked_update], [commit_update]), or
    their steps are those of a relation ([Serve.runs]); a server that fails,
    repeats or loses answers is one too ([PostgresView.history],
    [Migrations.migrating], [Nats.subscribed], [GithubClient]'s histories), and
    the theorems are about every history.

    Recursion is structural except in three places, whose fuel is proved
    enough or bounds a measure: the graph traversal ([RuntimeGraph.walk]: one
    unit for each node and edge, [traverseGraph_correct]), the glob matcher
    ([GoPath], the length of the pattern), and the PEM loop ([Jwt.parse_key], the
    length of the text, [parse_key_enough]).

    What is outside the sources is a parameter: clocks, entropy, files,
    environment variables, subprocesses, SHA-256, HMAC, RSA, X.509, PEM, the
    decoders of YAML, JSON and Go, the answers of the database, of JetStream and
    of the networks behind the clients, and the growth of slices.  The laws assumed of
    them are class fields that state documented behaviour (a map's order is a
    permutation, a decoded PEM block consumes text); every theorem with such a
    parameter has a witness at a concrete instance.

    ** What the theorems show

    - Analysis: the parser equals a declarative reading of the diff and loses no
      line; classification reports every rule that matches, once for each kind, and
      names no file but those of the change and those an external analyzer named;
      the traversal terminates with exactly the systems within the depth; the
      risk score is a bounded, monotone sum; policy validation accepts exactly
      the well-formed policies, and the evaluation is characterised by the
      matching rules; a lane respects the minimum of the policy and grows with
      the score; and a scanned packet agrees with every engine run on it again, the
      mutation engine and the runtime resolver included.
      A scan predicts the packet of the pull request: identifiers, the order of
      maps and the clock do not show in the analysis.
    - Control plane: the contents of the repository after an evidence update are
      given field by field, a refused update changes nothing, and one that the repository fails is recorded with its
      audit entry or not at all; over any sequence of requests the audit trail explains
      the status of every evidence; both transports write only for authorized
      principals, and agree with each other.
    - Storage: whatever fails in the database, a write is all or nothing and the
      contents stay those of the memory repository after the writes that took
      effect, and the queries answer alike, but for the order of stored times and
      the default limits; migrations that were cut off resume, and the schema fits
      every statement.
    - Access: both authenticators accept exactly what their configuration says;
      a validated configuration always gets one, given its credentials, and in
      production no other principal is let in.
    - Ingest: a packet is stored before its check exists, and agrees with the
      engines; a check run moves only evidence bound to it; an unsigned webhook
      changes nothing; a request to GitHub bears the token last issued to its own
      installation while that is fresh, and one that is issued for it otherwise; an
      event goes into the stream that is created, reaches exactly the subscriptions
      to its kind, and is delivered until it is acknowledged.
    - Processes: which configurations validation accepts; what the start of the
      ingest service can fail of besides, and what it made when it did not; the
      control plane returns the first error of its servers and blocks none of
      them.
    - Command line and MCP: what resolves scans, with the policy that was found; the gate of [merger scan] is
      exact; a session answers every request once and runs no tool before it is
      initialized; the tools read nothing but the arguments they declare;
      the answer about readiness is exact (and never positive for a scanned packet
      that asks for evidence: [Mcp.scanned_packet_stays_unready]).

    ** Not modelled

    The sockets: listening, shutdown, the pool and the ping of the database, the
    draining of NATS; the servers behind them (PostgreSQL, JetStream, GitHub,
    GitLab, Bitbucket), which are environments with the documented behaviour that
    the code relies on; generated protocol buffers; the spans of the tracer, which
    do nothing; package [flag]; the text of JSON answers (the value that is
    encoded is); routes with escaped slashes; the interfaces of [pkg/extensions]
    that no code of the repository implements.  Log lines are those of
    [Telemetry], and are left out where they are printed, as they have no effect
    on results.  Case mapping and white space are those of ASCII ([GoStrings]).

    ** Plan

    Next: what the spans and the shutdown of the services do in order, and the
    text of the JSON that the tools and the command line print. *)
From stdpp Require Export base list gmap strings sorting pretty.
From Stdlib Require Export ZArith Lia.

#[global] Open Scope Z_scope.

(** ** The scope and the hint databases of the development *)
Declare Scope go_scope.
Delimit Scope go_scope with go.
#[global] Open Scope go_scope.
Create HintDb go discriminated.
Create Rewrite HintDb go.

(** ** Go's (value, error) results

    A Go function that returns [(T, error)] is a function to [result E T]:
    callers of this code never read the value next to a non-nil error. *)
Inductive result (E A : Type) : Type :=
  | Ok (a : A)
  | Err (e : E).
Arguments Ok {E A} a.
Arguments Err {E A} e.

#[global] Instance result_ret {E} : MRet (result E) := λ A a, Ok a.
#[global] Instance result_bind {E} : MBind (result E) := λ A B f m,
  match m with Ok a => f a | Err e => Err e end.
#[global] Instance result_fmap {E} : FMap (result E) := λ A B f m,
  match m with Ok a => Ok (f a) | Err e => Err e end.
#[global] Instance result_eq_dec `{EqDecision E, EqDecision A} : EqDecision (result E A).
Proof. solve_decision. Defined.

(** [if cond { return err }]. *)
Definition fail_if {E} (cond : bool) (e : E) : result E () :=
  if cond then Err e else Ok ().

(** [fmt.Errorf("context: %w", err)]: the wrapping constructor is applied to
    the error of a call. *)
Definition map_err {E E' A} (f : E → E') (r : result E A) : result E' A :=
  match r with Ok a => Ok a | Err e => Err (f e) end.

(** A loop that threads a state and stops at the first error. *)
Fixpoint foldM {E S A} (f : S → A → result E S) (s : S) (l : list A) : result E S :=
  match l with
  | [] => Ok s
  | a :: l' => s' ← f s a; foldM f s' l'
  end.

(** A loop that only checks. *)
Fixpoint forallM {E A} (f : A → result E ()) (l : list A) : result E () :=
  match l with
  | [] => Ok ()
  | a :: l' => f a ;; forallM f l'
  end.

(** [for index, value := range l]. *)
Definition indexed {A} (l : list A) : list (nat * A) := imap pair l.

Lemma bind_ok {E A B} (m : result E A) (f : A → result E B) (b : B) :
  m ≫= f = Ok b ↔ ∃ a, m = Ok a ∧ f a = Ok b.
Proof.
  destruct m as [a|e]; cbn; split.
  - eauto.
  - by intros (a' & [= ->] & ?).
  - done.
  - by intros (a' & ? & ?).
Qed.

Lemma bind_unit_ok {E B} (m : result E ()) (k : result E B) b :
  (m ;; k) = Ok b ↔ m = Ok () ∧ k = Ok b.
Proof. rewrite bind_ok. split; [by intros ([] & ? & ?)|intros [? ?]; by exists ()]. Qed.

(** A call whose result is dropped. *)
Lemma bind_drop_ok {E A B} (m : result E A) (k : result E B) b :
  (m ;; k) = Ok b ↔ (∃ a, m = Ok a) ∧ k = Ok b.
Proof. rewrite bind_ok. naive_solver. Qed.

Lemma fail_if_ok {E} (b : bool) (e : E) : fail_if b e = Ok () ↔ b = false.
Proof. by destruct b. Qed.

Lemma map_err_ok {E E' A} (f : E → E') (r : result E A) (a : A) :
  map_err f r = Ok a ↔ r = Ok a.
Proof. destruct r; cbn; split; congruence. Qed.

Lemma foldM_app {E S A} (f : S → A → result E S) s l1 l2 :
  foldM f s (l1 ++ l2) = (s' ← foldM f s l1; foldM f s' l2).
Proof.
  revert s. induction l1 as [|a l1 IH]; intros s; [done|]; cbn.
  destruct (f s a); [apply IH|done].
Qed.

(** The invariant rule of [foldM]: [P] may speak of the elements already
    consumed. *)
Lemma foldM_ind {E S A} (f : S → A → result E S) (P : list A → S → Prop) s l s' :
  foldM f s l = Ok s' →
  P [] s →
  (∀ done a s1 s2, P done s1 → f s1 a = Ok s2 → P (done ++ [a]) s2) →
  P l s'.
Proof.
  intros Hf H0 Hstep.
  enough (∀ l0 s0, P l0 s0 → foldM f s0 l = Ok s' → P (l0 ++ l) s') as G
    by by apply (G [] s).
  clear Hf H0. induction l as [|a l IH]; intros l0 s0 HP; cbn.
  - intros [= ->]. by rewrite app_nil_r.
  - intros (s1 & H1 & H2)%bind_ok.
    replace (l0 ++ a :: l) with ((l0 ++ [a]) ++ l) by by rewrite <- app_assoc.
    eapply IH; eauto.
Qed.

(** A loop none of whose steps fails does not fail. *)
Lemma foldM_total {E S A} (f : S → A → result E S) s l :
  (∀ s a, a ∈ l → ∃ s', f s a = Ok s') → ∃ s', foldM f s l = Ok s'.
Proof.
  revert s. induction l as [|a l IH]; intros s Hf; cbn; [by eauto|].
  destruct (Hf s a) as [s1 ->]; [set_solver|]. cbn. apply IH. intros. apply Hf. set_solver.
Qed.

Lemma forallM_ok {E A} (f : A → result E ()) l :
  forallM f l = Ok () ↔ Forall (λ a, f a = Ok ()) l.
Proof.
  induction l as [|a l IH]; cbn; [by split|].
  rewrite bind_ok, Forall_cons, <- IH. split.
  - by intros ([] & ? & ?).
  - intros [? ?]. by exists ().
Qed.

(** A loop that refuses what clashes with an element it has seen: a step succeeds
    when its element is fine and fresh, and makes what clashes with it stale. *)
Lemma foldM_fresh {E S A} (f : S → A → result E S) (P : A → Prop) (fresh : S → A → Prop) (clash : A → A → Prop) s l :
  (∀ s a, (∃ s', f s a = Ok s') ↔ P a ∧ fresh s a) →
  (∀ s a s' b, f s a = Ok s' → fresh s' b ↔ fresh s b ∧ ¬ clash a b) →
  (∃ s', foldM f s l = Ok s') ↔
  Forall P l ∧ Forall (fresh s) l ∧ List.ForallOrdPairs (λ a b, ¬ clash a b) l.
Proof.
  intros Hok Hnext. revert s. induction l as [|a l IH]; intros s; cbn.
  { split; [|by eauto]. intros _. split_and!; constructor. }
  transitivity (∃ s1, f s a = Ok s1 ∧ ∃ s', foldM f s1 l = Ok s').
  { split; [intros (s' & (s1 & ? & ?)%bind_ok); by eauto|].
    intros (s1 & ? & s' & ?). exists s'. apply bind_ok. eauto. }
  setoid_rewrite IH. rewrite !Forall_cons. split.
  - intros (s1 & H1 & HP & Hf & Hd).
    assert (P a ∧ fresh s a) as [? ?] by (apply Hok; eauto).
    assert (Forall (λ b, fresh s b ∧ ¬ clash a b) l) as [? ?]%Forall_and.
    { eapply Forall_impl; [exact Hf|]. intros b. cbn. by rewrite (Hnext _ _ _ b H1). }
    split_and!; try done. by constructor.
  - intros ([Ha HP] & [Hfa Hf] & Hd). destruct (proj2 (Hok s a)) as [s1 H1]; [done|].
    inversion Hd as [|? ? Hc Hd']; subst. exists s1. split_and!; try done.
    rewrite Forall_forall in *. intros b Hb. apply (Hnext _ _ _ _ H1). auto.
Qed.

Lemma NoDup_fmap_pairs {A B} (key : A → B) (l : list A) :
  NoDup (key <$> l) ↔ List.ForallOrdPairs (λ a b, key a ≠ key b) l.
Proof.
  induction l as [|a l IH]; cbn; [by split; constructor|]. rewrite NoDup_cons, IH. split.
  - intros [Hn Hd]. constructor; [|done]. apply Forall_forall. intros b Hb He. apply Hn.
    rewrite He. by apply list_elem_of_fmap_2.
  - intros Hd. inversion Hd as [|? ? Hc Hd']; subst. split; [|done].
    intros (b & He & Hb)%list_elem_of_fmap. rewrite Forall_forall in Hc. by apply (Hc b).
Qed.

Lemma ForallOrdPairs_not_or {A} (P Q : A → A → Prop) (l : list A) :
  List.ForallOrdPairs (λ a b, ¬ (P a b ∨ Q a b)) l ↔
  List.ForallOrdPairs (λ a b, ¬ P a b) l ∧ List.ForallOrdPairs (λ a b, ¬ Q a b) l.
Proof.
  induction l as [|a l IH]; [by split; [split|]; constructor|]. split.
  - intros Hd. inversion Hd as [|? ? Hc Hd']; subst. apply IH in Hd' as [? ?].
    split; (constructor; [|done]); (eapply Forall_impl; [exact Hc|]); tauto.
  - intros [H1 H2]. inversion H1 as [|? ? Hc1 Hd1]; inversion H2 as [|? ? Hc2 Hd2]; subst.
    constructor; [|by apply IH]. apply Forall_forall. rewrite Forall_forall in Hc1, Hc2. intros b Hb. naive_solver.
Qed.

(** ... in particular, one that keeps the set of the keys it has seen. *)
Lemma foldM_unique {E A K} `{Countable K} (f : gset K → A → result E (gset K)) (P : A → Prop) (key : A → K) seen l :
  (∀ seen a seen', f seen a = Ok seen' ↔ P a ∧ key a ∉ seen ∧ seen' = {[key a]} ∪ seen) →
  (∃ seen', foldM f seen l = Ok seen') ↔
  Forall P l ∧ NoDup (key <$> l) ∧ ∀ a, a ∈ l → key a ∉ seen.
Proof.
  intros Hok. rewrite (foldM_fresh f P (λ s a, key a ∉ s) (λ a b, key a = key b)).
  - rewrite NoDup_fmap_pairs, (Forall_forall (λ a, key a ∉ seen)). tauto.
  - intros s a. split; [intros (s' & (? & ? & _)%Hok); done|]. intros [? ?]. eexists. by apply Hok.
  - intros s a s' b (_ & _ & ->)%Hok. set_solver.
Qed.

Lemma elem_of_indexed {A} (l : list A) i a : (i, a) ∈ indexed l ↔ l !! i = Some a.
Proof.
  unfold indexed. rewrite list_elem_of_lookup. split.
  - intros [j Hj]. rewrite list_lookup_imap in Hj.
    destruct (l !! j) eqn:E; cbn in *; by simplify_eq.
  - intros H. exists i. by rewrite list_lookup_imap, H.
Qed.

Lemma Forall_indexed {A} (P : A → Prop) (l : list A) :
  Forall (λ ia, P ia.2) (indexed l) ↔ Forall P l.
Proof.
  rewrite !Forall_forall. split.
  - intros H a [i Hi]%list_elem_of_lookup. apply (H (i, a)), elem_of_indexed, Hi.
  - intros H [i a] Hia%elem_of_indexed. apply H, list_elem_of_lookup. eauto.
Qed.

Lemma fmap_indexed {A B} (f : A → B) (l : list A) : (λ ia, f ia.2) <$> indexed l = f <$> l.
Proof.
  unfold indexed. rewrite fmap_imap. cbn.
  apply list_eq. intros i. rewrite list_lookup_imap, list_lookup_fmap. done.
Qed.

Lemma indexed_snd {A} (l : list A) : (indexed l).*2 = l.
Proof. unfold indexed. rewrite fmap_imap. rewrite <- (list_fmap_id l) at 2. apply imap_const. Qed.

#[export] Hint Rewrite @bind_ok @fail_if_ok @map_err_ok @forallM_ok : go.

(** ** Effects

    A method that changes the object it is called on, or calls out, is a function
    from the state to its result and the state it leaves: an error does not undo
    what was done before it. *)
Definition stateE (S E A : Type) : Type := S → result E A * S.

#[global] Instance stateE_ret {S E} : MRet (stateE S E) := λ A a s, (Ok a, s).
#[global] Instance stateE_bind {S E} : MBind (stateE S E) := λ A B f m s,
  match m s with
  | (Ok a, s') => f a s'
  | (Err e, s') => (Err e, s')
  end.

#[global] Instance stateE_fmap {S E} : FMap (stateE S E) := λ A B f m s,
  match m s with
  | (Ok a, s') => (Ok (f a), s')
  | (Err e, s') => (Err e, s')
  end.

Definition throw {S E A} (e : E) : stateE S E A := λ s, (Err e, s).
Definition liftE {S E A} (r : result E A) : stateE S E A := λ s, (r, s).
(** [fmt.Errorf("context: %w", err)] around a call with effects. *)
Definition wrapE {S E E' A} (f : E → E') (m : stateE S E A) : stateE S E' A :=
  λ s, let '(r, s') := m s in (map_err f r, s').

Lemma stateE_bind_inv {S E A B} (m : stateE S E A) (f : A → stateE S E B) s r s' :
  (m ≫= f) s = (r, s') →
  (∃ a s1, m s = (Ok a, s1) ∧ f a s1 = (r, s')) ∨ (∃ e, m s = (Err e, s') ∧ r = Err e).
Proof.
  unfold mbind, stateE_bind. destruct (m s) as [[a|e] s1]; [eauto|].
  intros [= <- <-]. eauto.
Qed.

Lemma wrapE_inv {S E E' A} (f : E → E') (m : stateE S E A) s r s' :
  wrapE f m s = (r, s') → ∃ r0, m s = (r0, s') ∧ r = map_err f r0.
Proof. unfold wrapE. destruct (m s) as [r0 s0]. intros [= <- <-]. eauto. Qed.

(** ** [range] over a map

    Go leaves the iteration order of a map open.  Every function that ranges
    over a map takes it from this class, and every theorem holds for all of its
    instances; [map_order_sorted] is the concrete one that witnesses use. *)
Class MapOrder := {
  map_range {A} : gmap string A → list (string * A);
  map_range_perm {A} (m : gmap string A) : map_range m ≡ₚ map_to_list m;
}.

Definition map_order_sorted : MapOrder :=
  {| map_range := λ A m, map_to_list m; map_range_perm := λ A m, reflexivity _ |}.

(** The opposite order, for the places where the order shows. *)
Program Definition map_order_reversed : MapOrder :=
  {| map_range := λ A m, reverse (map_to_list m) |}.
Next Obligation. intros. apply reverse_Permutation. Qed.

Lemma elem_of_map_range `{MapOrder} {A} (m : gmap string A) k v :
  (k, v) ∈ map_range m ↔ m !! k = Some v.
Proof. rewrite map_range_perm. apply elem_of_map_to_list. Qed.

Lemma NoDup_map_range `{MapOrder} {A} (m : gmap string A) : NoDup (map_range m).*1.
Proof. rewrite map_range_perm. apply NoDup_fst_map_to_list. Qed.

Lemma length_map_range `{MapOrder} {A} (m : gmap string A) :
  length (map_range m) = size m.
Proof. rewrite map_range_perm. apply length_map_to_list. Qed.

(** ** Loops over lists *)

(** The invariant rule of a [foldl] loop. *)
Lemma foldl_ind {S A} (f : S → A → S) (P : list A → S → Prop) s l :
  P [] s →
  (∀ done a s1, P done s1 → a ∈ l → P (done ++ [a]) (f s1 a)) →
  P l (foldl f s l).
Proof.
  intros H0 Hstep. induction l as [|a l IH] using rev_ind; [done|].
  rewrite foldl_app. cbn. apply Hstep; [|set_solver].
  apply IH. intros. apply Hstep; set_solver.
Qed.

(** A loop that appends [h a] to one of its slices for the elements that pass a
    test. *)
Lemma foldl_collects {S A B} (step : S → A → S) (proj : S → list B) (p : A → bool) (h : A → B) s l :
  (∀ s a, proj (step s a) = proj s ++ (if p a then [h a] else [])) →
  proj (foldl step s l) = proj s ++ (h <$> filter (λ a, p a = true) l).
Proof.
  intros Hstep. revert s. induction l as [|a l IH]; intros s; [by rewrite app_nil_r|].
  cbn [foldl]. rewrite IH, Hstep, filter_cons. destruct (p a).
  - rewrite decide_True by done. cbn. by rewrite <- app_assoc.
  - rewrite decide_False by done. by rewrite app_nil_r.
Qed.

(** [len(l) > 0]. *)
Definition nonempty {A} (l : list A) : bool := match l with [] => false | _ => true end.

Lemma nonempty_true {A} (l : list A) : nonempty l = true ↔ l ≠ [].
Proof. by destruct l. Qed.

Lemma nonempty_app {A} (l1 l2 : list A) : nonempty (l1 ++ l2) = nonempty l1 || nonempty l2.
Proof. by destruct l1, l2. Qed.

(** [total += f(x)] over a list. *)
Fixpoint sumZ {A} (f : A → Z) (l : list A) : Z :=
  match l with
  | [] => 0
  | a :: l' => f a + sumZ f l'
  end.

Lemma sumZ_app {A} (f : A → Z) l1 l2 : sumZ f (l1 ++ l2) = sumZ f l1 + sumZ f l2.
Proof. induction l1 as [|a l1 IH]; cbn; [done|lia]. Qed.

Lemma sumZ_nonneg {A} (f : A → Z) l : (∀ a, a ∈ l → 0 ≤ f a) → 0 ≤ sumZ f l.
Proof.
  induction l as [|a l IH]; cbn; [done|]. intros H.
  assert (0 ≤ f a) by (apply H; set_solver).
  assert (0 ≤ sumZ f l) by (apply IH; set_solver). lia.
Qed.

(** The code's "append what is not there yet" loops, over the comparison the
    particular loop makes. *)
Definition append_unique_by {A} (same : A → A → bool) (values candidates : list A) : list A :=
  foldl (λ vs c, if existsb (λ v, same v c) vs then vs else vs ++ [c]) values candidates.

Lemma existsb_elem {A} (p : A → bool) (l : list A) :
  existsb p l = true ↔ ∃ x, x ∈ l ∧ p x = true.
Proof.
  rewrite existsb_exists. split; intros (x & Hx & ?); exists x; split; try done;
    by apply list_elem_of_In.
Qed.

Lemma existsb_none {A} (p : A → bool) (l : list A) :
  existsb p l = false ↔ ∀ x, x ∈ l → p x = false.
Proof.
  destruct (existsb p l) eqn:E.
  - apply existsb_elem in E as (x & Hx & Hp). split; [done|].
    intros H. specialize (H x Hx). congruence.
  - split; [|done]. intros _ x Hx. destruct (p x) eqn:Ep; [|done].
    assert (existsb p l = true) by (apply existsb_elem; eauto). congruence.
Qed.

Lemma forallb_elem {A} (p : A → bool) (l : list A) :
  forallb p l = true ↔ ∀ x, x ∈ l → p x = true.
Proof.
  rewrite forallb_forall. split; intros H x Hx; by apply H, list_elem_of_In.
Qed.

Lemma fmap_filter_nonempty {A B} (h : A → B) (p : A → bool) (l : list A) :
  h <$> filter (λ a, p a = true) l ≠ [] ↔ existsb p l = true.
Proof.
  induction l as [|a l IH]; [done|]. rewrite filter_cons. cbn.
  destruct (p a); [by rewrite decide_True by done|].
  rewrite decide_False by done. apply IH.
Qed.

Section append_unique.
Context {A : Type} (same : A → A → bool).

Lemma append_unique_cons vs c cs :
  append_unique_by same vs (c :: cs) =
  append_unique_by same (if existsb (λ v, same v c) vs then vs else vs ++ [c]) cs.
Proof. done. Qed.

(** What was there stays, in place. *)
Lemma append_unique_prefix vs cs : vs `prefix_of` append_unique_by same vs cs.
Proof.
  revert vs. induction cs as [|c cs IH]; intros vs; [done|].
  rewrite append_unique_cons. etrans; [|apply IH].
  destruct (existsb _ _); [done|by apply prefix_app_r].
Qed.

Lemma append_unique_sub vs cs x :
  x ∈ append_unique_by same vs cs → x ∈ vs ∨ x ∈ cs.
Proof.
  revert vs. induction cs as [|c cs IH]; intros vs; [by left|].
  rewrite append_unique_cons. intros [H|H]%IH; [|set_solver].
  destruct (existsb _ _); set_solver.
Qed.

(** Every candidate is represented. *)
Lemma append_unique_covers vs cs c :
  (∀ x, same x x = true) →
  c ∈ vs ++ cs → ∃ x, x ∈ append_unique_by same vs cs ∧ same x c = true.
Proof.
  intros Hrefl. revert vs. induction cs as [|c0 cs IH]; intros vs Hc.
  { rewrite app_nil_r in Hc. eauto. }
  rewrite append_unique_cons.
  destruct (existsb _ _) eqn:E.
  - apply elem_of_app in Hc as [Hc|[->|Hc]%elem_of_cons].
    + apply IH. set_solver.
    + apply existsb_elem in E as (x & Hx & Hs). exists x. split; [|done].
      destruct (append_unique_prefix vs cs) as [k ->]. set_solver.
    + apply IH. set_solver.
  - apply IH. set_solver.
Qed.

(** No two entries have the same key, when the comparison is by key. *)
Lemma append_unique_NoDup {K} (key : A → K) vs cs :
  (∀ x y, same x y = true ↔ key x = key y) →
  NoDup (key <$> vs) → NoDup (key <$> append_unique_by same vs cs).
Proof.
  intros Hkey. revert vs. induction cs as [|c cs IH]; intros vs Hnd; [done|].
  rewrite append_unique_cons. apply IH. destruct (existsb _ _) eqn:E; [done|].
  rewrite existsb_none in E. rewrite fmap_app. apply NoDup_app.
  split_and!; [done| |apply NoDup_singleton].
  intros k (x & -> & Hx)%list_elem_of_fmap Hc%list_elem_of_singleton.
  specialize (E x Hx). apply Hkey in Hc. congruence.
Qed.
End append_unique.

(** ** Tactics *)

(** Split every test of a definition the goal or the context still has. *)
Ltac split_tests :=
  repeat (first [case_decide | case_match | case_bool_decide]; simplify_eq/=).

(** Turn the boolean tests of the code into propositions. *)
Ltac bool_props :=
  repeat match goal with
  | H : _ && _ = true |- _ => apply andb_true_iff in H as [? ?]
  | H : _ || _ = false |- _ => apply orb_false_iff in H as [? ?]
  | H : _ && _ = false |- _ => apply andb_false_iff in H
  | H : _ || _ = true |- _ => apply orb_true_iff in H
  | H : negb _ = true |- _ => apply negb_true_iff in H
  | H : negb _ = false |- _ => apply negb_false_iff in H
  | H : bool_decide _ = true |- _ => apply bool_decide_eq_true_1 in H
  | H : bool_decide _ = false |- _ => apply bool_decide_eq_false_1 in H
  | H : (_ <? _) = true |- _ => apply Z.ltb_lt in H
  | H : (_ <? _) = false |- _ => apply Z.ltb_ge in H
  | H : (_ <=? _) = true |- _ => apply Z.leb_le in H
  | H : (_ <=? _) = false |- _ => apply Z.leb_gt in H
  end.

(** Invert a successful run of a sequence of fallible calls. *)
Ltac ok_inv H :=
  repeat match type of H with
  | _ ≫= _ = Ok _ => let a := fresh "r" in let H1 := fresh "Hok" in
      apply bind_ok in H as (a & H1 & H)
  | Err _ = Ok _ => discriminate H
  | Ok _ = Ok _ => injection H as H
  end.
