(* ===== verification/GoStrings.v ===== *)
(** The part of Go's [strings], [unicode] and [strconv] packages the sources
    call, on byte strings.  Case mapping and white space are those of ASCII:
    the functions agree with Go on ASCII input, and leave other bytes alone. *)
From Stdlib Require Export Ascii.
From stdpp Require Import base list strings pretty.
From S2P Require Import Prelude.

Local Open Scope string_scope.
Local Open Scope list_scope.
Local Open Scope Z_scope.
#[local] Arguments String.append _ _ : simpl nomatch.

(** ** Bytes *)
Definition byte_val (a : ascii) : Z := Z.of_nat (nat_of_ascii a).

Definition in_range (lo hi a : ascii) : bool :=
  (byte_val lo <=? byte_val a) && (byte_val a <=? byte_val hi).

Definition lower_byte (a : ascii) : ascii :=
  if in_range "A" "Z" a then ascii_of_nat (nat_of_ascii a + 32) else a.
Definition upper_byte (a : ascii) : ascii :=
  if in_range "a" "z" a then ascii_of_nat (nat_of_ascii a - 32) else a.

(** [unicode.IsSpace]: tab, newline, vertical tab, form feed, return, space. *)
Definition IsSpace (a : ascii) : bool :=
  (in_range "009" "013" a) || (byte_val a =? 32).

(** ** Functions that work byte by byte *)
Fixpoint map_bytes (f : ascii → ascii) (s : string) : string :=
  match s with
  | EmptyString => EmptyString
  | String a s' => String (f a) (map_bytes f s')
  end.

Definition ToLower : string → string := map_bytes lower_byte.
Definition ToUpper : string → string := map_bytes upper_byte.
Definition EqualFold (s t : string) : bool := bool_decide (ToLower s = ToLower t).

Fixpoint any_byte (p : ascii → bool) (s : string) : bool :=
  match s with
  | EmptyString => false
  | String a s' => p a || any_byte p s'
  end.

Definition all_bytes (p : ascii → bool) (s : string) : bool :=
  negb (any_byte (λ a, negb (p a)) s).

Fixpoint TrimLeftFunc (p : ascii → bool) (s : string) : string :=
  match s with
  | EmptyString => EmptyString
  | String a s' => if p a then TrimLeftFunc p s' else s
  end.

Fixpoint TrimRightFunc (p : ascii → bool) (s : string) : string :=
  match s with
  | EmptyString => EmptyString
  | String a s' =>
      match TrimRightFunc p s' with
      | EmptyString => if p a then EmptyString else String a EmptyString
      | r => String a r
      end
  end.

Definition TrimFunc (p : ascii → bool) (s : string) : string :=
  TrimRightFunc p (TrimLeftFunc p s).

Definition TrimSpace : string → string := TrimFunc IsSpace.

(** [strings.Trim(s, "c")] and [strings.TrimRight(s, "c")] for a one-byte set. *)
Definition is_byte (c a : ascii) : bool := bool_decide (a = c).
Definition Trim (s : string) (c : ascii) : string := TrimFunc (is_byte c) s.
Definition TrimRight (s : string) (c : ascii) : string := TrimRightFunc (is_byte c) s.

(** ** Prefixes, suffixes, substrings *)

(** [strip_prefix p s] is what follows [p] in [s]. *)
Fixpoint strip_prefix (p s : string) : option string :=
  match p, s with
  | EmptyString, _ => Some s
  | String a p', String b s' => if decide (a = b) then strip_prefix p' s' else None
  | String _ _, EmptyString => None
  end.

Definition HasPrefix (s p : string) : bool :=
  match strip_prefix p s with Some _ => true | None => false end.

Definition TrimPrefix (s p : string) : string := default s (strip_prefix p s).

Fixpoint HasSuffix (s p : string) : bool :=
  bool_decide (s = p) ||
  match s with EmptyString => false | String _ s' => HasSuffix s' p end.

(** [s] without its last [length p] bytes when it ends in [p]. *)
Fixpoint strip_suffix (p s : string) : option string :=
  if decide (s = p) then Some EmptyString
  else match s with
       | EmptyString => None
       | String a s' => String a <$> strip_suffix p s'
       end.

Definition TrimSuffix (s p : string) : string := default s (strip_suffix p s).

Fixpoint Contains (s sub : string) : bool :=
  HasPrefix s sub ||
  match s with EmptyString => false | String _ s' => Contains s' sub end.

(** ** Splitting and joining, for one-byte separators *)
Fixpoint Split (sep : ascii) (s : string) : list string :=
  match s with
  | EmptyString => [EmptyString]
  | String a s' =>
      if decide (a = sep) then EmptyString :: Split sep s'
      else match Split sep s' with
           | h :: t => String a h :: t
           | [] => [String a EmptyString]
           end
  end.

Fixpoint Join (sep : string) (l : list string) : string :=
  match l with
  | [] => EmptyString
  | [s] => s
  | s :: l' => s +:+ sep +:+ Join sep l'
  end.

(** [strings.Cut]: around the first separator. *)
Fixpoint Cut (sep : ascii) (s : string) : option (string * string) :=
  match s with
  | EmptyString => None
  | String a s' =>
      if decide (a = sep) then Some (EmptyString, s')
      else (λ '(b, t), (String a b, t)) <$> Cut sep s'
  end.

Fixpoint split_spaces (s : string) : list string :=
  match s with
  | EmptyString => [EmptyString]
  | String a s' =>
      if IsSpace a then EmptyString :: split_spaces s'
      else match split_spaces s' with
           | h :: t => String a h :: t
           | [] => [String a EmptyString]
           end
  end.

(** [strings.Fields]. *)
Definition Fields (s : string) : list string :=
  filter (λ w, w ≠ EmptyString) (split_spaces s).

(** [strings.ReplaceAll] of one byte by another. *)
Definition ReplaceByte (from to : ascii) : string → string :=
  map_bytes (λ a, if decide (a = from) then to else a).

(** [fmt]'s [%d] and [%s] of a string list. *)
Definition itoa (z : Z) : string := pretty z.

(** [strconv.Atoi]: a decimal number with an optional sign, within 64 bits. *)
Fixpoint parse_digits (acc : Z) (s : string) : option Z :=
  match s with
  | EmptyString => Some acc
  | String a s' => if in_range "0" "9" a then parse_digits (10 * acc + (byte_val a - 48)) s' else None
  end.

Definition Atoi (s : string) : option Z :=
  let '(sign, digits) :=
    match s with
    | String "-" s' => (-1, s')
    | String "+" s' => (1, s')
    | _ => (1, s)
    end in
  if decide (digits = "") then None
  else
    n ← parse_digits 0 digits;
    let z := sign * n in
    if (- 2 ^ 63 <=? z) && (z <? 2 ^ 63) then Some z else None.

(** [fmt]'s [%q] of a string. *)
Definition hex_of (n : Z) : ascii := default "0"%char (String.get (Z.to_nat n) "0123456789abcdef").

Definition quote_byte (a : ascii) : string :=
  let n := byte_val a in
  if n =? 34 then String "\" (String "034" "")
  else if n =? 92 then String "\" (String "\" "")
  else if n =? 7 then "\a" else if n =? 8 then "\b" else if n =? 9 then "\t" else if n =? 10 then "\n"
  else if n =? 11 then "\v" else if n =? 12 then "\f" else if n =? 13 then "\r"
  else if (n <? 32) || (n =? 127) then "\x" +:+ String (hex_of (n / 16)) (String (hex_of (n mod 16)) "")
  else String a "".

Fixpoint quote_bytes (s : string) : string :=
  match s with EmptyString => "" | String a s' => quote_byte a +:+ quote_bytes s' end.
Definition Quote (s : string) : string := String "034" (quote_bytes s +:+ String "034" "").

(** [fmt.Fprintln(w, s)] and the concatenation a [strings.Builder] performs. *)
Definition newline : string := String "010" EmptyString.
Definition line (s : string) : string := s +:+ newline.
Definition concat_all (l : list string) : string := foldr String.append EmptyString l.

(** [containsAny] loops of several packages: the first candidate that matches
    decides. *)
Definition contains_any (s : string) (candidates : list string) : bool :=
  existsb (Contains s) candidates.

(** ** Specifications *)

Lemma app_nil_r_string s : s +:+ "" = s.
Proof. induction s as [|a s IH]; cbn; [done|by rewrite IH]. Qed.

Lemma app_assoc_string s t u : (s +:+ t) +:+ u = s +:+ t +:+ u.
Proof. induction s as [|a s IH]; cbn; [done|by rewrite IH]. Qed.

(** A property of every byte, by running it on all 256. *)
Ltac every_byte a := destruct a as [[] [] [] [] [] [] [] []].

Lemma lower_byte_idem a : lower_byte (lower_byte a) = lower_byte a.
Proof. every_byte a; reflexivity. Qed.

Lemma IsSpace_lower a : IsSpace (lower_byte a) = IsSpace a.
Proof. every_byte a; reflexivity. Qed.

Lemma map_bytes_idem f s : (∀ a, f (f a) = f a) → map_bytes f (map_bytes f s) = map_bytes f s.
Proof. intros Hf. induction s as [|a s IH]; cbn; [done|by rewrite Hf, IH]. Qed.

Lemma map_bytes_app f s t : map_bytes f (s +:+ t) = map_bytes f s +:+ map_bytes f t.
Proof. induction s as [|a s IH]; cbn; [done|by rewrite IH]. Qed.

Lemma ToLower_idem s : ToLower (ToLower s) = ToLower s.
Proof. apply map_bytes_idem, lower_byte_idem. Qed.

Lemma EqualFold_iff s t : EqualFold s t = true ↔ ToLower s = ToLower t.
Proof. apply bool_decide_eq_true. Qed.

Lemma EqualFold_refl s : EqualFold s s = true.
Proof. by apply EqualFold_iff. Qed.

Lemma EqualFold_sym s t : EqualFold s t = EqualFold t s.
Proof. apply bool_decide_ext. naive_solver. Qed.

#[export] Instance EqualFold_equiv : Equivalence (λ s t, EqualFold s t = true).
Proof.
  split.
  - intros s. apply EqualFold_refl.
  - intros s t. by rewrite EqualFold_sym.
  - intros s t u. rewrite !EqualFold_iff. congruence.
Qed.

Lemma strip_prefix_Some p s r : strip_prefix p s = Some r ↔ s = p +:+ r.
Proof.
  revert s. induction p as [|a p IH]; intros [|b s]; cbn; [naive_solver..|].
  case_decide; [rewrite IH|]; naive_solver.
Qed.

Lemma strip_prefix_app p s : strip_prefix p (p +:+ s) = Some s.
Proof. by apply strip_prefix_Some. Qed.

Lemma HasPrefix_spec s p : HasPrefix s p = true ↔ ∃ r, s = p +:+ r.
Proof.
  unfold HasPrefix. setoid_rewrite <- strip_prefix_Some.
  destruct (strip_prefix p s); naive_solver.
Qed.

Lemma HasPrefix_app p s : HasPrefix (p +:+ s) p = true.
Proof. apply HasPrefix_spec. eauto. Qed.

(** A string has one first byte. *)
Lemma HasPrefix_other s a p b q :
  HasPrefix s (String a p) = true → a ≠ b → HasPrefix s (String b q) = false.
Proof.
  unfold HasPrefix. destruct s as [|c s]; cbn; [done|].
  repeat case_decide; naive_solver.
Qed.

Lemma TrimPrefix_app p s : TrimPrefix (p +:+ s) p = s.
Proof. unfold TrimPrefix. by rewrite strip_prefix_app. Qed.

Lemma TrimPrefix_none p s : HasPrefix s p = false → TrimPrefix s p = s.
Proof. unfold TrimPrefix, HasPrefix. by destruct (strip_prefix p s). Qed.

Lemma HasSuffix_spec s p : HasSuffix s p = true ↔ ∃ r, s = r +:+ p.
Proof.
  induction s as [|a s IH]; cbn; rewrite orb_true_iff, bool_decide_eq_true.
  - split; [intros [<-|]; [by exists ""|done]|]. intros [[] Hr]; cbn in *; naive_solver.
  - rewrite IH. split.
    + intros [<-|[r ->]]; [by exists ""|by exists (String a r)].
    + intros [[|b r] Hr]; cbn in *; simplify_eq; eauto.
Qed.

Lemma Contains_spec s sub : Contains s sub = true ↔ ∃ l r, s = l +:+ sub +:+ r.
Proof.
  induction s as [|a s IH]; cbn; rewrite orb_true_iff, HasPrefix_spec.
  - split; [intros [[r Hr]|]; [by exists "", r|done]|].
    intros ([|] & r & Hr); cbn in *; naive_solver.
  - rewrite IH. split.
    + intros [[r ->]|(l & r & ->)]; [by exists "", r|by exists (String a l), r].
    + intros ([|b l] & r & Hr); cbn in *; simplify_eq; eauto.
Qed.

Lemma Contains_app_l s t sub : Contains s sub = true → Contains (s +:+ t) sub = true.
Proof.
  rewrite !Contains_spec. intros (l & r & ->). exists l, (r +:+ t).
  by rewrite !app_assoc_string.
Qed.

Lemma Contains_app_r s t sub : Contains t sub = true → Contains (s +:+ t) sub = true.
Proof.
  rewrite !Contains_spec. intros (l & r & ->). exists (s +:+ l), r.
  by rewrite !app_assoc_string.
Qed.

Lemma Split_cons sep s : ∃ h t, Split sep s = h :: t.
Proof. destruct s as [|a s]; cbn; [eauto|]. case_decide; [eauto|]. destruct (Split sep s); eauto. Qed.

(** A prefix without separators stays on the first piece. *)
Lemma Split_app_l sep p s :
  any_byte (is_byte sep) p = false →
  ∃ h t, Split sep s = h :: t ∧ Split sep (p +:+ s) = (p +:+ h) :: t.
Proof.
  destruct (Split_cons sep s) as (h & t & E). intros Hp. exists h, t. split; [done|].
  induction p as [|a p IH]; [done|]. cbn in *. apply orb_false_iff in Hp as [Ha Hp].
  apply bool_decide_eq_false in Ha. rewrite decide_False by done. by rewrite IH.
Qed.

(** Splitting loses nothing: joining with the separator gives the string back. *)
Lemma Join_Split sep s : Join (String sep "") (Split sep s) = s.
Proof.
  induction s as [|a s IH]; [done|]. cbn.
  destruct (Split_cons sep s) as (h & t & E). rewrite E in *.
  case_decide as Ha; [rewrite Ha|]; destruct t; cbn in *; by rewrite IH.
Qed.

Lemma Join_app sep l1 l2 :
  l1 ≠ [] → l2 ≠ [] → Join sep (l1 ++ l2) = Join sep l1 +:+ sep +:+ Join sep l2.
Proof.
  intros H1 H2. induction l1 as [|s [|s' l1] IH]; [done| |].
  - destruct l2; [done|]. done.
  - transitivity (s +:+ sep +:+ Join sep ((s' :: l1) ++ l2)); [done|].
    rewrite IH by done. transitivity ((s +:+ sep +:+ Join sep (s' :: l1)) +:+ sep +:+ Join sep l2); [|done].
    by rewrite !app_assoc_string.
Qed.

Lemma Split_no_sep sep s w : w ∈ Split sep s → any_byte (is_byte sep) w = false.
Proof.
  revert w. induction s as [|a s IH]; intros w; cbn; [by intros ->%list_elem_of_singleton|].
  destruct (Split_cons sep s) as (h & t & E). rewrite E in *.
  case_decide; intros [->|Hw]%elem_of_cons; [done|by apply IH| |apply IH; set_solver].
  cbn. rewrite (IH h) by set_solver. unfold is_byte. by rewrite bool_decide_eq_false_2.
Qed.

Lemma TrimRight_cons_ne p a s :
  TrimRightFunc p s ≠ "" → TrimRightFunc p (String a s) = String a (TrimRightFunc p s).
Proof. cbn. by destruct (TrimRightFunc p s). Qed.

Lemma TrimRight_idem p s : TrimRightFunc p (TrimRightFunc p s) = TrimRightFunc p s.
Proof.
  induction s as [|a s IH]; [done|]. cbn.
  destruct (TrimRightFunc p s) as [|b r] eqn:E.
  - destruct (p a) eqn:Ep; cbn; [done|]. by rewrite Ep.
  - rewrite TrimRight_cons_ne; by rewrite IH.
Qed.

Lemma TrimLeft_idem p s : TrimLeftFunc p (TrimLeftFunc p s) = TrimLeftFunc p s.
Proof. induction s as [|a s IH]; cbn; [done|]. destruct (p a) eqn:E; [done|]. cbn. by rewrite E. Qed.

Lemma TrimLeft_TrimRight p s :
  TrimLeftFunc p s = s → TrimLeftFunc p (TrimRightFunc p s) = TrimRightFunc p s.
Proof.
  destruct s as [|a s]; [done|]. cbn. destruct (p a) eqn:E.
  - intros H. exfalso. assert (Hl : ∀ t, (String.length (TrimLeftFunc p t) ≤ String.length t)%nat).
    { induction t as [|b t IHt]; cbn; [done|]. destruct (p b); cbn; lia. }
    specialize (Hl s). rewrite H in Hl. cbn in Hl. lia.
  - intros _. destruct (TrimRightFunc p s); cbn; by rewrite E.
Qed.

Lemma TrimFunc_idem p s : TrimFunc p (TrimFunc p s) = TrimFunc p s.
Proof.
  unfold TrimFunc. rewrite TrimLeft_TrimRight by apply TrimLeft_idem.
  apply TrimRight_idem.
Qed.

Lemma TrimSpace_idem s : TrimSpace (TrimSpace s) = TrimSpace s.
Proof. apply TrimFunc_idem. Qed.

Lemma TrimSpace_cons_ne a s : IsSpace a = false → TrimSpace (String a s) ≠ "".
Proof.
  intros H. unfold TrimSpace, TrimFunc. cbn. rewrite H. cbn.
  destruct (TrimRightFunc IsSpace s); by rewrite ?H.
Qed.

Lemma TrimRight_lower s : TrimRightFunc IsSpace (ToLower s) = ToLower (TrimRightFunc IsSpace s).
Proof.
  unfold ToLower. induction s as [|a s IH]; cbn; [done|]. rewrite IH, IsSpace_lower.
  destruct (TrimRightFunc IsSpace s); cbn; [by destruct (IsSpace a)|done].
Qed.

Lemma TrimSpace_lower s : TrimSpace (ToLower s) = ToLower (TrimSpace s).
Proof.
  unfold TrimSpace, TrimFunc. rewrite <- TrimRight_lower. f_equal.
  unfold ToLower. induction s as [|a s IH]; cbn; [done|]. rewrite IsSpace_lower.
  destruct (IsSpace a); [done|]. done.
Qed.

Lemma Cut_Some sep s b t : Cut sep s = Some (b, t) → s = b +:+ String sep t.
Proof.
  revert b. induction s as [|a s IH]; intros b; cbn; [done|].
  case_decide; [by intros [= <- <-]; subst|].
  destruct (Cut sep s) as [[b' t']|]; cbn; [|done]. intros [= <- <-].
  cbn. by rewrite (IH b' eq_refl).
Qed.

Lemma any_byte_app p s t : any_byte p (s +:+ t) = any_byte p s || any_byte p t.
Proof. induction s as [|a s IH]; cbn; [done|]. by rewrite IH, orb_assoc. Qed.

Lemma TrimLeft_none p s t : any_byte p s = false → s ≠ "" → TrimLeftFunc p (s +:+ t) = s +:+ t.
Proof. destruct s as [|a s]; [done|]. cbn. intros [-> _]%orb_false_iff _. done. Qed.

(** A trimmed string does not end with a trimmed byte. *)
Lemma TrimRight_snoc p s c : p c = true → TrimRightFunc p (s +:+ String c "") = TrimRightFunc p s.
Proof. intros Hc. induction s as [|a s IH]; cbn; [by rewrite Hc|]. by rewrite IH. Qed.

Lemma TrimRight_length p s : (String.length (TrimRightFunc p s) ≤ String.length s)%nat.
Proof.
  induction s as [|a s IH]; cbn; [done|].
  destruct (TrimRightFunc p s); cbn in *; [destruct (p a); cbn; lia|lia].
Qed.

Lemma TrimFunc_last p s x c : TrimFunc p s = x +:+ String c "" → p c = false.
Proof.
  intros Hs. destruct (p c) eqn:Hc; [|done]. exfalso.
  pose proof (TrimRight_idem p (TrimLeftFunc p s)) as Hidem. fold (TrimFunc p s) in Hidem. rewrite Hs in Hidem.
  rewrite TrimRight_snoc in Hidem by done. pose proof (TrimRight_length p x) as Hl. rewrite Hidem in Hl.
  clear -Hl. induction x as [|a x IH]; cbn in Hl; [lia|apply IH; lia].
Qed.

Lemma Split_piece sep p s :
  any_byte (is_byte sep) p = false → Split sep (p +:+ String sep s) = p :: Split sep s.
Proof.
  intros Hp. destruct (Split_app_l sep p (String sep s) Hp) as (h & t & Hs & ->).
  cbn in Hs. rewrite decide_True in Hs by done. injection Hs as <- <-. by rewrite app_nil_r_string.
Qed.

Lemma Split_whole sep p : any_byte (is_byte sep) p = false → Split sep p = [p].
Proof.
  intros Hp. destruct (Split_app_l sep p "" Hp) as (h & t & Hs & E). cbn in Hs. injection Hs as <- <-.
  by rewrite app_nil_r_string in E.
Qed.

(** A string with no such byte is its own trim, also behind others. *)
Lemma TrimRight_none p s t : any_byte p t = false → t ≠ "" → TrimRightFunc p (s +:+ t) = s +:+ t.
Proof.
  intros Ht Hne. assert (TrimRightFunc p t = t) as E.
  { clear Hne. induction t as [|a t IH]; [done|]. cbn in *. apply orb_false_iff in Ht as [Ha Ht].
    rewrite (IH Ht), Ha. by destruct t. }
  assert (s +:+ t ≠ "") as Hst by (by destruct s).
  clear Hst. induction s as [|a s IH]; [done|]. cbn. rewrite IH. by destruct s, t.
Qed.

Lemma TrimSpace_none s : any_byte IsSpace s = false → TrimSpace s = s.
Proof.
  intros H. destruct s as [|a s]; [done|]. unfold TrimSpace, TrimFunc.
  cbn in H |- *. apply orb_false_iff in H as [Ha H]. rewrite Ha.
  apply (TrimRight_none _ ""); [|done]. cbn. by rewrite Ha, H.
Qed.

#[export] Hint Rewrite app_nil_r_string app_assoc_string ToLower_idem TrimSpace_idem
  strip_prefix_app HasPrefix_app TrimPrefix_app EqualFold_refl Join_Split : go.
#[export] Hint Resolve EqualFold_refl TrimSpace_idem ToLower_idem Contains_app_l Contains_app_r : go.
