(* ===== verification/Domain.v ===== *)
(** [internal/domain]: the data of the control plane.

    Go's named string types ([Severity], [MergeLane], ...) admit every string,
    and the code relies on it (the zero value [""], unknown values read from
    JSON): they are strings with the source's constants.  [int] and [int64] are
    [Z]; [float64] is the binary64 format of [SpecFloat]; a [time.Time] is the
    number of nanoseconds since the zero time, so [IsZero] is [= 0]. *)
From stdpp Require Import base list gmap strings.
From Stdlib Require Import Floats.SpecFloat.
From S2P Require Import Prelude.

Local Open Scope string_scope.
Local Open Scope list_scope.
Local Open Scope Z_scope.

Abbreviation Time := Z (only parsing).
Abbreviation float64 := spec_float (only parsing).

(** The double nearest to [num / den], which is what a decimal literal denotes. *)
Definition float_ratio (num den : Z) : float64 :=
  SFdiv 53 1024 (binary_normalize 53 1024 num 0 false) (binary_normalize 53 1024 den 0 false).
Definition float_gt (a b : float64) : bool := SFltb b a.
Definition float_ge (a b : float64) : bool := SFleb b a.

(** domain/actor.go *)
Abbreviation FileStatus := string (only parsing).
Definition FileAdded : FileStatus := "added".
Definition FileModified : FileStatus := "modified".
Definition FileRemoved : FileStatus := "removed".
Definition FileRenamed : FileStatus := "renamed".

(** domain/mutation.go *)
Abbreviation Severity := string (only parsing).
Definition SeverityLow : Severity := "low".
Definition SeverityMedium : Severity := "medium".
Definition SeverityHigh : Severity := "high".
Definition SeverityCritical : Severity := "critical".

(** domain/mutation.go *)
Abbreviation MutationKind := string (only parsing).
Definition MutationUnknown : MutationKind := "unknown_mutation".
Definition MutationAuthBehaviorChange : MutationKind := "auth_behavior_change".
Definition MutationDatabaseSchema : MutationKind := "database_schema_mutation".
Definition MutationRuntimeConfig : MutationKind := "runtime_config_mutation".
Definition MutationAPIContract : MutationKind := "api_contract_mutation".
Definition MutationDependency : MutationKind := "dependency_mutation".
Definition MutationInfrastructure : MutationKind := "infrastructure_mutation".
Definition MutationDataAccess : MutationKind := "data_access_mutation".
Definition MutationDeploymentWorkflow : MutationKind := "deployment_workflow_mutation".
Definition MutationObservabilityContract : MutationKind := "observability_contract_mutation".

(** domain/risk.go *)
Abbreviation RiskType := string (only parsing).
Definition RiskRuntime : RiskType := "runtime".
Definition RiskSecurity : RiskType := "security".
Definition RiskSchema : RiskType := "schema".
Definition RiskDependency : RiskType := "dependency".
Definition RiskRollout : RiskType := "rollout".
Definition RiskOwnership : RiskType := "ownership".
Definition RiskConflict : RiskType := "conflict".

(** domain/runtime.go *)
Abbreviation BlastRadius := string (only parsing).
Definition BlastRadiusUnknown : BlastRadius := "unknown".
Definition BlastRadiusIsolated : BlastRadius := "isolated".
Definition BlastRadiusLocalized : BlastRadius := "localized".
Definition BlastRadiusSystemic : BlastRadius := "systemic".

(** domain/runtime.go *)
Abbreviation Criticality := string (only parsing).
Definition CriticalityLow : Criticality := "low".
Definition CriticalityNormal : Criticality := "normal".
Definition CriticalityHigh : Criticality := "high".
Definition CriticalityTier0 : Criticality := "tier0".

(** domain/runtime.go *)
Abbreviation SystemKind := string (only parsing).
Definition SystemService : SystemKind := "service".
Definition SystemAPI : SystemKind := "api".
Definition SystemDatabase : SystemKind := "database".
Definition SystemQueue : SystemKind := "queue".
Definition SystemInfra : SystemKind := "infra".

(** domain/conflict.go *)
Abbreviation ConflictRoute := string (only parsing).
Definition ConflictRouteNone : ConflictRoute := "none".
Definition ConflictRouteRefreshAndVerify : ConflictRoute := "refresh_and_verify".
Definition ConflictRouteHumanResolution : ConflictRoute := "human_resolution".

(** domain/decision.go *)
Abbreviation EvidenceType := string (only parsing).
Definition EvidenceUnitTests : EvidenceType := "unit_tests".
Definition EvidenceIntegrationTests : EvidenceType := "integration_tests".
Definition EvidenceAuthTests : EvidenceType := "auth_integration_tests".
Definition EvidenceMigrationPlan : EvidenceType := "migration_plan".
Definition EvidenceRollbackPlan : EvidenceType := "rollback_plan".
Definition EvidenceSecurityReview : EvidenceType := "security_review".
Definition EvidenceRuntimeCanary : EvidenceType := "runtime_canary".
Definition EvidenceContractTests : EvidenceType := "contract_tests".

(** domain/decision.go *)
Abbreviation MergeLane := string (only parsing).
Definition MergeLaneGreen : MergeLane := "GREEN".
Definition MergeLaneYellow : MergeLane := "YELLOW".
Definition MergeLaneRed : MergeLane := "RED".
Definition MergeLaneBlack : MergeLane := "BLACK".

(** domain/decision.go *)
Abbreviation DecisionStatus := string (only parsing).
Definition DecisionPending : DecisionStatus := "pending".
Definition DecisionApproved : DecisionStatus := "approved".
Definition DecisionEscalated : DecisionStatus := "escalated".
Definition DecisionBlocked : DecisionStatus := "blocked".

(** domain/evidence.go *)
Abbreviation EvidenceStatus := string (only parsing).
Definition EvidencePending : EvidenceStatus := "pending".
Definition EvidenceRunning : EvidenceStatus := "running".
Definition EvidenceSatisfied : EvidenceStatus := "satisfied".
Definition EvidenceFailed : EvidenceStatus := "failed".
Definition EvidenceWaived : EvidenceStatus := "waived".

(** domain/evidence.go *)
Abbreviation DeploymentOutcomeKind := string (only parsing).
Definition DeploymentOutcomeSuccess : DeploymentOutcomeKind := "success".
Definition DeploymentOutcomeRollback : DeploymentOutcomeKind := "rollback".
Definition DeploymentOutcomeIncident : DeploymentOutcomeKind := "incident".

(** domain/review.go *)
Abbreviation DeploymentStrategy := string (only parsing).
Definition DeployDirect : DeploymentStrategy := "direct".
Definition DeployCanary : DeploymentStrategy := "canary".
Definition DeployPhased : DeploymentStrategy := "phased".
Definition DeployManualApproval : DeploymentStrategy := "manual_approval".

Record Author := mkAuthor {
  author_Login : string;
  author_DisplayName : string;
  author_Email : string;
  author_Type_ : string;
}.
#[export] Instance Author_eq_dec : EqDecision Author.
Proof. solve_decision. Defined.

Record ChangedFile := mkChangedFile {
  file_Path : string;
  file_PreviousPath : string;
  file_Language : string;
  file_Status : FileStatus;
  file_Additions : Z;
  file_Deletions : Z;
  file_Changes : Z;
  file_Patch : string;
}.
#[export] Instance ChangedFile_eq_dec : EqDecision ChangedFile.
Proof. solve_decision. Defined.

Record RepoRef := mkRepoRef {
  repo_Owner : string;
  repo_Name : string;
  repo_FullName : string;
  repo_DefaultBranch : string;
}.
#[export] Instance RepoRef_eq_dec : EqDecision RepoRef.
Proof. solve_decision. Defined.

Record PullRequestRef := mkPullRequestRef {
  pr_Number : Z;
  pr_URL : string;
  pr_HeadSHA : string;
  pr_BaseSHA : string;
}.
#[export] Instance PullRequestRef_eq_dec : EqDecision PullRequestRef.
Proof. solve_decision. Defined.

Record RiskSummary := mkRiskSummary {
  rs_Score : Z;
  rs_Severity : Severity;
  rs_Contributors : list RiskType;
}.
#[export] Instance RiskSummary_eq_dec : EqDecision RiskSummary.
Proof. solve_decision. Defined.

Record ConflictFinding := mkConflictFinding {
  cf_Kind : string;
  cf_Severity : Severity;
  cf_Summary : string;
  cf_Paths : list string;
}.
#[export] Instance ConflictFinding_eq_dec : EqDecision ConflictFinding.
Proof. solve_decision. Defined.

Record ConflictAssessment := mkConflictAssessment {
  ca_BaseSHA : string;
  ca_CurrentBaseSHA : string;
  ca_Route : ConflictRoute;
  ca_Score : Z;
  ca_RequiresHumanResolution : bool;
  ca_Findings : list ConflictFinding;
  ca_Mitigations : list string;
}.
#[export] Instance ConflictAssessment_eq_dec : EqDecision ConflictAssessment.
Proof. solve_decision. Defined.

Record GitHubCheckBinding := mkGitHubCheckBinding {
  ghc_Name : string;
  ghc_AppID : Z;
}.
#[export] Instance GitHubCheckBinding_eq_dec : EqDecision GitHubCheckBinding.
Proof. solve_decision. Defined.

Record EvidenceRequirement := mkEvidenceRequirement {
  er_Type_ : EvidenceType;
  er_Name : string;
  er_Required : bool;
  er_Reason : string;
  er_Producer : string;
  er_GitHubCheck : option GitHubCheckBinding;
}.
#[export] Instance EvidenceRequirement_eq_dec : EqDecision EvidenceRequirement.
Proof. solve_decision. Defined.
Definition er_with_GitHubCheck (v : option GitHubCheckBinding) (r : EvidenceRequirement) : EvidenceRequirement := {|
  er_Type_ := er_Type_ r;
  er_Name := er_Name r;
  er_Required := er_Required r;
  er_Reason := er_Reason r;
  er_Producer := er_Producer r;
  er_GitHubCheck := v
|}.

Record PolicyViolation := mkPolicyViolation {
  pv_Policy : string;
  pv_Reason : string;
  pv_Severity : Severity;
}.
#[export] Instance PolicyViolation_eq_dec : EqDecision PolicyViolation.
Proof. solve_decision. Defined.

Record PolicyDecision := mkPolicyDecision {
  pd_Status : DecisionStatus;
  pd_Summary : string;
  pd_Reasons : list string;
  pd_Violations : list PolicyViolation;
  pd_AppliedPolicies : list string;
  pd_MinimumLane : MergeLane;
  pd_DecidedAt : Time;
}.
#[export] Instance PolicyDecision_eq_dec : EqDecision PolicyDecision.
Proof. solve_decision. Defined.
Definition pd_with_Status (v : DecisionStatus) (r : PolicyDecision) : PolicyDecision := {|
  pd_Status := v;
  pd_Summary := pd_Summary r;
  pd_Reasons := pd_Reasons r;
  pd_Violations := pd_Violations r;
  pd_AppliedPolicies := pd_AppliedPolicies r;
  pd_MinimumLane := pd_MinimumLane r;
  pd_DecidedAt := pd_DecidedAt r
|}.
Definition pd_with_Summary (v : string) (r : PolicyDecision) : PolicyDecision := {|
  pd_Status := pd_Status r;
  pd_Summary := v;
  pd_Reasons := pd_Reasons r;
  pd_Violations := pd_Violations r;
  pd_AppliedPolicies := pd_AppliedPolicies r;
  pd_MinimumLane := pd_MinimumLane r;
  pd_DecidedAt := pd_DecidedAt r
|}.
Definition pd_with_DecidedAt (v : Time) (r : PolicyDecision) : PolicyDecision := {|
  pd_Status := pd_Status r;
  pd_Summary := pd_Summary r;
  pd_Reasons := pd_Reasons r;
  pd_Violations := pd_Violations r;
  pd_AppliedPolicies := pd_AppliedPolicies r;
  pd_MinimumLane := pd_MinimumLane r;
  pd_DecidedAt := v
|}.

Record EvidenceExecution := mkEvidenceExecution {
  ee_ChangePacketID : string;
  ee_Name : string;
  ee_Type_ : EvidenceType;
  ee_Status : EvidenceStatus;
  ee_Required : bool;
  ee_Summary : string;
  ee_DetailsURL : string;
  ee_UpdatedBy : string;
  ee_Metadata : gmap string string;
  ee_UpdatedAt : Time;
}.
#[export] Instance EvidenceExecution_eq_dec : EqDecision EvidenceExecution.
Proof. solve_decision. Defined.
Definition ee_with_UpdatedBy (v : string) (r : EvidenceExecution) : EvidenceExecution := {|
  ee_ChangePacketID := ee_ChangePacketID r;
  ee_Name := ee_Name r;
  ee_Type_ := ee_Type_ r;
  ee_Status := ee_Status r;
  ee_Required := ee_Required r;
  ee_Summary := ee_Summary r;
  ee_DetailsURL := ee_DetailsURL r;
  ee_UpdatedBy := v;
  ee_Metadata := ee_Metadata r;
  ee_UpdatedAt := ee_UpdatedAt r
|}.
Definition ee_with_UpdatedAt (v : Time) (r : EvidenceExecution) : EvidenceExecution := {|
  ee_ChangePacketID := ee_ChangePacketID r;
  ee_Name := ee_Name r;
  ee_Type_ := ee_Type_ r;
  ee_Status := ee_Status r;
  ee_Required := ee_Required r;
  ee_Summary := ee_Summary r;
  ee_DetailsURL := ee_DetailsURL r;
  ee_UpdatedBy := ee_UpdatedBy r;
  ee_Metadata := ee_Metadata r;
  ee_UpdatedAt := v
|}.
Definition ee_with_Type_ (v : EvidenceType) (r : EvidenceExecution) : EvidenceExecution := {|
  ee_ChangePacketID := ee_ChangePacketID r;
  ee_Name := ee_Name r;
  ee_Type_ := v;
  ee_Status := ee_Status r;
  ee_Required := ee_Required r;
  ee_Summary := ee_Summary r;
  ee_DetailsURL := ee_DetailsURL r;
  ee_UpdatedBy := ee_UpdatedBy r;
  ee_Metadata := ee_Metadata r;
  ee_UpdatedAt := ee_UpdatedAt r
|}.
Definition ee_with_Required (v : bool) (r : EvidenceExecution) : EvidenceExecution := {|
  ee_ChangePacketID := ee_ChangePacketID r;
  ee_Name := ee_Name r;
  ee_Type_ := ee_Type_ r;
  ee_Status := ee_Status r;
  ee_Required := v;
  ee_Summary := ee_Summary r;
  ee_DetailsURL := ee_DetailsURL r;
  ee_UpdatedBy := ee_UpdatedBy r;
  ee_Metadata := ee_Metadata r;
  ee_UpdatedAt := ee_UpdatedAt r
|}.

Record EvidenceAuditEntry := mkEvidenceAuditEntry {
  ea_ID : string;
  ea_ChangePacketID : string;
  ea_EvidenceName : string;
  ea_FromStatus : EvidenceStatus;
  ea_ToStatus : EvidenceStatus;
  ea_Actor : string;
  ea_Summary : string;
  ea_DetailsURL : string;
  ea_Metadata : gmap string string;
  ea_OccurredAt : Time;
}.
#[export] Instance EvidenceAuditEntry_eq_dec : EqDecision EvidenceAuditEntry.
Proof. solve_decision. Defined.

Record DeploymentOutcome := mkDeploymentOutcome {
  do_ID : string;
  do_ChangePacketID : string;
  do_Outcome : DeploymentOutcomeKind;
  do_Source : string;
  do_Lane : MergeLane;
  do_RiskTypes : list RiskType;
  do_ObservedAt : Time;
}.
#[export] Instance DeploymentOutcome_eq_dec : EqDecision DeploymentOutcome.
Proof. solve_decision. Defined.

Record RiskCalibrationMetric := mkRiskCalibrationMetric {
  rcm_Dimension : string;
  rcm_Value : string;
  rcm_Samples : Z;
  rcm_Adverse : Z;
  rcm_AdverseRate : float64;
  rcm_Recommendation : string;
}.

Record RiskCalibrationReport := mkRiskCalibrationReport {
  rcr_GeneratedAt : Time;
  rcr_ByRiskType : list RiskCalibrationMetric;
  rcr_ByLane : list RiskCalibrationMetric;
}.

Record MutationSignal := mkMutationSignal {
  sig_Source : string;
  sig_Value : string;
  sig_Weight : Z;
}.
#[export] Instance MutationSignal_eq_dec : EqDecision MutationSignal.
Proof. solve_decision. Defined.

Record Mutation := mkMutation {
  mut_ID : string;
  mut_Kind : MutationKind;
  mut_Severity : Severity;
  mut_Confidence : float64;
  mut_Title : string;
  mut_Description : string;
  mut_Files : list string;
  mut_Signals : list MutationSignal;
  mut_Detector : string;
  mut_Metadata : gmap string string;
}.
#[export] Instance spec_float_eq_dec : EqDecision spec_float.
Proof. solve_decision. Defined.
#[export] Instance Mutation_eq_dec : EqDecision Mutation.
Proof. solve_decision. Defined.
Definition mut_with_ID (v : string) (r : Mutation) : Mutation := {|
  mut_ID := v;
  mut_Kind := mut_Kind r;
  mut_Severity := mut_Severity r;
  mut_Confidence := mut_Confidence r;
  mut_Title := mut_Title r;
  mut_Description := mut_Description r;
  mut_Files := mut_Files r;
  mut_Signals := mut_Signals r;
  mut_Detector := mut_Detector r;
  mut_Metadata := mut_Metadata r
|}.
Definition mut_with_Detector (v : string) (r : Mutation) : Mutation := {|
  mut_ID := mut_ID r;
  mut_Kind := mut_Kind r;
  mut_Severity := mut_Severity r;
  mut_Confidence := mut_Confidence r;
  mut_Title := mut_Title r;
  mut_Description := mut_Description r;
  mut_Files := mut_Files r;
  mut_Signals := mut_Signals r;
  mut_Detector := v;
  mut_Metadata := mut_Metadata r
|}.

Record ReviewerRequirement := mkReviewerRequirement {
  rr_Team : string;
  rr_Reason : string;
  rr_Mandatory : bool;
  rr_MaxReviewers : Z;
}.
#[export] Instance ReviewerRequirement_eq_dec : EqDecision ReviewerRequirement.
Proof. solve_decision. Defined.

Record DeploymentRequirement := mkDeploymentRequirement {
  dr_Strategy : DeploymentStrategy;
  dr_Environments : list string;
  dr_RequiresCanary : bool;
  dr_RequiresRollbackPlan : bool;
  dr_FreezeWindow : string;
  dr_Owners : list string;
}.
#[export] Instance DeploymentRequirement_eq_dec : EqDecision DeploymentRequirement.
Proof. solve_decision. Defined.

Record Risk := mkRisk {
  risk_Type_ : RiskType;
  risk_Score : Z;
  risk_Severity : Severity;
  risk_Summary : string;
  risk_Reason : string;
  risk_AffectedSystems : list string;
  risk_Mitigations : list string;
}.
#[export] Instance Risk_eq_dec : EqDecision Risk.
Proof. solve_decision. Defined.
Definition risk_with_Severity (v : Severity) (r : Risk) : Risk := {|
  risk_Type_ := risk_Type_ r;
  risk_Score := risk_Score r;
  risk_Severity := v;
  risk_Summary := risk_Summary r;
  risk_Reason := risk_Reason r;
  risk_AffectedSystems := risk_AffectedSystems r;
  risk_Mitigations := risk_Mitigations r
|}.

Record SystemRef := mkSystemRef {
  sys_Kind : SystemKind;
  sys_Name : string;
  sys_Namespace : string;
  sys_Owner : string;
  sys_Criticality : Criticality;
}.
#[export] Instance SystemRef_eq_dec : EqDecision SystemRef.
Proof. solve_decision. Defined.

Record RuntimeImpact := mkRuntimeImpact {
  ri_BlastRadius : BlastRadius;
  ri_Criticality : Criticality;
  ri_Services : list SystemRef;
  ri_APIs : list SystemRef;
  ri_Datastores : list SystemRef;
  ri_Queues : list SystemRef;
  ri_Notes : list string;
}.
#[export] Instance RuntimeImpact_eq_dec : EqDecision RuntimeImpact.
Proof. solve_decision. Defined.
Definition ri_with_Criticality (v : Criticality) (r : RuntimeImpact) : RuntimeImpact := {|
  ri_BlastRadius := ri_BlastRadius r;
  ri_Criticality := v;
  ri_Services := ri_Services r;
  ri_APIs := ri_APIs r;
  ri_Datastores := ri_Datastores r;
  ri_Queues := ri_Queues r;
  ri_Notes := ri_Notes r
|}.
Definition ri_with_Notes (v : list string) (r : RuntimeImpact) : RuntimeImpact := {|
  ri_BlastRadius := ri_BlastRadius r;
  ri_Criticality := ri_Criticality r;
  ri_Services := ri_Services r;
  ri_APIs := ri_APIs r;
  ri_Datastores := ri_Datastores r;
  ri_Queues := ri_Queues r;
  ri_Notes := v
|}.

Record OwnershipBoundary := mkOwnershipBoundary {
  ob_Domain : string;
  ob_Team : string;
  ob_Systems : list string;
  ob_Escalation : string;
  ob_Critical : bool;
}.
#[export] Instance OwnershipBoundary_eq_dec : EqDecision OwnershipBoundary.
Proof. solve_decision. Defined.

Record ChangePacket := mkChangePacket {
  cp_ID : string;
  cp_Repo : RepoRef;
  cp_PR : PullRequestRef;
  cp_Author_ : Author;
  cp_Title : string;
  cp_Summary : string;
  cp_Source : string;
  cp_Files : list ChangedFile;
  cp_Mutations : list Mutation;
  cp_Risks : list Risk;
  cp_RiskSummary_ : RiskSummary;
  cp_Conflict : ConflictAssessment;
  cp_Evidence : list EvidenceRequirement;
  cp_Runtime : RuntimeImpact;
  cp_Ownership : list OwnershipBoundary;
  cp_Reviewers : list ReviewerRequirement;
  cp_Deployment : DeploymentRequirement;
  cp_MergeLane_ : MergeLane;
  cp_Decision : PolicyDecision;
  cp_Metadata : gmap string string;
  cp_CreatedAt : Time;
  cp_UpdatedAt : Time;
}.
#[export] Instance ChangePacket_eq_dec : EqDecision ChangePacket.
Proof. solve_decision. Defined.
Definition cp_with_ID (v : string) (r : ChangePacket) : ChangePacket := {|
  cp_ID := v;
  cp_Repo := cp_Repo r;
  cp_PR := cp_PR r;
  cp_Author_ := cp_Author_ r;
  cp_Title := cp_Title r;
  cp_Summary := cp_Summary r;
  cp_Source := cp_Source r;
  cp_Files := cp_Files r;
  cp_Mutations := cp_Mutations r;
  cp_Risks := cp_Risks r;
  cp_RiskSummary_ := cp_RiskSummary_ r;
  cp_Conflict := cp_Conflict r;
  cp_Evidence := cp_Evidence r;
  cp_Runtime := cp_Runtime r;
  cp_Ownership := cp_Ownership r;
  cp_Reviewers := cp_Reviewers r;
  cp_Deployment := cp_Deployment r;
  cp_MergeLane_ := cp_MergeLane_ r;
  cp_Decision := cp_Decision r;
  cp_Metadata := cp_Metadata r;
  cp_CreatedAt := cp_CreatedAt r;
  cp_UpdatedAt := cp_UpdatedAt r
|}.
Definition cp_with_Repo (v : RepoRef) (r : ChangePacket) : ChangePacket := {|
  cp_ID := cp_ID r;
  cp_Repo := v;
  cp_PR := cp_PR r;
  cp_Author_ := cp_Author_ r;
  cp_Title := cp_Title r;
  cp_Summary := cp_Summary r;
  cp_Source := cp_Source r;
  cp_Files := cp_Files r;
  cp_Mutations := cp_Mutations r;
  cp_Risks := cp_Risks r;
  cp_RiskSummary_ := cp_RiskSummary_ r;
  cp_Conflict := cp_Conflict r;
  cp_Evidence := cp_Evidence r;
  cp_Runtime := cp_Runtime r;
  cp_Ownership := cp_Ownership r;
  cp_Reviewers := cp_Reviewers r;
  cp_Deployment := cp_Deployment r;
  cp_MergeLane_ := cp_MergeLane_ r;
  cp_Decision := cp_Decision r;
  cp_Metadata := cp_Metadata r;
  cp_CreatedAt := cp_CreatedAt r;
  cp_UpdatedAt := cp_UpdatedAt r
|}.
Definition cp_with_PR (v : PullRequestRef) (r : ChangePacket) : ChangePacket := {|
  cp_ID := cp_ID r;
  cp_Repo := cp_Repo r;
  cp_PR := v;
  cp_Author_ := cp_Author_ r;
  cp_Title := cp_Title r;
  cp_Summary := cp_Summary r;
  cp_Source := cp_Source r;
  cp_Files := cp_Files r;
  cp_Mutations := cp_Mutations r;
  cp_Risks := cp_Risks r;
  cp_RiskSummary_ := cp_RiskSummary_ r;
  cp_Conflict := cp_Conflict r;
  cp_Evidence := cp_Evidence r;
  cp_Runtime := cp_Runtime r;
  cp_Ownership := cp_Ownership r;
  cp_Reviewers := cp_Reviewers r;
  cp_Deployment := cp_Deployment r;
  cp_MergeLane_ := cp_MergeLane_ r;
  cp_Decision := cp_Decision r;
  cp_Metadata := cp_Metadata r;
  cp_CreatedAt := cp_CreatedAt r;
  cp_UpdatedAt := cp_UpdatedAt r
|}.
Definition cp_with_Author_ (v : Author) (r : ChangePacket) : ChangePacket := {|
  cp_ID := cp_ID r;
  cp_Repo := cp_Repo r;
  cp_PR := cp_PR r;
  cp_Author_ := v;
  cp_Title := cp_Title r;
  cp_Summary := cp_Summary r;
  cp_Source := cp_Source r;
  cp_Files := cp_Files r;
  cp_Mutations := cp_Mutations r;
  cp_Risks := cp_Risks r;
  cp_RiskSummary_ := cp_RiskSummary_ r;
  cp_Conflict := cp_Conflict r;
  cp_Evidence := cp_Evidence r;
  cp_Runtime := cp_Runtime r;
  cp_Ownership := cp_Ownership r;
  cp_Reviewers := cp_Reviewers r;
  cp_Deployment := cp_Deployment r;
  cp_MergeLane_ := cp_MergeLane_ r;
  cp_Decision := cp_Decision r;
  cp_Metadata := cp_Metadata r;
  cp_CreatedAt := cp_CreatedAt r;
  cp_UpdatedAt := cp_UpdatedAt r
|}.
Definition cp_with_Files (v : list ChangedFile) (r : ChangePacket) : ChangePacket := {|
  cp_ID := cp_ID r;
  cp_Repo := cp_Repo r;
  cp_PR := cp_PR r;
  cp_Author_ := cp_Author_ r;
  cp_Title := cp_Title r;
  cp_Summary := cp_Summary r;
  cp_Source := cp_Source r;
  cp_Files := v;
  cp_Mutations := cp_Mutations r;
  cp_Risks := cp_Risks r;
  cp_RiskSummary_ := cp_RiskSummary_ r;
  cp_Conflict := cp_Conflict r;
  cp_Evidence := cp_Evidence r;
  cp_Runtime := cp_Runtime r;
  cp_Ownership := cp_Ownership r;
  cp_Reviewers := cp_Reviewers r;
  cp_Deployment := cp_Deployment r;
  cp_MergeLane_ := cp_MergeLane_ r;
  cp_Decision := cp_Decision r;
  cp_Metadata := cp_Metadata r;
  cp_CreatedAt := cp_CreatedAt r;
  cp_UpdatedAt := cp_UpdatedAt r
|}.
Definition cp_with_Mutations (v : list Mutation) (r : ChangePacket) : ChangePacket := {|
  cp_ID := cp_ID r;
  cp_Repo := cp_Repo r;
  cp_PR := cp_PR r;
  cp_Author_ := cp_Author_ r;
  cp_Title := cp_Title r;
  cp_Summary := cp_Summary r;
  cp_Source := cp_Source r;
  cp_Files := cp_Files r;
  cp_Mutations := v;
  cp_Risks := cp_Risks r;
  cp_RiskSummary_ := cp_RiskSummary_ r;
  cp_Conflict := cp_Conflict r;
  cp_Evidence := cp_Evidence r;
  cp_Runtime := cp_Runtime r;
  cp_Ownership := cp_Ownership r;
  cp_Reviewers := cp_Reviewers r;
  cp_Deployment := cp_Deployment r;
  cp_MergeLane_ := cp_MergeLane_ r;
  cp_Decision := cp_Decision r;
  cp_Metadata := cp_Metadata r;
  cp_CreatedAt := cp_CreatedAt r;
  cp_UpdatedAt := cp_UpdatedAt r
|}.
Definition cp_with_Risks (v : list Risk) (r : ChangePacket) : ChangePacket := {|
  cp_ID := cp_ID r;
  cp_Repo := cp_Repo r;
  cp_PR := cp_PR r;
  cp_Author_ := cp_Author_ r;
  cp_Title := cp_Title r;
  cp_Summary := cp_Summary r;
  cp_Source := cp_Source r;
  cp_Files := cp_Files r;
  cp_Mutations := cp_Mutations r;
  cp_Risks := v;
  cp_RiskSummary_ := cp_RiskSummary_ r;
  cp_Conflict := cp_Conflict r;
  cp_Evidence := cp_Evidence r;
  cp_Runtime := cp_Runtime r;
  cp_Ownership := cp_Ownership r;
  cp_Reviewers := cp_Reviewers r;
  cp_Deployment := cp_Deployment r;
  cp_MergeLane_ := cp_MergeLane_ r;
  cp_Decision := cp_Decision r;
  cp_Metadata := cp_Metadata r;
  cp_CreatedAt := cp_CreatedAt r;
  cp_UpdatedAt := cp_UpdatedAt r
|}.
Definition cp_with_RiskSummary_ (v : RiskSummary) (r : ChangePacket) : ChangePacket := {|
  cp_ID := cp_ID r;
  cp_Repo := cp_Repo r;
  cp_PR := cp_PR r;
  cp_Author_ := cp_Author_ r;
  cp_Title := cp_Title r;
  cp_Summary := cp_Summary r;
  cp_Source := cp_Source r;
  cp_Files := cp_Files r;
  cp_Mutations := cp_Mutations r;
  cp_Risks := cp_Risks r;
  cp_RiskSummary_ := v;
  cp_Conflict := cp_Conflict r;
  cp_Evidence := cp_Evidence r;
  cp_Runtime := cp_Runtime r;
  cp_Ownership := cp_Ownership r;
  cp_Reviewers := cp_Reviewers r;
  cp_Deployment := cp_Deployment r;
  cp_MergeLane_ := cp_MergeLane_ r;
  cp_Decision := cp_Decision r;
  cp_Metadata := cp_Metadata r;
  cp_CreatedAt := cp_CreatedAt r;
  cp_UpdatedAt := cp_UpdatedAt r
|}.
Definition cp_with_Conflict (v : ConflictAssessment) (r : ChangePacket) : ChangePacket := {|
  cp_ID := cp_ID r;
  cp_Repo := cp_Repo r;
  cp_PR := cp_PR r;
  cp_Author_ := cp_Author_ r;
  cp_Title := cp_Title r;
  cp_Summary := cp_Summary r;
  cp_Source := cp_Source r;
  cp_Files := cp_Files r;
  cp_Mutations := cp_Mutations r;
  cp_Risks := cp_Risks r;
  cp_RiskSummary_ := cp_RiskSummary_ r;
  cp_Conflict := v;
  cp_Evidence := cp_Evidence r;
  cp_Runtime := cp_Runtime r;
  cp_Ownership := cp_Ownership r;
  cp_Reviewers := cp_Reviewers r;
  cp_Deployment := cp_Deployment r;
  cp_MergeLane_ := cp_MergeLane_ r;
  cp_Decision := cp_Decision r;
  cp_Metadata := cp_Metadata r;
  cp_CreatedAt := cp_CreatedAt r;
  cp_UpdatedAt := cp_UpdatedAt r
|}.
Definition cp_with_Evidence (v : list EvidenceRequirement) (r : ChangePacket) : ChangePacket := {|
  cp_ID := cp_ID r;
  cp_Repo := cp_Repo r;
  cp_PR := cp_PR r;
  cp_Author_ := cp_Author_ r;
  cp_Title := cp_Title r;
  cp_Summary := cp_Summary r;
  cp_Source := cp_Source r;
  cp_Files := cp_Files r;
  cp_Mutations := cp_Mutations r;
  cp_Risks := cp_Risks r;
  cp_RiskSummary_ := cp_RiskSummary_ r;
  cp_Conflict := cp_Conflict r;
  cp_Evidence := v;
  cp_Runtime := cp_Runtime r;
  cp_Ownership := cp_Ownership r;
  cp_Reviewers := cp_Reviewers r;
  cp_Deployment := cp_Deployment r;
  cp_MergeLane_ := cp_MergeLane_ r;
  cp_Decision := cp_Decision r;
  cp_Metadata := cp_Metadata r;
  cp_CreatedAt := cp_CreatedAt r;
  cp_UpdatedAt := cp_UpdatedAt r
|}.
Definition cp_with_Runtime (v : RuntimeImpact) (r : ChangePacket) : ChangePacket := {|
  cp_ID := cp_ID r;
  cp_Repo := cp_Repo r;
  cp_PR := cp_PR r;
  cp_Author_ := cp_Author_ r;
  cp_Title := cp_Title r;
  cp_Summary := cp_Summary r;
  cp_Source := cp_Source r;
  cp_Files := cp_Files r;
  cp_Mutations := cp_Mutations r;
  cp_Risks := cp_Risks r;
  cp_RiskSummary_ := cp_RiskSummary_ r;
  cp_Conflict := cp_Conflict r;
  cp_Evidence := cp_Evidence r;
  cp_Runtime := v;
  cp_Ownership := cp_Ownership r;
  cp_Reviewers := cp_Reviewers r;
  cp_Deployment := cp_Deployment r;
  cp_MergeLane_ := cp_MergeLane_ r;
  cp_Decision := cp_Decision r;
  cp_Metadata := cp_Metadata r;
  cp_CreatedAt := cp_CreatedAt r;
  cp_UpdatedAt := cp_UpdatedAt r
|}.
Definition cp_with_Ownership (v : list OwnershipBoundary) (r : ChangePacket) : ChangePacket := {|
  cp_ID := cp_ID r;
  cp_Repo := cp_Repo r;
  cp_PR := cp_PR r;
  cp_Author_ := cp_Author_ r;
  cp_Title := cp_Title r;
  cp_Summary := cp_Summary r;
  cp_Source := cp_Source r;
  cp_Files := cp_Files r;
  cp_Mutations := cp_Mutations r;
  cp_Risks := cp_Risks r;
  cp_RiskSummary_ := cp_RiskSummary_ r;
  cp_Conflict := cp_Conflict r;
  cp_Evidence := cp_Evidence r;
  cp_Runtime := cp_Runtime r;
  cp_Ownership := v;
  cp_Reviewers := cp_Reviewers r;
  cp_Deployment := cp_Deployment r;
  cp_MergeLane_ := cp_MergeLane_ r;
  cp_Decision := cp_Decision r;
  cp_Metadata := cp_Metadata r;
  cp_CreatedAt := cp_CreatedAt r;
  cp_UpdatedAt := cp_UpdatedAt r
|}.
Definition cp_with_Reviewers (v : list ReviewerRequirement) (r : ChangePacket) : ChangePacket := {|
  cp_ID := cp_ID r;
  cp_Repo := cp_Repo r;
  cp_PR := cp_PR r;
  cp_Author_ := cp_Author_ r;
  cp_Title := cp_Title r;
  cp_Summary := cp_Summary r;
  cp_Source := cp_Source r;
  cp_Files := cp_Files r;
  cp_Mutations := cp_Mutations r;
  cp_Risks := cp_Risks r;
  cp_RiskSummary_ := cp_RiskSummary_ r;
  cp_Conflict := cp_Conflict r;
  cp_Evidence := cp_Evidence r;
  cp_Runtime := cp_Runtime r;
  cp_Ownership := cp_Ownership r;
  cp_Reviewers := v;
  cp_Deployment := cp_Deployment r;
  cp_MergeLane_ := cp_MergeLane_ r;
  cp_Decision := cp_Decision r;
  cp_Metadata := cp_Metadata r;
  cp_CreatedAt := cp_CreatedAt r;
  cp_UpdatedAt := cp_UpdatedAt r
|}.
Definition cp_with_Deployment (v : DeploymentRequirement) (r : ChangePacket) : ChangePacket := {|
  cp_ID := cp_ID r;
  cp_Repo := cp_Repo r;
  cp_PR := cp_PR r;
  cp_Author_ := cp_Author_ r;
  cp_Title := cp_Title r;
  cp_Summary := cp_Summary r;
  cp_Source := cp_Source r;
  cp_Files := cp_Files r;
  cp_Mutations := cp_Mutations r;
  cp_Risks := cp_Risks r;
  cp_RiskSummary_ := cp_RiskSummary_ r;
  cp_Conflict := cp_Conflict r;
  cp_Evidence := cp_Evidence r;
  cp_Runtime := cp_Runtime r;
  cp_Ownership := cp_Ownership r;
  cp_Reviewers := cp_Reviewers r;
  cp_Deployment := v;
  cp_MergeLane_ := cp_MergeLane_ r;
  cp_Decision := cp_Decision r;
  cp_Metadata := cp_Metadata r;
  cp_CreatedAt := cp_CreatedAt r;
  cp_UpdatedAt := cp_UpdatedAt r
|}.
Definition cp_with_MergeLane_ (v : MergeLane) (r : ChangePacket) : ChangePacket := {|
  cp_ID := cp_ID r;
  cp_Repo := cp_Repo r;
  cp_PR := cp_PR r;
  cp_Author_ := cp_Author_ r;
  cp_Title := cp_Title r;
  cp_Summary := cp_Summary r;
  cp_Source := cp_Source r;
  cp_Files := cp_Files r;
  cp_Mutations := cp_Mutations r;
  cp_Risks := cp_Risks r;
  cp_RiskSummary_ := cp_RiskSummary_ r;
  cp_Conflict := cp_Conflict r;
  cp_Evidence := cp_Evidence r;
  cp_Runtime := cp_Runtime r;
  cp_Ownership := cp_Ownership r;
  cp_Reviewers := cp_Reviewers r;
  cp_Deployment := cp_Deployment r;
  cp_MergeLane_ := v;
  cp_Decision := cp_Decision r;
  cp_Metadata := cp_Metadata r;
  cp_CreatedAt := cp_CreatedAt r;
  cp_UpdatedAt := cp_UpdatedAt r
|}.
Definition cp_with_Decision (v : PolicyDecision) (r : ChangePacket) : ChangePacket := {|
  cp_ID := cp_ID r;
  cp_Repo := cp_Repo r;
  cp_PR := cp_PR r;
  cp_Author_ := cp_Author_ r;
  cp_Title := cp_Title r;
  cp_Summary := cp_Summary r;
  cp_Source := cp_Source r;
  cp_Files := cp_Files r;
  cp_Mutations := cp_Mutations r;
  cp_Risks := cp_Risks r;
  cp_RiskSummary_ := cp_RiskSummary_ r;
  cp_Conflict := cp_Conflict r;
  cp_Evidence := cp_Evidence r;
  cp_Runtime := cp_Runtime r;
  cp_Ownership := cp_Ownership r;
  cp_Reviewers := cp_Reviewers r;
  cp_Deployment := cp_Deployment r;
  cp_MergeLane_ := cp_MergeLane_ r;
  cp_Decision := v;
  cp_Metadata := cp_Metadata r;
  cp_CreatedAt := cp_CreatedAt r;
  cp_UpdatedAt := cp_UpdatedAt r
|}.
Definition cp_with_Metadata (v : gmap string string) (r : ChangePacket) : ChangePacket := {|
  cp_ID := cp_ID r;
  cp_Repo := cp_Repo r;
  cp_PR := cp_PR r;
  cp_Author_ := cp_Author_ r;
  cp_Title := cp_Title r;
  cp_Summary := cp_Summary r;
  cp_Source := cp_Source r;
  cp_Files := cp_Files r;
  cp_Mutations := cp_Mutations r;
  cp_Risks := cp_Risks r;
  cp_RiskSummary_ := cp_RiskSummary_ r;
  cp_Conflict := cp_Conflict r;
  cp_Evidence := cp_Evidence r;
  cp_Runtime := cp_Runtime r;
  cp_Ownership := cp_Ownership r;
  cp_Reviewers := cp_Reviewers r;
  cp_Deployment := cp_Deployment r;
  cp_MergeLane_ := cp_MergeLane_ r;
  cp_Decision := cp_Decision r;
  cp_Metadata := v;
  cp_CreatedAt := cp_CreatedAt r;
  cp_UpdatedAt := cp_UpdatedAt r
|}.
Definition cp_with_UpdatedAt (v : Time) (r : ChangePacket) : ChangePacket := {|
  cp_ID := cp_ID r;
  cp_Repo := cp_Repo r;
  cp_PR := cp_PR r;
  cp_Author_ := cp_Author_ r;
  cp_Title := cp_Title r;
  cp_Summary := cp_Summary r;
  cp_Source := cp_Source r;
  cp_Files := cp_Files r;
  cp_Mutations := cp_Mutations r;
  cp_Risks := cp_Risks r;
  cp_RiskSummary_ := cp_RiskSummary_ r;
  cp_Conflict := cp_Conflict r;
  cp_Evidence := cp_Evidence r;
  cp_Runtime := cp_Runtime r;
  cp_Ownership := cp_Ownership r;
  cp_Reviewers := cp_Reviewers r;
  cp_Deployment := cp_Deployment r;
  cp_MergeLane_ := cp_MergeLane_ r;
  cp_Decision := cp_Decision r;
  cp_Metadata := cp_Metadata r;
  cp_CreatedAt := cp_CreatedAt r;
  cp_UpdatedAt := v
|}.

(** ** Zero values of the structs the code leaves unset *)
Definition zeroAuthor : Author := {|
  author_Login := "";
  author_DisplayName := "";
  author_Email := "";
  author_Type_ := ""
|}.
Definition zeroRepoRef : RepoRef := {|
  repo_Owner := "";
  repo_Name := "";
  repo_FullName := "";
  repo_DefaultBranch := ""
|}.
Definition zeroPullRequestRef : PullRequestRef := {|
  pr_Number := 0;
  pr_URL := "";
  pr_HeadSHA := "";
  pr_BaseSHA := ""
|}.
Definition zeroRiskSummary : RiskSummary := {|
  rs_Score := 0;
  rs_Severity := "";
  rs_Contributors := []
|}.
Definition zeroConflictAssessment : ConflictAssessment := {|
  ca_BaseSHA := "";
  ca_CurrentBaseSHA := "";
  ca_Route := "";
  ca_Score := 0;
  ca_RequiresHumanResolution := false;
  ca_Findings := [];
  ca_Mitigations := []
|}.
Definition zeroPolicyDecision : PolicyDecision := {|
  pd_Status := "";
  pd_Summary := "";
  pd_Reasons := [];
  pd_Violations := [];
  pd_AppliedPolicies := [];
  pd_MinimumLane := "";
  pd_DecidedAt := 0
|}.
Definition zeroEvidenceRequirement : EvidenceRequirement := {|
  er_Type_ := "";
  er_Name := "";
  er_Required := false;
  er_Reason := "";
  er_Producer := "";
  er_GitHubCheck := None
|}.
Definition zeroRuntimeImpact : RuntimeImpact := {|
  ri_BlastRadius := "";
  ri_Criticality := "";
  ri_Services := [];
  ri_APIs := [];
  ri_Datastores := [];
  ri_Queues := [];
  ri_Notes := []
|}.
Definition zeroDeploymentRequirement : DeploymentRequirement := {|
  dr_Strategy := "";
  dr_Environments := [];
  dr_RequiresCanary := false;
  dr_RequiresRollbackPlan := false;
  dr_FreezeWindow := "";
  dr_Owners := []
|}.
Definition zeroMutation : Mutation := {|
  mut_ID := "";
  mut_Kind := "";
  mut_Severity := "";
  mut_Confidence := (S754_zero false);
  mut_Title := "";
  mut_Description := "";
  mut_Files := [];
  mut_Signals := [];
  mut_Detector := "";
  mut_Metadata := ∅
|}.
Definition zeroSystemRef : SystemRef := {|
  sys_Kind := "";
  sys_Name := "";
  sys_Namespace := "";
  sys_Owner := "";
  sys_Criticality := ""
|}.
Definition zeroEvidenceExecution : EvidenceExecution := {|
  ee_ChangePacketID := "";
  ee_Name := "";
  ee_Type_ := "";
  ee_Status := "";
  ee_Required := false;
  ee_Summary := "";
  ee_DetailsURL := "";
  ee_UpdatedBy := "";
  ee_Metadata := ∅;
  ee_UpdatedAt := 0
|}.
Definition zeroChangePacket : ChangePacket := {|
  cp_ID := "";
  cp_Repo := zeroRepoRef;
  cp_PR := zeroPullRequestRef;
  cp_Author_ := zeroAuthor;
  cp_Title := "";
  cp_Summary := "";
  cp_Source := "";
  cp_Files := [];
  cp_Mutations := [];
  cp_Risks := [];
  cp_RiskSummary_ := zeroRiskSummary;
  cp_Conflict := zeroConflictAssessment;
  cp_Evidence := [];
  cp_Runtime := zeroRuntimeImpact;
  cp_Ownership := [];
  cp_Reviewers := [];
  cp_Deployment := zeroDeploymentRequirement;
  cp_MergeLane_ := "";
  cp_Decision := zeroPolicyDecision;
  cp_Metadata := ∅;
  cp_CreatedAt := 0;
  cp_UpdatedAt := 0
|}.

(** A metadata lookup: a missing key reads as the zero value. *)
Definition meta (m : gmap string string) (k : string) : string := default "" (m !! k).
