(* ===== verification/Base64.v ===== *)
(** [encoding/base64] as the sources use it: the URL alphabet without padding (the
    segments of a JSON web token, [internal/github/app_auth.go] and
    [internal/access/jwt_authenticator.go]) and the standard alphabet with padding
    (file contents, [internal/github/contents.go]). *)
From stdpp Require Import base list strings.
From S2P Require Import Prelude GoStrings.

Local Open Scope string_scope.
Local Open Scope list_scope.
Local Open Scope Z_scope.

(** ** Digits and bytes *)

(** The digits of a group of three bytes, and of the one or two bytes left over. *)
Fixpoint digits_of_bytes (bytes : list Z) : list Z :=
  match bytes with
  | [] => []
  | [a] => [a / 4; a mod 4 * 16]
  | [a; b] => [a / 4; a mod 4 * 16 + b / 16; b mod 16 * 4]
  | a :: b :: c :: rest =>
      a / 4 :: a mod 4 * 16 + b / 16 :: b mod 16 * 4 + c / 64 :: c mod 64 :: digits_of_bytes rest
  end.

(** Back: four digits are three bytes, the last two or three digits are one or two
    bytes (what is left of them is ignored), and one digit alone is an error. *)
Fixpoint bytes_of_digits (digits : list Z) : option (list Z) :=
  match digits with
  | [] => Some []
  | [_] => None
  | [a; b] => Some [a * 4 + b / 16]
  | [a; b; c] => Some [a * 4 + b / 16; b mod 16 * 16 + c / 4]
  | a :: b :: c :: d :: rest =>
      bytes ← bytes_of_digits rest;
      Some (a * 4 + b / 16 :: b mod 16 * 16 + c / 4 :: c mod 4 * 64 + d :: bytes)
  end.

Definition byte_of (n : Z) : ascii := ascii_of_nat (Z.to_nat n).
Definition bytes_of (s : string) : list Z := byte_val <$> String.list_ascii_of_string s.
Definition string_of (bytes : list Z) : string := String.string_of_list_ascii (byte_of <$> bytes).

(** ** The alphabets *)

(** The last two digits are [-] and [_] of a URL, and [+] and [/] otherwise. *)
Definition digit_value (d62 d63 a : ascii) : option Z :=
  let n := byte_val a in
  if in_range "A" "Z" a then Some (n - 65)
  else if in_range "a" "z" a then Some (n - 71)
  else if in_range "0" "9" a then Some (n + 4)
  else if is_byte d62 a then Some 62
  else if is_byte d63 a then Some 63
  else None.

Definition digit_char (d62 d63 : ascii) (d : Z) : ascii :=
  if d <? 26 then byte_of (d + 65)
  else if d <? 52 then byte_of (d + 71)
  else if d <? 62 then byte_of (d - 4)
  else if d =? 62 then d62 else d63.

(** Line ends are skipped. *)
Definition no_line_ends (s : string) : list ascii :=
  filter (λ a, a ≠ "010"%char ∧ a ≠ "013"%char) (String.list_ascii_of_string s).

(** [base64.RawURLEncoding.DecodeString]. *)
Definition RawURLDecode (segment : string) : option string :=
  digits ← mapM (digit_value "-" "_") (no_line_ends segment);
  string_of <$> bytes_of_digits digits.

(** [base64.URLEncoding.EncodeToString]: padded to groups of four. *)
Definition padding (bytes : list Z) : string :=
  match (length bytes mod 3)%nat with
  | 1%nat => "=="
  | 2%nat => "="
  | _ => ""
  end.

Definition URLEncode (raw : string) : string :=
  String.string_of_list_ascii (digit_char "-" "_" <$> digits_of_bytes (bytes_of raw)) +:+ padding (bytes_of raw).

(** [base64.StdEncoding.DecodeString]: the length is a multiple of four, and the
    last one or two characters may be padding. *)
Definition StdDecode (text : string) : option string :=
  let chars := no_line_ends text in
  if negb (length chars mod 4 =? 0)%nat then None
  else
    let body :=
      match reverse chars with
      | "="%char :: "="%char :: rest | "="%char :: rest => reverse rest
      | _ => chars
      end in
    digits ← mapM (digit_value "+" "/") body;
    string_of <$> bytes_of_digits digits.

Example decode_text : RawURLDecode "aGVsbG8gd29ybGQ" = Some "hello world".
Proof. by vm_compute. Qed.
Example decode_url_digits : RawURLDecode "-_8" = Some (String "251" (String "255" EmptyString)).
Proof. by vm_compute. Qed.
Example decode_padded : RawURLDecode "aGk=" = None.
Proof. by vm_compute. Qed.
Example decode_standard : StdDecode <$> ["aGk="; "aA=="; "aGkh"; "aGk"; "a==="; "+/8="] =
  [Some "hi"; Some "h"; Some "hi!"; None; None; Some (String "251" (String "255" EmptyString))].
Proof. by vm_compute. Qed.

(** ** Lemmas *)

Lemma three_ind {A} (P : list A → Prop) :
  P [] → (∀ a, P [a]) → (∀ a b, P [a; b]) → (∀ a b c l, P l → P (a :: b :: c :: l)) → ∀ l, P l.
Proof.
  intros H0 H1 H2 H3. fix IH 1. intros [|a [|b [|c l]]]; [done|done|done|]. apply H3, IH.
Qed.

Lemma byte_val_range a : 0 ≤ byte_val a < 256.
Proof. unfold byte_val. pose proof (nat_ascii_bounded a). lia. Qed.

Lemma byte_of_val a : byte_of (byte_val a) = a.
Proof. unfold byte_of, byte_val. by rewrite Nat2Z.id, ascii_nat_embedding. Qed.

Lemma bytes_of_range s : Forall (λ n, 0 ≤ n < 256) (bytes_of s).
Proof. unfold bytes_of. apply Forall_fmap, Forall_true, byte_val_range. Qed.

Lemma string_of_bytes s : string_of (bytes_of s) = s.
Proof.
  unfold string_of, bytes_of. rewrite <- list_fmap_compose.
  rewrite (list_fmap_ext _ id), list_fmap_id by (intros; apply byte_of_val).
  apply String.string_of_list_ascii_of_string.
Qed.

(** Digits are below 64, and the bytes come back from them. *)
Lemma digits_range bytes : Forall (λ n, 0 ≤ n < 256) bytes → Forall (λ d, 0 ≤ d < 64) (digits_of_bytes bytes).
Proof.
  induction bytes as [|a|a b|a b c l IH] using three_ind; intros H; rewrite ?Forall_cons in H; cbn [digits_of_bytes].
  - constructor.
  - destruct H as [? _]. repeat (constructor; [Z.div_mod_to_equations; lia|]). constructor.
  - destruct H as (? & ? & _). repeat (constructor; [Z.div_mod_to_equations; lia|]). constructor.
  - destruct H as (? & ? & ? & Hl). repeat (constructor; [Z.div_mod_to_equations; lia|]). by apply IH.
Qed.

Lemma digits_bytes bytes :
  Forall (λ n, 0 ≤ n < 256) bytes → bytes_of_digits (digits_of_bytes bytes) = Some bytes.
Proof.
  induction bytes as [|a|a b|a b c l IH] using three_ind; intros H; rewrite ?Forall_cons in H; cbn [digits_of_bytes].
  - done.
  - destruct H as [? _]. cbn. repeat f_equal; Z.div_mod_to_equations; lia.
  - destruct H as (? & ? & _). cbn. repeat f_equal; Z.div_mod_to_equations; lia.
  - destruct H as (? & ? & ? & Hl). cbn [bytes_of_digits]. rewrite (IH Hl). cbn.
    repeat f_equal; Z.div_mod_to_equations; lia.
Qed.

(** Over the URL alphabet, a digit comes back from its character, which is no line
    end, no padding and no dot. *)
Lemma digit_char_all :
  forallb (λ n, let c := digit_char "-" "_" (Z.of_nat n) in
    bool_decide (digit_value "-" "_" c = Some (Z.of_nat n)) && negb (is_byte "=" c) && negb (is_byte "." c) &&
    negb (is_byte "010" c) && negb (is_byte "013" c)) (seq 0 64) = true.
Proof. by vm_compute. Qed.

Lemma digit_char_value d :
  0 ≤ d < 64 →
  let c := digit_char "-" "_" d in
  digit_value "-" "_" c = Some d ∧ is_byte "=" c = false ∧ is_byte "." c = false ∧ c ≠ "010"%char ∧ c ≠ "013"%char.
Proof.
  intros Hd. pose proof digit_char_all as Hall. rewrite forallb_elem in Hall.
  specialize (Hall (Z.to_nat d) ltac:(apply elem_of_seq; lia)). rewrite Z2Nat.id in Hall by lia. cbn zeta in *.
  rewrite !andb_true_iff, !negb_true_iff, bool_decide_eq_true in Hall. destruct Hall as [[[[H1 H2] H3] H4] H5].
  unfold is_byte in H4, H5. apply bool_decide_eq_false in H4, H5. done.
Qed.

Lemma mapM_digit_value digits :
  Forall (λ d, 0 ≤ d < 64) digits →
  mapM (digit_value "-" "_") (no_line_ends (String.string_of_list_ascii (digit_char "-" "_" <$> digits))) = Some digits.
Proof.
  unfold no_line_ends. rewrite String.list_ascii_of_string_of_list_ascii.
  induction digits as [|d digits IH]; intros H; [done|]. apply Forall_cons in H as [Hd Hds].
  destruct (digit_char_value d Hd) as (Hv & _ & _ & Hn1 & Hn2). rewrite fmap_cons, filter_cons, decide_True by done.
  cbn. rewrite Hv. cbn. by rewrite (IH Hds).
Qed.
