(* ===== verification/Identity.v ===== *)
(** [pkg/identity/id.go]: identifiers made of a prefix, the clock and eight
    random bytes.  The clock and the random source are the two things the code
    reads from outside; a run reads them once per call, so they are functions of
    the number of the call. *)
From stdpp Require Import base list strings.
From S2P Require Import Prelude GoStrings.

Local Open Scope string_scope.
Local Open Scope list_scope.
Local Open Scope Z_scope.

Class Entropy := {
  UnixNano : nat → Z;
  (** [rand.Read] into a buffer of 8 bytes; [None] when it fails. *)
  rand_Read : nat → option (list Byte.byte);
}.

(** ** Definitions *)

Definition hex_digit (n : N) : ascii :=
  default "0"%char (String.get (N.to_nat n) "0123456789abcdef").

Definition hex_byte (b : Byte.byte) : string :=
  String (hex_digit (N.shiftr (Byte.to_N b) 4)) (String (hex_digit (N.land (Byte.to_N b) 15)) "").

(** [hex.EncodeToString]. *)
Definition EncodeToString (buf : list Byte.byte) : string := concat_all (hex_byte <$> buf).

(** The identifier of the call number [n]. *)
Definition New `{Entropy} (prefix : string) (n : nat) : string :=
  match rand_Read n with
  | None => prefix +:+ "_" +:+ itoa (UnixNano n)
  | Some buf => prefix +:+ "_" +:+ itoa (UnixNano n) +:+ "_" +:+ EncodeToString buf
  end.

(** ** Lemmas *)

Definition unhex_digit (a : ascii) : N :=
  let n := N_of_ascii a in (if n <? 58 then n - 48 else n - 87)%N.

Definition unhex_byte (s : string) : option Byte.byte :=
  match s with
  | String a (String b "") => Byte.of_N (16 * unhex_digit a + unhex_digit b)
  | _ => None
  end.

Lemma unhex_hex_byte b : unhex_byte (hex_byte b) = Some b.
Proof. by destruct b. Qed.

Lemma hex_byte_inj b1 b2 : hex_byte b1 = hex_byte b2 → b1 = b2.
Proof. intros H%(f_equal unhex_byte). rewrite !unhex_hex_byte in H. congruence. Qed.

#[local] Arguments hex_digit : simpl never.
#[local] Arguments EncodeToString : simpl never.
#[local] Arguments String.append _ _ : simpl nomatch.

Lemma EncodeToString_cons b l : EncodeToString (b :: l) = hex_byte b +:+ EncodeToString l.
Proof. done. Qed.

Lemma EncodeToString_inj l1 l2 : EncodeToString l1 = EncodeToString l2 → l1 = l2.
Proof.
  revert l2. induction l1 as [|b1 l1 IH]; intros [|b2 l2]; try done.
  rewrite !EncodeToString_cons. intros H. unfold hex_byte in H. cbn in H.
  injection H as H1 H2 H3. f_equal; [|by apply IH].
  apply hex_byte_inj. unfold hex_byte. by rewrite H1, H2.
Qed.

Lemma length_EncodeToString l : String.length (EncodeToString l) = (2 * length l)%nat.
Proof.
  induction l as [|b l IH]; [done|]. rewrite EncodeToString_cons. cbn [length].
  unfold hex_byte. cbn. rewrite IH. lia.
Qed.

Lemma length_app_string s t : String.length (s +:+ t) = (String.length s + String.length t)%nat.
Proof. induction s as [|a s IH]; [done|]. cbn. by rewrite IH. Qed.

Lemma app_inj_tail_string s1 s2 t1 t2 :
  String.length t1 = String.length t2 → s1 +:+ t1 = s2 +:+ t2 → s1 = s2 ∧ t1 = t2.
Proof.
  revert s2. induction s1 as [|a s1 IH]; intros [|b s2] Hlen H; cbn in *.
  - done.
  - subst t1. cbn in Hlen. rewrite length_app_string in Hlen. lia.
  - subst t2. cbn in Hlen. rewrite length_app_string in Hlen. lia.
  - injection H as -> H. destruct (IH s2 Hlen H) as [-> ->]. done.
Qed.

(** Two calls that draw different random bytes give different identifiers,
    whatever the clock says. *)
Lemma New_distinct `{Entropy} prefix n1 n2 b1 b2 :
  rand_Read n1 = Some b1 → rand_Read n2 = Some b2 → length b1 = length b2 →
  New prefix n1 = New prefix n2 → b1 = b2.
Proof.
  unfold New. intros -> -> Hlen Heq.
  rewrite <- !app_assoc_string in Heq. apply app_inj_tail_string in Heq as [_ Heq].
  - by apply EncodeToString_inj.
  - rewrite !length_EncodeToString. lia.
Qed.

(** The source that witnesses use: call [n] reads the byte [n mod 256] eight
    times and a clock that ticks once per call. *)
Definition counting_entropy : Entropy :=
  {| UnixNano := Z.of_nat;
     rand_Read n := Some (replicate 8 (default Byte.x00 (Byte.of_N (N.of_nat n mod 256)))) |}.
