(* ===== verification/Documents.v ===== *)
(** What the code reads of documents that third-party parsers produce: YAML
    values (the mutation analyzers and the runtime graph share them), JSON values
    (the JWT claims and the MCP tools) and Go syntax trees.  The parsers of YAML
    and Go ([gopkg.in/yaml.v3], [go/parser]) are the fields of [Parsers]. *)
From stdpp Require Import base list strings.
From S2P Require Import Prelude.

Local Open Scope string_scope.
Local Open Scope list_scope.

(** ** Parsed documents *)

(** A YAML value of type [any]: a string, a scalar that is none (a number, a
    boolean, null), a map as the list of its entries in the order the code
    ranges over them, or a list. *)
#[warnings="-register-all"]
Inductive any :=
  | AString (text : string)
  | AOther
  | AMap (entries : list (string * any))
  | AList (items : list any).

(** A JSON value of type [any]; a number keeps its literal. *)
#[warnings="-register-all"]
Inductive json :=
  | JNull
  | JBool (b : bool)
  | JNumber (literal : string)
  | JString (text : string)
  | JArray (items : list json)
  | JObject (entries : list (string * json)).

(** What the Go analyzer reads of a syntax tree: the quoted import paths and the
    nodes in the order of [ast.Inspect]. *)
Inductive GoNode :=
  | FuncDecl (name : string)
  | SelectorExpr (sel : string)
  | OtherNode.

Record GoFile := mkGoFile { go_Imports : list string; go_Nodes : list GoNode }.

Class Parsers := {
  yaml_Unmarshal : string → option (list (string * any));
  parser_ParseFile : string → string → option GoFile;
}.

(** [m[key]] of a parsed map. *)
Fixpoint entry (entries : list (string * any)) (key : string) : option any :=
  match entries with
  | [] => None
  | (k, v) :: entries' => if decide (k = key) then Some v else entry entries' key
  end.

(** [s, _ := v.(string)] and [m, _ := v.(map[string]any)], also of a missing
    value. *)
Definition as_string (v : option any) : string :=
  match v with Some (AString s) => s | _ => "" end.

Definition as_map (v : option any) : list (string * any) :=
  match v with Some (AMap entries) => entries | _ => [] end.
