(* ===== verification/Lanes.v ===== *)
(** [internal/lanes/assigner.go]: the merge-lane assigner, and the lane order
    it shares with the policy engine ([internal/policy/helpers.go]). *)
From stdpp Require Import base list strings.
From S2P Require Import Prelude Domain.

Local Open Scope string_scope.
Local Open Scope list_scope.
Local Open Scope Z_scope.

(** ** Definitions *)

(** The map literal [order] of [maxLane]; a missing key reads as 0. *)
Definition lane_order (lane : MergeLane) : Z :=
  if decide (lane = MergeLaneGreen) then 1
  else if decide (lane = MergeLaneYellow) then 2
  else if decide (lane = MergeLaneRed) then 3
  else if decide (lane = MergeLaneBlack) then 4
  else 0.

Record LanesConfig := mkLanesConfig { GreenMax : Z; YellowMax : Z; RedMax : Z }.

Definition maxLane (aLane bLane : MergeLane) : MergeLane :=
  if decide (bLane = "") then aLane
  else if lane_order aLane <? lane_order bLane then bLane
  else aLane.

Definition forcedLane (packet : ChangePacket) : option MergeLane :=
  let d := cp_Decision packet in
  let c := cp_Conflict packet in
  if bool_decide (pd_Status d = DecisionBlocked) || ca_RequiresHumanResolution c then
    Some MergeLaneBlack
  else if decide (ca_Route c = ConflictRouteRefreshAndVerify) then
    Some (maxLane MergeLaneRed (pd_MinimumLane d))
  else if decide (pd_MinimumLane d = MergeLaneBlack) then
    Some MergeLaneBlack
  else if bool_decide (pd_Status d = DecisionPending) || bool_decide (pd_Status d = DecisionEscalated) then
    Some (maxLane MergeLaneRed (pd_MinimumLane d))
  else None.

Definition requiresEscalatedReview (packet : ChangePacket) : bool :=
  existsb rr_Mandatory (cp_Reviewers packet).

Definition Assign (config : LanesConfig) (packet : ChangePacket) : MergeLane :=
  match forcedLane packet with
  | Some lane => lane
  | None =>
      let score := rs_Score (cp_RiskSummary_ packet) in
      let minimum := pd_MinimumLane (cp_Decision packet) in
      let canary := dr_RequiresCanary (cp_Deployment packet) in
      if (score <=? GreenMax config) && (length (cp_Reviewers packet) =? 0)%nat && negb canary then
        maxLane MergeLaneGreen minimum
      else if (score <=? YellowMax config) && negb (requiresEscalatedReview packet) then
        maxLane MergeLaneYellow minimum
      else if (score <=? RedMax config) || requiresEscalatedReview packet || canary then
        maxLane MergeLaneRed minimum
      else MergeLaneBlack
  end.

(** A lane the configuration and the policies may name. *)
Definition supported_lane (lane : MergeLane) : Prop :=
  lane = MergeLaneGreen ∨ lane = MergeLaneYellow ∨ lane = MergeLaneRed ∨ lane = MergeLaneBlack.

(** ** The lane order *)

Lemma lane_order_bounds lane : 0 ≤ lane_order lane ≤ 4.
Proof. unfold lane_order. repeat case_decide; lia. Qed.

Lemma lane_order_supported lane : 1 ≤ lane_order lane ↔ supported_lane lane.
Proof.
  unfold lane_order, supported_lane. repeat case_decide; naive_solver lia.
Qed.

Lemma lane_order_inj l1 l2 :
  supported_lane l1 → lane_order l1 = lane_order l2 → l1 = l2.
Proof.
  intros H1 H. apply lane_order_supported in H1. revert H1 H.
  unfold lane_order. repeat case_decide; naive_solver lia.
Qed.

Lemma lane_order_empty : lane_order "" = 0.
Proof. reflexivity. Qed.

Lemma maxLane_order a b : lane_order (maxLane a b) = Z.max (lane_order a) (lane_order b).
Proof.
  unfold maxLane. case_decide as Hb.
  - subst b. rewrite lane_order_empty. pose proof (lane_order_bounds a). lia.
  - destruct (Z.ltb_spec (lane_order a) (lane_order b)); lia.
Qed.

Lemma maxLane_choice a b : maxLane a b = a ∨ maxLane a b = b.
Proof. unfold maxLane. repeat case_match; auto. Qed.

Lemma maxLane_supported a b :
  supported_lane a → supported_lane (maxLane a b).
Proof.
  intros Ha. apply lane_order_supported. rewrite maxLane_order.
  apply lane_order_supported in Ha. lia.
Qed.

#[export] Hint Rewrite maxLane_order : go.
#[export] Hint Resolve maxLane_supported : go.

Lemma lane_orders :
  lane_order MergeLaneGreen = 1 ∧ lane_order MergeLaneYellow = 2 ∧
  lane_order MergeLaneRed = 3 ∧ lane_order MergeLaneBlack = 4.
Proof. done. Qed.

(** Open the tests of [Assign] and reduce lanes to their order. *)
Ltac lane_cases :=
  unfold Assign, forcedLane in *; cbn [pd_MinimumLane pd_Status] in *;
  repeat (case_match || case_decide); bool_props; simplify_eq; rewrite ?maxLane_order;
  destruct lane_orders as (?&?&?&?).

(** ** Theorems *)

(** A packet that differs from [p] in its risk score only. *)
Definition with_score (score : Z) (p : ChangePacket) : ChangePacket :=
  cp_with_RiskSummary_
    {| rs_Score := score; rs_Severity := rs_Severity (cp_RiskSummary_ p);
       rs_Contributors := rs_Contributors (cp_RiskSummary_ p) |} p.

Lemma Assign_supported config packet : supported_lane (Assign config packet).
Proof.
  rewrite <- lane_order_supported.
  pose proof (lane_order_bounds (pd_MinimumLane (cp_Decision packet))). lane_cases; lia.
Qed.

(** C14: the assigned lane is always one of the four lanes, and it is never
    below the minimum lane the policy decision asks for. *)
Theorem assign_respects_minimum config packet :
  supported_lane (Assign config packet) ∧
  lane_order (pd_MinimumLane (cp_Decision packet)) ≤ lane_order (Assign config packet).
Proof.
  split; [apply Assign_supported|].
  pose proof (lane_order_bounds (pd_MinimumLane (cp_Decision packet))).
  lane_cases; lia.
Qed.

(** C15: with thresholds in increasing order, a higher risk score never yields a
    lower lane. *)
Theorem assign_monotone config packet s1 s2 :
  GreenMax config ≤ YellowMax config ≤ RedMax config →
  s1 ≤ s2 →
  lane_order (Assign config (with_score s1 packet)) ≤ lane_order (Assign config (with_score s2 packet)).
Proof.
  intros Hc Hs. unfold Assign.
  replace (forcedLane (with_score s1 packet)) with (forcedLane packet) by done.
  replace (forcedLane (with_score s2 packet)) with (forcedLane packet) by done.
  destruct (forcedLane packet); [lia|].
  unfold requiresEscalatedReview. cbn.
  pose proof (lane_order_bounds (pd_MinimumLane (cp_Decision packet))).
  destruct (Z.leb_spec s1 (GreenMax config)), (Z.leb_spec s2 (GreenMax config)),
    (Z.leb_spec s1 (YellowMax config)), (Z.leb_spec s2 (YellowMax config)),
    (Z.leb_spec s1 (RedMax config)), (Z.leb_spec s2 (RedMax config)); try lia;
  destruct (length _ =? 0)%nat, (existsb _ _), (dr_RequiresCanary _); cbn;
  rewrite ?maxLane_order; destruct lane_orders as (?&?&?&?); lia.
Qed.

Lemma assign_monotone_witness :
  lane_order (Assign (mkLanesConfig 20 55 85) (with_score 10 zeroChangePacket)) ≤
  lane_order (Assign (mkLanesConfig 20 55 85) (with_score 90 zeroChangePacket)).
Proof. apply assign_monotone; cbn; lia. Defined.

(** When a packet ends in BLACK, for increasing thresholds: exactly when the
    policy blocks it, its conflict needs a human, the minimum lane is BLACK, or
    nothing forces a lane and the score is above every threshold with no
    mandatory reviewer and no canary requirement. *)
Theorem assign_black_iff config packet :
  GreenMax config ≤ YellowMax config ≤ RedMax config →
  Assign config packet = MergeLaneBlack ↔
    pd_Status (cp_Decision packet) = DecisionBlocked ∨
    ca_RequiresHumanResolution (cp_Conflict packet) = true ∨
    pd_MinimumLane (cp_Decision packet) = MergeLaneBlack ∨
    (forcedLane packet = None ∧
     RedMax config < rs_Score (cp_RiskSummary_ packet) ∧
     requiresEscalatedReview packet = false ∧
     dr_RequiresCanary (cp_Deployment packet) = false).
Proof.
  intros Hc.
  assert (Hmax : ∀ a, a ≠ MergeLaneBlack →
    maxLane a (pd_MinimumLane (cp_Decision packet)) = MergeLaneBlack →
    pd_MinimumLane (cp_Decision packet) = MergeLaneBlack).
  { intros a Ha H. destruct (maxLane_choice a (pd_MinimumLane (cp_Decision packet))); congruence. }
  assert (Hmin : ∀ a, pd_MinimumLane (cp_Decision packet) = MergeLaneBlack →
    maxLane a (pd_MinimumLane (cp_Decision packet)) = MergeLaneBlack).
  { intros a ->. unfold maxLane. case_decide; [done|]. case_match; [done|]. bool_props.
    symmetry. apply lane_order_inj; [by do 3 right|].
    pose proof (lane_order_bounds a). destruct lane_orders as (?&?&?&?). lia. }
  unfold Assign, forcedLane.
  destruct (decide (pd_Status (cp_Decision packet) = DecisionBlocked)) as [Hb|Hb].
  { rewrite bool_decide_eq_true_2 by done. cbn. naive_solver. }
  rewrite bool_decide_eq_false_2 by done. cbn [orb].
  destruct (ca_RequiresHumanResolution (cp_Conflict packet)); [naive_solver|].
  case_decide; [split; [|naive_solver]; intros ?%Hmax; [naive_solver|done]|].
  case_decide; [naive_solver|].
  destruct (bool_decide _ || bool_decide _); [split; [|naive_solver]; intros ?%Hmax; [naive_solver|done]|].
  destruct (Z.leb_spec (rs_Score (cp_RiskSummary_ packet)) (GreenMax config)),
    (Z.leb_spec (rs_Score (cp_RiskSummary_ packet)) (YellowMax config)),
    (Z.leb_spec (rs_Score (cp_RiskSummary_ packet)) (RedMax config)); try lia;
  destruct (requiresEscalatedReview packet), (dr_RequiresCanary (cp_Deployment packet)),
    (length _ =? 0)%nat; cbn;
  (split; [try (intros ?%Hmax; [|done])|]; naive_solver lia).
Qed.

Lemma assign_black_iff_witness :
  Assign (mkLanesConfig 20 55 85) (with_score 90 zeroChangePacket) = MergeLaneBlack.
Proof.
  apply assign_black_iff; [cbn; lia|]. do 3 right. split_and!; [reflexivity|cbn; lia|reflexivity..].
Defined.

(** The zero configuration does not disable the thresholds: a packet that
    nothing forces, with a positive score and neither a mandatory reviewer nor a
    canary requirement, lands in BLACK. *)
Theorem assign_zero_config packet :
  forcedLane packet = None →
  0 < rs_Score (cp_RiskSummary_ packet) →
  requiresEscalatedReview packet = false →
  dr_RequiresCanary (cp_Deployment packet) = false →
  Assign (mkLanesConfig 0 0 0) packet = MergeLaneBlack.
Proof.
  intros Hf Hs Hr Hd. unfold Assign. rewrite Hf, Hr, Hd. cbn [GreenMax YellowMax RedMax].
  rewrite !(proj2 (Z.leb_gt _ 0)) by lia. done.
Qed.

Lemma assign_zero_config_witness :
  Assign (mkLanesConfig 0 0 0) (with_score 1 zeroChangePacket) = MergeLaneBlack.
Proof. apply assign_zero_config; [reflexivity|cbn; lia|reflexivity..]. Defined.
