(* ===== verification/Diff.v ===== *)
(** [pkg/diff/parser.go]: the unified-diff parser, as the state machine the
    source runs over the lines of the input. *)
From stdpp Require Import base list strings.
From S2P Require Import Prelude GoStrings.

Local Open Scope string_scope.
Local Open Scope list_scope.
Local Open Scope Z_scope.

(** ** Definitions *)
Abbreviation Status := string (only parsing).
Definition StatusAdded : Status := "added".
Definition StatusModified : Status := "modified".
Definition StatusRemoved : Status := "removed".
Definition StatusRenamed : Status := "renamed".

Record File := mkFile {
  f_Path : string;
  f_PreviousPath : string;
  f_Status : Status;
  f_Additions : Z;
  f_Deletions : Z;
  f_Patch : string;
}.

(** The variables of [ParseUnified] that survive an iteration. *)
Record ParseState := mkParseState {
  ps_files : list File;
  ps_current : option File;
  ps_patch : list string;
}.

Definition is_header (line : string) : bool := HasPrefix line "diff --git ".

Definition set_patch (p : string) (f : File) : File :=
  mkFile (f_Path f) (f_PreviousPath f) (f_Status f) (f_Additions f) (f_Deletions f) p.

Definition flush (s : ParseState) : ParseState :=
  match ps_current s with
  | None => s
  | Some current =>
      mkParseState (ps_files s ++ [set_patch (Join newline (ps_patch s)) current]) None []
  end.

(** The [diff --git a/x b/y] branch. *)
Definition start_file (line : string) : File :=
  match Split " " line with
  | _ :: _ :: p2 :: p3 :: _ =>
      mkFile (TrimPrefix p3 "b/") (TrimPrefix p2 "a/") StatusModified 0 0 ""
  | _ => mkFile "" "" StatusModified 0 0 ""
  end.

Definition is_addition (line : string) : bool := HasPrefix line "+" && negb (HasPrefix line "+++").
Definition is_deletion (line : string) : bool := HasPrefix line "-" && negb (HasPrefix line "---").

(** The [switch] over a line of the current file. *)
Definition classify (f : File) (line : string) : File :=
  if HasPrefix line "new file mode" then
    mkFile (f_Path f) (f_PreviousPath f) StatusAdded (f_Additions f) (f_Deletions f) (f_Patch f)
  else if HasPrefix line "deleted file mode" then
    mkFile (f_Path f) (f_PreviousPath f) StatusRemoved (f_Additions f) (f_Deletions f) (f_Patch f)
  else if HasPrefix line "rename from " then
    mkFile (f_Path f) (TrimPrefix line "rename from ") StatusRenamed (f_Additions f) (f_Deletions f) (f_Patch f)
  else if HasPrefix line "rename to " then
    mkFile (TrimPrefix line "rename to ") (f_PreviousPath f) StatusRenamed (f_Additions f) (f_Deletions f) (f_Patch f)
  else if is_addition line then
    mkFile (f_Path f) (f_PreviousPath f) (f_Status f) (f_Additions f + 1) (f_Deletions f) (f_Patch f)
  else if is_deletion line then
    mkFile (f_Path f) (f_PreviousPath f) (f_Status f) (f_Additions f) (f_Deletions f + 1) (f_Patch f)
  else f.

Definition parse_line (s : ParseState) (line : string) : ParseState :=
  if is_header line then
    let s := flush s in
    mkParseState (ps_files s) (Some (start_file line)) (ps_patch s ++ [line])
  else
    match ps_current s with
    | None => s
    | Some current =>
        mkParseState (ps_files s) (Some (classify current line)) (ps_patch s ++ [line])
    end.

(** [ParseUnified] never returns an error. *)
Definition ParseUnified (input : string) : list File :=
  if decide (TrimSpace input = "") then []
  else ps_files (flush (foldl parse_line (mkParseState [] None []) (Split "010" input))).

(** ** Reference definition: group the lines by header, read each group *)

(** The groups of [lines], each starting at its header; what precedes the first
    header is dropped. *)
Fixpoint line_groups (lines : list string) : list string * list (list string) :=
  match lines with
  | [] => ([], [])
  | l :: lines' =>
      let '(pre, gs) := line_groups lines' in
      if is_header l then ([], (l :: pre) :: gs) else (l :: pre, gs)
  end.

Definition file_of_group (g : list string) : File :=
  match g with
  | [] => mkFile "" "" StatusModified 0 0 ""
  | h :: body => set_patch (Join newline g) (foldl classify (start_file h) body)
  end.

Definition parse_spec (input : string) : list File :=
  if decide (TrimSpace input = "") then [] else file_of_group <$> (line_groups (Split "010" input)).2.

(** ** Lemmas *)

(** A state that is well formed: an open file has its lines in [ps_patch],
    starting with the header, and a closed one has none. *)
Definition state_ok (s : ParseState) : Prop :=
  match ps_current s with
  | None => ps_patch s = []
  | Some f => ∃ h body, ps_patch s = h :: body ∧ f = foldl classify (start_file h) body
  end.

Definition pending (s : ParseState) (pre : list string) : list File :=
  match ps_current s with
  | None => []
  | Some _ => [file_of_group (ps_patch s ++ pre)]
  end.

Lemma flush_files s : state_ok s → ps_files (flush s) = ps_files s ++ pending s [].
Proof.
  unfold state_ok, flush, pending. destruct (ps_current s) as [f|]; [|by rewrite app_nil_r].
  intros (h & body & -> & ->). cbn. by rewrite app_nil_r.
Qed.

Lemma parse_line_ok s l : state_ok s → state_ok (parse_line s l).
Proof.
  unfold state_ok, parse_line, flush. destruct (is_header l).
  - destruct (ps_current s); cbn.
    + intros _. by exists l, [].
    + intros ->. by exists l, [].
  - destruct (ps_current s) eqn:E; cbn; [|by rewrite E].
    intros (h & body & -> & ->). exists h, (body ++ [l]). by rewrite foldl_app.
Qed.

Lemma parse_lines_groups lines s :
  state_ok s →
  ps_files (flush (foldl parse_line s lines)) =
  ps_files s ++ pending s (line_groups lines).1 ++ (file_of_group <$> (line_groups lines).2).
Proof.
  revert s. induction lines as [|l lines IH]; intros s Hs; cbn.
  { rewrite flush_files by done. by rewrite app_nil_r. }
  rewrite IH by by apply parse_line_ok.
  destruct (line_groups lines) as [pre gs]. unfold parse_line. destruct (is_header l); cbn.
  - rewrite flush_files by done. unfold state_ok, flush, pending in *.
    destruct (ps_current s); [|rewrite Hs]; rewrite <- ?app_assoc; done.
  - unfold pending. destruct (ps_current s) eqn:E; cbn; [|by rewrite E].
    by rewrite <- !app_assoc.
Qed.

(** The state machine computes the reference definition. *)
Lemma ParseUnified_groups input : ParseUnified input = parse_spec input.
Proof.
  unfold ParseUnified, parse_spec. case_decide; [done|].
  by rewrite parse_lines_groups.
Qed.

Lemma line_groups_concat lines :
  (line_groups lines).1 ++ concat (line_groups lines).2 = lines.
Proof.
  induction lines as [|l lines IH]; [done|]. cbn.
  destruct (line_groups lines) as [pre gs]. destruct (is_header l); cbn in *; by rewrite IH.
Qed.

Lemma line_groups_head lines g :
  g ∈ (line_groups lines).2 → ∃ h body, g = h :: body ∧ is_header h = true ∧
    Forall (λ l, is_header l = false) body.
Proof.
  enough (Forall (λ l, is_header l = false) (line_groups lines).1 ∧
    ∀ g, g ∈ (line_groups lines).2 → ∃ h body, g = h :: body ∧ is_header h = true ∧
      Forall (λ l, is_header l = false) body) as [_ H] by apply H.
  induction lines as [|l lines IH]; cbn; [split; [done|set_solver]|].
  destruct (line_groups lines) as [pre gs]. destruct IH as [IH1 IH2].
  destruct (is_header l) eqn:E; cbn in *; split; auto.
  intros g' [->|Hg]%elem_of_cons; eauto.
Qed.

Lemma line_groups_length lines :
  length (line_groups lines).2 = length (filter (λ l, is_header l = true) lines).
Proof.
  induction lines as [|l lines IH]; [done|]. rewrite filter_cons. cbn.
  destruct (line_groups lines) as [pre gs]. destruct (is_header l); cbn in *.
  - rewrite decide_True by done. cbn. by rewrite IH.
  - by rewrite decide_False by done.
Qed.

Lemma Join_concat sep (gs : list (list string)) :
  Forall (λ g, g ≠ []) gs → Join sep (Join sep <$> gs) = Join sep (concat gs).
Proof.
  induction gs as [|g gs IH]; intros H; [done|].
  apply Forall_cons in H as [Hg H]. cbn [concat fmap list_fmap].
  destruct gs as [|g' gs].
  - cbn. by rewrite app_nil_r.
  - rewrite Join_app by (try done; apply Forall_cons in H as [? _]; by destruct g').
    rewrite <- IH by done. done.
Qed.

Lemma file_of_group_patch g : f_Patch (file_of_group g) = Join newline g.
Proof. by destruct g. Qed.

(** Counting with [classify]. *)
Lemma classify_counts f l :
  f_Additions (classify f l) = f_Additions f + (if is_addition l then 1 else 0) ∧
  f_Deletions (classify f l) = f_Deletions f + (if is_deletion l then 1 else 0).
Proof.
  unfold classify, is_addition, is_deletion.
  destruct (HasPrefix l "new file mode") eqn:E1;
    [|destruct (HasPrefix l "deleted file mode") eqn:E2;
    [|destruct (HasPrefix l "rename from ") eqn:E3;
    [|destruct (HasPrefix l "rename to ") eqn:E4;
    [|destruct (HasPrefix l "+") eqn:E5]]]].
  all: try (erewrite !(HasPrefix_other l) by done; cbn; lia).
  - erewrite !(HasPrefix_other l _ _ "-"%char) by done. cbn. destruct (HasPrefix l "+++"); cbn; lia.
  - cbn. destruct (HasPrefix l "-" && _); cbn; lia.
Qed.

Definition count (p : string → bool) (lines : list string) : Z :=
  Z.of_nat (length (filter (λ l, p l = true) lines)).

Lemma count_snoc p lines l : count p (lines ++ [l]) = count p lines + (if p l then 1 else 0).
Proof.
  unfold count. rewrite filter_app, length_app. cbn.
  destruct (p l) eqn:E; [rewrite decide_True by done|rewrite decide_False by congruence]; cbn; lia.
Qed.

Lemma classify_all_counts f body :
  f_Additions (foldl classify f body) = f_Additions f + count is_addition body ∧
  f_Deletions (foldl classify f body) = f_Deletions f + count is_deletion body.
Proof.
  induction body as [|l body IH] using rev_ind; [unfold count; cbn; lia|].
  rewrite foldl_app. cbn. destruct (classify_counts (foldl classify f body) l) as [-> ->].
  rewrite !count_snoc. lia.
Qed.

Lemma start_file_counts h : f_Additions (start_file h) = 0 ∧ f_Deletions (start_file h) = 0.
Proof. unfold start_file. by repeat case_match. Qed.

(** ** Theorems *)

(** C19: the parser is the reference definition that splits the lines at the
    [diff --git] headers and reads each group: one file per header line, in
    order. *)
Theorem parse_unified_spec input :
  ParseUnified input = parse_spec input ∧
  (TrimSpace input ≠ "" →
   length (ParseUnified input) =
   length (filter (λ l, is_header l = true) (Split "010" input))).
Proof.
  split; [apply ParseUnified_groups|]. intros H.
  rewrite ParseUnified_groups. unfold parse_spec. rewrite decide_False by done.
  by rewrite length_fmap, line_groups_length.
Qed.

Definition sample_diff : string :=
  Join newline ["diff --git a/x.go b/x.go"; "--- a/x.go"; "+++ b/x.go"; "@@ -1 +1,2 @@";
    "-old"; "+new"; "+more"; "diff --git a/y b/z"; "rename from y"; "rename to z"; ""].

Lemma parse_unified_spec_witness : length (ParseUnified sample_diff) = 2%nat.
Proof. rewrite (proj2 (parse_unified_spec sample_diff)); [reflexivity|by vm_compute]. Defined.

(** C20: no byte of the diff is lost or moved: for an input that starts with a
    header, the patches of the files joined with newlines are the input. *)
Theorem parse_unified_roundtrip input :
  is_header input = true →
  Join newline (f_Patch <$> ParseUnified input) = input.
Proof.
  intros H.
  assert (Hne : TrimSpace input ≠ "").
  { apply HasPrefix_spec in H as [r ->]. by apply TrimSpace_cons_ne. }
  rewrite ParseUnified_groups. unfold parse_spec. rewrite decide_False by done.
  rewrite <- list_fmap_compose.
  rewrite (list_fmap_ext _ (Join newline)) by (intros; apply file_of_group_patch).
  rewrite Join_concat.
  - assert (Hpre : (line_groups (Split "010" input)).1 = []).
    { apply HasPrefix_spec in H as [r ->].
      destruct (Split_app_l "010" "diff --git " r) as (h & t & _ & ->); [done|].
      cbn [line_groups]. destruct (line_groups t). unfold is_header. by rewrite HasPrefix_app. }
    pose proof (line_groups_concat (Split "010" input)) as Hc. rewrite Hpre in Hc.
    cbn in Hc. rewrite Hc. apply Join_Split.
  - apply Forall_forall. intros g Hg%line_groups_head. by destruct Hg as (? & ? & -> & _).
Qed.

Lemma parse_unified_roundtrip_witness :
  Join newline (f_Patch <$> ParseUnified sample_diff) = sample_diff.
Proof. apply parse_unified_roundtrip. reflexivity. Defined.

(** The counters of every parsed file are the numbers of its patch lines
    that start with one [+] (resp. [-]) and not with three; the patch's first
    line is the header the file was opened by. *)
Theorem parse_unified_counts input f :
  f ∈ ParseUnified input →
  ∃ h body,
    f_Patch f = Join newline (h :: body) ∧ is_header h = true ∧
    Forall (λ l, is_header l = false) body ∧
    f_Additions f = count is_addition body ∧ f_Deletions f = count is_deletion body.
Proof.
  rewrite ParseUnified_groups. unfold parse_spec. case_decide; [set_solver|].
  intros (g & -> & Hg)%list_elem_of_fmap.
  destruct (line_groups_head _ _ Hg) as (h & body & -> & Hh & Hb).
  exists h, body. destruct (classify_all_counts (start_file h) body) as [Ha Hd].
  destruct (start_file_counts h). cbn. rewrite Ha, Hd. auto with lia.
Qed.

Lemma parse_unified_counts_witness :
  ∃ f, f ∈ ParseUnified sample_diff ∧ f_Additions f = 2 ∧ ∃ h body,
    f_Patch f = Join newline (h :: body) ∧ is_header h = true ∧
    Forall (λ l, is_header l = false) body ∧
    f_Additions f = count is_addition body ∧ f_Deletions f = count is_deletion body.
Proof.
  exists (default (mkFile "" "" "" 0 0 "") (head (ParseUnified sample_diff))).
  split; [vm_compute; left|]. split; [reflexivity|].
  apply (parse_unified_counts sample_diff). vm_compute. left.
Defined.

(** A removed line that itself starts with [--] is not counted as a deletion
    (its diff line starts with three dashes). *)
Example sql_comment_deletion :
  f_Deletions <$> ParseUnified (Join newline
    ["diff --git a/m.sql b/m.sql"; "--- a/m.sql"; "+++ b/m.sql"; "@@ -1,2 +1 @@";
     "--- drop the old index"; "-drop index i;"]) = [1].
Proof. reflexivity. Qed.
