(* ===== verification/GoPath.v ===== *)
(** Go's [path] and [path/filepath] on Unix, as far as the sources call them:
    [Base], [Ext], [IsAbs] and the glob matcher [Match]. *)
From stdpp Require Import base list strings.
From S2P Require Import Prelude GoStrings.

Local Open Scope string_scope.
Local Open Scope list_scope.
Local Open Scope Z_scope.

Definition slash : ascii := "/".

(** [filepath.Ext]: from the last dot of the last path element. *)
Fixpoint Ext (path : string) : string :=
  match path with
  | EmptyString => ""
  | String a rest =>
      match Ext rest with
      | EmptyString => if is_byte "." a && negb (any_byte (is_byte slash) rest) then path else ""
      | e => e
      end
  end.

(** What follows the last slash. *)
Fixpoint last_element (path : string) : string :=
  match path with
  | EmptyString => ""
  | String a rest =>
      if any_byte (is_byte slash) path then
        (if any_byte (is_byte slash) rest then last_element rest
         else if is_byte slash a then rest else last_element rest)
      else path
  end.

(** [filepath.Base]. *)
Definition Base (path : string) : string :=
  if decide (path = "") then "."
  else
    let stripped := TrimRight path slash in
    if decide (stripped = "") then "/" else last_element stripped.

Definition IsAbs (path : string) : bool := HasPrefix path "/".

(** [filepath.Clean]: the elements of the path that stay, of a rooted path or
    not: empty elements and [.] go, [..] drops the element before it, and stays
    at the front of a path that is not rooted. *)
Definition clean_step (rooted : bool) (kept : list string) (element : string) : list string :=
  if decide (element = "" ∨ element = ".") then kept
  else if decide (element = "..") then
    match last kept with
    | None => if rooted then [] else [".."]
    | Some l => if decide (l = "..") then kept ++ [".."] else take (length kept - 1) kept
    end
  else kept ++ [element].

Definition Clean (path : string) : string :=
  let elements := foldl (clean_step (IsAbs path)) [] (Split slash path) in
  if IsAbs path then "/" +:+ Join "/" elements
  else match elements with [] => "." | _ => Join "/" elements end.

(** [filepath.Join]: from the first element that is not empty on. *)
Fixpoint filepath_Join (elements : list string) : string :=
  match elements with
  | [] => ""
  | e :: rest => if decide (e = "") then filepath_Join rest else Clean (Join "/" elements)
  end.

Example clean_paths :
  Clean <$> ["a//b/./c/.."; "/../a"; "../../x/.."; ""; "./merger.yaml"; "/"] = ["a/b"; "/a"; "../.."; "."; "merger.yaml"; "/"].
Proof. by vm_compute. Qed.

(** ** [path.Match]

    A pattern is parsed into chunks, each preceded or not by stars, exactly as
    Go scans it; a malformed pattern never matches ([ErrBadPattern]). *)
Inductive token :=
  | TAny
  | TClass (negated : bool) (ranges : list (ascii * ascii))
  | TLit (c : ascii)
  | TStar.

(** [getEsc]: one possibly escaped character of a class, which may not end
    the pattern. *)
Definition get_esc (s : string) : option (ascii * string) :=
  match s with
  | EmptyString => None
  | String c rest =>
      if is_byte "-" c || is_byte "]" c then None
      else if is_byte "\" c then
        match rest with
        | String c' (String _ _ as rest') => Some (c', rest')
        | _ => None
        end
      else match rest with EmptyString => None | _ => Some (c, rest) end
  end.

(** The ranges of a class up to its closing bracket; [fuel] is at least the
    length of the string. *)
Fixpoint parse_ranges (fuel : nat) (n : nat) (s : string) : option (list (ascii * ascii) * string) :=
  match fuel with
  | O => None
  | S fuel =>
      match s with
      | String c rest =>
          if is_byte "]" c && (0 <? n)%nat then Some ([], rest)
          else
            '(lo, s1) ← get_esc s;
            '(hi, s2) ← match s1 with
                        | String d s1' => if is_byte "-" d then get_esc s1' else Some (lo, s1)
                        | EmptyString => Some (lo, s1)
                        end;
            '(rs, s3) ← parse_ranges fuel (S n) s2;
            Some ((lo, hi) :: rs, s3)
      | EmptyString => None
      end
  end.

Fixpoint parse_pattern (fuel : nat) (s : string) : option (list token) :=
  match fuel with
  | O => None
  | S fuel =>
      match s with
      | EmptyString => Some []
      | String c rest =>
          if is_byte "*" c then cons TStar <$> parse_pattern fuel rest
          else if is_byte "?" c then cons TAny <$> parse_pattern fuel rest
          else if is_byte "[" c then
            let '(neg, body) :=
              match rest with
              | String d rest' => if is_byte "^" d then (true, rest') else (false, rest)
              | EmptyString => (false, rest)
              end in
            '(rs, rest') ← parse_ranges (S (String.length body)) 0 body;
            cons (TClass neg rs) <$> parse_pattern fuel rest'
          else if is_byte "\" c then
            match rest with
            | String d rest' => cons (TLit d) <$> parse_pattern fuel rest'
            | EmptyString => None
            end
          else cons (TLit c) <$> parse_pattern fuel rest
      end
  end.

Definition match_token (t : token) (c : ascii) : bool :=
  match t with
  | TAny => negb (is_byte slash c)
  | TClass neg rs => negb (Bool.eqb neg (existsb (λ r, in_range r.1 r.2 c) rs))
  | TLit d => is_byte d c
  | TStar => false
  end.

(** [matchChunk]: the rest of the name when the chunk matches a prefix of it. *)
Fixpoint match_chunk (chunk : list token) (name : string) : option string :=
  match chunk, name with
  | [], _ => Some name
  | t :: chunk', String c name' => if match_token t c then match_chunk chunk' name' else None
  | _ :: _, EmptyString => None
  end.

(** [scanChunk]: leading stars, then the tokens up to the next star. *)
Fixpoint skip_stars (p : list token) : bool * list token :=
  match p with
  | TStar :: p' => (true, (skip_stars p').2)
  | _ => (false, p)
  end.
Fixpoint take_chunk (p : list token) : list token * list token :=
  match p with
  | [] => ([], [])
  | TStar :: _ => ([], p)
  | t :: p' => let '(c, r) := take_chunk p' in (t :: c, r)
  end.

(** The loop [for i := 0; i < len(name) && name[i] != '/'; i++] of [Match]. *)
Fixpoint star_match (chunk : list token) (last : bool) (name : string) : option string :=
  match name with
  | EmptyString => None
  | String c name' =>
      if is_byte slash c then None
      else match match_chunk chunk name' with
           | Some t => if last && negb (bool_decide (t = "")) then star_match chunk last name' else Some t
           | None => star_match chunk last name'
           end
  end.

Fixpoint match_pattern (fuel : nat) (p : list token) (name : string) : bool :=
  match fuel with
  | O => false
  | S fuel =>
      match p with
      | [] => bool_decide (name = "")
      | _ =>
          let '(star, p1) := skip_stars p in
          let '(chunk, rest) := take_chunk p1 in
          if star && bool_decide (chunk = []) then negb (any_byte (is_byte slash) name)
          else
            match match_chunk chunk name with
            | Some t =>
                if bool_decide (t = "") || negb (bool_decide (rest = [])) then match_pattern fuel rest t
                else if star then
                  match star_match chunk (bool_decide (rest = [])) name with
                  | Some t => match_pattern fuel rest t
                  | None => false
                  end
                else false
            | None =>
                if star then
                  match star_match chunk (bool_decide (rest = [])) name with
                  | Some t => match_pattern fuel rest t
                  | None => false
                  end
                else false
            end
      end
  end.

(** [ok, _ := path.Match(pattern, name)]. *)
Definition Match (pattern name : string) : bool :=
  match parse_pattern (S (String.length pattern)) pattern with
  | Some p => match_pattern (S (length p)) p name
  | None => false
  end.
