(* ===== verification/ConflictRisk.v ===== *)
(** [internal/conflictrisk/analyzer.go]: merge-conflict and base-drift routing
    of a Change Packet. *)
From stdpp Require Import base list gmap strings sorting.
From S2P Require Import Prelude GoStrings GoPath Domain.

Local Open Scope string_scope.
Local Open Scope list_scope.
Local Open Scope Z_scope.

(** ** Definitions *)

Definition currentBaseSHAMetadataKey : string := "current_base_sha".

Definition hasConflictMarkers (patch : string) : bool :=
  Contains patch "<<<<<<< " && Contains patch "=======" && Contains patch ">>>>>>> ".

(** [filepath.ToSlash] is the identity on Unix. *)
Definition normalizedPath (path : string) : string := TrimPrefix (TrimSpace path) "./".

Definition isPolicySensitive (path : string) : bool :=
  let base := ToLower (Base path) in
  let lower := ToLower path in
  bool_decide (base = "codeowners") || bool_decide (base = "merger.yaml") ||
  HasPrefix lower ".github/workflows/" || HasPrefix lower "config/" ||
  HasPrefix lower "deployments/" || Contains lower "terraform" ||
  Contains lower "migration" || Contains lower "schema".

Definition path_set (paths : list string) : gmap string () :=
  foldl (λ set path, <[path := ()]> set) ∅ paths.

Definition uniqueSorted `{MapOrder} (paths : list string) : list string :=
  merge_sort String.le (map_range (path_set paths)).*1.

(** The three collections the first loop of [Analyze] fills. *)
Record Collected := mkCollected {
  col_seen : gmap string (list string);
  col_sensitive : list string;
  col_markers : list string;
}.

Definition collect (c : Collected) (file : ChangedFile) : Collected :=
  let path := normalizedPath (file_Path file) in
  if decide (path = "") then c
  else
    mkCollected
      (<[path := default [] (col_seen c !! path) ++ [file_Path file]]> (col_seen c))
      (if isPolicySensitive path then col_sensitive c ++ [file_Path file] else col_sensitive c)
      (if hasConflictMarkers (file_Patch file) then col_markers c ++ [file_Path file] else col_markers c).

Definition collect_all (files : list ChangedFile) : Collected :=
  foldl collect (mkCollected ∅ [] []) files.

(** One finding: appended with its score and mitigation, and a route. *)
Definition add_finding (f : ConflictFinding) (score : Z) (mitigation : string)
    (route : ConflictRoute) (human : bool) (a : ConflictAssessment) : ConflictAssessment :=
  {| ca_BaseSHA := ca_BaseSHA a; ca_CurrentBaseSHA := ca_CurrentBaseSHA a;
     ca_Route := route; ca_Score := ca_Score a + score;
     ca_RequiresHumanResolution := ca_RequiresHumanResolution a || human;
     ca_Findings := ca_Findings a ++ [f]; ca_Mitigations := ca_Mitigations a ++ [mitigation] |}.

(** [if assessment.Route == none { assessment.Route = refresh_and_verify }]. *)
Definition refresh_if_none (a : ConflictAssessment) : ConflictRoute :=
  if decide (ca_Route a = ConflictRouteNone) then ConflictRouteRefreshAndVerify else ca_Route a.

Definition check_drift (a : ConflictAssessment) : ConflictAssessment :=
  if bool_decide (ca_BaseSHA a ≠ "") && bool_decide (ca_CurrentBaseSHA a ≠ "") &&
     bool_decide (ca_BaseSHA a ≠ ca_CurrentBaseSHA a)
  then add_finding
         (mkConflictFinding "base_drift" SeverityHigh
            "the target branch advanced after this change was based" [])
         25 "rebase or update the change onto the current target branch and rerun required checks"
         ConflictRouteRefreshAndVerify false a
  else a.

Definition check_overlap `{MapOrder} (a : ConflictAssessment) (entry : string * list string)
    : ConflictAssessment :=
  if (length entry.2 <? 2)%nat then a
  else add_finding
         (mkConflictFinding "overlapping_diff_entries" SeverityMedium
            "multiple diff entries modify the same normalized path" (uniqueSorted entry.2))
         20 "inspect overlapping diff entries before merge and verify the resulting file content"
         (refresh_if_none a) false a.

Definition check_sensitive `{MapOrder} (sensitive : list string) (a : ConflictAssessment)
    : ConflictAssessment :=
  if (0 <? length sensitive)%nat then
    add_finding
      (mkConflictFinding "policy_sensitive_files" SeverityMedium
         "the change touches files whose concurrent edits can alter policy, deployment, or ownership behavior"
         (uniqueSorted sensitive))
      10 "confirm policy-sensitive changes against the current target branch and obtain the designated owner review"
      (refresh_if_none a) false a
  else a.

Definition check_markers `{MapOrder} (markerPaths : list string) (a : ConflictAssessment)
    : ConflictAssessment :=
  if (0 <? length markerPaths)%nat then
    add_finding
      (mkConflictFinding "conflict_markers" SeverityCritical
         "unresolved merge-conflict markers are present in the proposed patch" (uniqueSorted markerPaths))
      45 "resolve conflict markers manually, inspect the resulting diff, and rerun all required verification"
      ConflictRouteHumanResolution true a
  else a.

Definition cap_score (a : ConflictAssessment) : ConflictAssessment :=
  {| ca_BaseSHA := ca_BaseSHA a; ca_CurrentBaseSHA := ca_CurrentBaseSHA a;
     ca_Route := ca_Route a; ca_Score := Z.min (ca_Score a) 100;
     ca_RequiresHumanResolution := ca_RequiresHumanResolution a;
     ca_Findings := ca_Findings a; ca_Mitigations := ca_Mitigations a |}.

Definition initial_assessment (packet : ChangePacket) : ConflictAssessment :=
  {| ca_BaseSHA := pr_BaseSHA (cp_PR packet);
     ca_CurrentBaseSHA := TrimSpace (meta (cp_Metadata packet) currentBaseSHAMetadataKey);
     ca_Route := ConflictRouteNone; ca_Score := 0; ca_RequiresHumanResolution := false;
     ca_Findings := []; ca_Mitigations := [] |}.

Definition Analyze `{MapOrder} (packet : ChangePacket) : ConflictAssessment :=
  let c := collect_all (cp_Files packet) in
  let a := check_drift (initial_assessment packet) in
  let a := foldl check_overlap a (map_range (col_seen c)) in
  let a := check_sensitive (col_sensitive c) a in
  let a := check_markers (col_markers c) a in
  cap_score a.

(** ** Specification: what the assessment depends on *)

Definition drifted (packet : ChangePacket) : bool :=
  let a := initial_assessment packet in
  bool_decide (ca_BaseSHA a ≠ "") && bool_decide (ca_CurrentBaseSHA a ≠ "") &&
  bool_decide (ca_BaseSHA a ≠ ca_CurrentBaseSHA a).

(** Files whose normalized path is not empty are the ones that count. *)
Definition counted (file : ChangedFile) : bool := bool_decide (normalizedPath (file_Path file) ≠ "").

Definition has_marker_file (packet : ChangePacket) : bool :=
  existsb (λ f, counted f && hasConflictMarkers (file_Patch f)) (cp_Files packet).
Definition has_sensitive_file (packet : ChangePacket) : bool :=
  existsb (λ f, counted f && isPolicySensitive (normalizedPath (file_Path f))) (cp_Files packet).

(** The normalized paths that two or more entries of the diff touch, with those
    entries. *)
Definition same_path (p : string) (file : ChangedFile) : bool :=
  counted file && bool_decide (normalizedPath (file_Path file) = p).
Definition is_overlap (entry : string * list string) : bool := negb (length entry.2 <? 2)%nat.
Definition overlaps (packet : ChangePacket) : list (string * list string) :=
  filter (λ e, is_overlap e = true) (map_to_list (col_seen (collect_all (cp_Files packet)))).

(** ** Lemmas *)

Lemma length_pos_true {A} (l : list A) : (0 <? length l)%nat = true ↔ l ≠ [].
Proof. by destruct l. Qed.

(** The tests of one iteration of the first loop. *)
Ltac collect_step :=
  unfold collect, counted;
  match goal with |- context [decide (normalizedPath ?p = "")] =>
    destruct (decide (normalizedPath p = "")); cbn;
    [rewrite bool_decide_eq_false_2 by tauto|rewrite bool_decide_eq_true_2 by done]
  end; cbn; repeat case_match; by rewrite ?app_nil_r.

Lemma collect_all_markers files :
  col_markers (collect_all files) =
  file_Path <$> filter (λ f, counted f && hasConflictMarkers (file_Patch f) = true) files.
Proof.
  unfold collect_all. rewrite (foldl_collects _ col_markers
    (λ f, counted f && hasConflictMarkers (file_Patch f)) file_Path); [done|].
  intros s f. collect_step.
Qed.

Lemma collect_all_sensitive files :
  col_sensitive (collect_all files) =
  file_Path <$> filter (λ f, counted f && isPolicySensitive (normalizedPath (file_Path f)) = true) files.
Proof.
  unfold collect_all. rewrite (foldl_collects _ col_sensitive
    (λ f, counted f && isPolicySensitive (normalizedPath (file_Path f))) file_Path); [done|].
  intros s f. collect_step.
Qed.

(** The paths recorded under a normalized path are those of its files, in diff
    order. *)
Lemma collect_all_seen files p :
  default [] (col_seen (collect_all files) !! p) =
  file_Path <$> filter (λ f, same_path p f = true) files.
Proof.
  unfold collect_all.
  rewrite (foldl_collects _ (λ c, default [] (col_seen c !! p)) (same_path p) file_Path); [done|].
  intros s f. unfold collect, same_path, counted. case_decide as E; cbn.
  - rewrite bool_decide_eq_false_2 by tauto. by rewrite app_nil_r.
  - rewrite (bool_decide_eq_true_2 (_ ≠ "")) by done. cbn. case_bool_decide as Hp.
    + subst p. by rewrite lookup_insert_eq.
    + rewrite lookup_insert_ne by done. by rewrite app_nil_r.
Qed.

Lemma length_pos_fmap_filter {A B} (h : A → B) (p : A → bool) l :
  (0 <? length (h <$> filter (λ a, p a = true) l))%nat = existsb p l.
Proof. apply eq_true_iff_eq. by rewrite length_pos_true, fmap_filter_nonempty. Qed.

(** [uniqueSorted] does not depend on the iteration order of its set. *)
Lemma elem_of_path_set paths p : is_Some (path_set paths !! p) ↔ p ∈ paths.
Proof.
  unfold path_set. induction paths as [|q paths IH] using rev_ind.
  { cbn [foldl]. rewrite (lookup_empty (M:=gmap string)). split; [by intros [? ?]|set_solver]. }
  rewrite foldl_app, elem_of_app, list_elem_of_singleton, <- IH. cbn.
  destruct (decide (q = p)) as [->|]; simplify_map_eq; naive_solver.
Qed.

Lemma uniqueSorted_order (H1 H2 : MapOrder) paths :
  @uniqueSorted H1 paths = @uniqueSorted H2 paths.
Proof.
  unfold uniqueSorted. apply (Sorted_unique String.le).
  - apply Sorted_merge_sort, _.
  - apply Sorted_merge_sort, _.
  - rewrite !merge_sort_Permutation. by rewrite !map_range_perm.
Qed.

Lemma uniqueSorted_spec `{MapOrder} paths :
  Sorted String.le (uniqueSorted paths) ∧ NoDup (uniqueSorted paths) ∧
  ∀ p, p ∈ uniqueSorted paths ↔ p ∈ paths.
Proof.
  unfold uniqueSorted. split_and!.
  - apply Sorted_merge_sort, _.
  - rewrite merge_sort_Permutation. apply NoDup_map_range.
  - intros p. rewrite merge_sort_Permutation, list_elem_of_fmap, <- elem_of_path_set.
    split.
    + intros ([q []] & -> & Hq%elem_of_map_range). eauto.
    + intros [[] Hp]. exists (p, ()). by rewrite elem_of_map_range.
Qed.

Definition overlap_finding `{MapOrder} (entry : string * list string) : ConflictFinding :=
  mkConflictFinding "overlapping_diff_entries" SeverityMedium
    "multiple diff entries modify the same normalized path" (uniqueSorted entry.2).

(** What the loop over [seen] adds, from the entries that overlap. *)
Definition add_overlaps `{MapOrder} (hits : list (string * list string))
    (a : ConflictAssessment) : ConflictAssessment :=
  {| ca_BaseSHA := ca_BaseSHA a; ca_CurrentBaseSHA := ca_CurrentBaseSHA a;
     ca_Route := if decide (hits = []) then ca_Route a else refresh_if_none a;
     ca_Score := ca_Score a + 20 * Z.of_nat (length hits);
     ca_RequiresHumanResolution := ca_RequiresHumanResolution a;
     ca_Findings := ca_Findings a ++ (overlap_finding <$> hits);
     ca_Mitigations := ca_Mitigations a ++ replicate (length hits)
       "inspect overlapping diff entries before merge and verify the resulting file content" |}.

Lemma refresh_if_none_idem a r :
  ca_Route r = refresh_if_none a → refresh_if_none r = refresh_if_none a.
Proof. unfold refresh_if_none. intros ->. by repeat case_decide. Qed.

Lemma check_overlap_loop `{MapOrder} a es :
  foldl check_overlap a es = add_overlaps (filter (λ e, is_overlap e = true) es) a.
Proof.
  induction es as [|e es IH] using rev_ind.
  { destruct a. unfold add_overlaps. cbn. rewrite !app_nil_r. f_equal. lia. }
  rewrite foldl_app, filter_app, IH. cbn [foldl]. rewrite filter_cons.
  set (hits := filter _ es). unfold check_overlap, is_overlap.
  destruct (length e.2 <? 2)%nat; cbn.
  { rewrite decide_False by done. by rewrite app_nil_r. }
  rewrite (decide_True (P := true = true)) by done.
  unfold add_overlaps, add_finding. clearbody hits. cbn. f_equal.
  - rewrite (decide_False (P := hits ++ [e] = [])) by (by destruct hits).
    unfold refresh_if_none. cbn. by repeat (case_decide; cbn).
  - rewrite length_app. cbn. lia.
  - by rewrite orb_false_r.
  - by rewrite fmap_app, app_assoc.
  - rewrite length_app, replicate_add, app_assoc. done.
Qed.

(** The assessment apart from the order of its findings. *)
Definition without_findings (a : ConflictAssessment) : ConflictAssessment :=
  {| ca_BaseSHA := ca_BaseSHA a; ca_CurrentBaseSHA := ca_CurrentBaseSHA a;
     ca_Route := ca_Route a; ca_Score := ca_Score a;
     ca_RequiresHumanResolution := ca_RequiresHumanResolution a;
     ca_Findings := []; ca_Mitigations := ca_Mitigations a |}.


(** Equal up to the order of the findings. *)
Definition same_assessment (a b : ConflictAssessment) : Prop :=
  without_findings a = without_findings b ∧ ca_Findings a ≡ₚ ca_Findings b.

#[global] Instance cap_score_proper : Proper (same_assessment ==> same_assessment) cap_score.
Proof. intros [] [] [[= -> -> -> -> -> ->] Hf]. by split. Qed.

#[global] Instance add_finding_proper f score mitigation :
  Proper ((=) ==> (=) ==> same_assessment ==> same_assessment) (add_finding f score mitigation).
Proof.
  intros r ? <- h ? <- [] [] [[= -> -> -> -> -> ->] Hf]. split; [done|]. cbn in *. by rewrite Hf.
Qed.

#[global] Instance refresh_if_none_proper : Proper (same_assessment ==> (=)) refresh_if_none.
Proof. intros [] [] [[= -> -> -> -> -> ->] Hf]. done. Qed.

Lemma check_sensitive_same (H1 H2 : MapOrder) paths a b :
  same_assessment a b → same_assessment (@check_sensitive H1 paths a) (@check_sensitive H2 paths b).
Proof.
  intros Hab. unfold check_sensitive. rewrite (uniqueSorted_order H1 H2).
  destruct (0 <? _)%nat; [|done]. by apply add_finding_proper; [apply refresh_if_none_proper|..].
Qed.

Lemma check_markers_same (H1 H2 : MapOrder) paths a b :
  same_assessment a b → same_assessment (@check_markers H1 paths a) (@check_markers H2 paths b).
Proof.
  intros Hab. unfold check_markers. rewrite (uniqueSorted_order H1 H2).
  destruct (0 <? _)%nat; [|done]. by apply add_finding_proper.
Qed.

Lemma add_overlaps_same (H1 H2 : MapOrder) h1 h2 a :
  h1 ≡ₚ h2 → same_assessment (@add_overlaps H1 h1 a) (@add_overlaps H2 h2 a).
Proof.
  intros P. assert (length h1 = length h2) as Hlen by (by rewrite P).
  split; cbn.
  - unfold without_findings. cbn. rewrite Hlen. f_equal.
    destruct h1, h2; try discriminate Hlen; done.
  - f_equiv. rewrite P. apply Permutation_refl', list_fmap_ext. intros i e _.
    unfold overlap_finding. by rewrite (uniqueSorted_order H1 H2).
Qed.

(** ** Properties *)

(** The number of overlapping paths, whatever order [seen] is ranged in. *)
Lemma overlap_hits `{MapOrder} packet :
  filter (λ e, is_overlap e = true) (map_range (col_seen (collect_all (cp_Files packet)))) ≡ₚ
  overlaps packet.
Proof. unfold overlaps. by rewrite map_range_perm. Qed.

Lemma Analyze_human `{MapOrder} packet :
  ca_RequiresHumanResolution (Analyze packet) = has_marker_file packet.
Proof.
  unfold Analyze. rewrite check_overlap_loop. unfold check_sensitive, check_markers.
  rewrite collect_all_sensitive, collect_all_markers, !length_pos_fmap_filter.
  fold (has_sensitive_file packet) (has_marker_file packet). unfold check_drift.
  by destruct (_ && _), (has_sensitive_file packet), (has_marker_file packet).
Qed.

Definition when (b : bool) (points : Z) : Z := if b then points else 0.

(** C23: the assessment is the code's table of signals: base drift weighs 25,
    every path that several diff entries touch 20, policy-sensitive files 10 and
    conflict markers 45, capped at 100; a human must resolve exactly when a
    counted file carries conflict markers; otherwise any signal routes to
    refresh-and-verify, and no signal to no action. *)
Theorem analyze_spec `{MapOrder} packet :
  let a := Analyze packet in
  ca_Score a = Z.min 100 (when (drifted packet) 25 + 20 * Z.of_nat (length (overlaps packet)) +
                 when (has_sensitive_file packet) 10 + when (has_marker_file packet) 45) ∧
  ca_RequiresHumanResolution a = has_marker_file packet ∧
  ca_Route a = (if has_marker_file packet then ConflictRouteHumanResolution
                else if drifted packet || negb (bool_decide (overlaps packet = [])) ||
                        has_sensitive_file packet
                then ConflictRouteRefreshAndVerify else ConflictRouteNone).
Proof.
  cbn zeta. unfold Analyze. rewrite check_overlap_loop.
  pose proof (overlap_hits packet) as Hp.
  set (hits := filter _ _) in *. rewrite <- (Permutation_length Hp).
  replace (bool_decide (overlaps packet = [])) with (bool_decide (hits = [])) by
    (apply bool_decide_ext; rewrite <- !length_zero_iff_nil; by rewrite Hp).
  unfold check_sensitive, check_markers.
  rewrite collect_all_sensitive, collect_all_markers, !length_pos_fmap_filter.
  fold (has_sensitive_file packet) (has_marker_file packet).
  unfold check_drift. fold (drifted packet). clearbody hits. clear Hp.
  destruct (drifted packet), (has_sensitive_file packet), (has_marker_file packet), hits;
    (split_and!; [cbn -[Z.mul Z.add Z.of_nat Z.min]; rewrite (Z.min_comm 100); f_equal; lia|done|done]).
Qed.

(** The assessment does not depend on the order in which Go ranges over the
    map of seen paths: score, route, mitigations and the human-resolution flag
    are equal for any two orders, and the findings are the same up to their
    order. *)
Theorem analyze_order_independent (H1 H2 : MapOrder) packet :
  same_assessment (@Analyze H1 packet) (@Analyze H2 packet).
Proof.
  unfold Analyze. rewrite !check_overlap_loop.
  apply cap_score_proper, check_markers_same, check_sensitive_same, add_overlaps_same.
  by rewrite (@overlap_hits H1), (@overlap_hits H2).
Qed.

(** The order of the findings is not: the comment of [Analyze] promises a
    deterministic assessment, but two runs on this packet may list its two
    overlapping paths in either order. *)
Definition two_overlaps : ChangePacket :=
  let file p := mkChangedFile p "" "" FileModified 1 0 1 "" in
  cp_with_Files (map file ["a"; "./a"; "b"; "./b"]) zeroChangePacket.

Example findings_order_open :
  ca_Findings (@Analyze map_order_sorted two_overlaps) ≠
  ca_Findings (@Analyze map_order_reversed two_overlaps).
Proof. by vm_compute. Qed.
