(* ===== verification/Risk.v ===== *)
(** [internal/risk]: the weighted risk engine that turns mutations, conflict
    signals, runtime criticality and change volume into a score, a severity and
    a list of risks. *)
From stdpp Require Import base list gmap strings sorting.
From S2P Require Import Prelude GoStrings Domain.

Local Open Scope string_scope.
Local Open Scope list_scope.
Local Open Scope Z_scope.

(** ** Definitions *)

Definition classifyRisk (kind : MutationKind) : RiskType * string * list string :=
  if decide (kind = MutationAuthBehaviorChange) then
    (RiskSecurity, "security control surface changed", ["security review"; "auth integration tests"])
  else if decide (kind = MutationDatabaseSchema) then
    (RiskSchema, "schema compatibility may affect runtime behavior", ["migration plan"; "rollback validation"])
  else if decide (kind = MutationRuntimeConfig ∨ kind = MutationDeploymentWorkflow) then
    (RiskRollout, "rollout behavior changed", ["canary"; "runtime smoke tests"])
  else if decide (kind = MutationDependency) then
    (RiskDependency, "dependency graph changed", ["dependency diff review"; "build provenance"])
  else if decide (kind = MutationDataAccess) then
    (RiskRuntime, "data access behavior changed", ["integration tests"; "data consistency validation"])
  else
    (RiskRuntime, "runtime behavior may have shifted", ["integration tests"]).

Abbreviation Weights := (gmap string Z).

Definition defaultWeights : Weights := list_to_map [
  (MutationAuthBehaviorChange, 35);
  (MutationDatabaseSchema, 32);
  (MutationRuntimeConfig, 20);
  (MutationAPIContract, 26);
  (MutationDependency, 15);
  (MutationInfrastructure, 28);
  (MutationDataAccess, 24);
  (MutationDeploymentWorkflow, 24);
  (MutationObservabilityContract, 12);
  (MutationUnknown, 8)].

(** [e.weights[kind]]: a kind without a weight reads as 0. *)
Definition weight (weights : Weights) (kind : MutationKind) : Z := default 0 (weights !! kind).

Definition severityFromScore (score : Z) : Severity :=
  if 80 <=? score then SeverityCritical
  else if 55 <=? score then SeverityHigh
  else if 25 <=? score then SeverityMedium
  else SeverityLow.

Definition clampScore (score : Z) : Z :=
  if 100 <? score then 100 else if score <? 0 then 0 else score.

Definition appendUnique (values candidates : list string) : list string :=
  append_unique_by (λ value candidate, bool_decide (value = candidate)) values candidates.

(** The map of risks under construction.  The code's values are pointers that
    only this map holds, so updating one is updating the map. *)
Abbreviation RiskMap := (gmap string Risk).

Definition applyMutationRisk (weights : Weights) (riskByType : RiskMap) (mutation : Mutation)
    : RiskMap * Z :=
  let base := weight weights (mut_Kind mutation) in
  let '(riskType, summary, mitigations) := classifyRisk (mut_Kind mutation) in
  let current :=
    match riskByType !! riskType with
    | Some r => r
    | None => mkRisk riskType 0 (mut_Severity mutation) summary "" [] mitigations
    end in
  (<[riskType :=
       mkRisk (risk_Type_ current) (risk_Score current + base) (risk_Severity current)
         (risk_Summary current)
         (TrimSpace (risk_Reason current +:+ "; mutation=" +:+ mut_Kind mutation))
         (appendUnique (risk_AffectedSystems current) (mut_Files mutation))
         (risk_Mitigations current)]> riskByType, base).

Definition applyRuntimeCriticality (score : Z) (criticality : Criticality) : Z :=
  if decide (criticality = CriticalityHigh) then score + 10
  else if decide (criticality = CriticalityTier0) then score + 20
  else score.

Definition applyChangeVolume (score : Z) (fileCount : nat) : Z :=
  if (20 <? fileCount)%nat then score + 8 else score.

(** The loop over [packet.Mutations]. *)
Definition mutation_step (weights : Weights) (s : RiskMap * Z) (mutation : Mutation) : RiskMap * Z :=
  let '(riskByType, base) := applyMutationRisk weights s.1 mutation in (riskByType, s.2 + base).

(** The loop over [packet.Conflict.Findings]. *)
Definition conflict_step (conflict : Risk) (finding : ConflictFinding) : Risk :=
  mkRisk (risk_Type_ conflict) (risk_Score conflict) (risk_Severity conflict) (risk_Summary conflict)
    (TrimSpace (risk_Reason conflict +:+ "; " +:+ cf_Kind finding))
    (appendUnique (risk_AffectedSystems conflict) (cf_Paths finding))
    (risk_Mitigations conflict).

Definition conflict_risk (c : ConflictAssessment) : Risk :=
  foldl conflict_step
    (mkRisk RiskConflict (ca_Score c) (severityFromScore (ca_Score c))
       "merge conflict or target-branch drift risk detected" "" [] (ca_Mitigations c))
    (ca_Findings c).

Definition add_conflict (c : ConflictAssessment) (s : RiskMap * Z) : RiskMap * Z :=
  if 0 <? ca_Score c
  then (<[RiskConflict := conflict_risk c]> s.1, s.2 + risk_Score (conflict_risk c))
  else s.

Definition materializeRisks `{MapOrder} (riskByType : RiskMap) : list Risk * list RiskType :=
  let risks := (λ kr, risk_with_Severity (severityFromScore (risk_Score kr.2)) kr.2) <$>
                 map_range riskByType in
  (risks, risk_Type_ <$> risks).

Definition Evaluate `{MapOrder} (weights : Weights) (packet : ChangePacket) : RiskSummary * list Risk :=
  let '(riskByType, score) := foldl (mutation_step weights) (∅, 0) (cp_Mutations packet) in
  let '(riskByType, score) := add_conflict (cp_Conflict packet) (riskByType, score) in
  let score := applyRuntimeCriticality score (ri_Criticality (cp_Runtime packet)) in
  let score := applyChangeVolume score (length (cp_Files packet)) in
  let score := clampScore score in
  let '(risks, contributors) := materializeRisks riskByType in
  (mkRiskSummary score (severityFromScore score) contributors, risks).

(** ** Specification *)

Definition mutation_type (m : Mutation) : RiskType := (classifyRisk (mut_Kind m)).1.1.

(** What the mutations of a packet contribute to one type of risk. *)
Definition mutation_score (weights : Weights) (ms : list Mutation) (t : RiskType) : Z :=
  sumZ (λ m, if decide (mutation_type m = t) then weight weights (mut_Kind m) else 0) ms.

Definition conflict_points (c : ConflictAssessment) : Z := Z.max 0 (ca_Score c).

Definition raw_score (weights : Weights) (packet : ChangePacket) : Z :=
  applyChangeVolume
    (applyRuntimeCriticality
       (sumZ (λ m, weight weights (mut_Kind m)) (cp_Mutations packet) +
        conflict_points (cp_Conflict packet))
       (ri_Criticality (cp_Runtime packet)))
    (length (cp_Files packet)).

(** The types of risk a packet has. *)
Definition has_risk (packet : ChangePacket) (t : RiskType) : Prop :=
  (∃ m, m ∈ cp_Mutations packet ∧ mutation_type m = t) ∨
  (t = RiskConflict ∧ 0 < ca_Score (cp_Conflict packet)).

Definition risk_points (weights : Weights) (packet : ChangePacket) (t : RiskType) : Z :=
  if decide (t = RiskConflict) then conflict_points (cp_Conflict packet)
  else mutation_score weights (cp_Mutations packet) t.

(** ** Lemmas *)

Lemma clampScore_eq score : clampScore score = Z.max 0 (Z.min 100 score).
Proof. unfold clampScore. split_tests; lia. Qed.

Lemma applyRuntimeCriticality_mono c x y :
  x ≤ y → applyRuntimeCriticality x c ≤ applyRuntimeCriticality y c.
Proof. unfold applyRuntimeCriticality. split_tests; lia. Qed.

Lemma applyChangeVolume_mono n x y : x ≤ y → applyChangeVolume x n ≤ applyChangeVolume y n.
Proof. unfold applyChangeVolume. split_tests; lia. Qed.

(** The classification never yields the conflict type: the conflict entry of
    the map is only the conflict's. *)
Lemma classifyRisk_not_conflict kind : (classifyRisk kind).1.1 ≠ RiskConflict.
Proof. unfold classifyRisk. by repeat case_decide. Qed.

Lemma mutation_score_app weights l1 l2 t :
  mutation_score weights (l1 ++ l2) t = mutation_score weights l1 t + mutation_score weights l2 t.
Proof. apply sumZ_app. Qed.

Lemma mutation_score_conflict weights ms : mutation_score weights ms RiskConflict = 0.
Proof.
  unfold mutation_score. induction ms as [|m ms IH]; [done|]. cbn.
  rewrite decide_False by apply classifyRisk_not_conflict. by rewrite IH.
Qed.

(** What the map holds after the mutations [ms]. *)
Definition entry_ok (weights : Weights) (ms : list Mutation) (t : RiskType) (o : option Risk) : Prop :=
  match o with
  | Some r => risk_Type_ r = t ∧ risk_Score r = mutation_score weights ms t ∧
              ∃ m, m ∈ ms ∧ mutation_type m = t
  | None => ∀ m, m ∈ ms → mutation_type m ≠ t
  end.

Lemma mutation_score_absent weights ms t :
  (∀ m, m ∈ ms → mutation_type m ≠ t) → mutation_score weights ms t = 0.
Proof.
  intros H. unfold mutation_score. induction ms as [|m ms IH]; [done|]. cbn.
  rewrite decide_False by (apply H; set_solver). rewrite IH; [done|]. set_solver.
Qed.

(** One mutation updates the entry of its own type and no other. *)
Lemma applyMutationRisk_entry weights rs m t :
  let rs' := (applyMutationRisk weights rs m).1 in
  rs' !! t = (if decide (mutation_type m = t) then rs' !! mutation_type m else rs !! t).
Proof.
  cbn zeta. case_decide as E; [by rewrite E|].
  unfold applyMutationRisk, mutation_type in *.
  destruct (classifyRisk (mut_Kind m)) as [[ty su] mi]. cbn in *.
  by rewrite lookup_insert_ne.
Qed.

Lemma applyMutationRisk_own weights rs m :
  ∃ r, (applyMutationRisk weights rs m).1 !! mutation_type m = Some r ∧
    risk_Score r = default 0 (risk_Score <$> rs !! mutation_type m) + weight weights (mut_Kind m) ∧
    risk_Type_ r = default (mutation_type m) (risk_Type_ <$> rs !! mutation_type m).
Proof.
  unfold applyMutationRisk, mutation_type.
  destruct (classifyRisk (mut_Kind m)) as [[ty su] mi]. cbn.
  eexists. rewrite lookup_insert_eq. split; [done|].
  by destruct (rs !! ty).
Qed.

Lemma applyMutationRisk_points weights rs m :
  (applyMutationRisk weights rs m).2 = weight weights (mut_Kind m).
Proof. unfold applyMutationRisk. by destruct (classifyRisk (mut_Kind m)) as [[ty su] mi]. Qed.

Lemma mutation_loop weights ms :
  let s := foldl (mutation_step weights) (∅, 0) ms in
  s.2 = sumZ (λ m, weight weights (mut_Kind m)) ms ∧
  ∀ t, entry_ok weights ms t (s.1 !! t).
Proof.
  cbn zeta. apply (foldl_ind _ (λ ms s, s.2 = sumZ (λ m, weight weights (mut_Kind m)) ms ∧
    ∀ t, entry_ok weights ms t (s.1 !! t))).
  { split; [done|]. intros t. cbn [fst]. rewrite lookup_empty. cbn. set_solver. }
  intros done m [rs n] [Hn Hrs] _. unfold mutation_step. cbn [fst snd] in *.
  pose proof (applyMutationRisk_points weights rs m) as Hp.
  pose proof (applyMutationRisk_own weights rs m) as (r & Hr & Hscore & Hty).
  pose proof (applyMutationRisk_entry weights rs m) as Hother. cbn zeta in Hother.
  destruct (applyMutationRisk weights rs m) as [rs' base]. cbn in *. split.
  { rewrite sumZ_app. cbn. lia. }
  intros t. rewrite Hother. specialize (Hrs t). case_decide as E.
  - rewrite Hr. subst t. cbn. rewrite mutation_score_app. cbn. rewrite decide_True by done.
    destruct (rs !! mutation_type m) as [r0|]; cbn in *.
    + destruct Hrs as (Ht0 & ? & _). split_and!; [by rewrite Hty|lia|]. exists m. set_solver.
    + rewrite (mutation_score_absent weights done) by done. split_and!; [done|lia|].
      exists m. set_solver.
  - destruct (rs !! t) as [r0|]; cbn in *.
    + rewrite mutation_score_app. cbn. rewrite decide_False by done.
      destruct Hrs as (? & ? & m0 & ? & ?). split_and!; [done|lia|]. exists m0. set_solver.
    + intros m0. rewrite elem_of_app, list_elem_of_singleton. naive_solver.
Qed.

Lemma conflict_risk_score c :
  risk_Score (conflict_risk c) = ca_Score c ∧ risk_Type_ (conflict_risk c) = RiskConflict.
Proof.
  unfold conflict_risk. apply (foldl_ind _ (λ _ r, risk_Score r = ca_Score c ∧ risk_Type_ r = RiskConflict));
    [done|]. by intros _ f r [? ?] _.
Qed.

Definition final_state (weights : Weights) (packet : ChangePacket) : RiskMap * Z :=
  add_conflict (cp_Conflict packet) (foldl (mutation_step weights) (∅, 0) (cp_Mutations packet)).

Lemma final_state_entry weights packet t :
  match (final_state weights packet).1 !! t with
  | Some r => risk_Type_ r = t ∧ risk_Score r = risk_points weights packet t ∧ has_risk packet t
  | None => ¬ has_risk packet t
  end.
Proof.
  pose proof (mutation_loop weights (cp_Mutations packet)) as [_ Hrs]. specialize (Hrs t).
  unfold final_state, add_conflict, risk_points, has_risk, conflict_points.
  destruct (foldl _ _ _) as [rs n]. cbn [fst snd] in *.
  pose proof (conflict_risk_score (cp_Conflict packet)) as [Hcs Hct].
  destruct (0 <? ca_Score (cp_Conflict packet)) eqn:Ec; bool_props; cbn.
  - destruct (decide (t = RiskConflict)) as [->|Ht].
    + rewrite lookup_insert_eq. split_and!; [done|lia|by right].
    + rewrite lookup_insert_ne by done. destruct (rs !! t); cbn in Hrs.
      * destruct Hrs as (? & ? & ?). eauto.
      * intros [(m & ? & ?)|[? _]]; [by eapply Hrs|done].
  - destruct (rs !! t); cbn in Hrs.
    + destruct Hrs as (? & ? & m & ? & Hm). rewrite decide_False; [by eauto 7|].
      intros ->. by apply (classifyRisk_not_conflict (mut_Kind m)).
    + intros [(m & ? & ?)|[? ?]]; [by eapply Hrs|lia].
Qed.

Lemma final_state_score weights packet :
  (final_state weights packet).2 =
  sumZ (λ m, weight weights (mut_Kind m)) (cp_Mutations packet) + conflict_points (cp_Conflict packet).
Proof.
  pose proof (mutation_loop weights (cp_Mutations packet)) as [Hn _].
  unfold final_state, add_conflict, conflict_points. rewrite <- Hn.
  destruct (0 <? _) eqn:E; bool_props; cbn; [|lia].
  rewrite (proj1 (conflict_risk_score _)). lia.
Qed.

Lemma Evaluate_eq `{MapOrder} weights packet :
  let score := clampScore (raw_score weights packet) in
  let risks := (materializeRisks (final_state weights packet).1).1 in
  Evaluate weights packet =
  (mkRiskSummary score (severityFromScore score) (risk_Type_ <$> risks), risks).
Proof.
  cbn zeta. unfold Evaluate, raw_score. rewrite <- final_state_score. unfold final_state.
  destruct (foldl _ _ _) as [rs n]. by destruct (add_conflict _ _) as [rs' n'].
Qed.

(** The types of the materialized risks are the keys of the map. *)
Lemma materializeRisks_types `{MapOrder} weights packet :
  risk_Type_ <$> (materializeRisks (final_state weights packet).1).1 =
  (map_range (final_state weights packet).1).*1.
Proof.
  cbn. rewrite <- list_fmap_compose. apply list_fmap_ext. intros i [t r] Hi.
  assert ((final_state weights packet).1 !! t = Some r) as Hr.
  { apply elem_of_map_range, list_elem_of_lookup. eauto. }
  pose proof (final_state_entry weights packet t) as He. rewrite Hr in He.
  by destruct He.
Qed.

(** ** Properties *)

(** C24: the score is the sum of the mutation weights, the conflict score and
    the criticality and volume surcharges, clamped to [0, 100]; the severity is
    the band of that score, with cut-offs 25, 55 and 80. *)
Theorem evaluate_score `{MapOrder} weights packet :
  let s := (Evaluate weights packet).1 in
  rs_Score s = Z.max 0 (Z.min 100 (raw_score weights packet)) ∧
  0 ≤ rs_Score s ≤ 100 ∧
  (rs_Severity s = SeverityCritical ↔ 80 ≤ rs_Score s) ∧
  (rs_Severity s = SeverityHigh ↔ 55 ≤ rs_Score s < 80) ∧
  (rs_Severity s = SeverityMedium ↔ 25 ≤ rs_Score s < 55) ∧
  (rs_Severity s = SeverityLow ↔ rs_Score s < 25).
Proof.
  cbn zeta. rewrite Evaluate_eq. cbn [fst rs_Score rs_Severity]. rewrite clampScore_eq.
  set (x := Z.max 0 _). assert (0 ≤ x ≤ 100) by lia. clearbody x.
  unfold severityFromScore.
  destruct (80 <=? x) eqn:?, (55 <=? x) eqn:?, (25 <=? x) eqn:?; bool_props;
    split_and!; try lia; split; intros; try done; try lia.
Qed.

(** The risks of a packet are exactly its types of risk, each listed once,
    with the points of the mutations of that type (or of the conflict
    assessment) and the severity of those points; the contributors of the
    summary are the types of the risks, in the same order. *)
Theorem evaluate_risks `{MapOrder} weights packet :
  let '(summary, risks) := Evaluate weights packet in
  rs_Contributors summary = risk_Type_ <$> risks ∧
  NoDup (risk_Type_ <$> risks) ∧
  (∀ t, t ∈ risk_Type_ <$> risks ↔ has_risk packet t) ∧
  (∀ r, r ∈ risks → risk_Score r = risk_points weights packet (risk_Type_ r) ∧
                    risk_Severity r = severityFromScore (risk_Score r)).
Proof.
  rewrite Evaluate_eq. split_and!.
  - done.
  - rewrite materializeRisks_types. apply NoDup_map_range.
  - intros t. rewrite materializeRisks_types, list_elem_of_fmap.
    pose proof (final_state_entry weights packet t) as He.
    split.
    + intros ([t' r] & -> & Hr%elem_of_map_range). cbn in *. rewrite Hr in He. by destruct He as (_ & _ & ?).
    + destruct (_ !! t) as [r|] eqn:Hr; [|done].
      intros _. exists (t, r). by rewrite elem_of_map_range.
  - cbn. intros r ([t r0] & -> & Hr%elem_of_map_range)%list_elem_of_fmap.
    pose proof (final_state_entry weights packet t) as He. rewrite Hr in He.
    destruct He as (<- & He & _). cbn. by rewrite <- He.
Qed.

(** Evidence can only add risk: with non-negative weights, adding
    mutations or files to a packet, or raising its conflict score, never lowers
    its score. *)
Theorem evaluate_monotone `{MapOrder} weights packet more_mutations more_files conflict
    (Hw : ∀ kind, 0 ≤ weight weights kind)
    (Hc : ca_Score (cp_Conflict packet) ≤ ca_Score conflict) :
  let larger := cp_with_Conflict conflict
                  (cp_with_Mutations (cp_Mutations packet ++ more_mutations)
                     (cp_with_Files (cp_Files packet ++ more_files) packet)) in
  rs_Score (Evaluate weights packet).1 ≤ rs_Score (Evaluate weights larger).1.
Proof.
  cbn zeta. rewrite !Evaluate_eq. cbn [fst rs_Score]. rewrite !clampScore_eq.
  enough (∀ x y, x ≤ y → Z.max 0 (Z.min 100 x) ≤ Z.max 0 (Z.min 100 y)) as Hm; [apply Hm|lia].
  unfold raw_score. cbn [cp_Mutations cp_Files cp_Conflict cp_Runtime cp_with_Conflict
    cp_with_Mutations cp_with_Files].
  etrans; [apply applyChangeVolume_mono, applyRuntimeCriticality_mono|].
  - apply Z.add_le_mono with (m := sumZ (λ m, weight weights (mut_Kind m)) (cp_Mutations packet ++ more_mutations))
      (q := conflict_points conflict).
    + rewrite sumZ_app. 
      assert (0 ≤ sumZ (λ m, weight weights (mut_Kind m)) more_mutations) by (by apply sumZ_nonneg).
      lia.
    + unfold conflict_points. lia.
  - unfold applyChangeVolume. rewrite length_app.
    destruct (20 <? _)%nat eqn:E1, (20 <? _ + _)%nat eqn:E2; try lia.
    apply Nat.ltb_lt in E1. apply Nat.ltb_ge in E2. lia.
Qed.

Lemma evaluate_monotone_witness :
  rs_Score (@Evaluate map_order_sorted defaultWeights zeroChangePacket).1 ≤
  rs_Score (@Evaluate map_order_sorted defaultWeights
    (cp_with_Conflict zeroConflictAssessment
       (cp_with_Mutations ([] ++ [zeroMutation]) (cp_with_Files ([] ++ []) zeroChangePacket)))).1.
Proof.
  apply (@evaluate_monotone map_order_sorted defaultWeights zeroChangePacket [zeroMutation] []
    zeroConflictAssessment).
  - intros kind. unfold weight, defaultWeights. cbn [list_to_map foldr fst snd].
    repeat (rewrite lookup_insert; case_decide; [done|]). by rewrite lookup_empty.
  - done.
Defined.

(** The evaluation does not depend on the order Go ranges over the map of
    risks in: the score and severity are equal, the risks the same up to
    their order. *)
Theorem evaluate_order_independent (H1 H2 : MapOrder) weights packet :
  let '(s1, risks1) := @Evaluate H1 weights packet in
  let '(s2, risks2) := @Evaluate H2 weights packet in
  rs_Score s1 = rs_Score s2 ∧ rs_Severity s1 = rs_Severity s2 ∧
  rs_Contributors s1 ≡ₚ rs_Contributors s2 ∧ risks1 ≡ₚ risks2.
Proof.
  rewrite (@Evaluate_eq H1), (@Evaluate_eq H2).
  assert ((@materializeRisks H1 (final_state weights packet).1).1 ≡ₚ
          (@materializeRisks H2 (final_state weights packet).1).1) as Hp.
  { cbn. by rewrite (@map_range_perm H1), (@map_range_perm H2). }
  split_and!; [done|done|by apply fmap_Permutation|done].
Qed.
