(* ===== verification/PolicyValidation.v ===== *)
(** [internal/policy/model.go] and [internal/policy/validation.go]: the policy
    configuration and the validator that the engine runs before every
    evaluation. *)
From stdpp Require Import base list gmap strings pretty.
From S2P Require Import Prelude GoStrings Domain.

Local Open Scope string_scope.
Local Open Scope list_scope.
Local Open Scope Z_scope.

(** ** The configuration *)

Record WhenClause := mkWhenClause {
  when_Mutations : list MutationKind;
  when_Paths : list string;
  when_Criticalities : list Criticality;
  when_RiskScoreGTE : Z;
  when_OwnershipTeams : list string;
}.

Record CheckBinding := mkCheckBinding {
  b_Evidence : string;
  b_Name : string;
  b_AppID : Z;
}.
#[export] Instance CheckBinding_eq_dec : EqDecision CheckBinding.
Proof. solve_decision. Defined.

Record DeploymentClause := mkDeploymentClause {
  dep_Strategy : string;
  dep_RequiresCanary : bool;
  dep_RequiresRollbackPlan : bool;
  dep_Environments : list string;
}.

Record RequirementClause := mkRequirementClause {
  req_Reviewers : list string;
  req_Evidence : list string;
  req_GitHubChecks : list CheckBinding;
  req_Deployment : DeploymentClause;
}.

Record ActionClause := mkActionClause {
  act_Block : bool;
  act_MinimumLane : MergeLane;
}.

Record RuleConfig := mkRuleConfig {
  rule_Name : string;
  rule_Description : string;
  rule_When : WhenClause;
  rule_Require : RequirementClause;
  rule_Action : ActionClause;
}.

Record Config := mkConfig { Policies : list RuleConfig }.

(** ** Errors: a constructor per message, with what the message shows *)
Inductive PolicyError :=
  | NameEmpty (label : string)
  | DuplicateName (name : string)
  | NoCondition (label : string)
  | NoEffect (label : string)
  | UnsupportedMutation (label kind : string)
  | UnsupportedCriticality (label criticality : string)
  | RiskScoreRange (label : string)
  | EmptyEntry (label field : string) (index : nat)
  | BindingIncomplete (bindingLabel : string)
  | BindingAppID (bindingLabel : string)
  | BindingUndeclared (bindingLabel evidence : string)
  | BindingDuplicate (label evidence : string)
  | UnsupportedStrategy (label strategy : string)
  | UnsupportedLane (label lane : string)
  | ConflictingBindings (evidence : string)
  | SharedCheck (name : string) (app : Z) (evidence1 evidence2 : string).

(** ** The validator *)

Definition supportedMutationKinds : list MutationKind := [
  MutationUnknown; MutationAuthBehaviorChange; MutationDatabaseSchema; MutationRuntimeConfig;
  MutationAPIContract; MutationDependency; MutationInfrastructure; MutationDataAccess;
  MutationDeploymentWorkflow; MutationObservabilityContract].

Definition supportedCriticalities : list Criticality :=
  [CriticalityLow; CriticalityNormal; CriticalityHigh; CriticalityTier0].

Definition supportedLanes : list MergeLane :=
  [MergeLaneGreen; MergeLaneYellow; MergeLaneRed; MergeLaneBlack].

Definition supportedDeploymentStrategies : list string :=
  [DeployDirect; DeployCanary; DeployPhased; DeployManualApproval].

Definition requireNonEmpty (label field : string) (values : list string) : result PolicyError () :=
  forallM (λ iv, fail_if (bool_decide (TrimSpace iv.2 = "")) (EmptyEntry label field iv.1))
    (indexed values).

Definition hasCondition (w : WhenClause) : bool :=
  nonempty (when_Mutations w) || nonempty (when_Paths w) || nonempty (when_Criticalities w) ||
  bool_decide (when_RiskScoreGTE w ≠ 0) || nonempty (when_OwnershipTeams w).

Definition hasEffect (rule : RuleConfig) : bool :=
  let require := rule_Require rule in
  let deployment := req_Deployment require in
  nonempty (req_Reviewers require) || nonempty (req_Evidence require) ||
  nonempty (req_GitHubChecks require) ||
  bool_decide (dep_Strategy deployment ≠ "") || dep_RequiresCanary deployment ||
  dep_RequiresRollbackPlan deployment || nonempty (dep_Environments deployment) ||
  act_Block (rule_Action rule) || bool_decide (act_MinimumLane (rule_Action rule) ≠ "").

Definition validateWhenClause (label : string) (w : WhenClause) : result PolicyError () :=
  forallM (λ kind, fail_if (bool_decide (kind ∉ supportedMutationKinds))
                     (UnsupportedMutation label kind)) (when_Mutations w) ;;
  forallM (λ c, fail_if (bool_decide (c ∉ supportedCriticalities))
                  (UnsupportedCriticality label c)) (when_Criticalities w) ;;
  fail_if ((when_RiskScoreGTE w <? 0) || (100 <? when_RiskScoreGTE w)) (RiskScoreRange label) ;;
  requireNonEmpty label "path" (when_Paths w) ;;
  requireNonEmpty label "ownership team" (when_OwnershipTeams w).

(** One iteration of the loop over [require.GitHubChecks]; the state is the
    set [boundEvidence]. *)
Definition check_binding (label : string) (declared : list string)
    (bound : gset string) (ib : nat * CheckBinding) : result PolicyError (gset string) :=
  let '(index, binding) := ib in
  let bindingLabel := label +:+ " GitHub check binding at index " +:+ itoa (Z.of_nat index) in
  fail_if (bool_decide (TrimSpace (b_Evidence binding) = "") || bool_decide (TrimSpace (b_Name binding) = ""))
    (BindingIncomplete bindingLabel) ;;
  fail_if (b_AppID binding <=? 0) (BindingAppID bindingLabel) ;;
  fail_if (bool_decide (b_Evidence binding ∉ declared)) (BindingUndeclared bindingLabel (b_Evidence binding)) ;;
  fail_if (bool_decide (b_Evidence binding ∈ bound)) (BindingDuplicate label (b_Evidence binding)) ;;
  Ok ({[b_Evidence binding]} ∪ bound).

Definition validateRequirements (label : string) (require : RequirementClause) : result PolicyError () :=
  requireNonEmpty label "reviewer" (req_Reviewers require) ;;
  requireNonEmpty label "evidence name" (req_Evidence require) ;;
  foldM (check_binding label (req_Evidence require)) ∅ (indexed (req_GitHubChecks require)) ;;
  requireNonEmpty label "deployment environment" (dep_Environments (req_Deployment require)) ;;
  let strategy := dep_Strategy (req_Deployment require) in
  if decide (strategy = "") then Ok ()
  else fail_if (bool_decide (strategy ∉ supportedDeploymentStrategies))
         (UnsupportedStrategy label strategy).

Definition validateAction (label : string) (action : ActionClause) : result PolicyError () :=
  let lane := act_MinimumLane action in
  if decide (lane = "") then Ok ()
  else fail_if (bool_decide (lane ∉ supportedLanes)) (UnsupportedLane label lane).

Definition validateRule (label : string) (rule : RuleConfig) : result PolicyError () :=
  fail_if (negb (hasCondition (rule_When rule))) (NoCondition label) ;;
  fail_if (negb (hasEffect rule)) (NoEffect label) ;;
  validateWhenClause label (rule_When rule) ;;
  validateRequirements label (rule_Require rule) ;;
  validateAction label (rule_Action rule).

(** The three maps [Validate] threads through its loop; the key of the last is
    the struct [githubCheckIdentity]. *)
Record Seen := mkSeen {
  seen_names : gset string;
  evidenceBindings : gmap string CheckBinding;
  checkBindings : gmap (string * Z) string;
}.

Definition githubCheckIdentity (binding : CheckBinding) : string * Z :=
  (b_Name binding, b_AppID binding).

Definition validate_binding (s : Seen) (binding : CheckBinding) : result PolicyError Seen :=
  fail_if match evidenceBindings s !! b_Evidence binding with
          | Some existing => bool_decide (existing ≠ binding)
          | None => false
          end (ConflictingBindings (b_Evidence binding)) ;;
  let identity := githubCheckIdentity binding in
  match checkBindings s !! identity with
  | Some evidence =>
      fail_if (bool_decide (evidence ≠ b_Evidence binding))
        (SharedCheck (b_Name binding) (b_AppID binding) evidence (b_Evidence binding))
  | None => Ok ()
  end ;;
  Ok (mkSeen (seen_names s) (<[b_Evidence binding := binding]> (evidenceBindings s))
        (<[identity := b_Evidence binding]> (checkBindings s))).

Definition validate_policy (s : Seen) (ir : nat * RuleConfig) : result PolicyError Seen :=
  let '(index, rule) := ir in
  let label := "policy[" +:+ itoa (Z.of_nat index) +:+ "]" in
  let name := TrimSpace (rule_Name rule) in
  fail_if (bool_decide (name = "")) (NameEmpty label) ;;
  let normalizedName := ToLower name in
  fail_if (bool_decide (normalizedName ∈ seen_names s)) (DuplicateName name) ;;
  let s := mkSeen ({[normalizedName]} ∪ seen_names s) (evidenceBindings s) (checkBindings s) in
  validateRule (label +:+ " (" +:+ name +:+ ")") rule ;;
  foldM validate_binding s (req_GitHubChecks (rule_Require rule)).

Definition Validate (config : Config) : result PolicyError () :=
  foldM validate_policy (mkSeen ∅ ∅ ∅) (indexed (Policies config)) ;; Ok ().

(** ** Specification: a well-formed configuration, without loops or maps *)

Definition filled (value : string) : Prop := TrimSpace value ≠ "".

Record when_ok (w : WhenClause) : Prop := {
  wo_condition : hasCondition w = true;
  wo_kinds : Forall (.∈ supportedMutationKinds) (when_Mutations w);
  wo_criticalities : Forall (.∈ supportedCriticalities) (when_Criticalities w);
  wo_score : 0 ≤ when_RiskScoreGTE w ≤ 100;
  wo_paths : Forall filled (when_Paths w);
  wo_teams : Forall filled (when_OwnershipTeams w);
}.

Record require_ok (q : RequirementClause) : Prop := {
  ro_reviewers : Forall filled (req_Reviewers q);
  ro_evidence : Forall filled (req_Evidence q);
  ro_complete : Forall (λ b, filled (b_Evidence b) ∧ filled (b_Name b) ∧ 0 < b_AppID b ∧
                             b_Evidence b ∈ req_Evidence q) (req_GitHubChecks q);
  ro_unique : NoDup (b_Evidence <$> req_GitHubChecks q);
  ro_environments : Forall filled (dep_Environments (req_Deployment q));
  ro_strategy : dep_Strategy (req_Deployment q) = "" ∨
                dep_Strategy (req_Deployment q) ∈ supportedDeploymentStrategies;
}.

Record rule_ok (rule : RuleConfig) : Prop := {
  rk_name : filled (rule_Name rule);
  rk_effect : hasEffect rule = true;
  rk_when : when_ok (rule_When rule);
  rk_require : require_ok (rule_Require rule);
  rk_lane : act_MinimumLane (rule_Action rule) = "" ∨ act_MinimumLane (rule_Action rule) ∈ supportedLanes;
}.

(** An evidence name has one binding, and a check is bound to one evidence. *)
Definition consistent (bs : list CheckBinding) : Prop :=
  ∀ b1 b2, b1 ∈ bs → b2 ∈ bs →
    (b_Evidence b1 = b_Evidence b2 → b1 = b2) ∧
    (githubCheckIdentity b1 = githubCheckIdentity b2 → b_Evidence b1 = b_Evidence b2).

Definition rule_key (rule : RuleConfig) : string := ToLower (TrimSpace (rule_Name rule)).
Definition rule_bindings (rule : RuleConfig) : list CheckBinding := req_GitHubChecks (rule_Require rule).

Record well_formed (config : Config) : Prop := {
  wf_rules : Forall rule_ok (Policies config);
  wf_names : NoDup (rule_key <$> Policies config);
  wf_bindings : consistent (mjoin (rule_bindings <$> Policies config));
}.

(** ** Lemmas: each check against its clause of the specification *)

Lemma forallM_fail_if {E A} (p : A → bool) (e : A → E) l :
  forallM (λ a, fail_if (p a) (e a)) l = Ok () ↔ Forall (λ a, p a = false) l.
Proof. rewrite forallM_ok. apply Forall_iff. intros a. by rewrite fail_if_ok. Qed.

Lemma forallM_member {E A} `{EqDecision A} (allowed : list A) (e : A → E) l :
  forallM (λ a, fail_if (bool_decide (a ∉ allowed)) (e a)) l = Ok () ↔ Forall (.∈ allowed) l.
Proof.
  rewrite (forallM_fail_if (λ a, bool_decide (a ∉ allowed))). apply Forall_iff. intros a.
  rewrite bool_decide_eq_false. split; [apply dec_stable|tauto].
Qed.

Lemma requireNonEmpty_ok label field values :
  requireNonEmpty label field values = Ok () ↔ Forall filled values.
Proof.
  unfold requireNonEmpty.
  rewrite (forallM_fail_if (λ iv : nat * string, bool_decide (TrimSpace iv.2 = ""))).
  rewrite <- (Forall_indexed filled). apply Forall_iff. intros [i v]. cbn.
  by rewrite bool_decide_eq_false.
Qed.

Lemma empty_or_member_ok {E} (v : string) (allowed : list string) (e : E) :
  (if decide (v = "") then Ok () else fail_if (bool_decide (v ∉ allowed)) e) = Ok () ↔
  v = "" ∨ v ∈ allowed.
Proof.
  case_decide; [tauto|]. rewrite fail_if_ok, bool_decide_eq_false.
  split; [intros Hn; right; by apply dec_stable|intros [?|?]; [done|tauto]].
Qed.

Lemma validateWhenClause_ok label w :
  hasCondition w = true → validateWhenClause label w = Ok () ↔ when_ok w.
Proof.
  intros Hc. unfold validateWhenClause.
  rewrite !bind_unit_ok, !forallM_member, !requireNonEmpty_ok, fail_if_ok, orb_false_iff,
    Z.ltb_ge, Z.ltb_ge.
  split; [intros (? & ? & [? ?] & ? & ?); by constructor|].
  intros []. tauto.
Qed.

Lemma check_binding_ok label declared bound i b bound' :
  check_binding label declared bound (i, b) = Ok bound' ↔
  (filled (b_Evidence b) ∧ filled (b_Name b) ∧ 0 < b_AppID b ∧ b_Evidence b ∈ declared) ∧
  (b_Evidence b ∉ bound) ∧ bound' = {[b_Evidence b]} ∪ bound.
Proof.
  unfold check_binding. rewrite !bind_unit_ok, !fail_if_ok, orb_false_iff, !bool_decide_eq_false, Z.leb_gt.
  unfold filled. split.
  - intros ([? ?] & ? & Hd & ? & [= <-]). split_and!; try done. by apply dec_stable.
  - intros ((? & ? & ? & ?) & ? & ->). split_and!; try done. by intros [].
Qed.

Lemma check_bindings_ok label declared bs bound :
  (∃ bound', foldM (check_binding label declared) bound bs = Ok bound') ↔
  Forall (λ ib, filled (b_Evidence ib.2) ∧ filled (b_Name ib.2) ∧ 0 < b_AppID ib.2 ∧
                b_Evidence ib.2 ∈ declared) bs ∧
  NoDup ((λ ib, b_Evidence ib.2) <$> bs) ∧ (∀ ib, ib ∈ bs → b_Evidence ib.2 ∉ bound).
Proof. apply foldM_unique. intros seen [i b] seen'. apply check_binding_ok. Qed.

Lemma validateRequirements_ok label q : validateRequirements label q = Ok () ↔ require_ok q.
Proof.
  unfold validateRequirements.
  rewrite !bind_unit_ok, !requireNonEmpty_ok, bind_ok.
  setoid_rewrite bind_unit_ok. setoid_rewrite requireNonEmpty_ok. setoid_rewrite empty_or_member_ok.
  pose proof (check_bindings_ok label (req_Evidence q) (indexed (req_GitHubChecks q)) ∅) as H.
  rewrite (fmap_indexed b_Evidence) in H.
  rewrite (Forall_indexed (λ b, filled (b_Evidence b) ∧ filled (b_Name b) ∧ 0 < b_AppID b ∧
                                b_Evidence b ∈ req_Evidence q)) in H.
  split.
  - intros (? & ? & bound & Hb & ? & ?).
    destruct (proj1 H (ex_intro _ bound Hb)) as (? & ? & _). by constructor.
  - intros []. destruct (proj2 H) as [bound Hb].
    { split_and!; [done|done|]. intros. set_solver. }
    split_and!; [done|done|]. by exists bound.
Qed.

Lemma validateRule_ok label rule :
  filled (rule_Name rule) → validateRule label rule = Ok () ↔ rule_ok rule.
Proof.
  intros Hn. unfold validateRule, validateAction.
  rewrite !bind_unit_ok, !fail_if_ok, !negb_false_iff, validateRequirements_ok, empty_or_member_ok.
  split.
  - intros (Hc & ? & Hw & ? & ?). rewrite validateWhenClause_ok in Hw by done. by constructor.
  - intros [? ? Hw ? ?]. pose proof (wo_condition _ Hw). rewrite validateWhenClause_ok by done. tauto.
Qed.

(** What the two binding maps hold after the bindings [bs]. *)
Record describes (bs : list CheckBinding) (s : Seen) : Prop := {
  ds_forward : ∀ b, b ∈ bs → evidenceBindings s !! b_Evidence b = Some b ∧
                             checkBindings s !! githubCheckIdentity b = Some (b_Evidence b);
  ds_evidence : ∀ e b, evidenceBindings s !! e = Some b → b ∈ bs ∧ b_Evidence b = e;
  ds_check : ∀ i e, checkBindings s !! i = Some e →
               ∃ b, b ∈ bs ∧ githubCheckIdentity b = i ∧ b_Evidence b = e;
}.

Lemma describes_consistent bs s : describes bs s → consistent bs.
Proof.
  intros [Hf _ _] b1 b2 [H1 H1']%Hf [H2 H2']%Hf. split; intros He.
  - rewrite He in H1. congruence.
  - rewrite He in H1'. congruence.
Qed.

Lemma consistent_app_l l1 l2 : consistent (l1 ++ l2) → consistent l1.
Proof. intros H b1 b2 H1 H2. apply H; set_solver. Qed.

Lemma validate_binding_complete bs s b :
  describes bs s → consistent (bs ++ [b]) → ∃ s', validate_binding s b = Ok s'.
Proof.
  intros [_ He Hc] Hcons. unfold validate_binding.
  destruct (evidenceBindings s !! b_Evidence b) as [b'|] eqn:E1.
  - apply He in E1 as [Hin Hev]. rewrite bool_decide_eq_false_2; cbn.
    2:{ intros Hn. apply Hn, Hcons; [set_solver..|done]. }
    destruct (checkBindings s !! _) as [e|] eqn:E2; cbn; [|by eauto].
    apply Hc in E2 as (b2 & Hin2 & Hid & <-). rewrite bool_decide_eq_false_2; cbn; [by eauto|].
    intros Hn. apply Hn, Hcons; [set_solver..|done].
  - cbn. destruct (checkBindings s !! _) as [e|] eqn:E2; cbn; [|by eauto].
    apply Hc in E2 as (b2 & Hin2 & Hid & <-). rewrite bool_decide_eq_false_2; cbn; [by eauto|].
    intros Hn. apply Hn, Hcons; [set_solver..|done].
Qed.

Lemma validate_binding_describes bs s b s' :
  describes bs s → validate_binding s b = Ok s' →
  describes (bs ++ [b]) s' ∧ seen_names s' = seen_names s.
Proof.
  intros [Hf He Hc]. unfold validate_binding. rewrite !bind_unit_ok, fail_if_ok.
  intros (H1 & H2 & [= <-]). split; [|done].
  assert (∀ b0, evidenceBindings s !! b_Evidence b = Some b0 → b0 = b) as H1'.
  { intros b0 E. rewrite E in H1. apply bool_decide_eq_false in H1. by apply dec_stable. }
  assert (∀ e, checkBindings s !! githubCheckIdentity b = Some e → e = b_Evidence b) as H2'.
  { intros e E. rewrite E, fail_if_ok in H2. apply bool_decide_eq_false in H2. by apply dec_stable. }
  clear H1 H2. split; cbn.
  - intros b0 [[Hb1 Hb2]%Hf|Hb0]%elem_of_app.
    + split.
      * destruct (decide (b_Evidence b0 = b_Evidence b)) as [E|]; [|by rewrite lookup_insert_ne].
        rewrite E in Hb1 |- *. rewrite lookup_insert_eq. f_equal. symmetry. by apply H1'.
      * destruct (decide (githubCheckIdentity b0 = githubCheckIdentity b)) as [E|];
          [|by rewrite lookup_insert_ne].
        rewrite E in Hb2 |- *. rewrite lookup_insert_eq. f_equal. symmetry. by apply H2'.
    + apply list_elem_of_singleton in Hb0 as ->. by rewrite !lookup_insert_eq.
  - intros e b0 [[<- <-]|[? E]]%lookup_insert_Some; [set_solver|]. apply He in E. set_solver.
  - intros i e [[<- <-]|[? E]]%lookup_insert_Some; [exists b; set_solver|].
    apply Hc in E as (b0 & ? & ? & ?). exists b0. set_solver.
Qed.

Lemma validate_bindings_ok bs0 s bs :
  describes bs0 s →
  (∀ s', foldM validate_binding s bs = Ok s' →
     describes (bs0 ++ bs) s' ∧ seen_names s' = seen_names s) ∧
  (consistent (bs0 ++ bs) → ∃ s', foldM validate_binding s bs = Ok s').
Proof.
  revert bs0 s. induction bs as [|b bs IH]; intros bs0 s Hs.
  { cbn. rewrite app_nil_r. split; [by intros ? [= <-]|by eauto]. }
  replace (bs0 ++ b :: bs) with ((bs0 ++ [b]) ++ bs) by by rewrite <- app_assoc.
  cbn [foldM]. split.
  - intros s' (s1 & H1 & H2)%bind_ok.
    destruct (validate_binding_describes _ _ _ _ Hs H1) as [Hs1 <-]. by apply (IH _ _ Hs1).
  - intros Hc. destruct (validate_binding_complete bs0 s b Hs) as [s1 H1].
    { by eapply consistent_app_l. }
    destruct (validate_binding_describes _ _ _ _ Hs H1) as [Hs1 _].
    destruct (proj2 (IH _ _ Hs1) Hc) as [s' H']. exists s'. apply bind_ok. eauto.
Qed.

(** The state of the loop after the rules [rs]. *)
Definition loop_ok (rs : list RuleConfig) (s : Seen) : Prop :=
  describes (mjoin (rule_bindings <$> rs)) s ∧
  ∀ k, k ∈ seen_names s ↔ k ∈ rule_key <$> rs.

Definition rules_ok (rs : list RuleConfig) : Prop :=
  Forall rule_ok rs ∧ NoDup (rule_key <$> rs) ∧ consistent (mjoin (rule_bindings <$> rs)).

Lemma join_bindings_snoc rs r :
  mjoin (rule_bindings <$> rs ++ [r]) = mjoin (rule_bindings <$> rs) ++ rule_bindings r.
Proof. rewrite fmap_app, join_app. cbn. by rewrite app_nil_r. Qed.

Lemma loop_ok_step rs s i r :
  loop_ok rs s →
  (∀ s', validate_policy s (i, r) = Ok s' →
     loop_ok (rs ++ [r]) s' ∧ rule_ok r ∧ rule_key r ∉ rule_key <$> rs) ∧
  (rule_ok r → rule_key r ∉ rule_key <$> rs → consistent (mjoin (rule_bindings <$> rs ++ [r])) →
   ∃ s', validate_policy s (i, r) = Ok s').
Proof.
  intros [Hd Hn]. unfold validate_policy. fold (rule_key r) (rule_bindings r).
  set (s1 := mkSeen ({[rule_key r]} ∪ seen_names s) (evidenceBindings s) (checkBindings s)).
  assert (describes (mjoin (rule_bindings <$> rs)) s1) as Hd1 by (destruct Hd; by constructor).
  destruct (validate_bindings_ok _ s1 (rule_bindings r) Hd1) as [Hok Hcomplete].
  rewrite join_bindings_snoc. split.
  - intros s'. rewrite !bind_unit_ok, !fail_if_ok, !bool_decide_eq_false.
    intros (Hname & Hfresh & Hr & [Hds Hs']%Hok). rewrite Hn in Hfresh.
    split_and!; [split|by apply validateRule_ok in Hr|done].
    + by rewrite join_bindings_snoc.
    + intros k. rewrite Hs'. cbn. rewrite fmap_app. set_solver.
  - intros Hr Hfresh [s' Hs']%Hcomplete. exists s'.
    rewrite !bind_unit_ok, !fail_if_ok, !bool_decide_eq_false, Hn.
    pose proof (rk_name _ Hr). split_and!; [done|done| |done]. by apply validateRule_ok.
Qed.

(** The loop over the rules, from any point on. *)
Lemma validate_loop rs0 s irs :
  loop_ok rs0 s → rules_ok rs0 →
  (∃ s', foldM validate_policy s irs = Ok s') ↔ rules_ok (rs0 ++ irs.*2).
Proof.
  revert rs0 s. induction irs as [|[i r] irs IH]; intros rs0 s Hs H0.
  { cbn. rewrite app_nil_r. split; [done|by eauto]. }
  cbn [foldM fmap list_fmap snd]. destruct (loop_ok_step rs0 s i r Hs) as [Hok Hcomplete].
  replace (rs0 ++ r :: irs.*2) with ((rs0 ++ [r]) ++ irs.*2) by by rewrite <- app_assoc.
  assert (∀ s1, validate_policy s (i, r) = Ok s1 → loop_ok (rs0 ++ [r]) s1 ∧ rules_ok (rs0 ++ [r])) as Hstep.
  { intros s1 (Hs1 & Hr & Hf)%Hok. destruct H0 as (? & ? & ?). split; [done|]. split_and!.
    - apply Forall_app. by split; [|constructor].
    - rewrite fmap_app. apply NoDup_app. split_and!; [done|set_solver|apply NoDup_singleton].
    - by destruct Hs1 as [?%describes_consistent _]. }
  split.
  - intros (s' & (s1 & H1 & H2)%bind_ok). destruct (Hstep s1 H1) as [Hl Hr].
    apply (IH _ _ Hl Hr). eauto.
  - intros Hall. destruct (Hcomplete) as [s1 H1].
    { destruct Hall as (Hf & _ & _). rewrite Forall_forall in Hf. apply Hf. set_solver. }
    { destruct Hall as (_ & Hnd & _). rewrite !fmap_app, !NoDup_app in Hnd. set_solver. }
    { destruct Hall as (_ & _ & Hc). rewrite fmap_app, join_app in Hc. by eapply consistent_app_l. }
    destruct (Hstep s1 H1) as [Hl Hr]. destruct (proj2 (IH _ _ Hl Hr) Hall) as [s' H'].
    exists s'. apply bind_ok. eauto.
Qed.

Lemma well_formed_iff config : Validate config = Ok () ↔ well_formed config.
Proof.
  unfold Validate.
  transitivity (∃ s', foldM validate_policy (mkSeen ∅ ∅ ∅) (indexed (Policies config)) = Ok s').
  { rewrite bind_ok. split; [intros (s & ? & _)|intros [s ?]]; by eauto. }
  rewrite (validate_loop [] (mkSeen ∅ ∅ ∅) (indexed (Policies config))).
  - pose proof (fmap_indexed id (Policies config)) as E. rewrite list_fmap_id in E.
    cbn [app]. replace (indexed (Policies config)).*2 with (Policies config).
    split; [intros (? & ? & ?); by constructor|intros []; by split_and!].
  - split; [split|]; cbn; intros *; rewrite ?lookup_empty; set_solver.
  - split_and!; [done|constructor|]. intros b1 b2. set_solver.
Qed.

(** ** Properties *)

(** C21: the validator accepts exactly the well-formed configurations: every
    rule is named, has a condition and an effect and only supported values, rule
    names differ up to case and surrounding space, and over the whole
    configuration an evidence name has one check binding and a check serves one
    evidence name. *)
Theorem Validate_iff_well_formed config :
  Validate config = Ok () ↔ well_formed config.
Proof. apply well_formed_iff. Qed.
