(* ===== verification/Policy.v ===== *)
(** [internal/policy]: the rule engine (matchers, evaluation, helpers and the
    engine itself) on top of the validated configuration. *)
From stdpp Require Import base list gmap strings.
From S2P Require Import Prelude GoStrings Domain Lanes PolicyValidation.

Local Open Scope string_scope.
Local Open Scope list_scope.
Local Open Scope Z_scope.

(** ** Matchers *)

Definition packetHasAnyMutation (packet : ChangePacket) (kinds : list MutationKind) : bool :=
  existsb (λ mutation, existsb (λ kind, bool_decide (mut_Kind mutation = kind)) kinds)
    (cp_Mutations packet).

Definition packetTouchesAnyPath (packet : ChangePacket) (patterns : list string) : bool :=
  existsb (λ file, existsb (λ pattern, Contains (ToLower (file_Path file)) (ToLower pattern)) patterns)
    (cp_Files packet).

Definition containsCriticality (values : list Criticality) (candidate : Criticality) : bool :=
  existsb (λ value, bool_decide (value = candidate)) values.

Definition packetTouchesOwners (packet : ChangePacket) (teams : list string) : bool :=
  existsb (λ owner, existsb (λ team, EqualFold (ob_Team owner) team) teams) (cp_Ownership packet).

Definition matchesRule (rule : RuleConfig) (packet : ChangePacket) : bool :=
  let w := rule_When rule in
  if nonempty (when_Mutations w) && negb (packetHasAnyMutation packet (when_Mutations w)) then false
  else if nonempty (when_Paths w) && negb (packetTouchesAnyPath packet (when_Paths w)) then false
  else if nonempty (when_Criticalities w) &&
          negb (containsCriticality (when_Criticalities w) (ri_Criticality (cp_Runtime packet))) then false
  else if (0 <? when_RiskScoreGTE w) && (rs_Score (cp_RiskSummary_ packet) <? when_RiskScoreGTE w) then false
  else if nonempty (when_OwnershipTeams w) && negb (packetTouchesOwners packet (when_OwnershipTeams w)) then false
  else true.

(** ** Helpers *)

Fixpoint appendUniqueReviewer (values : list ReviewerRequirement) (candidate : ReviewerRequirement)
    : list ReviewerRequirement :=
  match values with
  | [] => [candidate]
  | value :: values' =>
      if EqualFold (rr_Team value) (rr_Team candidate) then values
      else value :: appendUniqueReviewer values' candidate
  end.

(** The first requirement of the same name keeps its place and takes over the
    candidate's check binding if it has none. *)
Fixpoint appendUniqueEvidence (values : list EvidenceRequirement) (candidate : EvidenceRequirement)
    : list EvidenceRequirement :=
  match values with
  | [] => [candidate]
  | value :: values' =>
      if decide (er_Name value = er_Name candidate) then
        match er_GitHubCheck value, er_GitHubCheck candidate with
        | None, Some _ => er_with_GitHubCheck (er_GitHubCheck candidate) value :: values'
        | _, _ => values
        end
      else value :: appendUniqueEvidence values' candidate
  end.

(** The engine's own [maxLane]; its map literal [order] is the one of
    [Lanes.lane_order]. *)
Definition policy_maxLane (a b : MergeLane) : MergeLane :=
  if decide (a = "") then b
  else if lane_order a <? lane_order b then b else a.

(** ** Evaluation *)

Record Evaluation := mkEvaluation {
  ev_Decision : PolicyDecision;
  ev_Evidence : list EvidenceRequirement;
  ev_Reviewers : list ReviewerRequirement;
  ev_Deployment : DeploymentRequirement;
}.
#[export] Instance Evaluation_eq_dec : EqDecision Evaluation.
Proof. solve_decision. Defined.

Definition set_decision (f : PolicyDecision → PolicyDecision) (e : Evaluation) : Evaluation :=
  mkEvaluation (f (ev_Decision e)) (ev_Evidence e) (ev_Reviewers e) (ev_Deployment e).

Definition reviewer_of (rule : RuleConfig) (reviewer : string) : ReviewerRequirement :=
  mkReviewerRequirement reviewer ("required by policy " +:+ rule_Name rule) true 0.

Definition applyReviewerRequirements (rule : RuleConfig) (e : Evaluation) : Evaluation :=
  mkEvaluation (ev_Decision e) (ev_Evidence e)
    (foldl (λ rs reviewer, appendUniqueReviewer rs (reviewer_of rule reviewer))
       (ev_Reviewers e) (req_Reviewers (rule_Require rule)))
    (ev_Deployment e).

(** The first binding of the rule for this evidence name. *)
Fixpoint binding_for (bindings : list CheckBinding) (evidence : string) : option GitHubCheckBinding :=
  match bindings with
  | [] => None
  | binding :: bindings' =>
      if decide (b_Evidence binding = evidence)
      then Some (mkGitHubCheckBinding (b_Name binding) (b_AppID binding))
      else binding_for bindings' evidence
  end.

Definition evidence_of (rule : RuleConfig) (evidence : string) : EvidenceRequirement :=
  mkEvidenceRequirement evidence evidence true ("required by policy " +:+ rule_Name rule)
    "policy-engine" (binding_for (req_GitHubChecks (rule_Require rule)) evidence).

Definition applyEvidenceRequirements (rule : RuleConfig) (e : Evaluation) : Evaluation :=
  mkEvaluation (ev_Decision e)
    (foldl (λ es evidence, appendUniqueEvidence es (evidence_of rule evidence))
       (ev_Evidence e) (req_Evidence (rule_Require rule)))
    (ev_Reviewers e) (ev_Deployment e).

Definition applyDeploymentRequirements (rule : RuleConfig) (e : Evaluation) : Evaluation :=
  let d := ev_Deployment e in
  let clause := req_Deployment (rule_Require rule) in
  mkEvaluation (ev_Decision e) (ev_Evidence e) (ev_Reviewers e)
    {| dr_Strategy := if decide (dep_Strategy clause = "") then dr_Strategy d else dep_Strategy clause;
       dr_Environments :=
         if nonempty (dep_Environments clause) then dr_Environments d ++ dep_Environments clause
         else dr_Environments d;
       dr_RequiresCanary := dr_RequiresCanary d || dep_RequiresCanary clause;
       dr_RequiresRollbackPlan := dr_RequiresRollbackPlan d || dep_RequiresRollbackPlan clause;
       dr_FreezeWindow := dr_FreezeWindow d; dr_Owners := dr_Owners d |}.

Definition blocked_by (rule : RuleConfig) : PolicyViolation :=
  mkPolicyViolation (rule_Name rule) "policy blocked change propagation" SeverityCritical.

Definition raise_lane (lane : MergeLane) (d : PolicyDecision) : PolicyDecision :=
  if decide (lane = "") then d
  else {| pd_Status := pd_Status d; pd_Summary := pd_Summary d; pd_Reasons := pd_Reasons d;
          pd_Violations := pd_Violations d; pd_AppliedPolicies := pd_AppliedPolicies d;
          pd_MinimumLane := policy_maxLane (pd_MinimumLane d) lane; pd_DecidedAt := pd_DecidedAt d |}.

Definition block (rule : RuleConfig) (d : PolicyDecision) : PolicyDecision :=
  {| pd_Status := DecisionBlocked; pd_Summary := pd_Summary d; pd_Reasons := pd_Reasons d;
     pd_Violations := pd_Violations d ++ [blocked_by rule];
     pd_AppliedPolicies := pd_AppliedPolicies d;
     pd_MinimumLane := pd_MinimumLane d; pd_DecidedAt := pd_DecidedAt d |}.

Definition applyPolicyAction (rule : RuleConfig) (e : Evaluation) : Evaluation :=
  let e := set_decision (raise_lane (act_MinimumLane (rule_Action rule))) e in
  if act_Block (rule_Action rule) then set_decision (block rule) e
  else if nonempty (ev_Reviewers e) || nonempty (ev_Evidence e)
  then set_decision (pd_with_Status DecisionPending) e
  else e.

(** The first lines of [applyRule]: the rule is on record. *)
Definition record_rule (rule : RuleConfig) (d : PolicyDecision) : PolicyDecision :=
  {| pd_Status := pd_Status d; pd_Summary := pd_Summary d;
     pd_Reasons := if decide (rule_Description rule = "") then pd_Reasons d
                   else pd_Reasons d ++ [rule_Description rule];
     pd_Violations := pd_Violations d;
     pd_AppliedPolicies := pd_AppliedPolicies d ++ [rule_Name rule];
     pd_MinimumLane := pd_MinimumLane d; pd_DecidedAt := pd_DecidedAt d |}.

Definition applyRule (e : Evaluation) (rule : RuleConfig) : Evaluation :=
  let e := set_decision (record_rule rule) e in
  let e := applyReviewerRequirements rule e in
  let e := applyEvidenceRequirements rule e in
  let e := applyDeploymentRequirements rule e in
  applyPolicyAction rule e.

Definition finalizeDecision (e : Evaluation) : Evaluation :=
  let summary := Join "; " (pd_Reasons (ev_Decision e)) in
  set_decision (pd_with_Summary
    (if decide (summary = "") then "no blocking policy constraints" else summary)) e.

(** [now] is the reading of the clock. *)
Definition initial_evaluation (now : Time) : Evaluation :=
  {| ev_Decision := pd_with_Status DecisionApproved (pd_with_DecidedAt now zeroPolicyDecision);
     ev_Evidence := []; ev_Reviewers := [];
     ev_Deployment := mkDeploymentRequirement DeployDirect [] false false "" [] |}.

Definition evaluate_step (packet : ChangePacket) (e : Evaluation) (rule : RuleConfig) : Evaluation :=
  if negb (matchesRule rule packet) then e else applyRule e rule.

Definition Evaluate (config : Config) (now : Time) (packet : ChangePacket)
    : result PolicyError Evaluation :=
  Validate config ;;
  Ok (finalizeDecision (foldl (evaluate_step packet) (initial_evaluation now) (Policies config))).

(** ** Lemmas *)

(** The rules that match, and what they ask for, in order. *)
Definition matching (config : Config) (packet : ChangePacket) : list RuleConfig :=
  filter (λ rule, matchesRule rule packet = true) (Policies config).

Definition reviewer_requests (rules : list RuleConfig) : list ReviewerRequirement :=
  mjoin ((λ rule, reviewer_of rule <$> req_Reviewers (rule_Require rule)) <$> rules).

Definition evidence_requests (rules : list RuleConfig) : list EvidenceRequirement :=
  mjoin ((λ rule, evidence_of rule <$> req_Evidence (rule_Require rule)) <$> rules).

Lemma foldl_fmap {A B C} (f : A → B → A) (g : C → B) a l :
  foldl f a (g <$> l) = foldl (λ a c, f a (g c)) a l.
Proof. revert a. induction l as [|c l IH]; intros a; [done|]. apply IH. Qed.

Lemma foldl_matching packet e rules :
  foldl (evaluate_step packet) e rules =
  foldl applyRule e (filter (λ rule, matchesRule rule packet = true) rules).
Proof.
  revert e. induction rules as [|r rules IH]; intros e; [done|].
  rewrite filter_cons. cbn [foldl]. rewrite IH. unfold evaluate_step.
  destruct (matchesRule r packet); [by rewrite decide_True by done|by rewrite decide_False by done].
Qed.

Lemma Evaluate_inv config now packet e :
  Evaluate config now packet = Ok e ↔
  well_formed config ∧
  e = finalizeDecision (foldl applyRule (initial_evaluation now) (matching config packet)).
Proof.
  unfold Evaluate, matching. rewrite bind_unit_ok, well_formed_iff, foldl_matching.
  split; intros [? H]; split; try done; congruence.
Qed.

(** What one rule does to each component of the evaluation. *)
Definition needs (e : Evaluation) : bool := nonempty (ev_Reviewers e) || nonempty (ev_Evidence e).

Lemma applyRule_components e rule :
  let e' := applyRule e rule in
  ev_Reviewers e' = foldl appendUniqueReviewer (ev_Reviewers e) (reviewer_requests [rule]) ∧
  ev_Evidence e' = foldl appendUniqueEvidence (ev_Evidence e) (evidence_requests [rule]) ∧
  ev_Deployment e' = ev_Deployment (applyDeploymentRequirements rule e) ∧
  ev_Decision e' =
    let d := raise_lane (act_MinimumLane (rule_Action rule)) (record_rule rule (ev_Decision e)) in
    if act_Block (rule_Action rule) then block rule d
    else if needs e' then pd_with_Status DecisionPending d else d.
Proof.
  cbn zeta. unfold reviewer_requests, evidence_requests, needs. cbn [fmap list_fmap].
  cbn [mjoin list_join]. rewrite !app_nil_r, !foldl_fmap.
  unfold applyRule, applyPolicyAction.
  destruct (act_Block _); [done|].
  destruct (_ || _) eqn:E; cbn in *; by rewrite E.
Qed.

Lemma appendUniqueReviewer_eq values c :
  appendUniqueReviewer values c =
  append_unique_by (λ v c, EqualFold (rr_Team v) (rr_Team c)) values [c].
Proof.
  induction values as [|v values IH]; [done|]. cbn. destruct (EqualFold _ _); [done|].
  rewrite IH. cbn. by destruct (existsb _ _).
Qed.

Lemma foldl_reviewers cs values :
  foldl appendUniqueReviewer values cs =
  append_unique_by (λ v c, EqualFold (rr_Team v) (rr_Team c)) values cs.
Proof.
  revert values. induction cs as [|c cs IH]; intros values; [done|].
  cbn [foldl]. by rewrite IH, appendUniqueReviewer_eq.
Qed.

Lemma evaluated_reviewers now rules :
  ev_Reviewers (foldl applyRule (initial_evaluation now) rules) =
  append_unique_by (λ v c, EqualFold (rr_Team v) (rr_Team c)) [] (reviewer_requests rules).
Proof.
  rewrite <- foldl_reviewers. induction rules as [|r rules IH] using rev_ind; [done|].
  rewrite foldl_app. cbn [foldl]. rewrite (proj1 (applyRule_components _ r)), IH.
  unfold reviewer_requests. by rewrite fmap_app, join_app, foldl_app.
Qed.

Lemma evaluated_evidence now rules :
  ev_Evidence (foldl applyRule (initial_evaluation now) rules) =
  foldl appendUniqueEvidence [] (evidence_requests rules).
Proof.
  induction rules as [|r rules IH] using rev_ind; [done|].
  rewrite foldl_app. cbn [foldl]. rewrite (proj1 (proj2 (applyRule_components _ r))), IH.
  unfold evidence_requests. by rewrite fmap_app, join_app, foldl_app.
Qed.

(** The requirement [value] after a candidate of the same name. *)
Definition merge_check (value candidate : EvidenceRequirement) : EvidenceRequirement :=
  match er_GitHubCheck value with
  | None => er_with_GitHubCheck (er_GitHubCheck candidate) value
  | Some _ => value
  end.

Lemma merge_check_name value candidate : er_Name (merge_check value candidate) = er_Name value.
Proof. unfold merge_check. by destruct (er_GitHubCheck value). Qed.

Lemma appendUniqueEvidence_cons value values c :
  appendUniqueEvidence (value :: values) c =
  if decide (er_Name value = er_Name c) then merge_check value c :: values
  else value :: appendUniqueEvidence values c.
Proof.
  cbn. case_decide; [|done]. unfold merge_check.
  destruct value as [? ? ? ? ? [g|]]; cbn; [done|]. by destruct (er_GitHubCheck c).
Qed.

Lemma appendUniqueEvidence_names values c :
  er_Name <$> appendUniqueEvidence values c =
  if decide (er_Name c ∈ er_Name <$> values) then er_Name <$> values
  else (er_Name <$> values) ++ [er_Name c].
Proof.
  induction values as [|v values IH]; [done|].
  rewrite appendUniqueEvidence_cons, fmap_cons.
  destruct (decide (er_Name v = er_Name c)) as [E|E].
  - rewrite decide_True by (rewrite E; left). by rewrite fmap_cons, merge_check_name.
  - rewrite fmap_cons, IH. case_decide; [rewrite decide_True by set_solver|rewrite decide_False by set_solver]; done.
Qed.

Lemma appendUniqueEvidence_elem values c q :
  NoDup (er_Name <$> values) →
  q ∈ appendUniqueEvidence values c →
  (q ∈ values ∧ er_Name q ≠ er_Name c) ∨
  (q = c ∧ er_Name c ∉ er_Name <$> values) ∨
  (∃ v, v ∈ values ∧ er_Name v = er_Name c ∧ q = merge_check v c).
Proof.
  induction values as [|v values IH]; intros Hnd Hq.
  { apply list_elem_of_singleton in Hq. subst q. right. left. set_solver. }
  rewrite appendUniqueEvidence_cons in Hq. apply NoDup_cons in Hnd as [Hv Hnd].
  case_decide as E; apply elem_of_cons in Hq as [->|Hq].
  - right. right. exists v. set_solver.
  - left. split; [set_solver|]. intros Eq. apply Hv. rewrite E, <- Eq. apply list_elem_of_fmap. eauto.
  - left. split; [set_solver|done].
  - destruct (IH Hnd Hq) as [[? ?]|[[-> ?]|(v0 & ? & ? & ->)]].
    + left. set_solver.
    + right. left. split; [done|]. rewrite fmap_cons. set_solver.
    + right. right. exists v0. set_solver.
Qed.

(** The evidence list after the candidates [cs]. *)
Record collected (cs es : list EvidenceRequirement) : Prop := {
  co_names : NoDup (er_Name <$> es);
  co_cover : ∀ n, n ∈ er_Name <$> es ↔ n ∈ er_Name <$> cs;
  co_origin : ∀ q, q ∈ es → ∃ c, c ∈ cs ∧ q = er_with_GitHubCheck (er_GitHubCheck q) c;
  co_some : ∀ q g, q ∈ es → er_GitHubCheck q = Some g →
              ∃ c, c ∈ cs ∧ er_Name c = er_Name q ∧ er_GitHubCheck c = Some g;
  co_none : ∀ q c, q ∈ es → er_GitHubCheck q = None → c ∈ cs → er_Name c = er_Name q →
              er_GitHubCheck c = None;
}.

Lemma with_check_self q : er_with_GitHubCheck (er_GitHubCheck q) q = q.
Proof. by destruct q. Qed.

Lemma collected_step cs es c : collected cs es → collected (cs ++ [c]) (appendUniqueEvidence es c).
Proof.
  intros [Hn Hcov Ho Hs H0].
  assert (∀ q, q ∈ es → er_Name q ∈ er_Name <$> es) as Hin by (intros; apply list_elem_of_fmap; eauto).
  split.
  - rewrite appendUniqueEvidence_names. case_decide; [done|].
    apply NoDup_app. split_and!; [done|set_solver|apply NoDup_singleton].
  - intros n. rewrite appendUniqueEvidence_names, fmap_app. cbn. specialize (Hcov n).
    case_decide; set_solver.
  - intros q [[Hq _]|[[-> _]|(v & Hv & He & ->)]]%(appendUniqueEvidence_elem _ _ _ Hn).
    + destruct (Ho q Hq) as (c0 & ? & ?). exists c0. set_solver.
    + exists c. split; [set_solver|]. by rewrite with_check_self.
    + destruct (Ho v Hv) as (c0 & ? & Ev). exists c0. split; [set_solver|].
      rewrite Ev. unfold merge_check. cbn. by destruct (er_GitHubCheck v).
  - intros q g [[Hq _]|[[-> _]|(v & Hv & He & ->)]]%(appendUniqueEvidence_elem _ _ _ Hn) Hg.
    + destruct (Hs q g Hq Hg) as (c0 & ? & ? & ?). exists c0. set_solver.
    + exists c. set_solver.
    + rewrite merge_check_name. unfold merge_check in Hg. destruct (er_GitHubCheck v) eqn:Ev.
      * rewrite Ev in Hg. destruct (Hs v g Hv) as (c0 & ? & ? & ?); [congruence|]. exists c0. set_solver.
      * exists c. set_solver.
  - intros q c0 [[Hq Hne]|[[-> Hc]|(v & Hv & He & ->)]]%(appendUniqueEvidence_elem _ _ _ Hn) Hg Hc0 Hname.
    + apply elem_of_app in Hc0 as [Hc0|Hc0%list_elem_of_singleton]; [by eapply H0|congruence].
    + apply elem_of_app in Hc0 as [Hc0|Hc0%list_elem_of_singleton]; [|congruence].
      exfalso. apply Hc, Hcov. rewrite <- Hname. apply list_elem_of_fmap. eauto.
    + rewrite merge_check_name in Hname. unfold merge_check in Hg.
      destruct (er_GitHubCheck v) eqn:Ev; [congruence|]. cbn in Hg.
      apply elem_of_app in Hc0 as [Hc0|Hc0%list_elem_of_singleton]; [by eapply H0|congruence].
Qed.

Lemma collected_all cs : collected cs (foldl appendUniqueEvidence [] cs).
Proof.
  apply (foldl_ind _ collected).
  - split; cbn; set_solver by (try constructor).
  - intros. by apply collected_step.
Qed.

Lemma elem_of_requests {A} (f : RuleConfig → list A) rules x :
  x ∈ mjoin (f <$> rules) ↔ ∃ r, r ∈ rules ∧ x ∈ f r.
Proof.
  rewrite list_elem_of_join. split.
  - intros (l & Hx & (r & -> & Hr)%list_elem_of_fmap). eauto.
  - intros (r & Hr & Hx). exists (f r). split; [done|]. apply list_elem_of_fmap. eauto.
Qed.

Lemma elem_of_evidence_requests rules q :
  q ∈ evidence_requests rules ↔
  ∃ r n, r ∈ rules ∧ n ∈ req_Evidence (rule_Require r) ∧ q = evidence_of r n.
Proof.
  unfold evidence_requests. rewrite elem_of_requests. split.
  - intros (r & Hr & (n & -> & Hn)%list_elem_of_fmap). eauto.
  - intros (r & n & Hr & Hn & ->). exists r. split; [done|]. apply list_elem_of_fmap. eauto.
Qed.

Lemma elem_of_reviewer_requests rules q :
  q ∈ reviewer_requests rules ↔
  ∃ r n, r ∈ rules ∧ n ∈ req_Reviewers (rule_Require r) ∧ q = reviewer_of r n.
Proof.
  unfold reviewer_requests. rewrite elem_of_requests. split.
  - intros (r & Hr & (n & -> & Hn)%list_elem_of_fmap). eauto.
  - intros (r & n & Hr & Hn & ->). exists r. split; [done|]. apply list_elem_of_fmap. eauto.
Qed.

Lemma binding_for_Some bindings n g :
  binding_for bindings n = Some g →
  ∃ b, b ∈ bindings ∧ b_Evidence b = n ∧ g = mkGitHubCheckBinding (b_Name b) (b_AppID b).
Proof.
  induction bindings as [|b bindings IH]; cbn; [done|]. case_decide.
  - intros [= <-]. exists b. set_solver.
  - intros (b0 & ? & ? & ?)%IH. exists b0. set_solver.
Qed.

Lemma binding_for_None bindings n b :
  binding_for bindings n = None → b ∈ bindings → b_Evidence b ≠ n.
Proof.
  induction bindings as [|b0 bindings IH]; cbn; [set_solver|]. case_decide; [done|].
  intros Hn [->|Hb]%elem_of_cons; auto.
Qed.

(** In a well-formed configuration, the binding of an evidence name is the same
    wherever it appears. *)
Lemma well_formed_binding config r1 r2 b1 b2 :
  well_formed config → r1 ∈ Policies config → r2 ∈ Policies config →
  b1 ∈ rule_bindings r1 → b2 ∈ rule_bindings r2 → b_Evidence b1 = b_Evidence b2 → b1 = b2.
Proof.
  intros [_ _ Hc] Hr1 Hr2 Hb1 Hb2. apply Hc; apply elem_of_requests; eauto.
Qed.

Lemma well_formed_declared config r b :
  well_formed config → r ∈ Policies config → b ∈ rule_bindings r →
  b_Evidence b ∈ req_Evidence (rule_Require r).
Proof.
  intros [Hr _ _] Hin Hb. rewrite Forall_forall in Hr. destruct (Hr r Hin) as [_ _ _ Hq _].
  pose proof (ro_complete _ Hq) as H. rewrite Forall_forall in H. by apply H.
Qed.

Lemma elem_of_matching config packet r :
  r ∈ matching config packet ↔ r ∈ Policies config ∧ matchesRule r packet = true.
Proof. unfold matching. rewrite list_elem_of_filter. tauto. Qed.

Lemma applyRule_decision_log e rule :
  let d := ev_Decision e in let d' := ev_Decision (applyRule e rule) in
  pd_AppliedPolicies d' = pd_AppliedPolicies d ++ [rule_Name rule] ∧
  pd_Reasons d' = pd_Reasons d ++ (if decide (rule_Description rule = "") then [] else [rule_Description rule]) ∧
  pd_Violations d' = pd_Violations d ++ (if act_Block (rule_Action rule) then [blocked_by rule] else []) ∧
  pd_DecidedAt d' = pd_DecidedAt d.
Proof.
  cbn zeta. destruct (applyRule_components e rule) as (_ & _ & _ & ->). cbn zeta.
  unfold raise_lane. destruct (decide (act_MinimumLane _ = "")), (act_Block _), (needs (applyRule e rule)); cbn;
    case_decide; rewrite ?app_nil_r; done.
Qed.

Lemma applyRule_lane e rule :
  pd_MinimumLane (ev_Decision (applyRule e rule)) =
  if decide (act_MinimumLane (rule_Action rule) = "") then pd_MinimumLane (ev_Decision e)
  else policy_maxLane (pd_MinimumLane (ev_Decision e)) (act_MinimumLane (rule_Action rule)).
Proof.
  destruct (applyRule_components e rule) as (_ & _ & _ & ->). cbn zeta.
  unfold raise_lane. destruct (decide (act_MinimumLane _ = "")), (act_Block _), (needs (applyRule e rule)); done.
Qed.

Lemma policy_maxLane_order a b :
  lane_order (policy_maxLane a b) = Z.max (lane_order a) (lane_order b).
Proof.
  unfold policy_maxLane. case_decide as E.
  - subst a. rewrite lane_order_empty. pose proof (lane_order_bounds b). lia.
  - destruct (Z.ltb_spec (lane_order a) (lane_order b)); lia.
Qed.

(** The engine's lane join and the assigner's agree on the lanes a validated
    configuration can name. *)
Lemma policy_maxLane_agrees a b :
  (a = "" ∨ supported_lane a) → supported_lane b → policy_maxLane a b = maxLane a b.
Proof.
  intros Ha Hb. apply lane_order_inj.
  - apply lane_order_supported. rewrite policy_maxLane_order.
    apply lane_order_supported in Hb. lia.
  - by rewrite policy_maxLane_order, maxLane_order.
Qed.

(** [Approved] survives a rule only if the rule neither blocks nor leaves a
    requirement behind. *)
Definition status_after (status : DecisionStatus) (blocks needed : bool) : DecisionStatus :=
  if blocks then DecisionBlocked else if needed then DecisionPending else status.

Lemma applyRule_status e rule :
  pd_Status (ev_Decision (applyRule e rule)) =
  status_after (pd_Status (ev_Decision e)) (act_Block (rule_Action rule)) (needs (applyRule e rule)).
Proof.
  destruct (applyRule_components e rule) as (_ & _ & _ & ->). cbn zeta. unfold status_after, raise_lane.
  by destruct (decide (act_MinimumLane _ = "")), (act_Block _), (needs (applyRule e rule)).
Qed.

(** An approved evaluation asks for nothing. *)
Lemma approved_needs_nothing config now packet e :
  Evaluate config now packet = Ok e → pd_Status (ev_Decision e) = DecisionApproved →
  ev_Reviewers e = [] ∧ ev_Evidence e = [].
Proof.
  intros [_ ->]%Evaluate_inv. unfold finalizeDecision. cbn.
  enough (∀ rules, let e := foldl applyRule (initial_evaluation now) rules in
    pd_Status (ev_Decision e) = DecisionApproved → needs e = false) as Hn.
  { intros Hs%Hn. unfold needs in Hs. by destruct (ev_Reviewers _), (ev_Evidence _). }
  cbn zeta. intros rules. induction rules as [|r rules _] using rev_ind; [done|].
  rewrite foldl_app. cbn [foldl]. rewrite applyRule_status. unfold status_after.
  destruct (act_Block _), (needs _); done.
Qed.

(** A matched rule that asks for something. *)
Definition asks (rule : RuleConfig) : bool :=
  nonempty (req_Reviewers (rule_Require rule)) || nonempty (req_Evidence (rule_Require rule)).

Lemma appendUniqueReviewer_nonempty values cs :
  nonempty (foldl appendUniqueReviewer values cs) = nonempty values || nonempty cs.
Proof.
  revert values. induction cs as [|c cs IH]; intros values; cbn; [by rewrite orb_false_r|].
  rewrite IH. replace (nonempty (appendUniqueReviewer values c)) with true; [by rewrite orb_true_r|].
  destruct values; cbn; [done|]. by destruct (EqualFold _ _).
Qed.

Lemma appendUniqueEvidence_nonempty values cs :
  nonempty (foldl appendUniqueEvidence values cs) = nonempty values || nonempty cs.
Proof.
  revert values. induction cs as [|c cs IH]; intros values; cbn [foldl]; [by rewrite orb_false_r|].
  rewrite IH. replace (nonempty (appendUniqueEvidence values c)) with true; [by rewrite orb_true_r|].
  destruct values; [done|]. rewrite appendUniqueEvidence_cons. by case_decide.
Qed.

Lemma needs_applyRule e rule : needs (applyRule e rule) = needs e || asks rule.
Proof.
  unfold needs, asks. destruct (applyRule_components e rule) as (-> & -> & _).
  rewrite appendUniqueReviewer_nonempty, appendUniqueEvidence_nonempty.
  unfold reviewer_requests, evidence_requests. cbn. rewrite !app_nil_r.
  destruct (req_Reviewers _), (req_Evidence _); cbn; rewrite ?orb_true_r, ?orb_false_r; try done.
Qed.

Lemma needs_rules now rules :
  needs (foldl applyRule (initial_evaluation now) rules) = existsb asks rules.
Proof.
  induction rules as [|r rules IH] using rev_ind; [done|].
  rewrite foldl_app, existsb_app. cbn. by rewrite needs_applyRule, IH, orb_false_r.
Qed.

(** ** Properties *)

Section evaluated.
Context (config : Config) (now : Time) (packet : ChangePacket) (e : Evaluation).
Context (He : Evaluate config now packet = Ok e).

(** An evaluation is the record of the matching rules, in configuration
    order: their names, their descriptions (joined into the summary), one
    critical violation per blocking rule; the deployment requirement is the last
    strategy they name (direct without one), all their environments, and a
    canary or a rollback plan when any of them wants it. *)
Theorem evaluate_records_matches :
  let rules := matching config packet in
  let d := ev_Decision e in
  let descriptions := filter (λ s, s ≠ "") (rule_Description <$> rules) in
  pd_AppliedPolicies d = rule_Name <$> rules ∧
  pd_Reasons d = descriptions ∧
  pd_Summary d = (if decide (Join "; " descriptions = "") then "no blocking policy constraints"
                  else Join "; " descriptions) ∧
  pd_Violations d = blocked_by <$> filter (λ r, act_Block (rule_Action r) = true) rules ∧
  pd_DecidedAt d = now ∧
  let clauses := (λ r, req_Deployment (rule_Require r)) <$> rules in
  dr_Strategy (ev_Deployment e) =
    default DeployDirect (last (filter (λ s, s ≠ "") (dep_Strategy <$> clauses))) ∧
  dr_Environments (ev_Deployment e) = mjoin (dep_Environments <$> clauses) ∧
  dr_RequiresCanary (ev_Deployment e) = existsb dep_RequiresCanary clauses ∧
  dr_RequiresRollbackPlan (ev_Deployment e) = existsb dep_RequiresRollbackPlan clauses.
Proof using He.
  cbn zeta. apply Evaluate_inv in He as [_ ->]. unfold finalizeDecision. cbn.
  generalize (matching config packet) as rules. intros rules.
  enough (let e := foldl applyRule (initial_evaluation now) rules in
    pd_AppliedPolicies (ev_Decision e) = rule_Name <$> rules ∧
    pd_Reasons (ev_Decision e) = filter (λ s, s ≠ "") (rule_Description <$> rules) ∧
    pd_Violations (ev_Decision e) = blocked_by <$> filter (λ r, act_Block (rule_Action r) = true) rules ∧
    pd_DecidedAt (ev_Decision e) = now ∧
    let clauses := (λ r, req_Deployment (rule_Require r)) <$> rules in
    dr_Strategy (ev_Deployment e) =
      default DeployDirect (last (filter (λ s, s ≠ "") (dep_Strategy <$> clauses))) ∧
    dr_Environments (ev_Deployment e) = mjoin (dep_Environments <$> clauses) ∧
    dr_RequiresCanary (ev_Deployment e) = existsb dep_RequiresCanary clauses ∧
    dr_RequiresRollbackPlan (ev_Deployment e) = existsb dep_RequiresRollbackPlan clauses) as H.
  { cbn zeta in H. destruct H as (Ha & Hr & H). rewrite Ha, Hr. tauto. }
  cbn zeta. induction rules as [|r rules IH] using rev_ind; [done|].
  rewrite foldl_app. cbn [foldl].
  pose proof (applyRule_decision_log (foldl applyRule (initial_evaluation now) rules) r) as Hlog.
  pose proof (applyRule_components (foldl applyRule (initial_evaluation now) rules) r) as (_ & _ & Hdep & _).
  destruct IH as (I1 & I2 & I3 & I4 & I5 & I6 & I7 & I8).
  cbn zeta in Hlog. destruct Hlog as (-> & -> & -> & ->). rewrite Hdep.
  rewrite !fmap_app, !filter_app, !fmap_app, join_app, !existsb_app, last_app.
  rewrite I1, I2, I3, I4. unfold applyDeploymentRequirements. cbn.
  rewrite I5, I6, I7, I8, app_nil_r, !orb_false_r.
  split_and!; try done.
  - f_equal. by destruct (decide (rule_Description r = "")), (decide (rule_Description r ≠ "")).
  - by destruct (act_Block (rule_Action r)).
  - destruct (decide (dep_Strategy _ = "")) as [E|E];
      [rewrite decide_False by tauto|rewrite decide_True by done]; done.
  - destruct (dep_Environments _); cbn; by rewrite ?app_nil_r.
Qed.

(** The minimum lane of an evaluation is the highest lane that a matching
    rule names, and unset when none does. *)
Theorem evaluate_minimum_lane :
  let lanes := (λ r, act_MinimumLane (rule_Action r)) <$> matching config packet in
  let lane := pd_MinimumLane (ev_Decision e) in
  (lane = "" ∨ lane ∈ lanes ∧ supported_lane lane) ∧
  (∀ l, l ∈ lanes → lane_order l ≤ lane_order lane).
Proof using He.
  cbn zeta. apply Evaluate_inv in He as [Hwf ->].
  assert (Forall (λ r, let l := act_MinimumLane (rule_Action r) in l = "" ∨ supported_lane l)
            (matching config packet)) as Hs.
  { apply Forall_forall. intros r [Hr _]%elem_of_matching.
    destruct Hwf as [Hwf _ _]. rewrite Forall_forall in Hwf. destruct (Hwf r Hr) as [_ _ _ _ Hl].
    unfold supportedLanes in Hl. unfold supported_lane. set_solver. }
  unfold finalizeDecision. cbn. generalize dependent (matching config packet). intros rules Hs.
  induction rules as [|r rules IH] using rev_ind.
  { cbn. split; [by left|]. set_solver. }
  apply Forall_app in Hs as [Hs [Hr _]%Forall_cons]. cbn in Hr.
  destruct (IH Hs) as [I1 I2]. rewrite foldl_app, fmap_app. cbn [foldl].
  rewrite applyRule_lane. cbn [fmap list_fmap]. case_decide as E.
  - split; [set_solver|]. intros l [Hl|Hl%list_elem_of_singleton]%elem_of_app; [by apply I2|].
    subst l. rewrite E, lane_order_empty. apply lane_order_bounds.
  - destruct Hr as [Hr|Hr]; [done|]. split.
    + right. split.
      * unfold policy_maxLane. repeat case_match; set_solver.
      * apply lane_order_supported. rewrite policy_maxLane_order.
        apply lane_order_supported in Hr. lia.
    + rewrite policy_maxLane_order.
      intros l [Hl%I2|Hl%list_elem_of_singleton]%elem_of_app; [lia|subst l; lia].
Qed.

(** C22: the reviewers of an evaluation are the teams of the matching rules,
    without two that differ only in case; its evidence is exactly the evidence
    the matching rules name, each name once, always required; and it carries
    the check binding that any matching rule declares for it, whatever the order
    of the rules, and no other. *)
Theorem evaluate_requirements :
  let rules := matching config packet in
  (∀ r n, r ∈ rules → n ∈ req_Reviewers (rule_Require r) →
     ∃ q, q ∈ ev_Reviewers e ∧ EqualFold (rr_Team q) n = true) ∧
  (∀ q, q ∈ ev_Reviewers e → rr_Mandatory q = true ∧
     ∃ r, r ∈ rules ∧ rr_Team q ∈ req_Reviewers (rule_Require r)) ∧
  NoDup (ToLower ∘ rr_Team <$> ev_Reviewers e) ∧
  NoDup (er_Name <$> ev_Evidence e) ∧
  (∀ n, n ∈ er_Name <$> ev_Evidence e ↔ ∃ r, r ∈ rules ∧ n ∈ req_Evidence (rule_Require r)) ∧
  (∀ q, q ∈ ev_Evidence e → er_Required q = true ∧ er_Type_ q = er_Name q ∧
     ∀ g, er_GitHubCheck q = Some g ↔
       ∃ r b, r ∈ rules ∧ b ∈ rule_bindings r ∧ b_Evidence b = er_Name q ∧
              g = mkGitHubCheckBinding (b_Name b) (b_AppID b)).
Proof using He.
  cbn zeta. apply Evaluate_inv in He as [Hwf ->]. cbn [finalizeDecision set_decision ev_Reviewers ev_Evidence].
  rewrite evaluated_reviewers, evaluated_evidence.
  pose proof (collected_all (evidence_requests (matching config packet))) as [Hn Hcov Ho Hsome Hnone].
  split_and!.
  - intros r n Hr Hin.
    destruct (append_unique_covers (λ v c, EqualFold (rr_Team v) (rr_Team c)) []
      (reviewer_requests (matching config packet)) (reviewer_of r n)) as (q & ? & ?); [|..].
    + intros. apply EqualFold_refl.
    + apply elem_of_reviewer_requests. eauto.
    + by exists q.
  - intros q [Hq|Hq]%append_unique_sub; [set_solver|].
    apply elem_of_reviewer_requests in Hq as (r & n & ? & ? & ->). by eauto.
  - apply append_unique_NoDup; [|constructor]. intros x y. apply EqualFold_iff.
  - done.
  - intros n. rewrite Hcov, list_elem_of_fmap. setoid_rewrite elem_of_evidence_requests. split.
    + intros (q & -> & r & n0 & ? & ? & ->). eauto.
    + intros (r & ? & ?). exists (evidence_of r n). eauto 7.
  - intros q Hq. destruct (Ho q Hq) as (c & Hc & Eq).
    apply elem_of_evidence_requests in Hc as (r0 & n & Hr0 & Hn0 & ->).
    assert (er_Name q = n) as Hname by by rewrite Eq.
    split_and!; [by rewrite Eq|by rewrite Eq|]. intros g. split.
    + intros Hg. destruct (Hsome q g Hq Hg) as (c & Hc & Hcn & Hcg).
      apply elem_of_evidence_requests in Hc as (r & n' & ? & ? & ->). cbn in Hcn, Hcg.
      apply binding_for_Some in Hcg as (b & ? & ? & ->). exists r, b. by rewrite <- Hcn.
    + intros (r & b & Hr & Hb & Hbn & ->). pose proof Hr as [Hr' _]%elem_of_matching.
      pose proof (well_formed_declared _ _ _ Hwf Hr' Hb) as Hdecl. rewrite Hbn in Hdecl.
      assert (evidence_of r (er_Name q) ∈ evidence_requests (matching config packet)) as Hreq.
      { apply elem_of_evidence_requests. eauto. }
      destruct (er_GitHubCheck q) as [g|] eqn:Eg.
      * destruct (Hsome q g Hq Eg) as (c & Hc & Hcn & Hcg).
        apply elem_of_evidence_requests in Hc as (r2 & n2 & Hr2%elem_of_matching & ? & ->). cbn in Hcn, Hcg.
        apply binding_for_Some in Hcg as (b2 & Hb2 & Hbn2 & ->).
        by rewrite (well_formed_binding config r2 r b2 b Hwf) by (done || tauto || congruence).
      * pose proof (Hnone q _ Hq Eg Hreq eq_refl) as Hno. cbn in Hno.
        by destruct (binding_for_None _ _ b Hno).
Qed.

(** C13: when a packet is approved, blocked or pending: approved exactly when
    no matching rule blocks or asks for evidence or reviewers; blocked exactly
    when the last matching rule blocks, or some rule blocks and none asks;
    pending in every other case. *)
Theorem evaluate_status :
  let rules := matching config packet in
  let blocks r := act_Block (rule_Action r) in
  let status := pd_Status (ev_Decision e) in
  (status = DecisionApproved ↔ existsb blocks rules = false ∧ existsb asks rules = false) ∧
  (status = DecisionBlocked ↔ (∃ r, last rules = Some r ∧ blocks r = true) ∨
                               existsb blocks rules = true ∧ existsb asks rules = false) ∧
  (status = DecisionPending ↔ existsb asks rules = true ∧ ∃ r, last rules = Some r ∧ blocks r = false).
Proof using He.
  cbn zeta. apply Evaluate_inv in He as [_ ->]. unfold finalizeDecision. cbn.
  generalize (matching config packet) as rules. intros rules.
  induction rules as [|r rules IH] using rev_ind.
  { cbn. split_and!; split; try done; by intros (? & ?) || intros [(? & ? & ?)|[? ?]]. }
  rewrite last_snoc, !existsb_app. cbn [existsb]. rewrite !orb_false_r.
  rewrite foldl_app. cbn [foldl]. rewrite applyRule_status, needs_applyRule, needs_rules.
  unfold status_after.
  set (status := pd_Status _) in *. set (bs := existsb _ rules) in *. set (qs := existsb asks rules) in *.
  destruct (act_Block (rule_Action r)) eqn:Eb.
  { rewrite !orb_true_r. split_and!; split; try done; eauto; [by intros [? ?]|].
    intros (_ & r' & [= <-] & ?). congruence. }
  rewrite orb_false_r. destruct (qs || asks r) eqn:Eq.
  { split_and!; split; try done; [by intros []|..]; eauto.
    intros [(r' & [= <-] & ?)|[? ?]]; congruence. }
  apply orb_false_iff in Eq as [Eq _]. destruct IH as (I1 & I2 & I3).
  rewrite I1, I2, I3, Eq. clear I1 I2 I3. split_and!; split; try tauto.
  - intros [(r0 & Hr0 & Hb)|?]; [|by right]. right. split; [|done].
    apply existsb_elem. exists r0. split; [by apply last_Some_elem_of|done].
  - intros [(r0 & [= <-] & Hb)|?]; [congruence|by right].
  - by intros [? _].
  - by intros [? _].
Qed.
End evaluated.

(** ** Witnesses *)

(** Two rules that match any change of [db/]: one asks for evidence bound to a
    check, the other blocks. *)
Definition db_rule (name : string) (require : RequirementClause) (blocks : bool) : RuleConfig :=
  mkRuleConfig name "database change" (mkWhenClause [] ["db/"] [] 0 []) require
    (mkActionClause blocks MergeLaneRed).

Definition asking_rule : RuleConfig :=
  db_rule "migrations"
    (mkRequirementClause ["Data"] ["migration_plan"] [mkCheckBinding "migration_plan" "plan" 7]
       (mkDeploymentClause "" false false [])) false.

Definition blocking_rule : RuleConfig :=
  db_rule "freeze" (mkRequirementClause [] [] [] (mkDeploymentClause "" true false ["prod"])) true.

Definition db_packet : ChangePacket :=
  cp_with_Files [mkChangedFile "db/0001.sql" "" "" FileModified 1 0 1 ""] zeroChangePacket.

Definition evaluated_db (rules : list RuleConfig) : Evaluation :=
  match Evaluate (mkConfig rules) 5 db_packet with
  | Ok e => e
  | Err _ => finalizeDecision (initial_evaluation 5)
  end.

Lemma evaluate_records_matches_witness :
  pd_AppliedPolicies (ev_Decision (evaluated_db [asking_rule; blocking_rule])) = ["migrations"; "freeze"].
Proof.
  assert (Evaluate (mkConfig [asking_rule; blocking_rule]) 5 db_packet =
          Ok (evaluated_db [asking_rule; blocking_rule])) as H by (vm_compute; reflexivity).
  exact (proj1 (evaluate_records_matches _ _ _ _ H)).
Defined.

Lemma evaluate_minimum_lane_witness :
  Forall (λ l, lane_order l ≤ lane_order (pd_MinimumLane (ev_Decision (evaluated_db [asking_rule; blocking_rule]))))
    ((λ r, act_MinimumLane (rule_Action r)) <$> matching (mkConfig [asking_rule; blocking_rule]) db_packet).
Proof.
  assert (Evaluate (mkConfig [asking_rule; blocking_rule]) 5 db_packet =
          Ok (evaluated_db [asking_rule; blocking_rule])) as H by (vm_compute; reflexivity).
  apply Forall_forall. exact (proj2 (evaluate_minimum_lane _ _ _ _ H)).
Defined.

Lemma evaluate_requirements_witness :
  NoDup (er_Name <$> ev_Evidence (evaluated_db [asking_rule; blocking_rule])).
Proof.
  assert (Evaluate (mkConfig [asking_rule; blocking_rule]) 5 db_packet =
          Ok (evaluated_db [asking_rule; blocking_rule])) as H by (vm_compute; reflexivity).
  exact (proj1 (proj2 (proj2 (proj2 (evaluate_requirements _ _ _ _ H))))).
Defined.

Lemma evaluate_status_witness :
  pd_Status (ev_Decision (evaluated_db [asking_rule; blocking_rule])) = DecisionBlocked.
Proof.
  assert (Evaluate (mkConfig [asking_rule; blocking_rule]) 5 db_packet =
          Ok (evaluated_db [asking_rule; blocking_rule])) as H by (vm_compute; reflexivity).
  apply (proj2 (proj1 (proj2 (evaluate_status _ _ _ _ H)))).
  left. exists blocking_rule. by vm_compute.
Defined.

(** With the same rules in the other order, the packet a rule blocks is only
    pending, and the assigner, which sends blocked packets to BLACK, gives it
    RED: the decision still lists the critical violation. *)
Example block_then_ask_is_pending :
  let e := evaluated_db [blocking_rule; asking_rule] in
  pd_Status (ev_Decision e) = DecisionPending ∧
  pd_Violations (ev_Decision e) = [blocked_by blocking_rule] ∧
  Assign (mkLanesConfig 20 45 75) (cp_with_Decision (ev_Decision e) db_packet) = MergeLaneRed.
Proof. by vm_compute. Qed.
