(* ===== verification/Mutations.v ===== *)
(** [internal/mutations]: rules, signal extractors, the mutation index and the
    rule-based engine.  The analyzers are in [Analyzers].

    Signals are slices over shared arrays here, because the engine hands one
    slice to every mutation a file yields and the index later appends to each of
    them: where an append has room it writes into the array the other mutations
    still read. *)
From stdpp Require Import base list gmap strings.
From S2P Require Import Prelude GoStrings GoPath Domain Identity.

Local Open Scope string_scope.
Local Open Scope list_scope.
Local Open Scope Z_scope.

(** ** Rules *)

Record Rule := mkRule {
  rule_Name : string;
  rule_Title : string;
  rule_Description : string;
  rule_Kind : MutationKind;
  rule_Severity : Severity;
  rule_Confidence : float64;
  PathPrefixes : list string;
  PathContains : list string;
  PathSuffixes : list string;
  FileGlobs : list string;
  RequiredSignals : list string;
}.

Definition DefaultRules : list Rule := [
  mkRule "auth-surface" "authentication or authorization behavior change"
    "Changes touch credential, token, policy, or auth control paths."
    MutationAuthBehaviorChange SeverityHigh (float_ratio 85 100)
    [] ["auth/"; "jwt"; "oauth"; "rbac"; "acl"] [] [] ["go:auth_symbol"];
  mkRule "schema-ddl" "database schema mutation" "DDL or migration assets changed."
    MutationDatabaseSchema SeverityHigh (float_ratio 9 10)
    ["migrations/"; "db/migrations/"] [] [".sql"] [] ["sql:ddl"];
  mkRule "runtime-config" "runtime or deploy-time configuration mutation"
    "Runtime or deploy-time configuration changed."
    MutationRuntimeConfig SeverityMedium (float_ratio 8 10)
    [] ["helm/"; "k8s/"; "deploy/"; "config/"] [] ["**/values.yaml"; "**/values.yml"] ["yaml:runtime_key"];
  mkRule "api-contract" "API contract mutation" "Public or internal API definition changed."
    MutationAPIContract SeverityHigh (float_ratio 88 100)
    [] [] ["openapi.yaml"; "openapi.yml"; ".proto"]
    ["**/openapi.yaml"; "**/openapi.yml"; "**/*.proto"] ["api:contract_surface"];
  mkRule "dependency" "dependency graph mutation" "Module or dependency manifest changed."
    MutationDependency SeverityMedium (float_ratio 92 100)
    [] [] ["go.mod"; "go.sum"; "package-lock.json"; "package.json"] [] [];
  mkRule "deployment-workflow" "deployment workflow mutation" "CI/CD or rollout workflow changed."
    MutationDeploymentWorkflow SeverityHigh (float_ratio 82 100)
    [] [".github/workflows/"; "deployments/"] [] [] [];
  mkRule "observability-surface" "observability contract mutation"
    "Telemetry, alerting, or dashboard behavior changed."
    MutationObservabilityContract SeverityMedium (float_ratio 7 10)
    [] ["telemetry/"; "observability/"; "alerts/"; "dashboards/"] [] [] []].

Definition containsAnyPrefix (value : string) (prefixes : list string) : bool :=
  existsb (λ prefix, HasPrefix value (ToLower prefix)) prefixes.

Definition containsAnySubstring (value : string) (patterns : list string) : bool :=
  existsb (λ pattern, Contains value (ToLower pattern)) patterns.

Definition hasAnySuffix (value : string) (suffixes : list string) : bool :=
  existsb (λ suffix, HasSuffix value (ToLower suffix)) suffixes.

Definition matchesAnyGlob (value : string) (globs : list string) : bool :=
  existsb (λ glob,
    let normalized := TrimPrefix (ToLower glob) "**/" in
    Match normalized value || HasSuffix value (TrimPrefix normalized "*")) globs.

Definition Matches (r : Rule) (filePath : string) (signals : list MutationSignal) : bool :=
  let lowerPath := ToLower filePath in
  if containsAnyPrefix lowerPath (PathPrefixes r) || containsAnySubstring lowerPath (PathContains r) ||
     hasAnySuffix lowerPath (PathSuffixes r) || matchesAnyGlob lowerPath (FileGlobs r) then true
  else if negb (nonempty (RequiredSignals r)) then false
  else existsb (λ signal, existsb (λ required, EqualFold (sig_Value signal) required) (RequiredSignals r))
         signals.

(** ** Signal extractors *)

Record SignalExtractor := mkSignalExtractor {
  ex_Name : string;
  ex_Supports : ChangedFile → bool;
  ex_Extract : ChangedFile → result string (list MutationSignal);
}.

Definition signal_if (cond : bool) (source value : string) (weight : Z) : list MutationSignal :=
  if cond then [mkMutationSignal source value weight] else [].

Definition goPatchSignalExtractor : SignalExtractor := {|
  ex_Name := "go-patch-signals";
  ex_Supports file := EqualFold (Ext (file_Path file)) ".go";
  ex_Extract file :=
    let patch := ToLower (file_Patch file) in
    Ok (signal_if (Contains patch "func ") "go_patch" "go:function_change" 1 ++
        signal_if (Contains patch "jwt" || Contains patch "token" || Contains patch "authorize")
          "go_patch" "go:auth_symbol" 2) |}.

Definition sqlSignalExtractor : SignalExtractor := {|
  ex_Name := "sql-signals";
  ex_Supports file := EqualFold (Ext (file_Path file)) ".sql";
  ex_Extract file :=
    let patch := ToLower (file_Patch file) in
    Ok (signal_if (Contains patch "alter table" || Contains patch "create table" || Contains patch "drop table")
          "sql_patch" "sql:ddl" 3) |}.

Definition yamlSignalExtractor : SignalExtractor := {|
  ex_Name := "yaml-signals";
  ex_Supports file :=
    let ext := ToLower (Ext (file_Path file)) in
    bool_decide (ext = ".yaml") || bool_decide (ext = ".yml");
  ex_Extract file :=
    let patch := ToLower (file_Patch file) in
    Ok (signal_if (existsb (Contains patch) ["replicas:"; "resources:"; "image:"; "env:"; "ingress:"; "rollout:"])
          "yaml_patch" "yaml:runtime_key" 2 ++
        signal_if (Contains (ToLower (file_Path file)) "openapi") "yaml_path" "api:contract_surface" 3) |}.

Definition dependency_manifest (file : ChangedFile) : bool :=
  bool_decide (ToLower (Base (file_Path file)) ∈ ["go.mod"; "go.sum"; "package.json"; "package-lock.json"]).

Definition manifestSignalExtractor : SignalExtractor := {|
  ex_Name := "manifest-signals";
  ex_Supports := dependency_manifest;
  ex_Extract file := Ok [mkMutationSignal "manifest" "manifest:dependency" 2] |}.

Definition DefaultExtractors : list SignalExtractor :=
  [goPatchSignalExtractor; sqlSignalExtractor; yamlSignalExtractor; manifestSignalExtractor].

(** ** Slices of signals

    An array is its whole capacity; [append] grows an array by the runtime's
    amortised policy, of which only the guarantee of the language is used: the
    new array has room for what is appended. *)
Class SliceGrowth := {
  growslice : nat → nat → nat;
  growslice_fits : ∀ oldcap needed, (needed ≤ growslice oldcap needed)%nat;
}.

(** Doubling: what the runtime does for small slices of this element size. *)
Program Definition doubling : SliceGrowth :=
  {| growslice oldcap needed := Nat.max needed (2 * oldcap) |}.
Next Obligation. intros. cbn. lia. Qed.

Record Slice := mkSlice { sl_array : nat; sl_len : nat }.

Definition Heap : Type := list (list MutationSignal).

Definition zeroSignal : MutationSignal := mkMutationSignal "" "" 0.

Definition pad (capacity : nat) (l : list MutationSignal) : list MutationSignal :=
  l ++ replicate (capacity - length l) zeroSignal.

Definition alloc (capacity : nat) (l : list MutationSignal) (h : Heap) : Slice * Heap :=
  (mkSlice (length h) (length l), h ++ [pad capacity l]).

Definition read (h : Heap) (s : Slice) : list MutationSignal :=
  take (sl_len s) (default [] (h !! sl_array s)).

Definition append1 `{SliceGrowth} (s : Slice) (v : MutationSignal) (h : Heap) : Slice * Heap :=
  let arr := default [] (h !! sl_array s) in
  if (sl_len s <? length arr)%nat
  then (mkSlice (sl_array s) (S (sl_len s)), <[sl_array s := <[sl_len s := v]> arr]> h)
  else alloc (growslice (length arr) (S (sl_len s))) (read h s ++ [v]) h.

(** ** The mutation index *)

Definition appendUniqueStrings (values candidates : list string) : list string :=
  append_unique_by (λ value candidate, bool_decide (value = candidate)) values candidates.

Definition same_signal (value candidate : MutationSignal) : bool :=
  bool_decide (sig_Source value = sig_Source candidate) &&
  bool_decide (sig_Value value = sig_Value candidate).

(** [appendUniqueSignals(values, candidates)]: every comparison reads the
    arrays as they are then. *)
Definition unique_signal_step `{SliceGrowth} (candidates : Slice) (vh : Slice * Heap) (i : nat)
    : Slice * Heap :=
  let '(values, h) := vh in
  let candidate := default zeroSignal (read h candidates !! i) in
  if existsb (λ value, same_signal value candidate) (read h values) then (values, h)
  else append1 values candidate h.

Definition appendUniqueSignals `{SliceGrowth} (values candidates : Slice) (h : Heap) : Slice * Heap :=
  foldl (unique_signal_step candidates) (values, h) (seq 0 (sl_len candidates)).

Definition severityRank (value : Severity) : Z :=
  if decide (value = SeverityCritical) then 4
  else if decide (value = SeverityHigh) then 3
  else if decide (value = SeverityMedium) then 2
  else 1.

(** A mutation of the index: its signals are the slice, and the [Signals] of
    [en_Mutation] are not used. *)
Record Entry := mkEntry { en_Mutation : Mutation; en_Signals : Slice }.

(** The state a classification threads: the index, the arrays, and the number
    of identifiers drawn so far. *)
Record CState := mkCState {
  cs_index : gmap string Entry;
  cs_heap : Heap;
  cs_ids : nat;
}.

Definition merge_mutation (current candidate : Mutation) : Mutation := {|
  mut_ID := mut_ID current;
  mut_Kind := mut_Kind current;
  mut_Severity := if severityRank (mut_Severity current) <? severityRank (mut_Severity candidate)
                  then mut_Severity candidate else mut_Severity current;
  mut_Confidence := if float_gt (mut_Confidence candidate) (mut_Confidence current)
                    then mut_Confidence candidate else mut_Confidence current;
  mut_Title := if decide (mut_Title current = "") then mut_Title candidate else mut_Title current;
  mut_Description := if decide (mut_Description current = "") then mut_Description candidate
                     else mut_Description current;
  mut_Files := appendUniqueStrings (mut_Files current) (mut_Files candidate);
  mut_Signals := mut_Signals current;
  mut_Detector := if decide (mut_Detector current = "") then mut_Detector candidate else mut_Detector current;
  mut_Metadata := mut_Metadata current |}.

Definition addMutation `{Entropy, SliceGrowth} (candidate : Entry) (s : CState) : CState :=
  let kind := mut_Kind (en_Mutation candidate) in
  match cs_index s !! kind with
  | None =>
      if decide (mut_ID (en_Mutation candidate) = "") then
        mkCState
          (<[kind := mkEntry (mut_with_ID (New "mut" (cs_ids s)) (en_Mutation candidate)) (en_Signals candidate)]>
             (cs_index s))
          (cs_heap s) (S (cs_ids s))
      else mkCState (<[kind := candidate]> (cs_index s)) (cs_heap s) (cs_ids s)
  | Some current =>
      let '(signals, h) := appendUniqueSignals (en_Signals current) (en_Signals candidate) (cs_heap s) in
      mkCState
        (<[kind := mkEntry (merge_mutation (en_Mutation current) (en_Mutation candidate)) signals]> (cs_index s))
        h (cs_ids s)
  end.

(** ** The engine *)

Record AnalysisInput := mkAnalysisInput {
  in_Repo : RepoRef;
  in_Ref : string;
  in_File : ChangedFile;
  in_Content : string;
}.

(** An analyzer draws identifiers: it maps the number drawn so far to the number
    drawn after it. *)
Record Analyzer := mkAnalyzer {
  an_Name : string;
  an_Supports : ChangedFile → bool;
  an_Analyze : AnalysisInput → nat → result string (list Mutation * nat);
}.

Record AnalysisRequest := mkAnalysisRequest {
  rq_Repo : RepoRef;
  rq_Ref : string;
  rq_Files : list ChangedFile;
  rq_Content : option (string → result string string);
}.

Record RuleBasedEngine := mkRuleBasedEngine {
  rules : list Rule;
  extractors : list SignalExtractor;
  analyzers : list Analyzer;
}.

(** The signals of a file and the capacity of the array they end up in. *)
Definition extract_step `{SliceGrowth} (file : ChangedFile) (sc : list MutationSignal * nat)
    (extractor : SignalExtractor) : result string (list MutationSignal * nat) :=
  if negb (ex_Supports extractor file) then Ok sc
  else
    extracted ← ex_Extract extractor file;
    let signals := sc.1 ++ extracted in
    Ok (signals, if (length signals <=? sc.2)%nat then sc.2 else growslice sc.2 (length signals)).

Definition path_signal (file : ChangedFile) : MutationSignal :=
  mkMutationSignal "path" (ToLower (Base (file_Path file))) 1.

Definition extractSignals `{SliceGrowth} (e : RuleBasedEngine) (file : ChangedFile)
    : result string (list MutationSignal * nat) :=
  foldM (extract_step file) ([path_signal file], 1%nat) (extractors e).

(** [content, _ := loadContent(...)]: the error is dropped. *)
Definition loadContent (loader : option (string → result string string)) (path : string) : string :=
  match loader with
  | None => ""
  | Some load => match load path with Ok content => content | Err _ => "" end
  end.

Definition rule_step `{Entropy, SliceGrowth} (file : ChangedFile) (signals : list MutationSignal)
    (shared : Slice) (s : CState) (rule : Rule) : CState :=
  if negb (Matches rule (file_Path file) signals) then s
  else
    addMutation
      (mkEntry
         {| mut_ID := New "mut" (cs_ids s); mut_Kind := rule_Kind rule; mut_Severity := rule_Severity rule;
            mut_Confidence := rule_Confidence rule; mut_Title := rule_Title rule;
            mut_Description := rule_Description rule; mut_Files := [file_Path file]; mut_Signals := [];
            mut_Detector := rule_Name rule; mut_Metadata := ∅ |}
         shared)
      (mkCState (cs_index s) (cs_heap s) (S (cs_ids s))).

(** A mutation an analyzer returned: its signals are an array of their own. *)
Definition add_analyzed `{Entropy, SliceGrowth} (s : CState) (mutation : Mutation) : CState :=
  let '(signals, h) := alloc (length (mut_Signals mutation)) (mut_Signals mutation) (cs_heap s) in
  addMutation (mkEntry mutation signals) (mkCState (cs_index s) h (cs_ids s)).

Definition analyzer_step `{Entropy, SliceGrowth} (input : AnalysisInput) (s : CState) (analyzer : Analyzer)
    : result string CState :=
  if negb (an_Supports analyzer (in_File input)) then Ok s
  else
    mn ← an_Analyze analyzer input (cs_ids s);
    Ok (foldl add_analyzed (mkCState (cs_index s) (cs_heap s) mn.2) mn.1).

Definition file_step `{Entropy, SliceGrowth} (e : RuleBasedEngine) (request : AnalysisRequest)
    (s : CState) (file : ChangedFile) : result string CState :=
  sc ← extractSignals e file;
  let '(signals, capacity) := sc : list MutationSignal * nat in
  let '(shared, h) := alloc capacity signals (cs_heap s) in
  let s := foldl (rule_step file signals shared) (mkCState (cs_index s) h (cs_ids s)) (rules e) in
  let content := loadContent (rq_Content request) (file_Path file) in
  foldM (analyzer_step (mkAnalysisInput (rq_Repo request) (rq_Ref request) file content)) s (analyzers e).

Definition fallback_mutation `{Entropy} (files : list ChangedFile) (n : nat) : Mutation :=
  {| mut_ID := New "mut" n; mut_Kind := MutationUnknown; mut_Severity := SeverityLow;
     mut_Confidence := float_ratio 35 100; mut_Title := "unclassified change surface";
     mut_Description := ""; mut_Files := file_Path <$> files; mut_Signals := [];
     mut_Detector := "fallback"; mut_Metadata := ∅ |}.

Definition add_fallback `{Entropy, SliceGrowth} (files : list ChangedFile) (s : CState) : CState :=
  if (size (cs_index s) =? 0)%nat && nonempty files
  then add_analyzed (mkCState (cs_index s) (cs_heap s) (S (cs_ids s))) (fallback_mutation files (cs_ids s))
  else s.

(** [*mutation]: the value the index entry stands for when it is read. *)
Definition materialize (h : Heap) (entry : Entry) : Mutation :=
  let m := en_Mutation entry in
  {| mut_ID := mut_ID m; mut_Kind := mut_Kind m; mut_Severity := mut_Severity m;
     mut_Confidence := mut_Confidence m; mut_Title := mut_Title m; mut_Description := mut_Description m;
     mut_Files := mut_Files m; mut_Signals := read h (en_Signals entry);
     mut_Detector := mut_Detector m; mut_Metadata := mut_Metadata m |}.

(** [n] identifiers were drawn before the call. *)
Definition Classify `{Entropy, SliceGrowth, MapOrder} (e : RuleBasedEngine) (request : AnalysisRequest)
    (n : nat) : result string (list Mutation * nat) :=
  s ← foldM (file_step e request) (mkCState ∅ [] n) (rq_Files request);
  let s := add_fallback (rq_Files request) s in
  Ok ((λ kv, materialize (cs_heap s) kv.2) <$> map_range (cs_index s), cs_ids s).

(** ** Lemmas *)

Section engine.
Context `{HE : Entropy, HG : SliceGrowth, HM : MapOrder}.

(** What [addMutation] leaves under the candidate's kind, and elsewhere. *)
Lemma addMutation_other c s kind :
  kind ≠ mut_Kind (en_Mutation c) → cs_index (addMutation c s) !! kind = cs_index s !! kind.
Proof.
  intros Hne. unfold addMutation. destruct (cs_index s !! mut_Kind (en_Mutation c)) as [cur|].
  - destruct (appendUniqueSignals _ _ _). cbn. by rewrite lookup_insert_ne.
  - case_decide; cbn; by rewrite lookup_insert_ne.
Qed.

Lemma addMutation_own c s :
  ∃ e, cs_index (addMutation c s) !! mut_Kind (en_Mutation c) = Some e ∧
  match cs_index s !! mut_Kind (en_Mutation c) with
  | Some cur => en_Mutation e = merge_mutation (en_Mutation cur) (en_Mutation c)
  | None => en_Mutation e = en_Mutation c ∨
            en_Mutation e = mut_with_ID (New "mut" (cs_ids s)) (en_Mutation c)
  end.
Proof.
  unfold addMutation. destruct (cs_index s !! mut_Kind (en_Mutation c)) as [cur|].
  - destruct (appendUniqueSignals _ _ _). cbn. rewrite lookup_insert_eq. by eexists.
  - case_decide; cbn; rewrite lookup_insert_eq; eexists; split; eauto.
Qed.

(** The rule of induction over a classification: [Q] holds of every candidate,
    [P] of the state between two candidates. *)
(** What the analyzers are given of a file. *)
Definition file_input (request : AnalysisRequest) (file : ChangedFile) : AnalysisInput :=
  mkAnalysisInput (rq_Repo request) (rq_Ref request) file (loadContent (rq_Content request) (file_Path file)).

Section preserve.
Context (P : CState → Prop) (Q : Mutation → Prop).
Context (P_frame : ∀ s h n, P s → P (mkCState (cs_index s) h n)).
Context (P_add : ∀ s c, Q (en_Mutation c) → P s → P (addMutation c s)).

Lemma rule_step_preserves file signals shared s rule :
  (∀ m, mut_Kind m = rule_Kind rule → mut_Files m = [file_Path file] → Q m) →
  P s → P (rule_step file signals shared s rule).
Proof using P_frame P_add.
  intros HQ Hs. unfold rule_step. destruct (Matches _ _ _); [|done].
  apply P_add; [by apply HQ|]. by apply P_frame.
Qed.

Lemma add_analyzed_preserves s m : Q m → P s → P (add_analyzed s m).
Proof using P_frame P_add. intros HQ Hs. unfold add_analyzed. apply P_add; [done|]. by apply P_frame. Qed.

Lemma analyzer_step_preserves input s a s' :
  (∀ n ms n', an_Supports a (in_File input) = true → an_Analyze a input n = Ok (ms, n') → Forall Q ms) →
  P s → analyzer_step input s a = Ok s' → P s'.
Proof using P_frame P_add.
  intros HQ Hs. unfold analyzer_step. destruct (an_Supports _ _) eqn:Es; cbn; [|by intros [= <-]].
  intros ([ms n'] & Ha & [= <-])%bind_ok. cbn. specialize (HQ _ _ _ eq_refl Ha).
  apply (foldl_ind _ (λ _ s, P s)).
  - by apply P_frame.
  - intros _ m s1 Hs1 Hm. apply add_analyzed_preserves; [|done].
    rewrite Forall_forall in HQ. by apply HQ.
Qed.

Definition analyzers_yield (e : RuleBasedEngine) (request : AnalysisRequest) (file : ChangedFile) : Prop :=
  ∀ a n ms n', a ∈ analyzers e → an_Supports a file = true →
    an_Analyze a (file_input request file) n = Ok (ms, n') → Forall Q ms.

Lemma file_step_preserves e request s file s' :
  (∀ r m, r ∈ rules e → mut_Kind m = rule_Kind r → mut_Files m = [file_Path file] → Q m) →
  analyzers_yield e request file →
  P s → file_step e request s file = Ok s' → P s'.
Proof using P_frame P_add.
  intros HQr HQa Hs. unfold file_step. intros ([signals capacity] & _ & Hf)%bind_ok.
  assert (∀ l s0 s1, P s0 → (∀ a, a ∈ l → a ∈ analyzers e) →
    foldM (analyzer_step (mkAnalysisInput (rq_Repo request) (rq_Ref request) file
      (loadContent (rq_Content request) (file_Path file)))) s0 l = Ok s1 → P s1) as Hl.
  { induction l as [|a l IH]; intros s0 s1 H0 Hin; cbn; [by intros [= <-]|].
    intros (s2 & H2 & H3)%bind_ok. eapply (IH s2); [|set_solver|done].
    eapply analyzer_step_preserves; [|exact H0|exact H2].
    intros n ms n' Hsup Ha. eapply HQa; [|exact Hsup|exact Ha]. set_solver. }
  cbn in Hf. eapply Hl; [|done|exact Hf].
  apply (foldl_ind _ (λ _ s, P s)); [by apply P_frame|].
  intros _ r s1 H1 Hr. apply rule_step_preserves; [|done]. intros m. by apply HQr.
Qed.

Lemma files_preserve e request files s s' :
  (∀ f r m, f ∈ files → r ∈ rules e → mut_Kind m = rule_Kind r → mut_Files m = [file_Path f] → Q m) →
  (∀ f, f ∈ files → analyzers_yield e request f) →
  P s → foldM (file_step e request) s files = Ok s' → P s'.
Proof using P_frame P_add.
  revert s. induction files as [|f files IH]; intros s HQr HQa Hs; cbn; [by intros [= <-]|].
  intros (s1 & H1 & H2)%bind_ok. eapply (IH s1); [..|exact H2].
  - intros. eapply HQr; [|done..]. set_solver.
  - intros. apply HQa. set_solver.
  - eapply file_step_preserves; [..|exact Hs|exact H1].
    + intros. eapply HQr; [|done..]. set_solver.
    + apply HQa. set_solver.
Qed.
End preserve.

(** The index is keyed by kind. *)
Definition keyed (s : CState) : Prop :=
  ∀ kind e, cs_index s !! kind = Some e → mut_Kind (en_Mutation e) = kind.

Lemma addMutation_keyed s c : keyed s → keyed (addMutation c s).
Proof.
  intros Hk kind e He. destruct (decide (kind = mut_Kind (en_Mutation c))) as [->|Hne].
  - destruct (addMutation_own c s) as (e' & He' & Hm). rewrite He' in He. injection He as <-.
    destruct (cs_index s !! _) as [cur|] eqn:E.
    + rewrite Hm. cbn. by apply (Hk _ _ E).
    + by destruct Hm as [-> | ->].
  - rewrite addMutation_other in He by done. by apply (Hk _ _ He).
Qed.

(** A kind that is reported for a path with at least this severity. *)
Definition reported (kind : MutationKind) (path : string) (rank : Z) (s : CState) : Prop :=
  ∃ e, cs_index s !! kind = Some e ∧ path ∈ mut_Files (en_Mutation e) ∧
       rank ≤ severityRank (mut_Severity (en_Mutation e)).

Lemma elem_of_appendUniqueStrings values candidates x :
  x ∈ appendUniqueStrings values candidates ↔ x ∈ values ∨ x ∈ candidates.
Proof.
  unfold appendUniqueStrings. split; [apply append_unique_sub|].
  intros Hx. destruct (append_unique_covers (λ v c, bool_decide (v = c)) values candidates x) as (y & ? & Hy).
  - intros. by apply bool_decide_eq_true_2.
  - set_solver.
  - apply bool_decide_eq_true_1 in Hy. by subst y.
Qed.

Lemma merge_mutation_rank cur c :
  severityRank (mut_Severity (merge_mutation cur c)) =
  Z.max (severityRank (mut_Severity cur)) (severityRank (mut_Severity c)).
Proof. unfold merge_mutation. cbn. destruct (_ <? _) eqn:E; bool_props; lia. Qed.

Lemma addMutation_reported_old kind path rank s c :
  reported kind path rank s → reported kind path rank (addMutation c s).
Proof.
  intros (e & He & Hp & Hr). destruct (decide (kind = mut_Kind (en_Mutation c))) as [->|Hne].
  - destruct (addMutation_own c s) as (e' & He' & Hm). rewrite He in Hm. exists e'.
    split_and!; [done| |].
    + rewrite Hm. cbn. apply elem_of_appendUniqueStrings. by left.
    + rewrite Hm, merge_mutation_rank. lia.
  - exists e. by rewrite addMutation_other.
Qed.

Lemma addMutation_reported_new s c path :
  path ∈ mut_Files (en_Mutation c) →
  reported (mut_Kind (en_Mutation c)) path (severityRank (mut_Severity (en_Mutation c))) (addMutation c s).
Proof.
  intros Hp. destruct (addMutation_own c s) as (e' & He' & Hm). exists e'. split; [done|].
  destruct (cs_index s !! _) as [cur|].
  - rewrite Hm, merge_mutation_rank. split; [|lia].
    cbn. apply elem_of_appendUniqueStrings. by right.
  - by destruct Hm as [-> | ->].
Qed.

Lemma reported_frame kind path rank s h n :
  reported kind path rank s → reported kind path rank (mkCState (cs_index s) h n).
Proof. done. Qed.

Lemma keyed_frame s h n : keyed s → keyed (mkCState (cs_index s) h n).
Proof. done. Qed.

(** A rule that matches a file is reported once the file is processed. *)
Lemma file_step_reports e request s file s' r signals capacity :
  file_step e request s file = Ok s' →
  extractSignals e file = Ok (signals, capacity) →
  r ∈ rules e → Matches r (file_Path file) signals = true →
  reported (rule_Kind r) (file_Path file) (severityRank (rule_Severity r)) s'.
Proof.
  unfold file_step. intros Hf He Hr Hm. rewrite He in Hf. cbn in Hf.
  apply list_elem_of_split in Hr as (l1 & l2 & Hl). rewrite Hl, foldl_app in Hf. cbn [foldl] in Hf.
  set (s1 := foldl _ _ l1) in Hf. clearbody s1.
  set (s2 := rule_step _ _ _ s1 r) in Hf.
  assert (reported (rule_Kind r) (file_Path file) (severityRank (rule_Severity r)) s2) as H2.
  { unfold s2, rule_step. rewrite Hm. cbn [negb].
    match goal with |- reported _ _ _ (addMutation ?c ?s0) =>
      apply (addMutation_reported_new s0 c (file_Path file))
    end. cbn. set_solver. }
  clearbody s2.
  set (P := reported _ _ _) in *.
  assert (∀ s c, True → P s → P (addMutation c s)) as Hadd by (intros; by apply addMutation_reported_old).
  assert (∀ s h n, P s → P (mkCState (cs_index s) h n)) as Hframe by (intros; by apply reported_frame).
  assert (∀ l s0 s3, P s0 → foldM (analyzer_step (mkAnalysisInput (rq_Repo request) (rq_Ref request) file
      (loadContent (rq_Content request) (file_Path file)))) s0 l = Ok s3 → P s3) as Hl2.
  { induction l as [|a l IH]; intros s0 s3 H0; cbn; [by intros [= <-]|].
    intros (s4 & H4 & H5)%bind_ok. eapply (IH s4); [|done].
    eapply (analyzer_step_preserves P (λ _, True)); [done|done| |exact H0|exact H4].
    intros. by apply Forall_true. }
  eapply Hl2; [|exact Hf]. apply (foldl_ind _ (λ _ s, P s)); [done|].
  intros _ r' s3 H3 _. by apply (rule_step_preserves P (λ _, True)).
Qed.

Lemma add_fallback_preserves (P : CState → Prop) files s :
  (∀ s h n, P s → P (mkCState (cs_index s) h n)) →
  (∀ n, (size (cs_index s) =? 0)%nat && nonempty files = true →
    ∀ s0, P s0 → P (add_analyzed s0 (fallback_mutation files n))) →
  P s → P (add_fallback files s).
Proof.
  intros Hframe Hadd Hs. unfold add_fallback. destruct (_ && _); [|done].
  apply Hadd; [done|]. by apply Hframe.
Qed.

Lemma elem_of_classified m s :
  m ∈ (λ kv, materialize (cs_heap s) kv.2) <$> map_range (cs_index s) ↔
  ∃ kind e, cs_index s !! kind = Some e ∧ m = materialize (cs_heap s) e.
Proof.
  rewrite list_elem_of_fmap. split.
  - intros ([kind e] & -> & He%elem_of_map_range). eauto.
  - intros (kind & e & He & ->). exists (kind, e). by rewrite elem_of_map_range.
Qed.

Lemma keyed_kinds s : keyed s →
  mut_Kind <$> ((λ kv, materialize (cs_heap s) kv.2) <$> map_range (cs_index s)) =
  (map_range (cs_index s)).*1.
Proof.
  intros Hk. rewrite <- list_fmap_compose. apply list_fmap_ext. intros i [kind e] Hi. cbn.
  apply (Hk kind). apply elem_of_map_range, list_elem_of_lookup. eauto.
Qed.

End engine.

(** ** Properties *)

(** One of the analyzers, given a file of the change that it supports, names the path
    in a mutation of the kind. *)
Definition named_by (l : list Analyzer) (request : AnalysisRequest) (kind : MutationKind) (p : string) : Prop :=
  ∃ a f k ms k' m,
    a ∈ l ∧ f ∈ rq_Files request ∧ an_Supports a f = true ∧
    an_Analyze a (file_input request f) k = Ok (ms, k') ∧
    m ∈ ms ∧ mut_Kind m = kind ∧ p ∈ mut_Files m.

Section properties.
Context `{HE : Entropy, HG : SliceGrowth, HM : MapOrder}.
Context (e : RuleBasedEngine) (request : AnalysisRequest) (n : nat).
Context (ms : list Mutation) (n' : nat).

(** C26: a rule that matches a file, by its path or by the signals the engine
    extracts from it, always shows in the classification: some mutation of the
    rule's kind lists the file and is at least as severe as the rule. *)
Theorem classify_reports_matches (Hok : Classify e request n = Ok (ms, n')) file r signals capacity
    (Hfile : file ∈ rq_Files request) (Hr : r ∈ rules e)
    (Hs : extractSignals e file = Ok (signals, capacity))
    (Hm : Matches r (file_Path file) signals = true) :
  ∃ m, m ∈ ms ∧ mut_Kind m = rule_Kind r ∧ file_Path file ∈ mut_Files m ∧
       severityRank (rule_Severity r) ≤ severityRank (mut_Severity m).
Proof.
  unfold Classify in Hok. apply bind_ok in Hok as (s & Hfold & [= <- _]).
  set (P := reported (rule_Kind r) (file_Path file) (severityRank (rule_Severity r))).
  assert (P s ∧ keyed s) as [HP Hk].
  { split.
    - apply list_elem_of_split in Hfile as (l1 & l2 & Hl). rewrite Hl in Hfold.
      rewrite foldM_app in Hfold. apply bind_ok in Hfold as (s1 & _ & Hfold). cbn in Hfold.
      apply bind_ok in Hfold as (s2 & H2 & Hfold).
      eapply (files_preserve P (λ _, True)); [..|exact Hfold].
      + intros. by apply reported_frame.
      + intros. by apply addMutation_reported_old.
      + done.
      + intros f _ a k ms0 n0 _ _ _. by apply Forall_true.
      + by eapply file_step_reports.
    - eapply (files_preserve keyed (λ _, True)); [..|exact Hfold].
      + done.
      + intros. by apply addMutation_keyed.
      + done.
      + intros f _ a k ms0 n0 _ _ _. by apply Forall_true.
      + intros kind en. cbn [cs_index]. by rewrite lookup_empty. }
  assert (P (add_fallback (rq_Files request) s) ∧ keyed (add_fallback (rq_Files request) s)) as [HP' Hk'].
  { split; apply add_fallback_preserves; try done.
    - intros k _ s0 H0. by apply addMutation_reported_old.
    - intros k _ s0 H0. by apply addMutation_keyed. }
  destruct HP' as (en & Hen & Hp & Hrank).
  exists (materialize (cs_heap (add_fallback (rq_Files request) s)) en).
  split_and!; [|by apply (Hk' _ _ Hen)|done|done].
  apply elem_of_classified. eauto.
Qed.

(** A classification has one mutation per kind and is never empty for a non-empty
    change; a file of a mutation is a file of the change, or some analyzer that
    supports a file of the change named it, in a mutation of this kind. *)
Lemma classify_shape (Hok : Classify e request n = Ok (ms, n')) :
  NoDup (mut_Kind <$> ms) ∧
  (rq_Files request ≠ [] → ms ≠ []) ∧
  (∀ m p, m ∈ ms → p ∈ mut_Files m →
     p ∈ file_Path <$> rq_Files request ∨ named_by (analyzers e) request (mut_Kind m) p).
Proof.
  unfold Classify in Hok. apply bind_ok in Hok as (s & Hfold & [= <- _]).
  set (Q := λ m, ∀ p, p ∈ mut_Files m →
                 p ∈ file_Path <$> rq_Files request ∨ named_by (analyzers e) request (mut_Kind m) p).
  set (P := λ s, keyed s ∧ ∀ kind en, cs_index s !! kind = Some en → Q (en_Mutation en)).
  assert (∀ s c, Q (en_Mutation c) → P s → P (addMutation c s)) as Hadd.
  { intros s0 c Hc [Hk HQ]. split; [by apply addMutation_keyed|]. intros kind en Hen.
    destruct (decide (kind = mut_Kind (en_Mutation c))) as [->|Hne].
    - destruct (addMutation_own c s0) as (en' & Hen' & Hmm). rewrite Hen' in Hen. injection Hen as <-.
      destruct (cs_index s0 !! _) as [cur|] eqn:Ecur.
      + rewrite Hmm. intros p. cbn. rewrite (Hk _ _ Ecur). intros [Hp|Hp]%elem_of_appendUniqueStrings; [|by apply Hc].
        rewrite <- (Hk _ _ Ecur). by apply (HQ _ _ Ecur).
      + by destruct Hmm as [-> | ->].
    - rewrite addMutation_other in Hen by done. by apply (HQ _ _ Hen). }
  assert (P s) as HPs.
  { eapply (files_preserve P Q); [..|exact Hfold].
    - done.
    - done.
    - intros f r m Hf _ _ Hm p. rewrite Hm, list_elem_of_singleton. intros ->. left. apply list_elem_of_fmap. eauto.
    - intros f Hf a k ms0 k' Ha Hsup Hms. apply Forall_forall. intros m Hm p Hp. right. by exists a, f, k, ms0, k', m.
    - split; intros kind en; cbn [cs_index]; by rewrite lookup_empty. }
  assert (P (add_fallback (rq_Files request) s)) as [Hk HQ].
  { apply add_fallback_preserves; [done| |done]. intros k _ s0 H0. apply Hadd; [|done].
    intros p Hp. by left. }
  split_and!.
  - rewrite keyed_kinds by done. apply NoDup_map_range.
  - intros Hfiles. rewrite <- length_zero_iff_nil, length_fmap, length_map_range.
    unfold add_fallback. destruct (nonempty (rq_Files request)) eqn:Ene; [|by destruct (rq_Files request)].
    rewrite andb_true_r. destruct (size (cs_index s) =? 0)%nat eqn:Es.
    + unfold add_analyzed. cbn [alloc fst snd].
      match goal with |- context [addMutation ?c ?s0] =>
        destruct (addMutation_own c s0) as (en & Hen & _) end.
      intros H0. apply map_size_empty_inv in H0. rewrite H0 in Hen. by rewrite lookup_empty in Hen.
    + by apply Nat.eqb_neq in Es.
  - intros m p (kind & en & Hen & ->)%elem_of_classified Hp.
    by apply (HQ _ _ Hen).
Qed.
End properties.

(** ** Witnesses *)

Definition rules_only : RuleBasedEngine := mkRuleBasedEngine DefaultRules DefaultExtractors [].

Definition sql_file : ChangedFile :=
  mkChangedFile "db/Schema.SQL" "" "" FileModified 1 0 1 "+ALTER TABLE users ADD COLUMN x int;".

Definition sql_request : AnalysisRequest := mkAnalysisRequest zeroRepoRef "" [sql_file] None.

#[local] Existing Instance counting_entropy.
#[local] Existing Instance doubling.
#[local] Existing Instance map_order_sorted.

Definition classified (e : RuleBasedEngine) (request : AnalysisRequest) : list Mutation * nat :=
  match Classify e request 0 with Ok r => r | Err _ => ([], 0%nat) end.

Lemma classify_reports_matches_witness :
  ∃ m, m ∈ (classified rules_only sql_request).1 ∧ mut_Kind m = MutationDatabaseSchema ∧
       "db/Schema.SQL" ∈ mut_Files m ∧ severityRank SeverityHigh ≤ severityRank (mut_Severity m).
Proof.
  assert (Classify rules_only sql_request 0 = Ok (classified rules_only sql_request)) as H
    by (vm_compute; reflexivity).
  destruct (classified rules_only sql_request) as [ms n'].
  apply (classify_reports_matches rules_only sql_request 0 ms n' H sql_file
           (nth 1 DefaultRules (mkRule "" "" "" "" "" (float_ratio 1 1) [] [] [] [] []))
           [path_signal sql_file; mkMutationSignal "sql_patch" "sql:ddl" 3] 2).
  - left.
  - right. left.
  - by vm_compute.
  - by vm_compute.
Defined.

(** ** The shared signal array

    Two extractors that each add a signal leave room in the array of a file's
    signals.  Both mutations of the file then append to the same slot: the
    authentication mutation, which the second file extended with its own path
    signal, ends up with the path signal of the third file, which it does not
    list. *)
Definition tagging (value : string) : SignalExtractor := {|
  ex_Name := value; ex_Supports file := HasPrefix (file_Path file) "auth/helm/";
  ex_Extract _ := Ok [mkMutationSignal "tag" value 1] |}.

Definition tagged_engine : RuleBasedEngine :=
  mkRuleBasedEngine DefaultRules [tagging "a"; tagging "b"] [].

Definition shared_request : AnalysisRequest :=
  let file p := mkChangedFile p "" "" FileModified 1 0 1 "" in
  mkAnalysisRequest zeroRepoRef "" [file "auth/helm/x"; file "auth/second"; file "helm/third"] None.

Definition signal_values (kind : MutationKind) (ms : list Mutation) : list string :=
  mjoin ((λ m, sig_Value <$> mut_Signals m) <$> filter (λ m, mut_Kind m = kind) ms).

Example shared_signals_overwritten :
  let ms := (classified tagged_engine shared_request).1 in
  signal_values MutationAuthBehaviorChange ms = ["x"; "a"; "b"; "third"] ∧
  (mut_Files <$> filter (λ m, mut_Kind m = MutationAuthBehaviorChange) ms) = [["auth/helm/x"; "auth/second"]].
Proof. by vm_compute. Qed.
