(* ===== verification/Analyzers.v ===== *)
(** [internal/mutations/analyzer_*.go]: the built-in analyzers, the external
    analyzer, and the default engine.

    The parsers of YAML and Go, and the operating system that runs an external
    analyzer, are not code of the repository: they are the fields of [Parsers]
    and [Host]. *)
From stdpp Require Import base list gmap strings.
From S2P Require Import Prelude GoStrings GoPath Domain Identity Documents Mutations.

Local Open Scope string_scope.
Local Open Scope list_scope.
Local Open Scope Z_scope.

(** ** Helpers *)

Definition containsAny (value : string) (candidates : list string) : bool :=
  existsb (Contains value) candidates.

(** The keys under the value [v] whose own key is [full]. *)
Fixpoint nested_keys (full : string) (v : any) : list string :=
  let flatten := fix flatten (entries : list (string * any)) : list string :=
    match entries with
    | [] => []
    | (key, value) :: entries' =>
        let key' := if decide (full = "") then key else full +:+ "." +:+ key in
        key' :: nested_keys key' value ++ flatten entries'
    end in
  match v with
  | AString _ | AOther => []
  | AMap entries => flatten entries
  | AList items =>
      (fix items_keys (items : list any) : list string :=
         match items with
         | [] => []
         | AMap entries :: items' => flatten entries ++ items_keys items'
         | _ :: items' => items_keys items'
         end) items
  end.

Definition flattenKeys (values : list (string * any)) (prefix : string) : list string :=
  nested_keys prefix (AMap values).

Definition detected (id : string) (kind : MutationKind) (severity : Severity) (confidence : float64)
    (title description path : string) (signals : list MutationSignal) (detector : string) : Mutation :=
  {| mut_ID := id; mut_Kind := kind; mut_Severity := severity; mut_Confidence := confidence;
     mut_Title := title; mut_Description := description; mut_Files := [path]; mut_Signals := signals;
     mut_Detector := detector; mut_Metadata := ∅ |}.

(** ** The built-in analyzers *)

Section analyzers.
Context `{Entropy, Parsers}.

Definition no_mutation (n : nat) : result string (list Mutation * nat) := Ok ([], n).

Definition import_auth (value : string) : list MutationSignal :=
  let lower := ToLower (Trim value "034"%char) in
  if Contains lower "auth" || Contains lower "jwt" || Contains lower "oauth"
  then [mkMutationSignal "go_ast_import" "go:auth_symbol" 3] else [].

Definition import_data (value : string) : list MutationSignal :=
  let lower := ToLower (Trim value "034"%char) in
  if Contains lower "auth" || Contains lower "jwt" || Contains lower "oauth" then []
  else if Contains lower "database/sql" || Contains lower "pgx" || Contains lower "sqlx"
  then [mkMutationSignal "go_ast_import" "go:data_access" 2] else [].

Definition node_auth (node : GoNode) : list MutationSignal :=
  match node with
  | FuncDecl name =>
      if containsAny (ToLower name) ["auth"; "token"; "jwt"; "authorize"; "permission"]
      then [mkMutationSignal "go_ast_function" "go:auth_symbol" 3] else []
  | _ => []
  end.

Definition node_data (node : GoNode) : list MutationSignal :=
  match node with
  | SelectorExpr sel =>
      if containsAny (ToLower sel) ["query"; "exec"; "scan"; "transaction"; "begin"]
      then [mkMutationSignal "go_ast_selector" "go:data_access" 2] else []
  | _ => []
  end.

Definition goAST_Analyze (input : AnalysisInput) (n : nat) : result string (list Mutation * nat) :=
  if decide (in_Content input = "") then no_mutation n
  else
    let path := file_Path (in_File input) in
    match parser_ParseFile path (in_Content input) with
    | None => no_mutation n
    | Some parsed =>
        let authSignals := mjoin (import_auth <$> go_Imports parsed) ++ mjoin (node_auth <$> go_Nodes parsed) in
        let dataSignals := mjoin (import_data <$> go_Imports parsed) ++ mjoin (node_data <$> go_Nodes parsed) in
        let '(auth, n) :=
          if nonempty authSignals then
            ([detected (New "mut" n) MutationAuthBehaviorChange SeverityHigh (float_ratio 92 100)
                "authentication or authorization behavior change"
                "Go AST analysis detected auth-sensitive code paths or imports." path authSignals
                "go-ast-analyzer"], S n)
          else ([], n) in
        let '(data, n) :=
          if nonempty dataSignals then
            ([detected (New "mut" n) MutationDataAccess SeverityMedium (float_ratio 76 100)
                "data access behavior change"
                "Go AST analysis detected database interaction surfaces." path dataSignals
                "go-ast-analyzer"], S n)
          else ([], n) in
        Ok (auth ++ data, n)
    end.

Definition goASTAnalyzer : Analyzer := {|
  an_Name := "go-ast-analyzer";
  an_Supports file := EqualFold (Ext (file_Path file)) ".go";
  an_Analyze := goAST_Analyze |}.

Definition sqlDDL_Analyze (input : AnalysisInput) (n : nat) : result string (list Mutation * nat) :=
  let content := ToLower (TrimSpace (in_Content input)) in
  if negb (containsAny content ["alter table"; "create table"; "drop table"; "create index"; "drop index"])
  then no_mutation n
  else Ok ([detected (New "mut" n) MutationDatabaseSchema SeverityHigh (float_ratio 96 100)
              "database schema mutation" "DDL statements were detected in SQL content."
              (file_Path (in_File input)) [mkMutationSignal "sql_ast" "sql:ddl" 4] "sql-ddl-analyzer"], S n).

Definition sqlDDLAnalyzer : Analyzer := {|
  an_Name := "sql-ddl-analyzer";
  an_Supports file := EqualFold (Ext (file_Path file)) ".sql";
  an_Analyze := sqlDDL_Analyze |}.

Definition openAPI_Analyze (input : AnalysisInput) (n : nat) : result string (list Mutation * nat) :=
  let path := file_Path (in_File input) in
  if HasSuffix (ToLower path) ".proto" then
    Ok ([detected (New "mut" n) MutationAPIContract SeverityHigh (float_ratio 91 100)
           "API contract mutation" "Protocol buffer definition changed." path
           [mkMutationSignal "proto" "api:contract_surface" 3] "openapi-analyzer"], S n)
  else
    match yaml_Unmarshal (in_Content input) with
    | None => no_mutation n
    | Some parsed =>
        if existsb (λ kv, bool_decide (kv.1 = "openapi")) parsed then
          Ok ([detected (New "mut" n) MutationAPIContract SeverityHigh (float_ratio 93 100)
                 "API contract mutation" "OpenAPI schema changed." path
                 [mkMutationSignal "openapi" "api:contract_surface" 4] "openapi-analyzer"], S n)
        else no_mutation n
    end.

Definition openAPIAnalyzer : Analyzer := {|
  an_Name := "openapi-analyzer";
  an_Supports file :=
    let lower := ToLower (file_Path file) in
    HasSuffix lower ".proto" || HasSuffix lower "openapi.yaml" || HasSuffix lower "openapi.yml";
  an_Analyze := openAPI_Analyze |}.

Definition manifest_Analyze (input : AnalysisInput) (n : nat) : result string (list Mutation * nat) :=
  Ok ([detected (New "mut" n) MutationDependency SeverityMedium (float_ratio 97 100)
         "dependency graph mutation" "Dependency manifest changed." (file_Path (in_File input))
         [mkMutationSignal "manifest" "manifest:dependency" 3] "manifest-analyzer"], S n).

Definition manifestAnalyzer : Analyzer := {|
  an_Name := "manifest-analyzer";
  an_Supports := dependency_manifest;
  an_Analyze := manifest_Analyze |}.

Definition runtimeConfig_Analyze (input : AnalysisInput) (n : nat) : result string (list Mutation * nat) :=
  match yaml_Unmarshal (in_Content input) with
  | None => no_mutation n
  | Some parsed =>
      if existsb (λ key, containsAny (ToLower key)
                           ["replicas"; "resources"; "image"; "env"; "ingress"; "rollout"])
           (flattenKeys parsed "")
      then Ok ([detected (New "mut" n) MutationRuntimeConfig SeverityMedium (float_ratio 86 100)
                  "runtime configuration mutation"
                  "Structured config analysis detected deploy/runtime keys." (file_Path (in_File input))
                  [mkMutationSignal "yaml_structured" "yaml:runtime_key" 3] "runtime-config-analyzer"], S n)
      else no_mutation n
  end.

Definition runtimeConfigAnalyzer : Analyzer := {|
  an_Name := "runtime-config-analyzer";
  an_Supports file :=
    let ext := ToLower (Ext (file_Path file)) in
    if bool_decide (ext ≠ ".yaml") && bool_decide (ext ≠ ".yml") then false
    else containsAny (ToLower (file_Path file)) ["helm/"; "k8s/"; "deploy/"; "config/"];
  an_Analyze := runtimeConfig_Analyze |}.

Definition DefaultAnalyzers : list Analyzer :=
  [goASTAnalyzer; sqlDDLAnalyzer; openAPIAnalyzer; manifestAnalyzer; runtimeConfigAnalyzer].

Definition DefaultEngine : RuleBasedEngine :=
  mkRuleBasedEngine DefaultRules DefaultExtractors DefaultAnalyzers.

Definition DefaultEngineWithExternal (external : list Analyzer) : RuleBasedEngine :=
  mkRuleBasedEngine DefaultRules DefaultExtractors (DefaultAnalyzers ++ external).
End analyzers.

(** ** The external analyzer *)

Record ExternalAnalyzerConfig := mkExternalAnalyzerConfig {
  ext_Name : string;
  ext_Executable : string;
  ext_Allowlist : list string;
  ext_Timeout : Z;
  ext_Paths : list string;
}.

(** How a run of an executable ends, given its standard input and its deadline:
    the deadline passes, it fails, or it leaves an output. *)
Inductive Exit :=
  | TimedOut
  | Failed (err : string)
  | Output (stdout : string).

Class Host := {
  exec_Output : string → string → Z → Exit;
  marshal_input : AnalysisInput → result string string;
  unmarshal_mutations : string → result string (list Mutation);
}.

Definition second : Z := 1000000000.

Definition external_Supports (config : ExternalAnalyzerConfig) (file : ChangedFile) : bool :=
  if negb (nonempty (ext_Paths config)) then true
  else existsb (λ pattern, Match pattern (file_Path file)) (ext_Paths config).

Definition external_Analyze `{Host} (config : ExternalAnalyzerConfig) (input : AnalysisInput) (n : nat)
    : result string (list Mutation * nat) :=
  let decode (output : string) : result string (list Mutation * nat) :=
    mutations ← map_err (λ err, "external analyzer " +:+ ext_Name config +:+ " returned invalid JSON: " +:+ err)
                  (unmarshal_mutations output);
    Ok (map (mut_with_Detector (ext_Name config)) mutations, n) in
  let run (payload : string) : result string (list Mutation * nat) :=
    match exec_Output (ext_Executable config) payload (ext_Timeout config) with
    | TimedOut => Err ("external analyzer " +:+ ext_Name config +:+ " timed out")
    | Failed err => Err ("external analyzer " +:+ ext_Name config +:+ ": " +:+ err)
    | Output output => decode output
    end in
  payload ← marshal_input input; run payload.

Definition NewExternalAnalyzer `{Host} (config : ExternalAnalyzerConfig) : result string Analyzer :=
  if negb (IsAbs (ext_Executable config)) then Err "external analyzer executable must be absolute"
  else if negb (existsb (λ path, bool_decide (path = ext_Executable config)) (ext_Allowlist config))
  then Err "external analyzer executable is not allowlisted"
  else
    let config := mkExternalAnalyzerConfig
      (if decide (ext_Name config = "") then Base (ext_Executable config) else ext_Name config)
      (ext_Executable config) (ext_Allowlist config)
      (if ext_Timeout config <=? 0 then 5 * second else ext_Timeout config) (ext_Paths config) in
    Ok (mkAnalyzer (ext_Name config) (external_Supports config) (external_Analyze config)).

(** ** Lemmas *)

(** The kinds the default engine can report. *)
Definition detectable : list MutationKind := [
  MutationUnknown; MutationAuthBehaviorChange; MutationDatabaseSchema; MutationRuntimeConfig;
  MutationAPIContract; MutationDependency; MutationDataAccess; MutationDeploymentWorkflow;
  MutationObservabilityContract].

Section default_engine.
Context `{HE : Entropy, HP : Parsers, HG : SliceGrowth, HM : MapOrder}.

(** Each built-in analyzer answers, with mutations of its kinds for the file it
    was given. *)
Definition answers (a : Analyzer) : Prop :=
  ∀ input n, ∃ ms n', an_Analyze a input n = Ok (ms, n') ∧
    Forall (λ m, mut_Kind m ∈ detectable ∧ mut_Files m = [file_Path (in_File input)]) ms.

Lemma detected_ok id kind severity confidence title description path signals detector :
  kind ∈ detectable →
  Forall (λ m, mut_Kind m ∈ detectable ∧ mut_Files m = [path])
    [detected id kind severity confidence title description path signals detector].
Proof. intros Hk. constructor; [done|constructor]. Qed.

Ltac analyzer_answers :=
  repeat case_match; simplify_eq; do 2 eexists; split; try done; try (by constructor);
  repeat (apply Forall_app; split); try (by constructor); apply detected_ok; compute_done.

Lemma DefaultAnalyzers_answer : Forall answers DefaultAnalyzers.
Proof.
  repeat constructor; intros input n; cbn.
  - unfold goAST_Analyze, no_mutation. analyzer_answers.
  - unfold sqlDDL_Analyze, no_mutation. analyzer_answers.
  - unfold openAPI_Analyze, no_mutation. analyzer_answers.
  - unfold manifest_Analyze, no_mutation. analyzer_answers.
  - unfold runtimeConfig_Analyze, no_mutation. analyzer_answers.
Qed.

Lemma extractSignals_total file : ∃ sc, extractSignals DefaultEngine file = Ok sc.
Proof.
  apply foldM_total. intros sc ex Hex. unfold extract_step.
  destruct (ex_Supports ex file); cbn; [|by eauto].
  assert (∃ l, ex_Extract ex file = Ok l) as [l ->]; [|by eauto].
  cbn in Hex. set_unfold in Hex. destruct Hex as [->|[->|[->|[->|[]]]]]; cbn; by eauto.
Qed.

Lemma file_step_total request s file : ∃ s', file_step DefaultEngine request s file = Ok s'.
Proof.
  unfold file_step. destruct (extractSignals_total file) as [[signals capacity] ->].
  cbn [mbind result_bind]. destruct (alloc _ _ _) as [shared h]. apply foldM_total.
  intros s1 a Ha. unfold analyzer_step. destruct (an_Supports _ _); cbn [negb]; [|by eauto].
  pose proof DefaultAnalyzers_answer as Hall. rewrite Forall_forall in Hall.
  destruct (Hall a Ha (mkAnalysisInput (rq_Repo request) (rq_Ref request) file
    (loadContent (rq_Content request) (file_Path file))) (cs_ids s1)) as (ms & n' & -> & _).
  cbn. by eauto.
Qed.
End default_engine.

(** ** Properties *)

(** The default engine classifies every change: no extractor or analyzer
    of it fails, whatever the content, and every mutation it reports is of one of
    nine kinds (an infrastructure mutation, which the risk weights and the policy
    validator know, is never detected). *)
Theorem default_engine_classifies `{Entropy, Parsers, SliceGrowth, MapOrder} request n :
  ∃ ms n', Classify DefaultEngine request n = Ok (ms, n') ∧
           Forall (λ m, mut_Kind m ∈ detectable) ms.
Proof.
  unfold Classify.
  destruct (foldM_total (file_step DefaultEngine request) (mkCState ∅ [] n) (rq_Files request)) as [s Hs].
  { intros. apply file_step_total. }
  rewrite Hs. cbn [mbind result_bind]. do 2 eexists. split; [done|].
  set (Q := λ m, mut_Kind m ∈ detectable).
  set (P := λ s, keyed s ∧ ∀ kind en, cs_index s !! kind = Some en → kind ∈ detectable).
  assert (∀ s c, Q (en_Mutation c) → P s → P (addMutation c s)) as Hadd.
  { intros s0 c Hc [Hk HQ]. split; [by apply addMutation_keyed|]. intros kind en Hen.
    destruct (decide (kind = mut_Kind (en_Mutation c))) as [->|Hne]; [done|].
    rewrite addMutation_other in Hen by done. by apply (HQ _ _ Hen). }
  assert (P s) as HPs.
  { eapply (files_preserve P Q); [done|done| | | |exact Hs].
    - intros f r m _ Hr Hkind _. unfold Q. rewrite Hkind. cbn in Hr. set_unfold in Hr. unfold detectable.
      destruct_or! Hr; subst r; compute_done.
    - intros f _ a k ms k' Ha _ Hms. pose proof DefaultAnalyzers_answer as Hall.
      rewrite Forall_forall in Hall. edestruct (Hall a Ha) as (ms0 & k0 & Hms0 & HF).
      rewrite Hms in Hms0. injection Hms0 as <- <-.
      eapply Forall_impl; [exact HF|]. by intros m [? _].
    - split; intros kind en; cbn [cs_index]; by rewrite lookup_empty. }
  assert (P (add_fallback (rq_Files request) s)) as [Hk HQ].
  { apply add_fallback_preserves; [done| |done]. intros k _ s0 Hs0. apply Hadd; [|done].
    unfold Q. cbn. compute_done. }
  apply Forall_forall. intros m (kind & en & Hen & ->)%elem_of_classified.
  change (mut_Kind (en_Mutation en) ∈ detectable). rewrite (Hk _ _ Hen). by apply (HQ _ _ Hen).
Qed.

(** C25: whatever external analyzers the default engine is given, a classification
    has one mutation per kind and is never empty for a non-empty change.  Every file
    of a mutation is a file of the change or was named by one of the external
    analyzers, in a mutation of the same kind, when it was run on a file of the
    change that it supports: neither the rules, nor the built-in analyzers, nor the
    merge of mutations brings in a file of their own. *)
Theorem classify_well_formed `{Entropy, Parsers, SliceGrowth, MapOrder} external request n ms n' :
  Classify (DefaultEngineWithExternal external) request n = Ok (ms, n') →
  NoDup (mut_Kind <$> ms) ∧
  (rq_Files request ≠ [] → ms ≠ []) ∧
  (∀ m p, m ∈ ms → p ∈ mut_Files m →
     p ∈ file_Path <$> rq_Files request ∨ named_by external request (mut_Kind m) p).
Proof.
  intros (Hnd & Hne & Hfiles)%classify_shape. split_and!; [done|done|].
  intros m p Hm Hp. destruct (Hfiles m p Hm Hp) as [|(a & f & k & l & k' & m0 & Ha & Hf & Hsup & Hrun & Hm0 & Hkind & Hp0)];
    [by left|].
  unfold DefaultEngineWithExternal in Ha. cbn [analyzers] in Ha. apply elem_of_app in Ha as [Ha|Ha]; [left|right; by exists a, f, k, l, k', m0].
  pose proof DefaultAnalyzers_answer as Hall. rewrite Forall_forall in Hall.
  destruct (Hall a Ha (file_input request f) k) as (l' & k1 & Hl' & Hown). rewrite Hrun in Hl'. injection Hl' as <- <-.
  rewrite Forall_forall in Hown. destruct (Hown m0 Hm0) as [_ Eown]. rewrite Eown in Hp0. cbn in Hp0.
  apply list_elem_of_singleton in Hp0 as ->. apply list_elem_of_fmap. eauto.
Qed.

(** An external analyzer runs nothing but an absolute, allowlisted
    executable under a positive deadline: its result depends on no other
    executable, and every mutation it yields carries its name as detector. *)
Theorem external_analyzer_confined (H1 H2 : Host) config a1 a2
    (Hnew1 : @NewExternalAnalyzer H1 config = Ok a1)
    (Hnew2 : @NewExternalAnalyzer H2 config = Ok a2)
    (Hsame : ∀ input deadline, 0 < deadline →
       @exec_Output H1 (ext_Executable config) input deadline =
       @exec_Output H2 (ext_Executable config) input deadline)
    (Hmarshal : @marshal_input H1 = @marshal_input H2)
    (Hunmarshal : @unmarshal_mutations H1 = @unmarshal_mutations H2) :
  IsAbs (ext_Executable config) = true ∧
  ext_Executable config ∈ ext_Allowlist config ∧
  (∀ input n, an_Analyze a1 input n = an_Analyze a2 input n) ∧
  ∀ input n ms n', an_Analyze a1 input n = Ok (ms, n') →
    n' = n ∧ Forall (λ m, mut_Detector m = an_Name a1) ms.
Proof.
  unfold NewExternalAnalyzer in *.
  destruct (IsAbs (ext_Executable config)); [|done].
  destruct (existsb _ _) eqn:Ea; [|done]. cbn [negb] in *.
  injection Hnew1 as <-. injection Hnew2 as <-. split_and!.
  - done.
  - apply existsb_elem in Ea as (p & Hp & E). apply bool_decide_eq_true_1 in E. by subst p.
  - cbn. intros input n.
    unfold external_Analyze. cbn. rewrite Hmarshal, Hunmarshal.
    destruct (marshal_input input) as [payload|]; [|done]. cbn. rewrite Hsame; [done|].
    destruct (_ <=? 0) eqn:Et; bool_props; [done|lia].
  - cbn. unfold external_Analyze. cbn. intros input n ms n' (payload & _ & Hrun)%bind_ok.
    destruct (exec_Output _ _ _); try done. apply bind_ok in Hrun as (ms0 & _ & [= <- <-]).
    split; [done|]. apply Forall_forall. by intros m (m0 & -> & _)%list_elem_of_fmap.
Qed.

(** ** Witnesses *)

Definition one_mutation_host : Host := {|
  exec_Output executable _ _ := if decide (executable = "/opt/analyzer") then Output "[]" else Failed "no such file";
  marshal_input _ := Ok "{}";
  unmarshal_mutations _ := Ok [zeroMutation] |}.

Definition external_config : ExternalAnalyzerConfig :=
  mkExternalAnalyzerConfig "" "/opt/analyzer" ["/usr/bin/lint"; "/opt/analyzer"] 0 ["*.tf"].

Lemma external_analyzer_confined_witness :
  IsAbs "/opt/analyzer" = true ∧
  ∃ a, @NewExternalAnalyzer one_mutation_host external_config = Ok a ∧ an_Name a = "analyzer" ∧
    ∀ input n ms n', an_Analyze a input n = Ok (ms, n') → n' = n ∧ Forall (λ m, mut_Detector m = "analyzer") ms.
Proof.
  assert (∃ a, @NewExternalAnalyzer one_mutation_host external_config = Ok a ∧ an_Name a = "analyzer")
    as (a & Ha & Hname) by (eexists; split; [reflexivity|by vm_compute]).
  destruct (external_analyzer_confined one_mutation_host one_mutation_host external_config a a Ha Ha
              (λ _ _ _, eq_refl) eq_refl eq_refl) as (Habs & _ & _ & Hrun).
  split; [exact Habs|]. exists a. rewrite Hname in Hrun. by split_and!.
Defined.

(** An external analyzer that names a file outside of the change it is run on. *)
Definition straying_host : Host := {|
  exec_Output _ _ _ := Output "";
  marshal_input _ := Ok "{}";
  unmarshal_mutations _ :=
    Ok [mkMutation "m" MutationInfrastructure SeverityHigh (float_ratio 1 2) "plan" ""
          ["main.tf"; "modules/vpc.tf"] [] "" ∅] |}.

Definition straying_analyzers : list Analyzer :=
  match @NewExternalAnalyzer straying_host external_config with Ok a => [a] | Err _ => [] end.

Definition plan_request : AnalysisRequest :=
  mkAnalysisRequest zeroRepoRef "" [mkChangedFile "main.tf" "" "" FileModified 1 0 1 ""] None.

Section demo.
#[local] Existing Instance counting_entropy.
#[local] Existing Instance doubling.
#[local] Existing Instance map_order_sorted.
#[local] Instance no_parsers : Parsers := {| yaml_Unmarshal _ := None; parser_ParseFile _ _ := None |}.

Definition straying_classified : list Mutation :=
  (classified (DefaultEngineWithExternal straying_analyzers) plan_request).1.

Lemma classify_well_formed_witness :
  mjoin (mut_Files <$> straying_classified) = ["main.tf"; "modules/vpc.tf"] ∧
  NoDup (mut_Kind <$> straying_classified) ∧
  named_by straying_analyzers plan_request MutationInfrastructure "modules/vpc.tf".
Proof.
  assert (Classify (DefaultEngineWithExternal straying_analyzers) plan_request 0 =
          Ok (straying_classified, 0%nat)) as H by (vm_compute; reflexivity).
  split; [vm_compute; reflexivity|].
  destruct (classify_well_formed straying_analyzers plan_request 0 straying_classified 0 H) as (Hnd & _ & Hfiles).
  split; [exact Hnd|].
  destruct straying_classified as [|m l] eqn:E; [vm_compute in E; discriminate E|].
  assert (mut_Kind m = MutationInfrastructure ∧ "modules/vpc.tf" ∈ mut_Files m) as [Hkind Hp].
  { vm_compute in E. injection E as <- _. split; [reflexivity|]. right. left. }
  rewrite <- Hkind. destruct (Hfiles m "modules/vpc.tf") as [Hin|Hin]; [left|exact Hp| |exact Hin].
  by apply list_elem_of_singleton in Hin.
Defined.
End demo.
