(* ===== verification/RuntimeGraph.v ===== *)
(** [internal/runtimegraph]: the sources that derive affected systems and
    owners, the graph traversal, and the resolver that joins them. *)
From stdpp Require Import base list gmap strings fin_sets.
From S2P Require Import Prelude GoStrings GoPath Domain Documents.

Local Open Scope string_scope.
Local Open Scope list_scope.
Local Open Scope Z_scope.

(** ** The model and the contracts *)

Record Node := mkNode {
  node_ID : string;
  node_Kind : string;
  node_Name : string;
  node_Namespace : string;
  node_Owner : string;
  node_Criticality : Criticality;
  node_Metadata : gmap string string;
}.

Record Edge := mkEdge {
  edge_From : string;
  edge_To : string;
  edge_Type : string;
  edge_Critical : bool;
  edge_Directional : bool;
  edge_Metadata : gmap string string;
}.

Record Options := mkOptions {
  EnableCodeOwners : bool;
  GraphManifestPath : string;
  MaxTraversalDepth : Z;
}.

Record ResolutionInput := mkResolutionInput {
  res_Packet : ChangePacket;
  res_Ref : string;
  res_Loader : option (string → result string string);
  res_Options : Options;
}.

Record Fragment := mkFragment {
  fr_Nodes : list Node;
  fr_Edges : list Edge;
  fr_Systems : list SystemRef;
  fr_Ownership : list OwnershipBoundary;
  fr_Notes : list string;
  fr_Criticality : Criticality;
  fr_Affected : list string;
}.

Definition zeroFragment : Fragment := mkFragment [] [] [] [] [] "" [].

Record Source := mkSource {
  src_Name : string;
  Collect : ResolutionInput → result string Fragment;
}.

Definition criticalityRank (value : Criticality) : Z :=
  if decide (value = CriticalityTier0) then 4
  else if decide (value = CriticalityHigh) then 3
  else if decide (value = CriticalityNormal) then 2
  else 1.

(** ** The sources *)

Definition service_named (name : string) : SystemRef :=
  mkSystemRef SystemService name "" name CriticalityNormal.

Definition topology_step (so : gmap string SystemRef * gmap string OwnershipBoundary) (file : ChangedFile)
    : gmap string SystemRef * gmap string OwnershipBoundary :=
  match Split slash (Trim (file_Path file) slash) with
  | part0 :: serviceName :: _ =>
      if decide (part0 ∈ ["cmd"; "internal"; "pkg"; "services"]) then
        (<[serviceName := service_named serviceName]> so.1,
         <[serviceName := mkOwnershipBoundary serviceName serviceName [serviceName] "" false]> so.2)
      else so
  | _ => so
  end.

Definition repositoryTopology_Collect `{MapOrder} (input : ResolutionInput) : result string Fragment :=
  let '(services, owners) := foldl topology_step (∅, ∅) (cp_Files (res_Packet input)) in
  Ok (mkFragment [] [] (map_range services).*2 (map_range owners).*2
        ["repository topology source derived impacted services from changed paths"] "" []).

Definition parseManifestSystem `{Parsers} (content : string) : option SystemRef :=
  match yaml_Unmarshal content with
  | None => None
  | Some parsed =>
      let kind := as_string (entry parsed "kind") in
      let metadata := as_map (entry parsed "metadata") in
      let name := as_string (entry metadata "name") in
      if bool_decide (kind = "") || bool_decide (name = "") then None
      else
        let lowerKind := ToLower kind in
        if bool_decide (lowerKind ≠ "service") && bool_decide (lowerKind ≠ "deployment") &&
           bool_decide (lowerKind ≠ "statefulset") then None
        else Some (service_named name)
  end.

(** The content of a path, when the loader gives one. *)
Definition loaded (loader : option (string → result string string)) (path : string) : option string :=
  match loader with
  | None => None
  | Some load =>
      match load path with
      | Err _ => None
      | Ok content => if decide (content = "") then None else Some content
      end
  end.

Definition manifest_step `{Parsers} (input : ResolutionInput) (fragment : Fragment) (file : ChangedFile)
    : Fragment :=
  let ext := ToLower (Ext (file_Path file)) in
  if bool_decide (ext ≠ ".yaml") && bool_decide (ext ≠ ".yml") then fragment
  else
    match loaded (res_Loader input) (file_Path file) ≫= parseManifestSystem with
    | None => fragment
    | Some system =>
        mkFragment (fr_Nodes fragment) (fr_Edges fragment) (fr_Systems fragment ++ [system])
          (fr_Ownership fragment)
          (fr_Notes fragment ++ ["manifest source extracted runtime objects from deploy manifests"])
          (fr_Criticality fragment) (fr_Affected fragment)
    end.

Definition manifest_Collect `{Parsers} (input : ResolutionInput) : result string Fragment :=
  Ok (foldl (manifest_step input) zeroFragment (cp_Files (res_Packet input))).

(** One line of CODEOWNERS against one file. *)
Definition codeowners_line (file : ChangedFile) (matches : gmap string OwnershipBoundary) (line : string)
    : gmap string OwnershipBoundary :=
  let line := TrimSpace line in
  if bool_decide (line = "") || HasPrefix line "#" then matches
  else
    match Fields line with
    | field0 :: field1 :: _ =>
        let pattern := Trim field0 slash in
        if negb (Contains (file_Path file) (Trim pattern "*")) then matches
        else
          let team := TrimPrefix field1 "@" in
          <[team := mkOwnershipBoundary pattern team [file_Path file] "" false]> matches
    | _ => matches
    end.

Definition collectCodeOwners `{MapOrder} (codeOwners : string) (files : list ChangedFile)
    : list OwnershipBoundary :=
  let lines := Split "010" codeOwners in
  let matches := foldl (λ m file, foldl (codeowners_line file) m lines) ∅ files in
  (map_range matches).*2.

Definition codeOwners_Collect `{MapOrder} (input : ResolutionInput) : result string Fragment :=
  match res_Loader input with
  | None => Ok zeroFragment
  | Some load =>
      let content :=
        match loaded (Some load) ".github/CODEOWNERS" with
        | Some content => content
        | None => match load "CODEOWNERS" with Ok content => content | Err _ => "" end
        end in
      if decide (content = "") then Ok zeroFragment
      else
        let owners := collectCodeOwners content (cp_Files (res_Packet input)) in
        Ok (mkFragment [] [] [] owners
              (if nonempty owners then ["codeowners source mapped changed files to owner teams"] else []) "" [])
  end.

Record graphManifestNode := mkGraphManifestNode {
  gm_ID : string;
  gm_Name : string;
  gm_Kind : string;
  gm_Owner : string;
  gm_Criticality : Criticality;
  gm_Paths : list string;
}.

Record graphManifest := mkGraphManifest {
  gm_Nodes : list graphManifestNode;
  gm_Edges : list Edge;
}.

(** Decoding of the graph manifest by the YAML library. *)
Class GraphDecoder := { yaml_graph : string → result string graphManifest }.

Definition matchesGraphPath (patterns : list string) (path : string) : bool :=
  existsb (λ pattern, Match pattern path || HasPrefix path (TrimSuffix pattern "/**")) patterns.

Definition system_of (node : Node) : SystemRef :=
  mkSystemRef SystemService (node_Name node) "" (node_Owner node) (node_Criticality node).

Definition graph_node (gn : graphManifestNode) : Node :=
  mkNode (gm_ID gn) (gm_Kind gn) (gm_Name gn) "" (gm_Owner gn) (gm_Criticality gn) ∅.

Definition graph_step (input : ResolutionInput) (fragment : Fragment) (gn : graphManifestNode) : Fragment :=
  if bool_decide (gm_ID gn = "") || bool_decide (gm_Name gn = "") then fragment
  else
    mkFragment (fr_Nodes fragment ++ [graph_node gn]) (fr_Edges fragment)
      (fr_Systems fragment ++ [system_of (graph_node gn)]) (fr_Ownership fragment) (fr_Notes fragment)
      (fr_Criticality fragment)
      (if existsb (λ file, matchesGraphPath (gm_Paths gn) (file_Path file)) (cp_Files (res_Packet input))
       then fr_Affected fragment ++ [gm_ID gn] else fr_Affected fragment).

Definition graphManifest_Collect `{GraphDecoder} (input : ResolutionInput) : result string Fragment :=
  if decide (GraphManifestPath (res_Options input) = "") then Ok zeroFragment
  else
    match loaded (res_Loader input) (GraphManifestPath (res_Options input)) with
    | None => Ok zeroFragment
    | Some content =>
        manifest ← yaml_graph content;
        let fragment := foldl (graph_step input)
          (mkFragment [] (gm_Edges manifest) [] [] [] "" []) (gm_Nodes manifest) in
        Ok (mkFragment (fr_Nodes fragment) (fr_Edges fragment) (fr_Systems fragment) (fr_Ownership fragment)
              (if nonempty (fr_Affected fragment)
               then fr_Notes fragment ++ ["graph manifest resolved transitive runtime dependencies"]
               else fr_Notes fragment)
              (fr_Criticality fragment) (fr_Affected fragment))
    end.

(** ** The traversal *)

Definition add_neighbor (adjacency : gmap string (list string)) (from to : string) : gmap string (list string) :=
  <[from := default [] (adjacency !! from) ++ [to]]> adjacency.

(** Both directions of every edge, whatever its [Directional] says. *)
Definition add_edge (adjacency : gmap string (list string)) (edge : Edge) : gmap string (list string) :=
  add_neighbor (add_neighbor adjacency (edge_From edge) (edge_To edge)) (edge_To edge) (edge_From edge).

Definition adjacency_of (edges : list Edge) : gmap string (list string) := foldl add_edge ∅ edges.

Record Walk := mkWalk {
  visited : gset string;
  depth : gmap string Z;
  queue : list string;
  order : list string;  (** the identifiers taken from the queue so far *)
}.

Definition depth_of (w : Walk) (id : string) : Z := default 0 (depth w !! id).

(** One iteration of the loop over [adjacency[id]]. *)
Definition visit (id : string) (w : Walk) (next : string) : Walk :=
  if decide (next ∈ visited w) then w
  else mkWalk ({[next]} ∪ visited w) (<[next := depth_of w id + 1]> (depth w)) (queue w ++ [next]) (order w).

(** One iteration of [for len(queue) > 0]. *)
Definition walk_step (adjacency : gmap string (list string)) (maxDepth : Z) (id : string) (w : Walk) : Walk :=
  let w := mkWalk (visited w) (depth w) (queue w) (order w ++ [id]) in
  if maxDepth <=? depth_of w id then w
  else foldl (visit id) w (default [] (adjacency !! id)).

(** [None] when the fuel runs out before the queue is empty. *)
Fixpoint walk (fuel : nat) (adjacency : gmap string (list string)) (maxDepth : Z) (w : Walk) : option Walk :=
  match queue w with
  | [] => Some w
  | id :: rest =>
      match fuel with
      | O => None
      | S fuel => walk fuel adjacency maxDepth
                    (walk_step adjacency maxDepth id (mkWalk (visited w) (depth w) rest (order w)))
      end
  end.

Definition endpoints (edges : list Edge) : list string :=
  mjoin ((λ e, [edge_From e; edge_To e]) <$> edges).

(** Every iteration takes an entry off the queue, and every identifier enters
    it once: at the start, or when it is first reached over an edge. *)
Definition walk_fuel (affected : list string) (edges : list Edge) : nat :=
  length affected + length (endpoints edges).

Definition initial_walk (affected : list string) : Walk :=
  mkWalk (list_to_set affected) ∅ affected [].

Definition effective_depth (maxDepth : Z) : Z := if maxDepth <=? 0 then 3 else maxDepth.

Definition nodes_of (fragment : Fragment) : gmap string SystemRef :=
  foldl (λ nodes node, <[node_ID node := system_of node]> nodes) ∅ (fr_Nodes fragment).

Definition raise_criticality (c : Criticality) (system : SystemRef) : Criticality :=
  if criticalityRank c <? criticalityRank (sys_Criticality system) then sys_Criticality system else c.

Definition traverseGraph (fragment : Fragment) (maxDepth : Z) : Fragment :=
  let adjacency := adjacency_of (fr_Edges fragment) in
  let systems :=
    match walk (walk_fuel (fr_Affected fragment) (fr_Edges fragment)) adjacency (effective_depth maxDepth)
            (initial_walk (fr_Affected fragment)) with
    | Some w => omap (nodes_of fragment !!.) (order w)
    | None => []
    end in
  mkFragment [] [] systems [] (fr_Notes fragment) (foldl raise_criticality "" systems) [].

(** ** The resolver *)

Definition NewResolver `{MapOrder, Parsers, GraphDecoder} (options : Options) : list Source :=
  [mkSource "repository-topology" repositoryTopology_Collect; mkSource "manifest-source" manifest_Collect] ++
  (if decide (GraphManifestPath options = "") then []
   else [mkSource "graph-manifest-source" graphManifest_Collect]) ++
  (if EnableCodeOwners options then [mkSource "codeowners-source" codeOwners_Collect] else []).

Definition defaultImpact : RuntimeImpact :=
  mkRuntimeImpact BlastRadiusUnknown CriticalityNormal [] [] [] [] [].

Definition indexSystems (index : gmap string SystemRef) (systems : list SystemRef) : gmap string SystemRef :=
  foldl (λ index system, <[sys_Name system := system]> index) index systems.

Definition indexOwners (index : gmap string OwnershipBoundary) (owners : list OwnershipBoundary)
    : gmap string OwnershipBoundary :=
  foldl (λ index owner, <[ob_Team owner := owner]> index) index owners.

Definition promoteCriticality (current candidate : Criticality) : Criticality :=
  if criticalityRank current <? criticalityRank candidate then candidate else current.

Definition deriveBlastRadius (services : gmap string SystemRef) : BlastRadius :=
  match size services with
  | 0%nat => BlastRadiusUnknown
  | 1%nat => BlastRadiusIsolated
  | _ => BlastRadiusLocalized
  end.

(** The indexes, the criticality and the notes that [ResolveImpact] gathers. *)
Record Gathered := mkGathered {
  g_services : gmap string SystemRef;
  g_owners : gmap string OwnershipBoundary;
  g_criticality : Criticality;
  g_notes : list string;
}.

Definition gather (input : ResolutionInput) (g : Gathered) (source : Source) : result string Gathered :=
  fragment ← Collect source input;
  let g :=
    if nonempty (fr_Edges fragment) && nonempty (fr_Affected fragment) then
      let resolved := traverseGraph fragment (MaxTraversalDepth (res_Options input)) in
      mkGathered (indexSystems (g_services g) (fr_Systems resolved)) (g_owners g)
        (promoteCriticality (g_criticality g) (fr_Criticality resolved)) (g_notes g ++ fr_Notes resolved)
    else
      mkGathered (indexSystems (g_services g) (fr_Systems fragment)) (g_owners g) (g_criticality g) (g_notes g) in
  Ok (mkGathered (g_services g) (indexOwners (g_owners g) (fr_Ownership fragment))
        (promoteCriticality (g_criticality g) (fr_Criticality fragment)) (g_notes g ++ fr_Notes fragment)).

Definition materializeSystems `{MapOrder} (index : gmap string SystemRef) : list SystemRef := (map_range index).*2.
Definition materializeOwners `{MapOrder} (index : gmap string OwnershipBoundary) : list OwnershipBoundary :=
  (map_range index).*2.

Definition ResolveImpact `{MapOrder} (sources : list Source) (input : ResolutionInput)
    : result string (RuntimeImpact * list OwnershipBoundary) :=
  g ← foldM (gather input)
        (mkGathered ∅ ∅ (ri_Criticality defaultImpact) (ri_Notes defaultImpact)) sources;
  Ok (mkRuntimeImpact (deriveBlastRadius (g_services g)) (g_criticality g)
        (materializeSystems (g_services g)) [] [] []
        (if nonempty (g_notes g) then g_notes g
         else ["runtime graph sources did not find additional topology metadata"]),
      materializeOwners (g_owners g)).

(** ** The traversal is a breadth-first search *)

Definition neighbor (edges : list Edge) (u v : string) : Prop :=
  ∃ e, e ∈ edges ∧ ((edge_From e = u ∧ edge_To e = v) ∨ (edge_To e = u ∧ edge_From e = v)).

(** A walk of [k] edges from an affected identifier. *)
Inductive reach (affected : list string) (edges : list Edge) : nat → string → Prop :=
  | reach_start id : id ∈ affected → reach affected edges 0 id
  | reach_edge k u v : reach affected edges k u → neighbor edges u v → reach affected edges (S k) v.

Definition within (affected : list string) (edges : list Edge) (d : Z) (id : string) : Prop :=
  ∃ k, reach affected edges k id ∧ Z.of_nat k ≤ d.

Lemma add_neighbor_elem adj from to u v :
  v ∈ default [] (add_neighbor adj from to !! u) ↔ v ∈ default [] (adj !! u) ∨ (u = from ∧ v = to).
Proof.
  unfold add_neighbor. destruct (decide (from = u)) as [->|Hne].
  - rewrite lookup_insert_eq. cbn. rewrite elem_of_app, list_elem_of_singleton. naive_solver.
  - rewrite lookup_insert_ne by done. naive_solver.
Qed.

Lemma adjacency_neighbor edges u v :
  v ∈ default [] (adjacency_of edges !! u) ↔ neighbor edges u v.
Proof.
  unfold adjacency_of, neighbor. induction edges as [|e edges IH] using rev_ind.
  { cbn [foldl]. rewrite lookup_empty. cbn. split; [set_solver|]. intros (e & He & _). set_solver. }
  rewrite foldl_app. cbn [foldl]. unfold add_edge. rewrite !add_neighbor_elem, IH.
  split.
  - intros [[(e' & He' & H)|[-> ->]]|[-> ->]].
    + exists e'. split; [set_solver|done].
    + exists e. split; [set_solver|by left].
    + exists e. split; [set_solver|by right].
  - intros (e' & [He'|He'%list_elem_of_singleton]%elem_of_app & H); [left; left; by exists e'|].
    subst e'. destruct H as [[<- <-]|[<- <-]]; [left; by right|by right].
Qed.

Lemma neighbor_endpoint edges u v : neighbor edges u v → v ∈ endpoints edges.
Proof.
  intros (e & He & H). unfold endpoints. apply list_elem_of_join.
  exists [edge_From e; edge_To e]. split; [set_solver|]. apply list_elem_of_fmap. eauto.
Qed.

(** What the loop over the neighbours of [id] adds. *)
Lemma visit_all id ns w :
  id ∈ visited w →
  let w' := foldl (visit id) w ns in
  ∃ new, queue w' = queue w ++ new ∧ order w' = order w ∧ NoDup new ∧
    (∀ v, v ∈ visited w' ↔ v ∈ visited w ∨ v ∈ new) ∧
    (∀ v, v ∈ new → (v ∉ visited w) ∧ v ∈ ns ∧ depth_of w' v = depth_of w id + 1) ∧
    (∀ v, v ∉ new → depth_of w' v = depth_of w v) ∧
    (∀ v, v ∈ ns → v ∈ visited w').
Proof.
  intros Hid. cbn zeta. induction ns as [|n ns IH] using rev_ind.
  { exists []. cbn. rewrite app_nil_r. split_and!; try done; [constructor|set_solver|set_solver|set_solver]. }
  rewrite foldl_app. cbn [foldl]. set (w' := foldl (visit id) w ns) in *.
  destruct IH as (new & Hq & Ho & Hnd & Hvis & Hnew & Hold & Hall). unfold visit.
  case_decide as Hn.
  - exists new. split_and!; try done.
    + intros v Hv. destruct (Hnew v Hv) as (? & ? & ?). set_solver.
    + intros v [Hv|Hv%list_elem_of_singleton]%elem_of_app; [by apply Hall|by subst v].
  - assert ((n ∉ new) ∧ n ∉ visited w) as [Hnn Hnw] by (rewrite Hvis in Hn; tauto).
    assert (depth_of w' id = depth_of w id) as Hdid.
    { apply Hold. intros Hc. by apply Hnew in Hc as [? _]. }
    exists (new ++ [n]). cbn [queue order visited]. split_and!.
    + by rewrite Hq, app_assoc.
    + done.
    + apply NoDup_app. split_and!; [done|set_solver|apply NoDup_singleton].
    + intros v. rewrite elem_of_union, elem_of_singleton, Hvis, elem_of_app, list_elem_of_singleton. tauto.
    + intros v [Hv|Hv%list_elem_of_singleton]%elem_of_app.
      * destruct (Hnew v Hv) as (? & ? & Hd). split_and!; [done|set_solver|].
        unfold depth_of in *. cbn. rewrite lookup_insert_ne; [done|]. intros ->. done.
      * subst v. split_and!; [done|set_solver|]. unfold depth_of at 1. cbn.
        rewrite lookup_insert_eq. cbn. by rewrite Hdid.
    + intros v Hv. unfold depth_of in *. cbn. rewrite lookup_insert_ne; [apply Hold; set_solver|].
      intros ->. set_solver.
    + intros v [Hv%Hall|Hv%list_elem_of_singleton]%elem_of_app; [set_solver|subst v; set_solver].
Qed.

Section bfs.
Context (affected : list string) (edges : list Edge) (maxDepth : Z).
Context (Hmax : 0 ≤ maxDepth).

Record bfs_inv (w : Walk) : Prop := {
  bi_visited : ∀ v, v ∈ visited w ↔ v ∈ order w ∨ v ∈ queue w;
  bi_sound : ∀ v, v ∈ visited w →
    ∃ k, reach affected edges k v ∧ depth_of w v = Z.of_nat k ∧ Z.of_nat k ≤ maxDepth;
  bi_start : ∀ v, v ∈ affected → v ∈ visited w ∧ depth_of w v = 0;
  bi_closed : ∀ u v, u ∈ order w → depth_of w u < maxDepth → neighbor edges u v →
    v ∈ visited w ∧ depth_of w v ≤ depth_of w u + 1;
  bi_sorted : StronglySorted (λ x y, depth_of w x ≤ depth_of w y) (queue w);
  bi_frontier : ∀ x v, x ∈ queue w → v ∈ visited w → depth_of w v ≤ depth_of w x + 1;
}.

Lemma bfs_init : bfs_inv (initial_walk affected).
Proof.
  assert (∀ v, depth_of (initial_walk affected) v = 0) as H0.
  { intros v. unfold depth_of, initial_walk. cbn. by rewrite lookup_empty. }
  split; cbn.
  - intros v. rewrite elem_of_list_to_set. set_solver.
  - intros v Hv%elem_of_list_to_set. exists 0%nat. rewrite H0. split_and!; [by constructor|done|lia].
  - intros v Hv. by rewrite elem_of_list_to_set, H0.
  - set_solver.
  - assert (∀ l, StronglySorted (λ x y, depth_of (initial_walk affected) x ≤
                                        depth_of (initial_walk affected) y) l) as G; [|apply G].
    induction l as [|a l IH]; constructor; [done|]. apply Forall_forall. intros y _. by rewrite !H0.
  - intros x v _ _. rewrite !H0. lia.
Qed.

Lemma StronglySorted_ext (R1 R2 : string → string → Prop) l :
  (∀ x y, x ∈ l → y ∈ l → R1 x y → R2 x y) → StronglySorted R1 l → StronglySorted R2 l.
Proof.
  intros HR Hs. induction Hs as [|a l Hs IH Hall]; constructor.
  - apply IH. intros. apply HR; set_solver.
  - rewrite Forall_forall in *. intros y Hy. apply HR; [set_solver..|]. by apply Hall.
Qed.

Lemma bfs_step id rest w :
  bfs_inv w → queue w = id :: rest →
  let w' := walk_step (adjacency_of edges) maxDepth id (mkWalk (visited w) (depth w) rest (order w)) in
  bfs_inv w' ∧ order w' = order w ++ [id] ∧
  ∃ new, queue w' = rest ++ new ∧ NoDup new ∧
    (∀ v, v ∈ visited w' ↔ v ∈ visited w ∨ v ∈ new) ∧
    (∀ v, v ∈ new → (v ∉ visited w) ∧ v ∈ endpoints edges).
Proof.
  intros [Iv Is Ist Ic Iso If] Hq. cbn zeta. unfold walk_step. cbn [visited depth queue order].
  set (w0 := mkWalk (visited w) (depth w) rest (order w ++ [id])).
  assert (∀ v, depth_of w0 v = depth_of w v) as H0 by done.
  assert (id ∈ visited w) as Hid by (apply Iv; rewrite Hq; set_solver).
  rewrite Hq in Iso. inversion Iso as [|? ? Iso' Hhead]; subst. rewrite Forall_forall in Hhead.
  destruct (maxDepth <=? depth_of w0 id) eqn:Ed; bool_props; rewrite ?H0 in Ed.
  { split_and!; [|done|].
    - split; cbn.
      + intros v. rewrite Iv, Hq. set_solver.
      + done.
      + done.
      + intros u v [Hu|Hu%list_elem_of_singleton]%elem_of_app Hd Hn; [by apply (Ic u)|].
        subst u. unfold depth_of in *. cbn in *. lia.
      + done.
      + intros x v Hx Hv. apply If; [rewrite Hq; set_solver|done].
    - exists []. rewrite app_nil_r. split_and!; [done|constructor|set_solver|set_solver]. }
  destruct (visit_all id (default [] (adjacency_of edges !! id)) w0) as
    (new & Hqn & Hon & Hnd & Hvn & Hnew & Hold & Hall); [done|].
  set (w' := foldl _ _ _) in *. cbn [queue order visited] in *.
  assert (∀ v, v ∈ visited w → depth_of w' v = depth_of w v) as Hkeep.
  { intros v Hv. rewrite Hold; [done|]. intros Hc. by apply Hnew in Hc as [? _]. }
  assert (∀ v, v ∈ new → depth_of w' v = depth_of w id + 1) as Hfresh.
  { intros v Hv. apply Hnew in Hv as (_ & _ & ->). by rewrite H0. }
  assert (∀ x, x ∈ rest → depth_of w id ≤ depth_of w x ≤ depth_of w id + 1) as Hrest.
  { intros x Hx. split; [by apply Hhead|]. apply If; [rewrite Hq; left|].
    apply Iv. rewrite Hq. set_solver. }
  assert (∀ x, x ∈ rest → x ∈ visited w) as Hrv by (intros x Hx; apply Iv; rewrite Hq; set_solver).
  split_and!; [|done|].
  - split.
    + intros v. rewrite Hvn, Hon, Hqn. cbn. rewrite Iv, Hq. set_solver.
    + intros v [Hv|Hv]%Hvn.
      * rewrite Hkeep by done. by apply Is.
      * rewrite Hfresh by done. destruct (Is id Hid) as (k & Hr & Hk & Hle).
        exists (S k). split_and!; [|lia|lia]. eapply reach_edge; [exact Hr|].
        apply adjacency_neighbor. by apply Hnew.
    + intros v Hv. destruct (Ist v Hv) as [Hv' Hd]. split; [apply Hvn; by left|]. by rewrite Hkeep.
    + intros u v Hu Hd Hn. rewrite Hon in Hu. cbn in Hu.
      apply elem_of_app in Hu as [Hu|Hu%list_elem_of_singleton].
      * assert (u ∈ visited w) as Huv by (apply Iv; by left).
        rewrite (Hkeep u Huv) in *. destruct (Ic u v Hu Hd Hn) as [Hv Hdv].
        split; [apply Hvn; by left|]. by rewrite Hkeep.
      * subst u. apply adjacency_neighbor in Hn. split; [by apply Hall|].
        rewrite (Hkeep id Hid). apply Hall, Hvn in Hn as [Hn|Hn].
        -- rewrite Hkeep by done. apply If; [rewrite Hq; left|done].
        -- rewrite Hfresh by done. lia.
    + rewrite Hqn. cbn. apply StronglySorted_app. split_and!.
      * intros x y Hx Hy. rewrite Hkeep by auto. rewrite Hfresh by done. apply Hrest in Hx. lia.
      * eapply StronglySorted_ext; [|exact Iso']. intros x y Hx Hy. by rewrite !Hkeep by auto.
      * clear -Hfresh. assert (∀ l, (∀ v, v ∈ l → v ∈ new) → StronglySorted (λ x y, depth_of w' x ≤ depth_of w' y) l) as G.
        { induction l as [|a l IH]; intros Hl; constructor; [apply IH; set_solver|].
          apply Forall_forall. intros y Hy. rewrite !Hfresh by set_solver. lia. }
        by apply G.
    + intros x v Hx Hv. rewrite Hqn in Hx. cbn in Hx.
      assert (depth_of w' v ≤ depth_of w id + 1) as Hdv.
      { apply Hvn in Hv as [Hv|Hv]; [rewrite Hkeep by done; apply If; [rewrite Hq; left|done]|].
        by rewrite Hfresh. }
      apply elem_of_app in Hx as [Hx|Hx].
      * rewrite (Hkeep x) by auto. apply Hrest in Hx. lia.
      * rewrite (Hfresh x) by done. lia.
  - exists new. split_and!; try done. intros v Hv. destruct (Hnew v Hv) as (? & Hn & _).
    split; [done|]. apply adjacency_neighbor in Hn. by eapply neighbor_endpoint.
Qed.

(** Entries of the queue plus identifiers that can still enter it. *)
Definition remaining (w : Walk) : nat :=
  length (queue w) + size (list_to_set (endpoints edges) ∖ visited w : gset string).

Lemma remaining_step id rest w :
  bfs_inv w → queue w = id :: rest →
  (remaining (walk_step (adjacency_of edges) maxDepth id
     (mkWalk (visited w) (depth w) rest (order w))) < remaining w)%nat.
Proof using Hmax.
  intros Hinv Hq. destruct (bfs_step id rest w Hinv Hq) as (_ & _ & new & Hqn & Hnd & Hv & Hnew).
  unfold remaining. rewrite Hqn, Hq, length_app. cbn [length].
  set (w' := walk_step _ _ _ _) in *. set (E := list_to_set (endpoints edges) : gset string).
  assert (E ∖ visited w ≡ (E ∖ visited w') ∪ list_to_set new) as HE.
  { intros v. rewrite elem_of_union, !elem_of_difference, elem_of_list_to_set, Hv. unfold E.
    rewrite elem_of_list_to_set. specialize (Hnew v).
    destruct (decide (v ∈ new)); [|tauto]. destruct Hnew; [done|]. tauto. }
  pose proof (size_union (E ∖ visited w') (list_to_set new)) as Hsize.
  rewrite HE, Hsize, size_list_to_set by (done || set_solver). lia.
Qed.

Lemma walk_correct fuel w :
  bfs_inv w → (remaining w ≤ fuel)%nat →
  ∃ w', walk fuel (adjacency_of edges) maxDepth w = Some w' ∧ bfs_inv w' ∧ queue w' = [].
Proof using Hmax.
  revert w. induction fuel as [|fuel IH]; intros w Hinv Hf; cbn;
    destruct (queue w) as [|id rest] eqn:Hq; [by eauto| |by eauto|].
  - unfold remaining in Hf. rewrite Hq in Hf. cbn in Hf. lia.
  - apply IH; [by apply (bfs_step id rest w)|]. pose proof (remaining_step id rest w Hinv Hq). lia.
Qed.

(** At the end the identifiers taken from the queue are those within the
    depth. *)
Lemma bfs_complete w :
  bfs_inv w → queue w = [] → ∀ id, id ∈ order w ↔ within affected edges maxDepth id.
Proof using Hmax.
  intros [Iv Is Ist Ic _ _] Hq.
  assert (∀ v, v ∈ visited w ↔ v ∈ order w) as Hvo by (intros v; rewrite Iv, Hq; set_solver).
  intros id. split.
  - intros Hid%Hvo. destruct (Is id Hid) as (k & ? & ? & ?). by exists k.
  - intros (k & Hr & Hk). apply Hvo.
    enough (id ∈ visited w ∧ depth_of w id ≤ Z.of_nat k) as [? _] by done.
    induction Hr as [v Hv|k u v Hr IH Hn].
    + destruct (Ist v Hv) as [? ->]. split; [done|lia].
    + destruct IH as [Hu Hd]; [lia|]. apply Hvo in Hu.
      destruct (Ic u v Hu) as [Hv Hdv]; [lia|done|]. split; [done|lia].
Qed.
End bfs.

Lemma size_difference_list (l : list string) (X : gset string) :
  (size (list_to_set l ∖ X : gset string) ≤ length l)%nat.
Proof.
  induction l as [|a l IH]; cbn.
  { replace (∅ ∖ X) with (∅ : gset string) by set_solver. by rewrite size_empty. }
  etrans; [apply (subseteq_size _ ({[a]} ∪ (list_to_set l ∖ X))); set_solver|].
  pose proof (size_union_alt ({[a]} : gset string) (list_to_set l ∖ X)) as Hs. rewrite Hs, size_singleton.
  pose proof (subseteq_size ((list_to_set l ∖ X) ∖ {[a]}) (list_to_set l ∖ X : gset string)).
  assert (size ((list_to_set l ∖ X) ∖ {[a]} : gset string) ≤ size (list_to_set l ∖ X : gset string))%nat
    by (apply subseteq_size; set_solver). lia.
Qed.

Lemma nodes_of_lookup fragment id s :
  nodes_of fragment !! id = Some s → ∃ n, n ∈ fr_Nodes fragment ∧ node_ID n = id ∧ s = system_of n.
Proof.
  unfold nodes_of. generalize (fr_Nodes fragment) as ns. intros ns.
  induction ns as [|n ns IH] using rev_ind; [cbn [foldl]; by rewrite lookup_empty|].
  rewrite foldl_app. cbn [foldl]. intros [[<- <-]|[_ H]]%lookup_insert_Some.
  - exists n. set_solver.
  - destruct (IH H) as (n' & ? & ? & ?). exists n'. set_solver.
Qed.

Lemma raise_criticality_rank systems c :
  criticalityRank (foldl raise_criticality c systems) =
  foldl (λ r s, Z.max r (criticalityRank (sys_Criticality s))) (criticalityRank c) systems.
Proof.
  revert c. induction systems as [|s systems IH]; intros c; [done|]. cbn. rewrite IH. f_equal.
  unfold raise_criticality. destruct (Z.ltb_spec (criticalityRank c) (criticalityRank (sys_Criticality s))); lia.
Qed.

Lemma foldl_max_bounds {A} (f : A → Z) l z :
  z ≤ foldl (λ r a, Z.max r (f a)) z l ∧ (∀ a, a ∈ l → f a ≤ foldl (λ r a, Z.max r (f a)) z l) ∧
  (foldl (λ r a, Z.max r (f a)) z l = z ∨ ∃ a, a ∈ l ∧ foldl (λ r a, Z.max r (f a)) z l = f a).
Proof.
  revert z. induction l as [|b l IH]; intros z; cbn.
  { split_and!; [lia|set_solver|by left]. }
  destruct (IH (Z.max z (f b))) as (H1 & H2 & H3). split_and!; [lia| |].
  - intros a [->|Ha]%elem_of_cons; [lia|]. by apply H2.
  - destruct H3 as [H3|(a & Ha & H3)]; [|right; exists a; split; [by right|done]].
    destruct (Z.max_spec z (f b)) as [[? E]|[? E]]; rewrite E in H3 |- *.
    + right. exists b. split; [by left|done].
    + by left.
Qed.

(** ** Properties *)

(** C27: the traversal terminates with the fuel of the model and finds exactly
    the systems of the declared nodes that at most [maxDepth] edges (three when
    it is not positive), taken in either direction, join to an affected node; its
    criticality is that of the most critical of them. *)
Theorem traverseGraph_correct fragment maxDepth :
  let systems := fr_Systems (traverseGraph fragment maxDepth) in
  (∃ w, walk (walk_fuel (fr_Affected fragment) (fr_Edges fragment)) (adjacency_of (fr_Edges fragment))
          (effective_depth maxDepth) (initial_walk (fr_Affected fragment)) = Some w) ∧
  (∀ s, s ∈ systems ↔ ∃ id, nodes_of fragment !! id = Some s ∧
     within (fr_Affected fragment) (fr_Edges fragment) (effective_depth maxDepth) id) ∧
  (∀ s, s ∈ systems → criticalityRank (sys_Criticality s) ≤
     criticalityRank (fr_Criticality (traverseGraph fragment maxDepth))) ∧
  (fr_Criticality (traverseGraph fragment maxDepth) = "" ∨
   ∃ s, s ∈ systems ∧ sys_Criticality s = fr_Criticality (traverseGraph fragment maxDepth)).
Proof.
  cbn zeta. assert (0 ≤ effective_depth maxDepth) as Hmax.
  { unfold effective_depth. destruct (maxDepth <=? 0) eqn:E; bool_props; lia. }
  pose proof (bfs_init (fr_Affected fragment) (fr_Edges fragment) (effective_depth maxDepth) Hmax) as Hi.
  destruct (walk_correct (fr_Affected fragment) (fr_Edges fragment) (effective_depth maxDepth) Hmax
    (walk_fuel (fr_Affected fragment) (fr_Edges fragment)) _ Hi) as (w & Hw & Hinv & Hq).
  { unfold remaining, walk_fuel. cbn.
    pose proof (size_difference_list (endpoints (fr_Edges fragment)) (list_to_set (fr_Affected fragment))).
    lia. }
  unfold traverseGraph. rewrite Hw. cbn [fr_Systems fr_Criticality]. split_and!.
  - by exists w.
  - intros s. rewrite list_elem_of_omap. split.
    + intros (id & Hid & Hs). exists id. split; [done|]. by apply (bfs_complete (fr_Affected fragment) (fr_Edges fragment) _ Hmax w).
    + intros (id & Hs & Hid). exists id. split; [|done]. by apply (bfs_complete (fr_Affected fragment) (fr_Edges fragment) _ Hmax w).
  - intros s Hs. rewrite raise_criticality_rank.
    by apply (foldl_max_bounds (λ s, criticalityRank (sys_Criticality s))).
  - generalize (omap (nodes_of fragment !!.) (order w)) as l. intros l.
    induction l as [|a l IH] using rev_ind; [by left|]. rewrite foldl_app. cbn.
    unfold raise_criticality at 1 3. destruct (_ <? _).
    + right. exists a. set_solver.
    + destruct IH as [?|(s & ? & ?)]; [by left|right; exists s; set_solver].
Qed.

Lemma indexSystems_keyed index systems :
  (∀ k s, index !! k = Some s → sys_Name s = k) →
  ∀ k s, indexSystems index systems !! k = Some s → sys_Name s = k.
Proof.
  unfold indexSystems. revert index. induction systems as [|s systems IH]; intros index Hi; [done|].
  cbn. apply IH. intros k s' [[<- <-]|[_ H]]%lookup_insert_Some; [done|by apply Hi].
Qed.

Lemma indexOwners_keyed index owners :
  (∀ k o, index !! k = Some o → ob_Team o = k) →
  ∀ k o, indexOwners index owners !! k = Some o → ob_Team o = k.
Proof.
  unfold indexOwners. revert index. induction owners as [|o owners IH]; intros index Hi; [done|].
  cbn. apply IH. intros k o' [[<- <-]|[_ H]]%lookup_insert_Some; [done|by apply Hi].
Qed.

Lemma promoteCriticality_rank a b :
  criticalityRank (promoteCriticality a b) = Z.max (criticalityRank a) (criticalityRank b).
Proof. unfold promoteCriticality. destruct (Z.ltb_spec (criticalityRank a) (criticalityRank b)); lia. Qed.

(** What one source leaves in the state of the resolver. *)
Definition gathered_ok (g : Gathered) : Prop :=
  (∀ k s, g_services g !! k = Some s → sys_Name s = k) ∧
  (∀ k o, g_owners g !! k = Some o → ob_Team o = k) ∧
  criticalityRank CriticalityNormal ≤ criticalityRank (g_criticality g).

Lemma gather_ok input g source g' : gathered_ok g → gather input g source = Ok g' → gathered_ok g'.
Proof.
  intros (Hs & Ho & Hc) (fragment & _ & Hg)%bind_ok. injection Hg as <-.
  destruct (_ && _); cbn; split_and!;
    try (by apply indexSystems_keyed); try (by apply indexOwners_keyed);
    cbn [g_criticality]; rewrite !promoteCriticality_rank; lia.
Qed.

(** The systems a fragment contributes: those the traversal reaches when it has
    edges and affected nodes, and all it lists otherwise. *)
Definition contributed (input : ResolutionInput) (fragment : Fragment) : list SystemRef :=
  if nonempty (fr_Edges fragment) && nonempty (fr_Affected fragment)
  then fr_Systems (traverseGraph fragment (MaxTraversalDepth (res_Options input)))
  else fr_Systems fragment.

Lemma indexSystems_key index systems k :
  is_Some (indexSystems index systems !! k) ↔ is_Some (index !! k) ∨ k ∈ sys_Name <$> systems.
Proof.
  unfold indexSystems. induction systems as [|s systems IH] using rev_ind; [cbn; set_solver|].
  rewrite foldl_app, fmap_app, elem_of_app. cbn. rewrite list_elem_of_singleton.
  destruct (decide (sys_Name s = k)) as [<-|].
  - rewrite lookup_insert_eq. split; [tauto|by eexists].
  - rewrite lookup_insert_ne by done. rewrite IH. split; [tauto|]. intros [?|[?|?]]; try tauto; congruence.
Qed.

Lemma gather_services input g source g' :
  gather input g source = Ok g' →
  ∃ fragment, Collect source input = Ok fragment ∧
    ∀ k, is_Some (g_services g' !! k) ↔ is_Some (g_services g !! k) ∨ k ∈ sys_Name <$> contributed input fragment.
Proof.
  intros (f & Hf & Hg)%bind_ok. injection Hg as <-. exists f. split; [done|]. intros k.
  unfold contributed. destruct (_ && _); cbn [g_services]; apply indexSystems_key.
Qed.

(** Without a graph manifest, no source of the resolver fails. *)
Lemma ResolveImpact_total `{MapOrder, Parsers, GraphDecoder} options input :
  GraphManifestPath options = "" → ∃ r, ResolveImpact (NewResolver options) input = Ok r.
Proof.
  intros Hpath. unfold ResolveImpact.
  destruct (foldM_total (gather input) (mkGathered ∅ ∅ (ri_Criticality defaultImpact) (ri_Notes defaultImpact))
    (NewResolver options)) as [g ->]; [|by eexists].
  intros g source Hin. unfold gather.
  assert (∃ f, Collect source input = Ok f) as [f ->]; [|by eexists].
  unfold NewResolver in Hin. rewrite decide_True in Hin by done.
  assert (source = mkSource "repository-topology" repositoryTopology_Collect ∨
          source = mkSource "manifest-source" manifest_Collect ∨
          source = mkSource "codeowners-source" codeOwners_Collect) as [->|[->| ->]]
    by (destruct (EnableCodeOwners options); set_solver); cbn.
  - unfold repositoryTopology_Collect. destruct (foldl _ _ _). by eexists.
  - by eexists.
  - unfold codeOwners_Collect. repeat case_match; by eexists.
Qed.

(** Of the packet, the sources read the files. *)
Lemma ResolveImpact_ext `{MapOrder, Parsers, GraphDecoder} options p q ref loader given :
  cp_Files p = cp_Files q →
  ResolveImpact (NewResolver options) (mkResolutionInput p ref loader given) =
  ResolveImpact (NewResolver options) (mkResolutionInput q ref loader given).
Proof.
  intros Hf. unfold ResolveImpact. f_equal. set (i1 := mkResolutionInput p _ _ _). set (i2 := mkResolutionInput q _ _ _).
  assert (∀ source, source ∈ NewResolver options → Collect source i1 = Collect source i2) as Hc.
  { intros source Hin. unfold NewResolver in Hin.
    assert (source = mkSource "repository-topology" repositoryTopology_Collect ∨
            source = mkSource "manifest-source" manifest_Collect ∨
            source = mkSource "graph-manifest-source" graphManifest_Collect ∨
            source = mkSource "codeowners-source" codeOwners_Collect) as [->|[->|[->| ->]]]
      by (destruct (EnableCodeOwners options), (decide (GraphManifestPath options = "")); set_solver);
      cbn [Collect]; subst i1 i2.
    - unfold repositoryTopology_Collect. cbn [res_Packet]. by rewrite Hf.
    - unfold manifest_Collect. cbn [res_Packet]. by rewrite Hf.
    - unfold graphManifest_Collect, graph_step. cbn [res_Packet res_Options res_Loader]. by rewrite Hf.
    - unfold codeOwners_Collect. cbn [res_Packet res_Loader]. by rewrite Hf. }
  set (g := mkGathered _ _ _ _). clearbody g. revert g Hc. induction (NewResolver options) as [|source l IH]; intros g Hc; [done|].
  cbn [foldM]. assert (gather i1 g source = gather i2 g source) as -> by (unfold gather; by rewrite Hc by left).
  destruct (gather i2 g source); [|done]. apply IH. intros. apply Hc. by right.
Qed.

(** A resolved impact names every system and every owner once, and its
    systems are, by name, those that some source contributes; its blast
    radius counts the systems (unknown, isolated, localized for none, one, more);
    its criticality is at least normal; and it always carries a note. *)
Theorem resolve_impact_well_formed `{MapOrder} sources input impact owners
    (Hok : ResolveImpact sources input = Ok (impact, owners)) :
  NoDup (sys_Name <$> ri_Services impact) ∧
  (∀ k, k ∈ sys_Name <$> ri_Services impact ↔ ∃ source fragment,
     source ∈ sources ∧ Collect source input = Ok fragment ∧ k ∈ sys_Name <$> contributed input fragment) ∧
  NoDup (ob_Team <$> owners) ∧
  ri_BlastRadius impact =
    match ri_Services impact with
    | [] => BlastRadiusUnknown
    | [_] => BlastRadiusIsolated
    | _ => BlastRadiusLocalized
    end ∧
  criticalityRank CriticalityNormal ≤ criticalityRank (ri_Criticality impact) ∧
  ri_Notes impact ≠ [].
Proof.
  unfold ResolveImpact in Hok. apply bind_ok in Hok as (g & Hg & [= <- <-]).
  assert (gathered_ok g) as (Hs & Ho & Hc).
  { apply (foldM_ind _ (λ _ g, gathered_ok g) _ _ _ Hg).
    - unfold gathered_ok. cbn [g_services g_owners g_criticality]. split_and!; [| |done].
      + intros k s. by rewrite lookup_empty.
      + intros k o. by rewrite lookup_empty.
    - intros _ a g1 g2. apply gather_ok. }
  assert (∀ {A} (key : A → string) (m : gmap string A), (∀ k a, m !! k = Some a → key a = k) →
    key <$> (map_range m).*2 = (map_range m).*1) as Hkeys.
  { intros A key m Hm. rewrite <- list_fmap_compose. apply list_fmap_ext. intros i [k a] Hi. cbn.
    apply Hm, elem_of_map_range, list_elem_of_lookup. eauto. }
  assert (∀ k, is_Some (g_services g !! k) ↔ ∃ source fragment, source ∈ sources ∧
    Collect source input = Ok fragment ∧ k ∈ sys_Name <$> contributed input fragment) as Hsys.
  { apply (foldM_ind _ (λ l g, ∀ k, is_Some (g_services g !! k) ↔ ∃ source fragment, source ∈ l ∧
      Collect source input = Ok fragment ∧ k ∈ sys_Name <$> contributed input fragment) _ _ _ Hg).
    - intros k. cbn [g_services]. rewrite lookup_empty. split; [by intros [? ?]|].
      intros (? & ? & ? & _). set_solver.
    - intros l a g1 g2 H1 (f & Hf & H2)%gather_services k. rewrite H2, H1. split.
      + intros [(so & fr & ? & ? & ?)|?]; [exists so, fr|exists a, f]; set_solver.
      + intros (so & fr & [Hin|Hin%list_elem_of_singleton]%elem_of_app & Hc' & Hk); [left; eauto|].
        subst so. right. congruence. }
  cbn [ri_Services ri_BlastRadius ri_Criticality ri_Notes]. split_and!.
  - unfold materializeSystems. rewrite Hkeys by done. apply NoDup_map_range.
  - intros k. unfold materializeSystems. rewrite Hkeys, <- Hsys by done. rewrite list_elem_of_fmap. split.
    + intros ([k' sy] & -> & Hk%elem_of_map_range). eauto.
    + intros [sy Hk]. exists (k, sy). by rewrite elem_of_map_range.
  - unfold materializeOwners. rewrite Hkeys by done. apply NoDup_map_range.
  - unfold deriveBlastRadius, materializeSystems. rewrite <- length_map_range.
    by destruct (map_range (g_services g)) as [|? [|? ?]].
  - done.
  - by destruct (g_notes g).
Qed.

(** The graph manifest that a resolver is configured with is read only when
    the input of the resolution names it too: with an input that carries no
    manifest path, as the ones the ingest service and the scanner build, the
    resolver gives what it would give without a manifest. *)
Theorem graph_manifest_needs_input_options `{MapOrder, Parsers, GraphDecoder} options input
    (Hinput : GraphManifestPath (res_Options input) = "") :
  ResolveImpact (NewResolver options) input =
  ResolveImpact (NewResolver (mkOptions (EnableCodeOwners options) "" (MaxTraversalDepth options))) input.
Proof.
  unfold NewResolver. cbn [GraphManifestPath EnableCodeOwners]. case_decide; [done|].
  rewrite decide_True by done. unfold ResolveImpact. f_equal.
  assert (∀ g, gather input g (mkSource "graph-manifest-source" graphManifest_Collect) = Ok g) as Hg.
  { intros g. unfold gather. cbn. unfold graphManifest_Collect. rewrite decide_True by done. cbn.
    destruct g as [sv ow c nt]. cbn. rewrite !app_nil_r. unfold promoteCriticality.
    destruct (Z.ltb_spec (criticalityRank c) (criticalityRank "")) as [Hlt|]; [|done].
    exfalso. revert Hlt. unfold criticalityRank. repeat case_decide; lia || done. }
  rewrite !foldM_app. destruct (foldM _ _ [_; _]) as [g|]; [|done]. cbn [mbind result_bind].
  cbn [app foldM]. by rewrite Hg.
Qed.

(** ** Witnesses *)

#[local] Existing Instance map_order_sorted.

Definition no_documents : Parsers := {| yaml_Unmarshal _ := None; parser_ParseFile _ _ := None |}.

(** A chain [api -> db -> backup -> vault -> audit] whose first node owns
    [api/]. *)
Definition chain : graphManifest :=
  let node id paths := mkGraphManifestNode id id "service" "team" CriticalityHigh paths in
  let edge a b := mkEdge a b "calls" false true ∅ in
  mkGraphManifest
    [node "api" ["api/**"]; node "db" []; node "backup" []; node "vault" []; node "audit" []]
    [edge "api" "db"; edge "db" "backup"; edge "backup" "vault"; edge "vault" "audit"].

Definition chain_decoder : GraphDecoder := {| yaml_graph _ := Ok chain |}.
#[local] Existing Instance no_documents.
#[local] Existing Instance chain_decoder.

Definition chain_input (path : string) (maxDepth : Z) : ResolutionInput :=
  mkResolutionInput
    (cp_with_Files [mkChangedFile "api/main.go" "" "" FileModified 1 0 1 ""] zeroChangePacket) ""
    (Some (λ p, if decide (p = "graph.yaml") then Ok "nodes" else Err "not found"))
    (mkOptions false path maxDepth).

Definition chain_sources : list Source := NewResolver (mkOptions false "graph.yaml" 0).

Definition resolved (sources : list Source) (input : ResolutionInput) : RuntimeImpact * list OwnershipBoundary :=
  match ResolveImpact sources input with Ok r => r | Err _ => (defaultImpact, []) end.

(** Three edges by default: the fifth node is out of reach. *)
Example chain_depth_three :
  sys_Name <$> fr_Systems (traverseGraph
    (match graphManifest_Collect (chain_input "graph.yaml" 0) with Ok f => f | Err _ => zeroFragment end) 0) =
  ["api"; "db"; "backup"; "vault"].
Proof. by vm_compute. Qed.

Lemma resolve_impact_well_formed_witness :
  NoDup (sys_Name <$> ri_Services (resolved chain_sources (chain_input "graph.yaml" 2)).1).
Proof.
  assert (ResolveImpact chain_sources (chain_input "graph.yaml" 2) =
          Ok (resolved chain_sources (chain_input "graph.yaml" 2))) as H by (vm_compute; reflexivity).
  destruct (resolved chain_sources (chain_input "graph.yaml" 2)) as [impact owners].
  exact (proj1 (resolve_impact_well_formed _ _ _ _ H)).
Defined.

Lemma graph_manifest_needs_input_options_witness :
  ResolveImpact chain_sources (chain_input "" 2) =
  ResolveImpact (NewResolver (mkOptions false "" 0)) (chain_input "" 2).
Proof. exact (graph_manifest_needs_input_options (mkOptions false "graph.yaml" 0) (chain_input "" 2) eq_refl). Defined.
