(* ===== verification/Scan.v ===== *)
(** [internal/scan/scan.go]: the offline pipeline from a unified diff to a
    Change Packet with its merge lane. *)
From stdpp Require Import base list gmap strings.
From S2P Require Import Prelude GoStrings GoPath Domain Identity Documents Lanes ConflictRisk.
From S2P Require Diff Risk PolicyValidation Policy Mutations Analyzers RuntimeGraph.

Local Open Scope string_scope.
Local Open Scope list_scope.
Local Open Scope Z_scope.

(** ** Definitions *)

Definition languageFromPath (path : string) : string :=
  let ext := ToLower (Ext path) in
  if decide (ext = ".go") then "go"
  else if decide (ext = ".sql") then "sql"
  else if decide (ext = ".yaml" ∨ ext = ".yml") then "yaml"
  else if decide (ext = ".proto") then "proto"
  else "unknown".

Definition mapChangedFile (file : Diff.File) : ChangedFile := {|
  file_Path := Diff.f_Path file;
  file_PreviousPath := Diff.f_PreviousPath file;
  file_Language := languageFromPath (Diff.f_Path file);
  file_Status := Diff.f_Status file;
  file_Additions := Diff.f_Additions file;
  file_Deletions := Diff.f_Deletions file;
  file_Changes := Diff.f_Additions file + Diff.f_Deletions file;
  file_Patch := Diff.f_Patch file |}.

Definition mapChangedFiles (files : list Diff.File) : list ChangedFile := mapChangedFile <$> files.

Record Options := mkOptions {
  opt_Diff : string;
  opt_RepoRoot : string;
  opt_Repo : RepoRef;
  opt_Ref : string;
  opt_BaseSHA : string;
  opt_CurrentBaseSHA : string;
  opt_Title : string;
  opt_Author : Author;
  opt_Policy : PolicyValidation.Config;
  opt_Lanes : LanesConfig;
  opt_EnableCodeOwners : bool;
}.

(** The file system under a root, and the clock: [os.ReadFile] of the joined
    path, and the time of the n-th reading. *)
Class Environment := {
  os_ReadFile : string → string → option string;
  Now : nat → Time;
}.

Definition fs_Load `{Environment} (root path : string) : result string string :=
  if decide (root = "") then Ok ""
  else Ok (default "" (os_ReadFile root path)).

Inductive ScanError :=
  | ClassifyMutations (err : string)
  | ResolveRuntimeImpact (err : string)
  | EvaluatePolicy (err : PolicyValidation.PolicyError).

Definition initial_packet (id : string) (opts : Options) (files : list Diff.File) (now : Time) : ChangePacket := {|
  cp_ID := id; cp_Repo := opt_Repo opts;
  cp_PR := mkPullRequestRef 0 "" (opt_Ref opts) (opt_BaseSHA opts);
  cp_Author_ := opt_Author opts; cp_Title := opt_Title opts; cp_Summary := ""; cp_Source := "cli.scan";
  cp_Files := mapChangedFiles files; cp_Mutations := []; cp_Risks := []; cp_RiskSummary_ := zeroRiskSummary;
  cp_Conflict := zeroConflictAssessment; cp_Evidence := []; cp_Runtime := zeroRuntimeImpact;
  cp_Ownership := []; cp_Reviewers := [];
  cp_Deployment := mkDeploymentRequirement DeployDirect [] false false "" [];
  cp_MergeLane_ := MergeLaneYellow; cp_Decision := pd_with_Status DecisionPending zeroPolicyDecision;
  cp_Metadata := if decide (opt_CurrentBaseSHA opts = "") then ∅
                 else {["current_base_sha" := opt_CurrentBaseSHA opts]};
  cp_CreatedAt := now; cp_UpdatedAt := now |}.

(** [packet.Decision = evaluation.Decision] and the three fields after it. *)
Definition with_evaluation (e : Policy.Evaluation) (packet : ChangePacket) : ChangePacket :=
  cp_with_Deployment (Policy.ev_Deployment e) (cp_with_Reviewers (Policy.ev_Reviewers e)
    (cp_with_Evidence (Policy.ev_Evidence e) (cp_with_Decision (Policy.ev_Decision e) packet))).

Section run.
Context `{Entropy, Mutations.SliceGrowth, MapOrder, Parsers, RuntimeGraph.GraphDecoder, Environment}.

(** The clock is read three times: when the packet is built, when the policy is
    decided, and at the end. *)
Definition Run (opts : Options) : result ScanError ChangePacket :=
  let parsed := Diff.ParseUnified (opt_Diff opts) in
  let packet := initial_packet (New "cp" 0) opts parsed (Now 0) in
  let loader := fs_Load (opt_RepoRoot opts) in
  mn ← map_err ClassifyMutations
         (Mutations.Classify Analyzers.DefaultEngine
            (Mutations.mkAnalysisRequest (cp_Repo packet) (opt_Ref opts) (cp_Files packet) (Some loader)) 1);
  let packet := cp_with_Mutations (fst mn) packet in
  let packet := cp_with_Conflict (Analyze packet) packet in
  io ← map_err ResolveRuntimeImpact
         (RuntimeGraph.ResolveImpact
            (RuntimeGraph.NewResolver (RuntimeGraph.mkOptions (opt_EnableCodeOwners opts) "" 0))
            (RuntimeGraph.mkResolutionInput packet (opt_Ref opts) (Some loader)
               (RuntimeGraph.mkOptions false "" 0)));
  let packet := cp_with_Ownership (snd io) (cp_with_Runtime (fst io) packet) in
  let '(riskSummary, risks) := Risk.Evaluate Risk.defaultWeights packet in
  let packet := cp_with_Risks risks (cp_with_RiskSummary_ riskSummary packet) in
  evaluation ← map_err EvaluatePolicy (Policy.Evaluate (opt_Policy opts) (Now 1) packet);
  let packet := with_evaluation evaluation packet in
  let packet := cp_with_MergeLane_ (Assign (opt_Lanes opts) packet) packet in
  Ok (cp_with_UpdatedAt (Now 2) packet).
End run.

(** ** Lemmas *)

Section runs.
Context `{HE : Entropy, HG : Mutations.SliceGrowth, HM : MapOrder, HP : Parsers,
          HD : RuntimeGraph.GraphDecoder, HV : Environment}.

Lemma Classify_default_total request k : ∃ r, Mutations.Classify Analyzers.DefaultEngine request k = Ok r.
Proof.
  unfold Mutations.Classify.
  destruct (foldM_total (Mutations.file_step Analyzers.DefaultEngine request)
    (Mutations.mkCState ∅ [] k) (Mutations.rq_Files request)) as [s ->]; [|by eexists].
  intros. apply Analyzers.file_step_total.
Qed.

(** What the engines read of a packet. *)
Lemma Analyze_ext p q :
  cp_PR p = cp_PR q → cp_Metadata p = cp_Metadata q → cp_Files p = cp_Files q → Analyze p = Analyze q.
Proof. intros H1 H2 H3. unfold Analyze, initial_assessment. by rewrite H1, H2, H3. Qed.

Lemma Risk_Evaluate_ext weights p q :
  cp_Mutations p = cp_Mutations q → cp_Conflict p = cp_Conflict q →
  cp_Runtime p = cp_Runtime q → cp_Files p = cp_Files q →
  Risk.Evaluate weights p = Risk.Evaluate weights q.
Proof. intros H1 H2 H3 H4. unfold Risk.Evaluate. by rewrite H1, H2, H3, H4. Qed.

Lemma matchesRule_ext rule p q :
  cp_Mutations p = cp_Mutations q → cp_Files p = cp_Files q → cp_Runtime p = cp_Runtime q →
  cp_RiskSummary_ p = cp_RiskSummary_ q → cp_Ownership p = cp_Ownership q →
  Policy.matchesRule rule p = Policy.matchesRule rule q.
Proof.
  intros H1 H2 H3 H4 H5. unfold Policy.matchesRule, Policy.packetHasAnyMutation,
    Policy.packetTouchesAnyPath, Policy.packetTouchesOwners. by rewrite H1, H2, H3, H4, H5.
Qed.

Lemma Policy_Evaluate_ext config now p q :
  cp_Mutations p = cp_Mutations q → cp_Files p = cp_Files q → cp_Runtime p = cp_Runtime q →
  cp_RiskSummary_ p = cp_RiskSummary_ q → cp_Ownership p = cp_Ownership q →
  Policy.Evaluate config now p = Policy.Evaluate config now q.
Proof.
  intros H1 H2 H3 H4 H5. unfold Policy.Evaluate. f_equal.
  enough (∀ e rules, foldl (Policy.evaluate_step p) e rules = foldl (Policy.evaluate_step q) e rules) as ->; [done|].
  intros e rules. revert e. induction rules as [|r rules IH]; intros e; [done|]. cbn. rewrite IH. f_equal.
  unfold Policy.evaluate_step. by rewrite (matchesRule_ext r p q).
Qed.

(** The packet the policy engine sees, and what the stages before it left. *)
Lemma Run_inv opts p :
  Run opts = Ok p →
  ∃ q e,
    cp_Files q = mapChangedFiles (Diff.ParseUnified (opt_Diff opts)) ∧
    (∃ n, Mutations.Classify Analyzers.DefaultEngine
       (Mutations.mkAnalysisRequest (cp_Repo q) (pr_HeadSHA (cp_PR q)) (cp_Files q) (Some (fs_Load (opt_RepoRoot opts)))) 1 =
       Ok (cp_Mutations q, n)) ∧
    RuntimeGraph.ResolveImpact (RuntimeGraph.NewResolver (RuntimeGraph.mkOptions (opt_EnableCodeOwners opts) "" 0))
      (RuntimeGraph.mkResolutionInput q (pr_HeadSHA (cp_PR q)) (Some (fs_Load (opt_RepoRoot opts))) (RuntimeGraph.mkOptions false "" 0)) =
      Ok (cp_Runtime q, cp_Ownership q) ∧
    Analyze q = cp_Conflict q ∧
    Risk.Evaluate Risk.defaultWeights q = (cp_RiskSummary_ q, cp_Risks q) ∧
    Policy.Evaluate (opt_Policy opts) (Now 1) q = Ok e ∧
    p = cp_with_UpdatedAt (Now 2)
          (cp_with_MergeLane_ (Assign (opt_Lanes opts) (with_evaluation e q)) (with_evaluation e q)).
Proof.
  unfold Run. cbn zeta. intros ([ms n] & Hm%map_err_ok & H)%bind_ok. cbn [fst snd] in H.
  apply bind_ok in H as ([impact owners] & Hi%map_err_ok & H). cbn [fst snd] in H.
  destruct (Risk.Evaluate _ _) as [summary risks] eqn:Er.
  apply bind_ok in H as (e & He%map_err_ok & [= <-]).
  match type of He with Policy.Evaluate _ _ ?q = _ => exists q, e end.
  split_and!; [done|by exists n|etransitivity; [|exact Hi]; by apply RuntimeGraph.ResolveImpact_ext|by apply Analyze_ext| |done|done].
  cbn [cp_RiskSummary_ cp_Risks cp_with_Risks cp_with_RiskSummary_]. rewrite <- Er. by apply Risk_Evaluate_ext.
Qed.

(** Storing the evaluation, the lane and the time again changes nothing. *)
Lemma with_evaluation_again e t lane q :
  let p := cp_with_UpdatedAt t (cp_with_MergeLane_ lane (with_evaluation e q)) in with_evaluation e p = p.
Proof. done. Qed.

(** The stages before the policy do not read what it leaves. *)
Lemma Assign_ext config p q :
  cp_Decision p = cp_Decision q → cp_Conflict p = cp_Conflict q → cp_RiskSummary_ p = cp_RiskSummary_ q →
  cp_Reviewers p = cp_Reviewers q → cp_Deployment p = cp_Deployment q → Assign config p = Assign config q.
Proof.
  intros H1 H2 H3 H4 H5. unfold Assign, forcedLane, requiresEscalatedReview. by rewrite H1, H2, H3, H4, H5.
Qed.

(** A scan succeeds exactly when the policy is well-formed. *)
Lemma Run_succeeds opts :
  (∃ p, Run opts = Ok p) ↔ PolicyValidation.well_formed (opt_Policy opts).
Proof.
  split.
  - intros [p (q & e & _ & _ & _ & _ & _ & He & _)%Run_inv].
    by apply Policy.Evaluate_inv in He as [? _].
  - intros Hwf. unfold Run. cbn zeta.
    match goal with |- context [Mutations.Classify ?en ?rq ?k] =>
      destruct (Classify_default_total rq k) as [[ms n] ->] end. cbn [mbind result_bind map_err].
    match goal with |- context [RuntimeGraph.ResolveImpact (RuntimeGraph.NewResolver ?o) ?i] =>
      destruct (RuntimeGraph.ResolveImpact_total o i) as [[impact owners] ->]; [done|] end.
    cbn [mbind result_bind map_err fst snd].
    destruct (Risk.Evaluate _ _) as [summary risks].
    match goal with |- context [Policy.Evaluate ?c ?t ?q] =>
      assert (∃ e, Policy.Evaluate c t q = Ok e) as [e ->] end; [|by eexists].
    eexists. by apply Policy.Evaluate_inv.
Qed.

(** ** Properties *)

(** A scan fails only for an invalid policy: with a well-formed one every
    diff, however malformed, and every repository content yields a packet. *)
Theorem run_total opts :
  (∃ p, Run opts = Ok p) ↔ PolicyValidation.well_formed (opt_Policy opts).
Proof. apply Run_succeeds. Qed.

(** C16: a scanned packet is consistent with itself: run again on the packet a
    scan returns, the mutation engine, the runtime resolver, the conflict analysis,
    the risk engine, the policy engine and the lane assigner give the very fields it
    carries, and its files are those of the diff. *)
Theorem run_consistent opts p (Hrun : Run opts = Ok p) :
  cp_Files p = mapChangedFiles (Diff.ParseUnified (opt_Diff opts)) ∧
  (∃ n, Mutations.Classify Analyzers.DefaultEngine
     (Mutations.mkAnalysisRequest (cp_Repo p) (pr_HeadSHA (cp_PR p)) (cp_Files p) (Some (fs_Load (opt_RepoRoot opts)))) 1 =
     Ok (cp_Mutations p, n)) ∧
  RuntimeGraph.ResolveImpact (RuntimeGraph.NewResolver (RuntimeGraph.mkOptions (opt_EnableCodeOwners opts) "" 0))
    (RuntimeGraph.mkResolutionInput p (pr_HeadSHA (cp_PR p)) (Some (fs_Load (opt_RepoRoot opts)))
       (RuntimeGraph.mkOptions false "" 0)) =
    Ok (cp_Runtime p, cp_Ownership p) ∧
  Analyze p = cp_Conflict p ∧
  Risk.Evaluate Risk.defaultWeights p = (cp_RiskSummary_ p, cp_Risks p) ∧
  (∃ e, Policy.Evaluate (opt_Policy opts) (Now 1) p = Ok e ∧ with_evaluation e p = p) ∧
  Assign (opt_Lanes opts) p = cp_MergeLane_ p.
Proof.
  apply Run_inv in Hrun as (q & e & Hf & Hm & Hi & Ha & Hr & He & ->). split_and!.
  - done.
  - exact Hm.
  - etransitivity; [|exact Hi]. by apply RuntimeGraph.ResolveImpact_ext.
  - etransitivity; [|exact Ha]. by apply Analyze_ext.
  - etransitivity; [|exact Hr]. by apply Risk_Evaluate_ext.
  - exists e. split; [|apply with_evaluation_again]. rewrite <- He. by apply Policy_Evaluate_ext.
  - by apply Assign_ext.
Qed.

(** A diff with conflict markers never gets past BLACK: whatever the policy,
    the thresholds and the risk, a file of the diff with a usable path and
    unresolved markers puts the packet in the BLACK lane. *)
Theorem run_markers_black opts p file (Hrun : Run opts = Ok p)
    (Hfile : file ∈ Diff.ParseUnified (opt_Diff opts))
    (Hpath : normalizedPath (Diff.f_Path file) ≠ "")
    (Hmarkers : hasConflictMarkers (Diff.f_Patch file) = true) :
  cp_MergeLane_ p = MergeLaneBlack.
Proof.
  apply Run_inv in Hrun as (q & e & Hf & _ & _ & Ha & _ & _ & ->).
  cbn [cp_MergeLane_ cp_with_UpdatedAt cp_with_MergeLane_].
  assert (ca_RequiresHumanResolution (cp_Conflict q) = true) as Hh.
  { rewrite <- Ha, Analyze_human. unfold has_marker_file. apply existsb_elem.
    exists (mapChangedFile file). rewrite Hf. split.
    - unfold mapChangedFiles. apply list_elem_of_fmap. eauto.
    - unfold counted. cbn. by rewrite bool_decide_eq_true_2, Hmarkers. }
  unfold Assign, forcedLane.
  change (cp_Conflict (with_evaluation e q)) with (cp_Conflict q). by rewrite Hh, orb_true_r.
Qed.
End runs.

(** ** Witnesses *)

#[local] Existing Instance counting_entropy.
#[local] Existing Instance Mutations.doubling.
#[local] Existing Instance map_order_sorted.
#[local] Existing Instance RuntimeGraph.no_documents.
#[local] Existing Instance RuntimeGraph.chain_decoder.

Definition empty_checkout : Environment := {| os_ReadFile _ _ := None; Now n := Z.of_nat n |}.
#[local] Existing Instance empty_checkout.

Definition conflicted_diff : string :=
  Join newline ["diff --git a/api.go b/api.go"; "+<<<<<<< ours"; "+a"; "+======="; "+b"; "+>>>>>>> theirs"].

Definition conflicted : Options :=
  mkOptions conflicted_diff "" zeroRepoRef "" "" "" "" zeroAuthor (PolicyValidation.mkConfig [])
    (mkLanesConfig 20 45 75) false.

Definition scanned (opts : Options) : ChangePacket :=
  match Run opts with Ok p => p | Err _ => zeroChangePacket end.

Lemma conflicted_runs : Run conflicted = Ok (scanned conflicted).
Proof. vm_compute. reflexivity. Qed.

Lemma run_consistent_witness :
  Assign (opt_Lanes conflicted) (scanned conflicted) = cp_MergeLane_ (scanned conflicted).
Proof. exact (proj2 (proj2 (proj2 (proj2 (proj2 (proj2 (run_consistent conflicted _ conflicted_runs))))))). Defined.

Lemma run_markers_black_witness :
  cp_MergeLane_ (scanned conflicted) = MergeLaneBlack.
Proof.
  apply (run_markers_black conflicted _ (hd (Diff.mkFile "" "" "" 0 0 "") (Diff.ParseUnified conflicted_diff))
           conflicted_runs).
  - vm_compute. left.
  - by vm_compute.
  - by vm_compute.
Defined.
