(* ===== verification/Events.v ===== *)
(** [internal/events]: the envelope, the in-memory bus and the recording bus. *)
From stdpp Require Import base list gmap strings.
From S2P Require Import Prelude GoStrings Domain Identity.

Local Open Scope string_scope.
Local Open Scope list_scope.
Local Open Scope Z_scope.

(** ** Envelopes *)

Definition EventPROpened : string := "PROpened".
Definition EventChangePacketCreated : string := "ChangePacketCreated".
Definition EventMutationDetected : string := "MutationDetected".
Definition EventRiskAssigned : string := "RiskAssigned".
Definition EventMergeLaneAssigned : string := "MergeLaneAssigned".
Definition EventPolicyViolationDetected : string := "PolicyViolationDetected".

(** The payloads the ingest service publishes.  That of a created packet is the
    pointer to the packet under construction, which later stages go on to change:
    it is known by the packet's identifier. *)
Inductive EventPayload :=
  | PROpenedPayload (repo : string) (prNumber : Z) (action : string)
  | PacketPointer (id : string)
  | MutationsPayload (mutations : list Mutation)
  | RisksPayload (risks : list Risk)
  | ViolationsPayload (violations : list PolicyViolation)
  | LanePayload (changePacketId : string) (lane : MergeLane).

Record Envelope := mkEnvelope {
  env_ID : string;
  env_Type : string;
  env_Source : string;
  env_CorrelationID : string;
  env_CausationID : string;
  env_ChangePacketID : string;
  env_Metadata : gmap string string;
  env_Payload : EventPayload;
}.

(** [n] is the number of the identifier drawn. *)
Definition NewEnvelope `{Entropy} (n : nat) (kind source : string) (payload : EventPayload) : Envelope :=
  mkEnvelope (New "evt" n) kind source "" "" "" ∅ payload.

(** ** The memory bus

    Handlers act on the rest of the program, whose state is [W]; the bus itself
    is read-locked while they run, so they see it unchanged. *)
Section bus.
Context {W : Type}.

Inductive BusError := BusClosed | HandlerFailed (err : string).

Definition Handler : Type := Envelope → stateE W string ().

Record MemoryBus := mkMemoryBus {
  closed : bool;
  handlers : gmap string (list Handler);
}.

Definition NewMemoryBus : MemoryBus := mkMemoryBus false ∅.

Fixpoint run_handlers (hs : list Handler) (event : Envelope) : stateE W BusError () :=
  match hs with
  | [] => mret ()
  | handler :: hs' => wrapE HandlerFailed (handler event) ;; run_handlers hs' event
  end.

Definition bus_Publish (b : MemoryBus) (event : Envelope) : stateE W BusError () :=
  if closed b then throw BusClosed
  else run_handlers (default [] (handlers b !! env_Type event)) event.

Definition Subscribe (kind : string) (handler : Handler) : stateE MemoryBus BusError () := λ b,
  if closed b then (Err BusClosed, b)
  else (Ok (), mkMemoryBus false (<[kind := default [] (handlers b !! kind) ++ [handler]]> (handlers b))).

Definition Close : stateE MemoryBus BusError () := λ b, (Ok (), mkMemoryBus true ∅).

(** ** The recording bus: a published event is stored, unless there is no store
    or the base bus refuses it. *)
Definition recording_Publish {E} (base : Envelope → stateE W E ())
    (store : option (Envelope → stateE W E ())) (event : Envelope) : stateE W E () :=
  base event ;;
  match store with
  | None => mret ()
  | Some SaveEvent => SaveEvent event
  end.
End bus.
Arguments MemoryBus : clear implicits.
Arguments Handler : clear implicits.
