(* ===== verification/Store.v ===== *)
(** [internal/store]: the repository interface, its contract, and the memory
    repository that implements it ([Postgres] has the other one, and [PostgresView]
    its laws). *)
From stdpp Require Import base list gmap strings sorting.
From S2P Require Import Prelude GoStrings Domain Events.

Local Open Scope string_scope.
Local Open Scope list_scope.
Local Open Scope Z_scope.

(** ** The interface *)

Inductive StoreError :=
  | ErrChangePacketNotFound
  | Backend (err : string).

(** The methods of [store.Repository].  [now] is the clock reading of the
    methods that take one. *)
Class Repository (R : Type) := {
  SaveChangePacket : Time → ChangePacket → stateE R StoreError ();
  GetChangePacket : string → stateE R StoreError ChangePacket;
  FindLatestChangePacket : string → Z → string → stateE R StoreError ChangePacket;
  ListChangePackets : Z → stateE R StoreError (list ChangePacket);
  SaveEvent : Envelope → stateE R StoreError ();
  UpsertEvidenceExecution : Time → EvidenceExecution → stateE R StoreError ();
  ListEvidenceExecutions : string → stateE R StoreError (list EvidenceExecution);
  RecordEvidenceUpdate : Time → EvidenceExecution → EvidenceAuditEntry → stateE R StoreError ();
  ListEvidenceAuditEntries : string → Z → stateE R StoreError (list EvidenceAuditEntry);
  SaveDeploymentOutcome : DeploymentOutcome → stateE R StoreError ();
  ListDeploymentOutcomes : Z → stateE R StoreError (list DeploymentOutcome);
}.

(** What a packet is found by: the repository and number of its pull request, and
    the head commit when it is known. *)
Definition Head : Type := string * Z * option string.
Definition head_of (p : ChangePacket) : Head :=
  (repo_FullName (cp_Repo p), pr_Number (cp_PR p), Some (pr_HeadSHA (cp_PR p))).

(** What a repository holds, as its clients understand it. *)
Record View := mkView {
  v_packets : gmap string ChangePacket;
  v_heads : gmap string Head;
  v_executions : gmap string (gmap string EvidenceExecution);
  v_audit : gmap string (list EvidenceAuditEntry);  (** oldest first *)
  v_outcomes : list DeploymentOutcome;  (** oldest first *)
}.

Definition executions_of (v : View) (id : string) : gmap string EvidenceExecution :=
  default ∅ (v_executions v !! id).
Definition audit_of (v : View) (id : string) : list EvidenceAuditEntry := default [] (v_audit v !! id).

(** [limit > 0] truncates. *)
Definition truncated {A} (limit : Z) (l : list A) : list A :=
  if 0 <? limit then take (Z.to_nat limit) l else l.

(** The execution of a requirement when a packet is saved: a known one keeps its
    state, a new one is pending. *)
Definition synced_execution (now : Time) (packet : ChangePacket) (requirement : EvidenceRequirement)
    (current : option EvidenceExecution) : EvidenceExecution :=
  match current with
  | Some e => ee_with_Required (er_Required requirement) (ee_with_Type_ (er_Type_ requirement) e)
  | None => mkEvidenceExecution (cp_ID packet) (er_Name requirement) (er_Type_ requirement) EvidencePending
              (er_Required requirement) "" "" "merger" ∅ now
  end.

Definition sync_step (now : Time) (packet : ChangePacket) (es : gmap string EvidenceExecution)
    (requirement : EvidenceRequirement) : gmap string EvidenceExecution :=
  <[er_Name requirement := synced_execution now packet requirement (es !! er_Name requirement)]> es.

Definition stamped (now : Time) (e : EvidenceExecution) : EvidenceExecution :=
  if decide (ee_UpdatedAt e = 0) then ee_with_UpdatedAt now e else e.

(** The changes of the view that the methods promise. *)
Definition saved_packet (now : Time) (packet : ChangePacket) (head : Head) (v : View) : View :=
  mkView (<[cp_ID packet := packet]> (v_packets v)) (<[cp_ID packet := head]> (v_heads v))
    (<[cp_ID packet := foldl (sync_step now packet) (executions_of v (cp_ID packet)) (cp_Evidence packet)]>
       (v_executions v))
    (v_audit v) (v_outcomes v).

Definition saved_execution (e : EvidenceExecution) (v : View) : View :=
  mkView (v_packets v) (v_heads v)
    (<[ee_ChangePacketID e := <[ee_Name e := e]> (executions_of v (ee_ChangePacketID e))]>
       (v_executions v))
    (v_audit v) (v_outcomes v).

Definition appended_audit (a : EvidenceAuditEntry) (v : View) : View :=
  mkView (v_packets v) (v_heads v) (v_executions v)
    (<[ea_ChangePacketID a := audit_of v (ea_ChangePacketID a) ++ [a]]> (v_audit v)) (v_outcomes v).

Definition appended_outcome (o : DeploymentOutcome) (v : View) : View :=
  mkView (v_packets v) (v_heads v) (v_executions v) (v_audit v) (v_outcomes v ++ [o]).

(** Packets and executions sit under their own identifiers. *)
Definition view_keyed (v : View) : Prop :=
  (∀ id p, v_packets v !! id = Some p → cp_ID p = id) ∧
  (∀ id n e, executions_of v id !! n = Some e → ee_Name e = n).

(** Packets are found by what they say of themselves. *)
Definition view_indexed (v : View) : Prop := ∀ id p, v_packets v !! id = Some p → v_heads v !! id = Some (head_of p).

(** A packet with this identifier is of the same pull request, if there is one. *)
Definition same_pull (head : option Head) (p : ChangePacket) : Prop :=
  match head with
  | Some (repo, number, _) => repo = repo_FullName (cp_Repo p) ∧ number = pr_Number (cp_PR p)
  | None => True
  end.

(** The packets of a pull request at a head commit. *)
Definition is_candidate (repoFullName : string) (prNumber : Z) (headSHA : string) (p : ChangePacket) : Prop :=
  repo_FullName (cp_Repo p) = repoFullName ∧ pr_Number (cp_PR p) = prNumber ∧ pr_HeadSHA (cp_PR p) = headSHA.

(** Times as a repository keeps them. *)
Definition kept_execution (keep : Time → Time) (e : EvidenceExecution) : EvidenceExecution :=
  ee_with_UpdatedAt (keep (ee_UpdatedAt e)) e.
Definition kept_audit (keep : Time → Time) (a : EvidenceAuditEntry) : EvidenceAuditEntry :=
  mkEvidenceAuditEntry (ea_ID a) (ea_ChangePacketID a) (ea_EvidenceName a) (ea_FromStatus a) (ea_ToStatus a) (ea_Actor a)
    (ea_Summary a) (ea_DetailsURL a) (ea_Metadata a) (keep (ea_OccurredAt a)).
Definition kept_outcome (keep : Time → Time) (o : DeploymentOutcome) : DeploymentOutcome :=
  mkDeploymentOutcome (do_ID o) (do_ChangePacketID o) (do_Outcome o) (do_Source o) (do_Lane o) (do_RiskTypes o)
    (keep (do_ObservedAt o)).

(** A write that ended with [res] promises [v1]: it is all or nothing, all when it
    succeeds, and nothing when it fails, unless it is the answer of the backend that
    got lost. *)
Definition atomically (res : result StoreError ()) (v v1 v' : View) : Prop :=
  match res with
  | Ok _ => v' = v1
  | Err e => v' = v ∨ v' = v1 ∧ ∃ err, e = Backend err
  end.

(** The contract: reads do not write; writes are atomic, and change the view as
    promised.  A repository has a precision of times ([kept_time]) and a time at
    which it starts the evidence of a saved packet ([sync_time]); a packet that is
    saved again may keep the head it was first found by, unless it is of another
    commit of the same pull request. *)
Class RepositoryLaws (R : Type) `{Repository R} := {
  view : R → View;
  kept_time : Time → Time;
  sync_time : Time → ChangePacket → Time;
  get_packet_law id r res r' : GetChangePacket id r = (res, r') → view r' = view r ∧
    match res with
    | Ok p => v_packets (view r) !! id = Some p
    | Err ErrChangePacketNotFound => v_packets (view r) !! id = None
    | Err _ => True
    end;
  find_latest_law repo number sha r res r' : FindLatestChangePacket repo number sha r = (res, r') → view r' = view r ∧
    match res with
    | Ok p => ∃ id, v_packets (view r) !! id = Some p ∧ v_heads (view r) !! id = Some (repo, number, Some sha)
    | Err _ => True
    end;
  list_executions_law id r res r' : ListEvidenceExecutions id r = (res, r') → view r' = view r ∧
    match res with
    | Ok es => es ≡ₚ (map_to_list (executions_of (view r) id)).*2
    | Err _ => True
    end;
  list_audit_law id limit r res r' : ListEvidenceAuditEntries id limit r = (res, r') → view r' = view r;
  list_packets_law limit r res r' : ListChangePackets limit r = (res, r') → view r' = view r;
  list_outcomes_law limit r res r' : ListDeploymentOutcomes limit r = (res, r') → view r' = view r;
  save_packet_law now p r res r' : SaveChangePacket now p r = (res, r') → ∃ head,
    atomically res (view r) (saved_packet (sync_time now p) p head (view r)) (view r') ∧
    (same_pull (v_heads (view r) !! cp_ID p) p → head = head_of p);
  record_update_law now e a r res r' : RecordEvidenceUpdate now e a r = (res, r') →
    atomically res (view r) (appended_audit (kept_audit kept_time a)
      (saved_execution (kept_execution kept_time (stamped now e)) (view r))) (view r');
  save_outcome_law o r res r' : SaveDeploymentOutcome o r = (res, r') →
    atomically res (view r) (appended_outcome (kept_outcome kept_time o) (view r)) (view r');
}.

(** ** The memory repository *)

Record MemoryRepository := mkMemoryRepository {
  changePackets : gmap string ChangePacket;
  events : gmap string Envelope;
  evidenceByCPID : gmap string (gmap string EvidenceExecution);
  auditByCPID : gmap string (list EvidenceAuditEntry);
  outcomes : list DeploymentOutcome;
}.

Definition NewMemoryRepository : MemoryRepository := mkMemoryRepository ∅ ∅ ∅ ∅ [].

(** Methods under the repository's lock; a read leaves the state as it is. *)
Definition writes (f : MemoryRepository → MemoryRepository) : stateE MemoryRepository StoreError () :=
  λ r, (Ok (), f r).
Definition reads {A} (f : MemoryRepository → result StoreError A) : stateE MemoryRepository StoreError A :=
  λ r, (f r, r).

(** A copy of the map: the value is the same. *)
Definition cloneAuditEntry (entry : EvidenceAuditEntry) : EvidenceAuditEntry := entry.

Definition ensureEvidenceLocked (now : Time) (packet : ChangePacket) (r : MemoryRepository) : MemoryRepository :=
  mkMemoryRepository (changePackets r) (events r)
    (<[cp_ID packet := foldl (sync_step now packet) (default ∅ (evidenceByCPID r !! cp_ID packet))
                         (cp_Evidence packet)]> (evidenceByCPID r))
    (auditByCPID r) (outcomes r).

Definition memory_SaveChangePacket (now : Time) (packet : ChangePacket) : stateE MemoryRepository StoreError () :=
  writes (λ r, ensureEvidenceLocked now packet
    (mkMemoryRepository (<[cp_ID packet := packet]> (changePackets r)) (events r) (evidenceByCPID r)
       (auditByCPID r) (outcomes r))).

Definition memory_GetChangePacket (id : string) : stateE MemoryRepository StoreError ChangePacket :=
  reads (λ r, match changePackets r !! id with Some p => Ok p | None => Err ErrChangePacketNotFound end).

Definition store_execution (now : Time) (execution : EvidenceExecution) (r : MemoryRepository) : MemoryRepository :=
  mkMemoryRepository (changePackets r) (events r)
    (<[ee_ChangePacketID execution :=
         <[ee_Name execution := stamped now execution]>
           (default ∅ (evidenceByCPID r !! ee_ChangePacketID execution))]> (evidenceByCPID r))
    (auditByCPID r) (outcomes r).

Definition memory_UpsertEvidenceExecution (now : Time) (execution : EvidenceExecution)
    : stateE MemoryRepository StoreError () := writes (store_execution now execution).

Definition memory_RecordEvidenceUpdate (now : Time) (execution : EvidenceExecution) (audit : EvidenceAuditEntry)
    : stateE MemoryRepository StoreError () :=
  writes (λ r,
    let r := store_execution now execution r in
    mkMemoryRepository (changePackets r) (events r) (evidenceByCPID r)
      (<[ea_ChangePacketID audit := default [] (auditByCPID r !! ea_ChangePacketID audit) ++ [cloneAuditEntry audit]]>
         (auditByCPID r)) (outcomes r)).

Definition memory_ListEvidenceAuditEntries (changePacketID : string) (limit : Z)
    : stateE MemoryRepository StoreError (list EvidenceAuditEntry) :=
  reads (λ r, Ok (truncated limit
    (cloneAuditEntry <$> reverse (default [] (auditByCPID r !! changePacketID))))).

(** [sort.Slice] by time, newest first.  The sort is stable here; the order of
    the input is that of a map range, so nothing is promised among equal times. *)
Definition newer_or_equal (a b : ChangePacket) : Prop := cp_UpdatedAt b ≤ cp_UpdatedAt a.
#[export] Instance newer_dec a b : Decision (newer_or_equal a b).
Proof. unfold newer_or_equal. apply _. Defined.

Definition outcome_newer_or_equal (a b : DeploymentOutcome) : Prop := do_ObservedAt b ≤ do_ObservedAt a.
#[export] Instance outcome_newer_dec a b : Decision (outcome_newer_or_equal a b).
Proof. unfold outcome_newer_or_equal. apply _. Defined.

Definition name_le (a b : EvidenceExecution) : Prop := String.le (ee_Name a) (ee_Name b).
#[export] Instance name_le_dec a b : Decision (name_le a b).
Proof. unfold name_le. apply _. Defined.

Definition memory_SaveEvent (event : Envelope) : stateE MemoryRepository StoreError () :=
  writes (λ r, mkMemoryRepository (changePackets r) (<[env_ID event := event]> (events r)) (evidenceByCPID r)
                 (auditByCPID r) (outcomes r)).

Definition memory_SaveDeploymentOutcome (outcome : DeploymentOutcome) : stateE MemoryRepository StoreError () :=
  writes (λ r, mkMemoryRepository (changePackets r) (events r) (evidenceByCPID r) (auditByCPID r)
                 (outcomes r ++ [outcome])).

Definition memory_ListDeploymentOutcomes (limit : Z) : stateE MemoryRepository StoreError (list DeploymentOutcome) :=
  reads (λ r, Ok (truncated limit (merge_sort outcome_newer_or_equal (outcomes r)))).

Section memory.
Context `{MapOrder}.

Definition memory_ListEvidenceExecutions (changePacketID : string)
    : stateE MemoryRepository StoreError (list EvidenceExecution) :=
  reads (λ r, Ok (merge_sort name_le (map_range (default ∅ (evidenceByCPID r !! changePacketID))).*2)).

Definition memory_ListChangePackets (limit : Z) : stateE MemoryRepository StoreError (list ChangePacket) :=
  reads (λ r, Ok (truncated limit (merge_sort newer_or_equal (map_range (changePackets r)).*2))).

Definition latest_step (repoFullName : string) (prNumber : Z) (headSHA : string)
    (latest : option ChangePacket) (packet : ChangePacket) : option ChangePacket :=
  if bool_decide (repo_FullName (cp_Repo packet) ≠ repoFullName) ||
     bool_decide (pr_Number (cp_PR packet) ≠ prNumber) || bool_decide (pr_HeadSHA (cp_PR packet) ≠ headSHA)
  then latest
  else
    match latest with
    | None => Some packet
    | Some l => if cp_UpdatedAt l <? cp_UpdatedAt packet then Some packet else latest
    end.

Definition memory_FindLatestChangePacket (repoFullName : string) (prNumber : Z) (headSHA : string)
    : stateE MemoryRepository StoreError ChangePacket :=
  reads (λ r,
    match foldl (latest_step repoFullName prNumber headSHA) None (map_range (changePackets r)).*2 with
    | Some packet => Ok packet
    | None => Err ErrChangePacketNotFound
    end).

#[global] Instance memory_repository : Repository MemoryRepository := {|
  SaveChangePacket := memory_SaveChangePacket;
  GetChangePacket := memory_GetChangePacket;
  FindLatestChangePacket := memory_FindLatestChangePacket;
  ListChangePackets := memory_ListChangePackets;
  SaveEvent := memory_SaveEvent;
  UpsertEvidenceExecution := memory_UpsertEvidenceExecution;
  ListEvidenceExecutions := memory_ListEvidenceExecutions;
  RecordEvidenceUpdate := memory_RecordEvidenceUpdate;
  ListEvidenceAuditEntries := memory_ListEvidenceAuditEntries;
  SaveDeploymentOutcome := memory_SaveDeploymentOutcome;
  ListDeploymentOutcomes := memory_ListDeploymentOutcomes |}.
End memory.

(** ** The memory repository implements the contract *)

Lemma latest_loop repo number sha ps :
  match foldl (latest_step repo number sha) None ps with
  | Some p => p ∈ ps ∧ is_candidate repo number sha p ∧
              ∀ q, q ∈ ps → is_candidate repo number sha q → cp_UpdatedAt q ≤ cp_UpdatedAt p
  | None => ∀ q, q ∈ ps → ¬ is_candidate repo number sha q
  end.
Proof.
  apply (foldl_ind _ (λ ps latest, match latest with
    | Some p => p ∈ ps ∧ is_candidate repo number sha p ∧
                ∀ q, q ∈ ps → is_candidate repo number sha q → cp_UpdatedAt q ≤ cp_UpdatedAt p
    | None => ∀ q, q ∈ ps → ¬ is_candidate repo number sha q
    end)); [set_solver|].
  intros l a latest IH _. unfold latest_step.
  destruct (_ || _ || _) eqn:Ec.
  - assert (¬ is_candidate repo number sha a) as Hn.
    { rewrite !orb_true_iff, !bool_decide_eq_true in Ec. unfold is_candidate. tauto. }
    destruct latest as [p|].
    + destruct IH as (? & ? & Hmax). split_and!; [set_solver|done|].
      intros q [Hq|Hq%list_elem_of_singleton]%elem_of_app Hcq; [by apply Hmax|congruence].
    + intros q [Hq|Hq%list_elem_of_singleton]%elem_of_app; [by apply IH|congruence].
  - rewrite !orb_false_iff, !bool_decide_eq_false in Ec. destruct Ec as [[E1 E2] E3].
    apply dec_stable in E1, E2, E3. assert (is_candidate repo number sha a) as Ha by done.
    destruct latest as [p|].
    + destruct IH as (Hp & Hc & Hmax). destruct (Z.ltb_spec (cp_UpdatedAt p) (cp_UpdatedAt a)).
      * split_and!; [set_solver|done|]. intros q [Hq|Hq%list_elem_of_singleton]%elem_of_app Hcq; [|subst q; lia].
        specialize (Hmax q Hq Hcq). lia.
      * split_and!; [set_solver|done|]. intros q [Hq|Hq%list_elem_of_singleton]%elem_of_app Hcq;
          [by apply Hmax|subst q; lia].
    + split_and!; [set_solver|done|]. intros q [Hq|Hq%list_elem_of_singleton]%elem_of_app Hcq; [|subst q; lia].
      by destruct (IH q Hq).
Qed.

Lemma elem_of_packets `{MapOrder} (ps : gmap string ChangePacket) p :
  p ∈ (map_range ps).*2 ↔ ∃ id, ps !! id = Some p.
Proof.
  rewrite list_elem_of_fmap. split.
  - intros ([id q] & -> & Hq%elem_of_map_range). eauto.
  - intros [id Hp]. exists (id, p). by rewrite elem_of_map_range.
Qed.


Definition memory_view (r : MemoryRepository) : View :=
  mkView (changePackets r) (head_of <$> changePackets r) (evidenceByCPID r) (auditByCPID r) (outcomes r).

Lemma kept_execution_id e : kept_execution id e = e.
Proof. by destruct e. Qed.
Lemma kept_audit_id a : kept_audit id a = a.
Proof. by destruct a. Qed.
Lemma kept_outcome_id o : kept_outcome id o = o.
Proof. by destruct o. Qed.

#[global] Program Instance memory_laws `{MapOrder} : RepositoryLaws MemoryRepository :=
  {| view := memory_view; kept_time := id; sync_time now _ := now |}.
Next Obligation.
  intros ? id r res r' [= <- <-]. split; [done|]. cbn. by destruct (changePackets r !! id).
Qed.
Next Obligation.
  intros ? repo number sha r res r' [= <- <-]. split; [done|].
  pose proof (latest_loop repo number sha (map_range (changePackets r)).*2) as Hl.
  destruct (foldl _ None _) as [p|]; [|done]. destruct Hl as ([id Hp]%elem_of_packets & (<- & <- & <-) & _).
  exists id. split; [done|]. cbn. by rewrite lookup_fmap, Hp.
Qed.
Next Obligation.
  intros ? id r res r' [= <- <-]. split; [done|].
  rewrite merge_sort_Permutation, map_range_perm. done.
Qed.
Next Obligation. by intros ? id limit r res r' [= <- <-]. Qed.
Next Obligation. by intros ? limit r res r' [= <- <-]. Qed.
Next Obligation. by intros ? limit r res r' [= <- <-]. Qed.
Next Obligation.
  intros ? now p r res r' [= <- <-]. exists (head_of p). split; [|done].
  cbn. unfold memory_view, saved_packet. cbn. by rewrite fmap_insert.
Qed.
Next Obligation.
  intros ? now e a r res r' [= <- <-]. cbn. rewrite kept_execution_id, kept_audit_id. unfold stamped. by case_decide.
Qed.
Next Obligation. intros ? o r res r' [= <- <-]. cbn. by rewrite kept_outcome_id. Qed.

(** ** The invariant of the view *)

Lemma foldl_sync_keyed now packet reqs es :
  (∀ n e, es !! n = Some e → ee_Name e = n) →
  ∀ n e, foldl (sync_step now packet) es reqs !! n = Some e → ee_Name e = n.
Proof.
  revert es. induction reqs as [|q reqs IH]; intros es Hes; [done|]. cbn. apply IH.
  unfold sync_step. intros n e [[<- <-]|[_ H]]%lookup_insert_Some; [|by apply Hes].
  unfold synced_execution. destruct (es !! er_Name q) eqn:E; [apply (Hes _ _ E)|done].
Qed.

Lemma saved_packet_keyed now p head v : view_keyed v → view_keyed (saved_packet now p head v).
Proof.
  intros [Hp He]. split; cbn.
  - intros id q [[<- <-]|[_ H]]%lookup_insert_Some; [done|by apply Hp].
  - intros id n e. unfold executions_of. cbn. destruct (decide (cp_ID p = id)) as [<-|].
    + rewrite lookup_insert_eq. cbn. apply foldl_sync_keyed. apply He.
    + rewrite lookup_insert_ne by done. apply He.
Qed.

Lemma saved_packet_indexed now p v : view_indexed v → view_indexed (saved_packet now p (head_of p) v).
Proof.
  intros Hv id q. cbn. intros [[<- <-]|[Hne H]]%lookup_insert_Some; [by rewrite lookup_insert_eq|].
  rewrite lookup_insert_ne by done. by apply Hv.
Qed.

Lemma saved_execution_keyed e v : view_keyed v → view_keyed (saved_execution e v).
Proof.
  intros [Hp He]. split; [done|]. intros id n e'. unfold executions_of, saved_execution. cbn.
  destruct (decide (ee_ChangePacketID e = id)) as [<-|].
  - rewrite lookup_insert_eq. cbn. intros [[<- <-]|[_ H]]%lookup_insert_Some; [done|by apply (He (ee_ChangePacketID e))].
  - rewrite lookup_insert_ne by done. apply He.
Qed.

(** The status an evidence name has in a packet: pending until someone writes
    it. *)
Definition status_of (v : View) (id name : string) : EvidenceStatus :=
  match executions_of v id !! name with Some e => ee_Status e | None => EvidencePending end.

(** Saving a packet does not move any evidence. *)
Lemma foldl_sync_status now packet reqs es name :
  match foldl (sync_step now packet) es reqs !! name with Some e => ee_Status e | None => EvidencePending end =
  match es !! name with Some e => ee_Status e | None => EvidencePending end.
Proof.
  revert es. induction reqs as [|q reqs IH]; intros es; [done|]. cbn. rewrite IH. unfold sync_step.
  destruct (decide (er_Name q = name)) as [<-|].
  - rewrite lookup_insert_eq. unfold synced_execution. by destruct (es !! er_Name q).
  - by rewrite lookup_insert_ne.
Qed.

Lemma status_saved_packet now p head v id name : status_of (saved_packet now p head v) id name = status_of v id name.
Proof.
  unfold status_of, executions_of, saved_packet. cbn. destruct (decide (cp_ID p = id)) as [<-|].
  - rewrite lookup_insert_eq. cbn. apply foldl_sync_status.
  - by rewrite lookup_insert_ne.
Qed.

Lemma status_saved_execution e v id name :
  status_of (saved_execution e v) id name =
  if decide (ee_ChangePacketID e = id ∧ ee_Name e = name) then ee_Status e else status_of v id name.
Proof.
  unfold status_of, executions_of, saved_execution. cbn.
  destruct (decide (ee_ChangePacketID e = id)) as [<-|].
  - rewrite lookup_insert_eq. cbn. destruct (decide (ee_Name e = name)) as [<-|].
    + by rewrite lookup_insert_eq, decide_True.
    + rewrite lookup_insert_ne by done. by rewrite decide_False by (by intros [_ ?]).
  - rewrite lookup_insert_ne by done. by rewrite decide_False by (by intros [? _]).
Qed.

(** ** Properties of the memory repository *)

(** Looking up the packet of a pull request at a head commit gives a stored
    packet of exactly that repository, number and commit, and none of its
    siblings is newer; it reports not-found exactly when there is none. *)
Theorem memory_FindLatest_spec `{MapOrder} repo number sha r :
  match (memory_FindLatestChangePacket repo number sha r).1 with
  | Ok p => (∃ id, changePackets r !! id = Some p) ∧ is_candidate repo number sha p ∧
            ∀ id q, changePackets r !! id = Some q → is_candidate repo number sha q →
              cp_UpdatedAt q ≤ cp_UpdatedAt p
  | Err e => e = ErrChangePacketNotFound ∧
             ∀ id q, changePackets r !! id = Some q → ¬ is_candidate repo number sha q
  end.
Proof.
  unfold memory_FindLatestChangePacket, reads. cbn [fst].
  pose proof (latest_loop repo number sha (map_range (changePackets r)).*2) as Hl.
  destruct (foldl _ None _) as [p|].
  - destruct Hl as (Hp & Hc & Hmax). split_and!; [by apply elem_of_packets|done|].
    intros id q Hq. apply Hmax, elem_of_packets. eauto.
  - split; [done|]. intros id q Hq. apply Hl, elem_of_packets. eauto.
Qed.
