(* ===== verification/Access.v ===== *)
(** [internal/access]: principals, authorization, and the bearer-token
    authenticator. *)
From stdpp Require Import base list gmap strings.
From S2P Require Import Prelude GoStrings Domain.

Local Open Scope string_scope.
Local Open Scope list_scope.
Local Open Scope Z_scope.

(** ** Principals and authorization *)

Abbreviation Role := string (only parsing).
Definition RoleReader : Role := "reader".
Definition RoleEvidenceWriter : Role := "evidence_writer".
Definition RoleAdmin : Role := "admin".

Record Principal := mkPrincipal {
  Subject : string;
  Roles : list Role;
}.

Definition HasRole (p : Principal) (role : Role) : bool :=
  existsb (λ candidate, bool_decide (candidate = role)) (Roles p).

Definition IsSupportedRole (role : Role) : bool :=
  bool_decide (role = RoleReader) || bool_decide (role = RoleEvidenceWriter) || bool_decide (role = RoleAdmin).

Inductive AccessError :=
  | ErrUnauthenticated
  | ErrForbidden (subject : string) (role : Role)
  | ErrUnsupportedRole (role : Role).

Definition Authorize (principal : Principal) (role : Role) : result AccessError () :=
  if decide (TrimSpace (Subject principal) = "") then Err ErrUnauthenticated
  else if negb (IsSupportedRole role) then Err (ErrUnsupportedRole role)
  else if HasRole principal RoleAdmin || HasRole principal role then Ok ()
  else Err (ErrForbidden (Subject principal) role).

(** [ctx] is the principal the context carries, if any. *)
Definition RequireRole (ctx : option Principal) (role : Role) : result AccessError () :=
  match ctx with
  | None => Err ErrUnauthenticated
  | Some principal => Authorize principal role
  end.

(** ** Authenticators *)

Definition Authenticator : Type := string → result AccessError Principal.

Definition DisabledAuthenticator : Authenticator := λ _, Ok (mkPrincipal "local" [RoleAdmin]).

Definition bearerToken (authorization : string) : result AccessError string :=
  let header := TrimSpace authorization in
  match Cut " " header with
  | None => Err ErrUnauthenticated
  | Some (scheme, token) =>
      let token := TrimSpace token in
      if negb (EqualFold scheme "Bearer") || bool_decide (token = "") || any_byte IsSpace token
      then Err ErrUnauthenticated
      else Ok token
  end.

(** SHA-256 is the standard library's; nothing is assumed about it. *)
Class Digest := { Sum256 : string → string }.

Record StaticToken := mkStaticToken {
  st_Subject : string;
  st_TokenEnv : string;
  st_Roles : list Role;
}.

Record staticCredential := mkStaticCredential {
  cred_digest : string;
  cred_principal : Principal;
}.

Inductive TokenError :=
  | NoTokens
  | EmptySubject (index : nat)
  | DuplicateSubject (subject : string)
  | EmptyTokenEnv (index : nat)
  | DuplicateTokenEnv (tokenEnv : string)
  | BadRoles (index : nat) (err : TokenError)
  | NoRoles
  | UnsupportedRole (role : Role)
  | DuplicateRole (role : Role)
  | EnvUnset (tokenEnv : string)
  | EnvWhitespace (tokenEnv : string)
  | DuplicateToken (tokenEnv : string).

Definition validate_role (seen : list Role) (role : Role) : result TokenError (list Role) :=
  fail_if (negb (IsSupportedRole role)) (UnsupportedRole role) ;;
  fail_if (bool_decide (role ∈ seen)) (DuplicateRole role) ;;
  Ok (seen ++ [role]).

(** The roles seen so far are the roles validated so far. *)
Definition validatedRoles (roles : list Role) : result TokenError (list Role) :=
  fail_if (negb (nonempty roles)) NoRoles ;;
  foldM validate_role [] roles.

Section tokens.
Context `{HD : Digest}.
(** [os.LookupEnv]. *)
Context (LookupEnv : string → option string).

Record Building := mkBuilding {
  bd_credentials : list staticCredential;
  bd_subjects : gset string;
  bd_environments : gset string;
  bd_digests : gset string;
}.

Definition add_token (b : Building) (ie : nat * StaticToken) : result TokenError Building :=
  let '(index, entry) := ie in
  let subject := TrimSpace (st_Subject entry) in
  fail_if (bool_decide (subject = "")) (EmptySubject index) ;;
  let subjectKey := ToLower subject in
  fail_if (bool_decide (subjectKey ∈ bd_subjects b)) (DuplicateSubject subject) ;;
  let tokenEnv := TrimSpace (st_TokenEnv entry) in
  fail_if (bool_decide (tokenEnv = "")) (EmptyTokenEnv index) ;;
  fail_if (bool_decide (tokenEnv ∈ bd_environments b)) (DuplicateTokenEnv tokenEnv) ;;
  roles ← map_err (BadRoles index) (validatedRoles (st_Roles entry));
  let token := default "" (LookupEnv tokenEnv) in
  fail_if (bool_decide (token = "")) (EnvUnset tokenEnv) ;;
  fail_if (bool_decide (TrimSpace token ≠ token) || any_byte IsSpace token) (EnvWhitespace tokenEnv) ;;
  let digest := Sum256 token in
  fail_if (bool_decide (digest ∈ bd_digests b)) (DuplicateToken tokenEnv) ;;
  Ok (mkBuilding (bd_credentials b ++ [mkStaticCredential digest (mkPrincipal subject roles)])
        ({[subjectKey]} ∪ bd_subjects b) ({[tokenEnv]} ∪ bd_environments b) ({[digest]} ∪ bd_digests b)).

Definition NewStaticTokenAuthenticator (tokens : list StaticToken) : result TokenError (list staticCredential) :=
  fail_if (negb (nonempty tokens)) NoTokens ;;
  b ← foldM add_token (mkBuilding [] ∅ ∅ ∅) (indexed tokens);
  Ok (bd_credentials b).

(** [match] of the loop: the position after the last credential of that
    digest, 0 when there is none. *)
Definition match_position (candidate : string) (credentials : list staticCredential) : nat :=
  foldl (λ found ic, if decide (candidate = cred_digest ic.2) then S ic.1 else found) 0%nat
    (indexed credentials).

Definition Authenticate (credentials : list staticCredential) : Authenticator := λ authorization,
  token ← bearerToken authorization;
  match match_position (Sum256 token) credentials with
  | O => Err ErrUnauthenticated
  | S i =>
      match credentials !! i with
      | Some credential => Ok (cred_principal credential)
      | None => Err ErrUnauthenticated
      end
  end.

(** ** Lemmas *)

Lemma match_position_spec candidate credentials :
  match match_position candidate credentials with
  | O => ∀ c, c ∈ credentials → cred_digest c ≠ candidate
  | S i => ∃ c, credentials !! i = Some c ∧ cred_digest c = candidate
  end.
Proof.
  unfold match_position.
  assert (∀ l, l `prefix_of` indexed credentials →
    match foldl (λ found ic, if decide (candidate = cred_digest ic.2) then S ic.1 else found) 0%nat l with
    | O => ∀ ic, ic ∈ l → cred_digest ic.2 ≠ candidate
    | S i => ∃ c, credentials !! i = Some c ∧ cred_digest c = candidate
    end) as Hl.
  { induction l as [|[i c] l IH] using rev_ind; intros Hp; [set_solver|].
    rewrite foldl_app. cbn. case_decide as E.
    - exists c. split; [|done]. apply elem_of_indexed. destruct Hp as [k ->]. set_solver.
    - assert (l `prefix_of` indexed credentials) as Hp' by (etrans; [|exact Hp]; by apply prefix_app_r).
      specialize (IH Hp'). destruct (foldl _ _ l); [|done].
      intros ic [Hic|Hic%list_elem_of_singleton]%elem_of_app; [by apply IH|subst ic; cbn; congruence]. }
  specialize (Hl (indexed credentials) ltac:(done)). destruct (foldl _ _ _); [|done].
  intros c [i Hi]%list_elem_of_lookup. apply (Hl (i, c)). by apply elem_of_indexed.
Qed.

(** The credential of one entry of the configuration. *)
Record credential_of (entry : StaticToken) (c : staticCredential) (token : string) : Prop := {
  co_env : LookupEnv (TrimSpace (st_TokenEnv entry)) = Some token;
  co_digest : cred_digest c = Sum256 token;
  co_subject : Subject (cred_principal c) = TrimSpace (st_Subject entry);
  co_named : TrimSpace (st_Subject entry) ≠ "";
  co_roles : Roles (cred_principal c) = st_Roles entry;
  co_supported : Forall (λ r, IsSupportedRole r = true) (st_Roles entry);
  co_token : token ≠ "" ∧ any_byte IsSpace token = false ∧ TrimSpace token = token;
}.

Lemma validatedRoles_ok roles validated :
  validatedRoles roles = Ok validated →
  validated = roles ∧ roles ≠ [] ∧ NoDup roles ∧ Forall (λ r, IsSupportedRole r = true) roles.
Proof using Type.
  clear LookupEnv HD.
  unfold validatedRoles. intros ([] & Hne & Hf)%bind_ok. apply fail_if_ok, negb_false_iff, nonempty_true in Hne.
  enough (validated = roles ∧ NoDup roles ∧ Forall (λ r, IsSupportedRole r = true) roles) by tauto.
  apply (foldM_ind _ (λ l v, v = l ∧ NoDup l ∧ Forall (λ r, IsSupportedRole r = true) l) _ _ _ Hf).
  { split_and!; [done|constructor|constructor]. }
  intros l r v1 v2 (-> & Hnd & Hall) Hstep. unfold validate_role in Hstep.
  apply bind_ok in Hstep as ([] & Hs%fail_if_ok%negb_false_iff & Hstep).
  apply bind_ok in Hstep as ([] & Hd%fail_if_ok%bool_decide_eq_false & [= <-]).
  split_and!; [done| |].
  - apply NoDup_app. split_and!; [done|set_solver|apply NoDup_singleton].
  - apply Forall_app. split; [done|]. by constructor.
Qed.

(** A set of roles the program accepts: some, distinct and supported. *)
Definition roles_valid (roles : list Role) : Prop :=
  roles ≠ [] ∧ NoDup roles ∧ Forall (λ r, IsSupportedRole r = true) roles.

Lemma validatedRoles_valid roles : validatedRoles roles = Ok roles ↔ roles_valid roles.
Proof using Type.
  clear LookupEnv HD.
  transitivity (fail_if (E := TokenError) (negb (nonempty roles)) NoRoles = Ok () ∧ ∃ v, foldM validate_role [] roles = Ok v).
  { split.
    - intros [? ?]%bind_unit_ok. eauto.
    - intros [Hn [v Hv]]. assert (validatedRoles roles = Ok v) as Hr by (by apply bind_unit_ok).
      pose proof (validatedRoles_ok _ _ Hr) as (-> & _). done. }
  unfold roles_valid. rewrite fail_if_ok, negb_false_iff, nonempty_true.
  pose proof (foldM_fresh validate_role (λ r, IsSupportedRole r = true) (λ seen r, r ∉ seen) (λ a b, a = b) [] roles) as Hf.
  rewrite Hf.
  - pose proof (NoDup_fmap_pairs id roles) as Hp. rewrite list_fmap_id in Hp. cbv beta delta [id] in Hp.
    rewrite <- Hp, (Forall_forall (λ r, r ∉ [])). set_solver.
  - intros seen r. transitivity (∃ s', (IsSupportedRole r = true ∧ r ∉ seen) ∧ seen ++ [r] = s'); [|naive_solver].
    apply exist_proper. intros s'. unfold validate_role.
    rewrite !bind_unit_ok, !fail_if_ok, negb_false_iff, bool_decide_eq_false. naive_solver.
  - intros seen r seen' b. unfold validate_role. rewrite !bind_unit_ok. intros (_ & _ & [= <-]). set_solver.
Qed.

Lemma add_token_ok b index entry b' :
  add_token b (index, entry) = Ok b' →
  ∃ c token, credential_of entry c token ∧ bd_credentials b' = bd_credentials b ++ [c] ∧
    bd_digests b' = {[cred_digest c]} ∪ bd_digests b ∧ cred_digest c ∉ bd_digests b.
Proof.
  unfold add_token. intros H.
  apply bind_ok in H as ([] & Hsub%fail_if_ok%bool_decide_eq_false & H).
  apply bind_ok in H as ([] & _ & H). apply bind_ok in H as ([] & _ & H). apply bind_ok in H as ([] & _ & H).
  apply bind_ok in H as (roles & Hroles%map_err_ok & H).
  apply validatedRoles_ok in Hroles as (-> & _ & _ & Hsup).
  apply bind_ok in H as ([] & Htok%fail_if_ok%bool_decide_eq_false & H).
  apply bind_ok in H as ([] & Hsp%fail_if_ok & H). apply orb_false_iff in Hsp as [Htrim Hsp].
  apply bool_decide_eq_false, dec_stable in Htrim.
  apply bind_ok in H as ([] & Hdig%fail_if_ok%bool_decide_eq_false & [= <-]).
  destruct (LookupEnv _) as [token|] eqn:Henv; [|done]. cbn in *.
  eexists (mkStaticCredential _ _), token. cbn. split_and!; [|done..]. by constructor.
Qed.

(** The credentials mirror the entries, and no two share a digest. *)
Lemma new_authenticator_ok tokens credentials :
  NewStaticTokenAuthenticator tokens = Ok credentials →
  Forall2 (λ entry c, ∃ token, credential_of entry c token) tokens credentials ∧
  NoDup (cred_digest <$> credentials).
Proof.
  unfold NewStaticTokenAuthenticator. intros ([] & _ & (b & Hf & [= <-])%bind_ok)%bind_ok.
  assert (Forall2 (λ entry c, ∃ token, credential_of entry c token) (indexed tokens).*2 (bd_credentials b) ∧
    NoDup (cred_digest <$> bd_credentials b) ∧ bd_digests b = list_to_set (cred_digest <$> bd_credentials b)) as (H1 & H2 & _).
  { apply (foldM_ind _ (λ l b, Forall2 (λ entry c, ∃ token, credential_of entry c token) l.*2 (bd_credentials b) ∧
      NoDup (cred_digest <$> bd_credentials b) ∧ bd_digests b = list_to_set (cred_digest <$> bd_credentials b)) _ _ _ Hf).
    { split_and!; [constructor|constructor|done]. }
    intros l [index entry] b1 b2 (HF & Hnd & Hds) (c & token & Hc & -> & -> & Hnew)%add_token_ok.
    rewrite !fmap_app. split_and!.
    - apply Forall2_app; [done|]. constructor; [by exists token|constructor].
    - apply NoDup_app. split_and!; [done| |apply NoDup_singleton]. cbn. set_solver.
    - rewrite list_to_set_app_L, <- Hds. cbn. set_solver. }
  split; [|done]. by rewrite indexed_snd in H1.
Qed.

(** When an authenticator can be built. *)
Definition token_env (entry : StaticToken) : string := TrimSpace (st_TokenEnv entry).
Definition token_secret (entry : StaticToken) : string := default "" (LookupEnv (token_env entry)).

Record token_ready (entry : StaticToken) : Prop := {
  tr_subject : TrimSpace (st_Subject entry) ≠ "";
  tr_env : token_env entry ≠ "";
  tr_roles : roles_valid (st_Roles entry);
  tr_secret : token_secret entry ≠ "" ∧ any_byte IsSpace (token_secret entry) = false;
}.

Definition token_subject (entry : StaticToken) : string := ToLower (TrimSpace (st_Subject entry)).
Definition token_digest (entry : StaticToken) : string := Sum256 (token_secret entry).

Definition fresh_token (b : Building) (ie : nat * StaticToken) : Prop :=
  token_subject ie.2 ∉ bd_subjects b ∧ token_env ie.2 ∉ bd_environments b ∧ token_digest ie.2 ∉ bd_digests b.

Definition token_clash (a b : nat * StaticToken) : Prop :=
  token_subject a.2 = token_subject b.2 ∨ token_env a.2 = token_env b.2 ∨ token_digest a.2 = token_digest b.2.

Lemma add_token_iff b index entry b' :
  add_token b (index, entry) = Ok b' ↔
  token_ready entry ∧ fresh_token b (index, entry) ∧
  b' = mkBuilding (bd_credentials b ++
                   [mkStaticCredential (token_digest entry) (mkPrincipal (TrimSpace (st_Subject entry)) (st_Roles entry))])
         ({[token_subject entry]} ∪ bd_subjects b) ({[token_env entry]} ∪ bd_environments b)
         ({[token_digest entry]} ∪ bd_digests b).
Proof.
  unfold add_token, fresh_token. cbn [snd]. fold (token_env entry) (token_secret entry) (token_digest entry) (token_subject entry).
  rewrite !bind_unit_ok, !fail_if_ok, !bool_decide_eq_false, bind_ok. setoid_rewrite map_err_ok. split.
  - intros (? & ? & ? & ? & roles & Hr & H). rewrite !bind_unit_ok, !fail_if_ok, orb_false_iff, !bool_decide_eq_false in H.
    destruct H as (? & [_ ?] & ? & [= <-]). pose proof Hr as Hr'. apply validatedRoles_ok in Hr' as (-> & _).
    apply validatedRoles_valid in Hr. split; [by constructor|]. done.
  - intros ([? ? Hr%validatedRoles_valid [? Hsp]] & (? & ? & ?) & ->). split_and!; try done. exists (st_Roles entry). split; [done|].
    rewrite !bind_unit_ok, !fail_if_ok, orb_false_iff, !bool_decide_eq_false, (TrimSpace_none _ Hsp). split_and!; try done.
    by intros [].
Qed.

Lemma new_authenticator_total tokens :
  (∃ credentials, NewStaticTokenAuthenticator tokens = Ok credentials) ↔
  tokens ≠ [] ∧ Forall token_ready tokens ∧
  NoDup (token_subject <$> tokens) ∧ NoDup (token_env <$> tokens) ∧ NoDup (token_digest <$> tokens).
Proof.
  transitivity (nonempty tokens = true ∧ ∃ b, foldM add_token (mkBuilding [] ∅ ∅ ∅) (indexed tokens) = Ok b).
  { unfold NewStaticTokenAuthenticator. split.
    - intros (c & [Hn%fail_if_ok%negb_false_iff (b & Hb & _)%bind_ok]%bind_unit_ok). eauto.
    - intros [Hn [b Hb]]. exists (bd_credentials b). apply bind_unit_ok. rewrite fail_if_ok, negb_false_iff. split; [done|].
      apply bind_ok. eauto. }
  rewrite nonempty_true, (foldM_fresh _ (λ ie, token_ready ie.2) fresh_token token_clash).
  - unfold token_clash. rewrite !ForallOrdPairs_not_or, Forall_indexed.
    rewrite <- (fmap_indexed token_subject), <- (fmap_indexed token_env), <- (fmap_indexed token_digest), !NoDup_fmap_pairs.
    assert (Forall (fresh_token (mkBuilding [] ∅ ∅ ∅)) (indexed tokens)) by (apply Forall_forall; unfold fresh_token; set_solver).
    tauto.
  - intros b [i entry]. setoid_rewrite add_token_iff. naive_solver.
  - intros b [i a] b' [j c]. intros (_ & _ & ->)%add_token_iff. unfold fresh_token, token_clash. cbn. set_solver.
Qed.

Lemma match_position_unique credentials c i :
  NoDup (cred_digest <$> credentials) → credentials !! i = Some c →
  match_position (cred_digest c) credentials = S i.
Proof.
  intros Hnd Hi. pose proof (match_position_spec (cred_digest c) credentials) as Hm.
  destruct (match_position _ _) as [|j].
  - destruct (Hm c); [|done]. apply list_elem_of_lookup. eauto.
  - destruct Hm as (c' & Hj & Hd). f_equal. symmetry. apply (NoDup_lookup _ i j (cred_digest c)  Hnd).
    + by rewrite list_lookup_fmap, Hi.
    + rewrite list_lookup_fmap, Hj. cbn. by rewrite Hd.
Qed.

Lemma bearerToken_header token :
  token ≠ "" → any_byte IsSpace token = false → bearerToken ("Bearer " +:+ token) = Ok token.
Proof.
  intros Hne Hsp. unfold bearerToken.
  assert (TrimSpace ("Bearer " +:+ token) = "Bearer " +:+ token) as ->.
  { unfold TrimSpace, TrimFunc. change (TrimLeftFunc IsSpace ("Bearer " +:+ token)) with ("Bearer " +:+ token).
    by apply TrimRight_none. }
  change (Cut " " ("Bearer " +:+ token)) with (Some ("Bearer", token)). cbv beta iota.
  rewrite (TrimSpace_none token Hsp), Hsp, (bool_decide_eq_false_2 (token = "")) by done. done.
Qed.

(** ** Theorems *)

(** C40: an authenticator built from a configuration accepts exactly its tokens:
    whoever it lets in presented a bearer token with the digest of the token of a
    configured entry, and gets that entry's subject and its (supported) roles;
    and the token of every entry, in a bearer header, is let in as that
    entry. *)
Theorem static_authenticator_exact tokens credentials :
  NewStaticTokenAuthenticator tokens = Ok credentials →
  (∀ header principal, Authenticate credentials header = Ok principal →
    ∃ entry token presented, entry ∈ tokens ∧ LookupEnv (TrimSpace (st_TokenEnv entry)) = Some token ∧
      bearerToken header = Ok presented ∧ Sum256 presented = Sum256 token ∧
      principal = mkPrincipal (TrimSpace (st_Subject entry)) (st_Roles entry) ∧
      Subject principal ≠ "" ∧ Forall (λ r, IsSupportedRole r = true) (Roles principal)) ∧
  (∀ entry, entry ∈ tokens →
    ∃ token, LookupEnv (TrimSpace (st_TokenEnv entry)) = Some token ∧
      Authenticate credentials ("Bearer " +:+ token) =
        Ok (mkPrincipal (TrimSpace (st_Subject entry)) (st_Roles entry))).
Proof.
  intros [HF Hnd]%new_authenticator_ok. split.
  - intros header principal (presented & Hb & H)%bind_ok.
    pose proof (match_position_spec (Sum256 presented) credentials) as Hm.
    destruct (match_position _ _) as [|i]; [done|]. destruct Hm as (c & Hi & Hd). rewrite Hi in H.
    injection H as <-. destruct (Forall2_lookup_r _ _ _ _ _ HF Hi) as (entry & He & token & Hc).
    exists entry, token, presented. destruct Hc. destruct c as [dg [subject roles]]. cbn in *. subst.
    split_and!; try done. apply list_elem_of_lookup. eauto.
  - intros entry [i Hi]%list_elem_of_lookup.
    destruct (Forall2_lookup_l _ _ _ _ _ HF Hi) as (c & Hci & token & Hc). exists token.
    destruct Hc as [Henv Hdig Hsub _ Hroles _ (Hne & Hsp & _)]. split; [done|].
    unfold Authenticate. rewrite bearerToken_header by done. cbn. rewrite <- Hdig.
    rewrite (match_position_unique _ _ _ Hnd Hci), Hci. destruct c as [dg [subject roles]]. cbn in *. by subst.
Qed.
End tokens.

Section demo.
(** For the witness, the digest of a token is the token. *)
Definition plain_digest : Digest := {| Sum256 := λ s, s |}.
#[local] Existing Instance plain_digest.

Definition demo_env (name : string) : option string :=
  if decide (name = "READER_TOKEN") then Some "r-123" else
  if decide (name = "WRITER_TOKEN") then Some "w-456" else None.
Definition demo_tokens : list StaticToken :=
  [mkStaticToken "bob" "READER_TOKEN" [RoleReader]; mkStaticToken "alice" "WRITER_TOKEN" [RoleEvidenceWriter]].

Lemma static_authenticator_exact_witness :
  ∃ credentials token, NewStaticTokenAuthenticator demo_env demo_tokens = Ok credentials ∧
    demo_env "WRITER_TOKEN" = Some token ∧
    Authenticate credentials ("Bearer " +:+ token) = Ok (mkPrincipal "alice" [RoleEvidenceWriter]).
Proof.
  destruct (NewStaticTokenAuthenticator demo_env demo_tokens) as [credentials|e] eqn:E; [|by vm_compute in E].
  destruct (proj2 (static_authenticator_exact demo_env demo_tokens credentials E)
    (mkStaticToken "alice" "WRITER_TOKEN" [RoleEvidenceWriter])) as (token & Henv & Ha); [set_solver|].
  by exists credentials, token.
Defined.
End demo.
