(* ===== verification/ControlPlane.v ===== *)
(** [internal/controlplane/service.go], [errors.go]: the service that records
    evidence and deployment outcomes and reports risk calibration. *)
From stdpp Require Import base list gmap strings sorting.
From S2P Require Import Prelude GoStrings Domain Identity Lanes Events Store Access.

Local Open Scope string_scope.
Local Open Scope list_scope.
Local Open Scope Z_scope.

(** ** Errors *)

(** A wrapped error keeps the one it wraps ([%w]). *)
Inductive ServiceError :=
  | EvidenceValidationError (field message : string)
  | EvidenceNotFoundError (changePacketID name : string)
  | EvidenceTransitionError (name : string) (from to : EvidenceStatus)
  | StoreFailed (err : StoreError)
  | OtherError (err : string)
  | Wrapped (context : string) (err : ServiceError).

(** ** Decisions of the service *)

Definition requiredEvidenceComplete (requirements : list EvidenceRequirement) (executions : list EvidenceExecution)
    : bool :=
  let statusByName := foldl (λ m e, <[ee_Name e := ee_Status e]> m) (∅ : gmap string EvidenceStatus) executions in
  forallb (λ requirement,
    negb (er_Required requirement) ||
    let status := default "" (statusByName !! er_Name requirement) in
    bool_decide (status = EvidenceSatisfied) || bool_decide (status = EvidenceWaived)) requirements.

Definition hasMandatoryReviewers (reviewers : list ReviewerRequirement) : bool := existsb rr_Mandatory reviewers.

Definition findEvidenceRequirement (requirements : list EvidenceRequirement) (name : string)
    : option EvidenceRequirement :=
  find (λ requirement, bool_decide (er_Name requirement = name)) requirements.

Definition validEvidenceStatus (status : EvidenceStatus) : bool :=
  bool_decide (status ∈ [EvidencePending; EvidenceRunning; EvidenceSatisfied; EvidenceFailed; EvidenceWaived]).

Definition canTransitionEvidence (from to : EvidenceStatus) : bool :=
  if decide (from = to) then true
  else if decide (from = EvidencePending) then
    bool_decide (to = EvidenceRunning) || bool_decide (to = EvidenceSatisfied) ||
    bool_decide (to = EvidenceFailed) || bool_decide (to = EvidenceWaived)
  else if decide (from = EvidenceRunning) then
    bool_decide (to = EvidenceSatisfied) || bool_decide (to = EvidenceFailed) || bool_decide (to = EvidenceWaived)
  else if decide (from = EvidenceFailed) then
    bool_decide (to = EvidenceRunning) || bool_decide (to = EvidenceWaived)
  else false.

Definition validDeploymentOutcome (outcome : DeploymentOutcomeKind) : bool :=
  bool_decide (outcome = DeploymentOutcomeSuccess) || bool_decide (outcome = DeploymentOutcomeRollback) ||
  bool_decide (outcome = DeploymentOutcomeIncident).

(** The code ranges over runes; those it accepts are single bytes. *)
Definition source_byte (a : ascii) : bool :=
  in_range "a" "z" a || in_range "A" "Z" a || in_range "0" "9" a ||
  is_byte "." a || is_byte "_" a || is_byte "-" a.

Definition validOutcomeSource (source : string) : bool :=
  if 64 <? Z.of_nat (String.length source) then false else all_bytes source_byte source.

(** ** Risk calibration *)

Record calibrationCounter := mkCalibrationCounter { samples : Z; adverse : Z }.

Definition adverse_outcome (outcome : DeploymentOutcome) : bool :=
  bool_decide (do_Outcome outcome = DeploymentOutcomeRollback) ||
  bool_decide (do_Outcome outcome = DeploymentOutcomeIncident).

Definition addCalibration (counters : gmap string calibrationCounter) (key : string) (outcome : DeploymentOutcome)
    : gmap string calibrationCounter :=
  if decide (key = "") then counters
  else
    let counter := default (mkCalibrationCounter 0 0) (counters !! key) in
    <[key := mkCalibrationCounter (samples counter + 1)
               (if adverse_outcome outcome then adverse counter + 1 else adverse counter)]> counters.

Definition recommendation_of (counter : calibrationCounter) (rate : float64) : string :=
  if (5 <=? samples counter) && float_ge rate (float_ratio 20 100)
  then "review risk weight or require stronger evidence"
  else if (5 <=? samples counter) && float_gt (float_ratio 5 100) rate
  then "monitor; no calibration change recommended"
  else "collect more outcomes before adjusting policy".

Definition calibration_metric (dimension : string) (vc : string * calibrationCounter) : RiskCalibrationMetric :=
  let rate := float_ratio (adverse vc.2) (samples vc.2) in
  mkRiskCalibrationMetric dimension vc.1 (samples vc.2) (adverse vc.2) rate (recommendation_of vc.2 rate).

Definition metric_le (a b : RiskCalibrationMetric) : Prop := String.le (rcm_Value a) (rcm_Value b).
#[export] Instance metric_le_dec a b : Decision (metric_le a b).
Proof. unfold metric_le. apply _. Defined.

Definition calibrationMetrics `{MapOrder} (dimension : string) (counters : gmap string calibrationCounter)
    : list RiskCalibrationMetric :=
  merge_sort metric_le (calibration_metric dimension <$> map_range counters).

(** ** The service *)

(** The clock readings and the identifier number of one update. *)
Record Readings := mkReadings {
  at_update : Time;
  at_store : Time;
  at_reconcile : Time;
  at_save : Time;
  audit_number : nat;
}.

Record ChangePacketView := mkChangePacketView {
  cv_Packet : ChangePacket;
  cv_Evidence : list EvidenceExecution;
  cv_Audit : list EvidenceAuditEntry;
}.

Definition DefaultListLimit : Z := 50.
Definition MaxListLimit : Z := 200.

Section service.
(** [W] is the world the repository and the check publisher act on. *)
Context `{HR : Repository W} `{HE : Entropy}.

Record Service := mkService {
  laneAssigner : option (ChangePacket → result string MergeLane);
  checkPublisher : option (ChangePacket → list EvidenceExecution → stateE W string ());
}.

(** [None] is a nil option, which is skipped. *)
Definition ServiceOption : Type := Service → Service.

Definition NewServiceWithOptions (options : list (option ServiceOption)) : Service :=
  foldl (λ service option, match option with None => service | Some apply => apply service end)
    (mkService None None) options.

Definition NewService : Service := NewServiceWithOptions [].

Definition WithLaneAssigner (assigner : ChangePacket → result string MergeLane) : ServiceOption := λ service,
  mkService (Some assigner) (checkPublisher service).

Definition WithCheckPublisher (publisher : ChangePacket → list EvidenceExecution → stateE W string ()) : ServiceOption :=
  λ service, mkService (laneAssigner service) (Some publisher).

Definition GetChangePacketView (id : string) : stateE W ServiceError ChangePacketView :=
  packet ← wrapE StoreFailed (GetChangePacket id);
  evidence ← wrapE StoreFailed (ListEvidenceExecutions id);
  audit ← wrapE StoreFailed (ListEvidenceAuditEntries id DefaultListLimit);
  mret (mkChangePacketView packet evidence audit).

Definition ListEvidenceAudit (changePacketID : string) (limit : Z) : stateE W ServiceError (list EvidenceAuditEntry) :=
  wrapE StoreFailed (GetChangePacket changePacketID) ;;
  wrapE StoreFailed (ListEvidenceAuditEntries changePacketID limit).

Definition ListPackets (limit : Z) : stateE W ServiceError (list ChangePacket) :=
  wrapE StoreFailed (ListChangePackets limit).

Definition currentEvidenceStatus (changePacketID name : string) : stateE W ServiceError EvidenceStatus :=
  executions ← wrapE StoreFailed (ListEvidenceExecutions changePacketID);
  match find (λ execution, bool_decide (ee_Name execution = name)) executions with
  | Some execution => mret (ee_Status execution)
  | None => mret EvidencePending
  end.

Definition reconciled_decision (now : Time) (packet : ChangePacket) (executions : list EvidenceExecution)
    : PolicyDecision :=
  let decision := cp_Decision packet in
  if decide (pd_Status decision = DecisionBlocked) then decision
  else
    pd_with_DecidedAt now
      (pd_with_Status
        (if requiredEvidenceComplete (cp_Evidence packet) executions && negb (hasMandatoryReviewers (cp_Reviewers packet))
         then DecisionApproved else DecisionPending) decision).

(** The lane recomputed, when the service has an assigner. *)
Definition assign_lane (s : Service) (packet : ChangePacket) : result ServiceError ChangePacket :=
  match laneAssigner s with
  | None => Ok packet
  | Some Assign =>
      lane ← map_err (λ e, Wrapped "recompute merge lane" (OtherError e)) (Assign packet);
      Ok (cp_with_MergeLane_ lane packet)
  end.

Definition reconcileDecision (s : Service) (t : Readings) (packet : ChangePacket) : stateE W ServiceError () :=
  executions ← wrapE (λ e, Wrapped "reload evidence executions" (StoreFailed e)) (ListEvidenceExecutions (cp_ID packet));
  let now := at_reconcile t in
  let packet := cp_with_UpdatedAt now (cp_with_Decision (reconciled_decision now packet executions) packet) in
  packet ← liftE (assign_lane s packet);
  wrapE (λ e, Wrapped "persist reconciled change packet" (StoreFailed e)) (SaveChangePacket (at_save t) packet) ;;
  match checkPublisher s with
  | None => mret ()
  | Some PublishWithEvidence =>
      wrapE (λ e, Wrapped "publish refreshed check" (OtherError e)) (PublishWithEvidence packet executions)
  end.

(** The update up to its transition check: what it reads and refuses. *)
Definition checked_update (principal : option Principal) (execution : EvidenceExecution)
    : stateE W ServiceError (ChangePacket * EvidenceExecution * EvidenceStatus) :=
  if decide (TrimSpace (ee_ChangePacketID execution) = "") then
    throw (EvidenceValidationError "changePacketId" "is required")
  else if decide (TrimSpace (ee_Name execution) = "") then throw (EvidenceValidationError "name" "is required")
  else if negb (validEvidenceStatus (ee_Status execution)) then
    throw (EvidenceValidationError "status" "must be one of pending, running, satisfied, failed, or waived")
  else
  let execution :=
    match principal with Some p => ee_with_UpdatedBy (Subject p) execution | None => execution end in
  if decide (ee_Status execution = EvidenceWaived ∧ TrimSpace (ee_UpdatedBy execution) = "") then
    throw (EvidenceValidationError "updatedBy" "is required when waiving evidence")
  else
  packet ← wrapE StoreFailed (GetChangePacket (ee_ChangePacketID execution));
  match findEvidenceRequirement (cp_Evidence packet) (ee_Name execution) with
  | None => throw (EvidenceNotFoundError (ee_ChangePacketID execution) (ee_Name execution))
  | Some requirement =>
      currentStatus ← currentEvidenceStatus (ee_ChangePacketID execution) (ee_Name execution);
      if negb (canTransitionEvidence currentStatus (ee_Status execution)) then
        throw (EvidenceTransitionError (ee_Name execution) currentStatus (ee_Status execution))
      else
        mret (packet, ee_with_Required (er_Required requirement) (ee_with_Type_ (er_Type_ requirement) execution),
              currentStatus)
  end.

Definition audit_entry (t : Readings) (execution : EvidenceExecution) (currentStatus : EvidenceStatus)
    : EvidenceAuditEntry :=
  mkEvidenceAuditEntry (New "evidence_audit" (audit_number t)) (ee_ChangePacketID execution) (ee_Name execution)
    currentStatus (ee_Status execution) (ee_UpdatedBy execution) (ee_Summary execution) (ee_DetailsURL execution)
    (ee_Metadata execution) (ee_UpdatedAt execution).

(** The rest of the update: what it writes. *)
Definition commit_update (s : Service) (t : Readings)
    (checked : ChangePacket * EvidenceExecution * EvidenceStatus) : stateE W ServiceError EvidenceExecution :=
  let '(packet, execution, currentStatus) := checked in
  let execution := ee_with_UpdatedAt (at_update t) execution in
  wrapE StoreFailed (RecordEvidenceUpdate (at_store t) execution (audit_entry t execution currentStatus)) ;;
  reconcileDecision s t packet ;;
  mret execution.

Definition UpdateEvidenceExecution (s : Service) (t : Readings) (principal : option Principal)
    (execution : EvidenceExecution) : stateE W ServiceError EvidenceExecution :=
  checked ← checked_update principal execution;
  commit_update s t checked.

(** [n] and [now] are the identifier number and the clock reading used when the
    request has none. *)
Definition RecordDeploymentOutcome (n : nat) (now : Time) (outcome : DeploymentOutcome)
    : stateE W ServiceError DeploymentOutcome :=
  if decide (TrimSpace (do_ChangePacketID outcome) = "") then
    throw (EvidenceValidationError "changePacketId" "is required")
  else if negb (validDeploymentOutcome (do_Outcome outcome)) then
    throw (EvidenceValidationError "outcome" "must be one of success, rollback, or incident")
  else if negb (validOutcomeSource (do_Source outcome)) then
    throw (EvidenceValidationError "source" "must contain only letters, numbers, dot, underscore, or hyphen and be 64 characters or fewer")
  else
  packet ← wrapE StoreFailed (GetChangePacket (do_ChangePacketID outcome));
  let outcome := mkDeploymentOutcome
    (if decide (do_ID outcome = "") then New "outcome" n else do_ID outcome)
    (do_ChangePacketID outcome) (do_Outcome outcome) (do_Source outcome) (cp_MergeLane_ packet)
    (rs_Contributors (cp_RiskSummary_ packet))
    (if decide (do_ObservedAt outcome = 0) then now else do_ObservedAt outcome) in
  wrapE StoreFailed (SaveDeploymentOutcome outcome) ;;
  mret outcome.

Definition count_outcome (counters : gmap string calibrationCounter * gmap string calibrationCounter)
    (outcome : DeploymentOutcome) : gmap string calibrationCounter * gmap string calibrationCounter :=
  (addCalibration counters.1 (do_Lane outcome) outcome,
   foldl (λ byRisk riskType, addCalibration byRisk riskType outcome) counters.2 (do_RiskTypes outcome)).

Definition RiskCalibrationReport_ `{MapOrder} (now : Time) : stateE W ServiceError RiskCalibrationReport :=
  outcomes ← wrapE StoreFailed (ListDeploymentOutcomes 10000);
  let '(byLane, byRisk) := foldl count_outcome (∅, ∅) outcomes in
  mret (mkRiskCalibrationReport now (calibrationMetrics "risk_type" byRisk) (calibrationMetrics "lane" byLane)).
End service.
Arguments Service : clear implicits.

(** ** What the service promises *)

(** The required evidence of a packet is settled in favour of the change. *)
Definition evidence_complete (v : View) (p : ChangePacket) : Prop :=
  ∀ requirement, requirement ∈ cp_Evidence p → er_Required requirement = true →
    status_of v (cp_ID p) (er_Name requirement) ∈ [EvidenceSatisfied; EvidenceWaived].

(** The decision [p'] carries is that of [p] brought up to date with the
    evidence: its status and its time. *)
Definition decision_follows (now : Time) (v : View) (p p' : ChangePacket) : Prop :=
  if decide (pd_Status (cp_Decision p) = DecisionBlocked) then cp_Decision p' = cp_Decision p
  else ∃ status, status ∈ [DecisionApproved; DecisionPending] ∧
       cp_Decision p' = pd_with_DecidedAt now (pd_with_Status status (cp_Decision p)) ∧
       (status = DecisionApproved ↔
        evidence_complete v p ∧ ∀ r, r ∈ cp_Reviewers p → rr_Mandatory r = false).

(** The evidence part of an update from [v] to [v']: an allowed step of a
    required evidence, with its audit entry, whose time is kept as the repository
    keeps times. *)
Record evidence_recorded `{HE : Entropy} (keep : Time → Time) (t : Readings) (e : EvidenceExecution) (p : ChangePacket) (v v' : View) : Prop := {
  rc_packet : v_packets v !! ee_ChangePacketID e = Some p;
  rc_requirement : ∃ q, q ∈ cp_Evidence p ∧ er_Name q = ee_Name e ∧ er_Type_ q = ee_Type_ e ∧ er_Required q = ee_Required e;
  rc_transition : canTransitionEvidence (status_of v (ee_ChangePacketID e) (ee_Name e)) (ee_Status e) = true;
  rc_audit : ∀ id, audit_of v' id =
    if decide (id = ee_ChangePacketID e)
    then audit_of v id ++ [kept_audit keep (audit_entry t e (status_of v (ee_ChangePacketID e) (ee_Name e)))]
    else audit_of v id;
  rc_status : ∀ id name, status_of v' id name =
    if decide (ee_ChangePacketID e = id ∧ ee_Name e = name) then ee_Status e else status_of v id name;
  rc_outcomes : v_outcomes v' = v_outcomes v;
  rc_keyed : view_keyed v → view_keyed v';
  rc_indexed : view_keyed v → view_indexed v → view_indexed v';
}.

(** ** Lemmas on the decisions *)

Lemma canTransition_final from to :
  from ∈ [EvidenceSatisfied; EvidenceWaived] → canTransitionEvidence from to = true → to = from.
Proof.
  unfold canTransitionEvidence. case_decide; [done|].
  intros [-> | ->%list_elem_of_singleton]%elem_of_cons; done.
Qed.

Lemma pending_not_settled : ¬ EvidencePending ∈ [EvidenceSatisfied; EvidenceWaived].
Proof. by apply (bool_decide_eq_false_1 (EvidencePending ∈ [EvidenceSatisfied; EvidenceWaived])). Qed.

Lemma hasMandatoryReviewers_false reviewers :
  hasMandatoryReviewers reviewers = false ↔ ∀ r, r ∈ reviewers → rr_Mandatory r = false.
Proof. apply existsb_none. Qed.

Section listed.
(** The executions of a packet, listed in some order. *)
Context (m : gmap string EvidenceExecution) (es : list EvidenceExecution).
Hypothesis Hkeyed : ∀ n e, m !! n = Some e → ee_Name e = n.
Hypothesis Hes : es ≡ₚ (map_to_list m).*2.

Lemma listed_lookup n e : e ∈ es ∧ ee_Name e = n ↔ m !! n = Some e.
Proof.
  rewrite Hes, list_elem_of_fmap. split.
  - intros [([k e'] & -> & Hk%elem_of_map_to_list) <-]. cbn. by rewrite (Hkeyed _ _ Hk).
  - intros Hm. split; [|by apply Hkeyed]. exists (n, e). by rewrite elem_of_map_to_list.
Qed.

Lemma listed_find n : find (λ e, bool_decide (ee_Name e = n)) es = m !! n.
Proof.
  destruct (find _ es) as [e|] eqn:Ef.
  - apply find_some in Ef as [Hin Hn%bool_decide_eq_true]. symmetry. apply listed_lookup.
    by rewrite list_elem_of_In.
  - destruct (m !! n) as [e|] eqn:E; [|done]. apply listed_lookup in E as [Hin Hn].
    apply list_elem_of_In in Hin. pose proof (find_none _ _ Ef _ Hin) as Hf.
    by apply bool_decide_eq_false in Hf.
Qed.

Lemma listed_statuses n :
  foldl (λ m e, <[ee_Name e := ee_Status e]> m) (∅ : gmap string EvidenceStatus) es !! n = ee_Status <$> m !! n.
Proof.
  assert (∀ l, (∀ e, e ∈ l → e ∈ es) →
    foldl (λ m e, <[ee_Name e := ee_Status e]> m) (∅ : gmap string EvidenceStatus) l !! n =
    if decide (Exists (λ e, ee_Name e = n) l) then ee_Status <$> m !! n else None) as Hl.
  { induction l as [|e l IH] using rev_ind; intros Hl.
    - rewrite decide_False by (by intros ?%Exists_nil). apply lookup_empty.
    - rewrite foldl_app. cbn. destruct (decide (ee_Name e = n)) as [Hn|Hn].
      + rewrite Hn, lookup_insert_eq, decide_True by (apply Exists_app; right; by constructor).
        assert (m !! n = Some e) as -> by (apply listed_lookup; split; [apply Hl; set_solver|done]). done.
      + rewrite lookup_insert_ne, IH by first [done|intros; apply Hl; set_solver].
        apply decide_ext. rewrite Exists_app, Exists_cons, Exists_nil. tauto. }
  rewrite Hl by done. case_decide as Hex; [done|]. destruct (m !! n) as [e|] eqn:E; [|done].
  destruct Hex. apply Exists_exists. exists e. by apply listed_lookup.
Qed.

Lemma listed_complete requirements :
  requiredEvidenceComplete requirements es = true ↔
  ∀ q, q ∈ requirements → er_Required q = true →
    match m !! er_Name q with Some e => ee_Status e | None => EvidencePending end ∈ [EvidenceSatisfied; EvidenceWaived].
Proof.
  unfold requiredEvidenceComplete. rewrite forallb_elem. apply forall_proper. intros q.
  rewrite listed_statuses. destruct (er_Required q); cbn; [|naive_solver].
  destruct (m !! er_Name q) as [e|]; cbn.
  - rewrite orb_true_iff, !bool_decide_eq_true, !elem_of_cons, elem_of_nil. tauto.
  - split; intros H Hq; [specialize (H Hq)|specialize (H Hq eq_refl)]; [done|].
    by destruct pending_not_settled.
Qed.
End listed.

(** ** Lemmas on the service *)

Section updates.
Context `{HR : Repository W} `{HL : !RepositoryLaws W} `{HE : Entropy}.

(** Publishing a check is not a write to the repository. *)
Definition publisher_keeps_view (s : Service W) : Prop :=
  ∀ publish p es w r w', checkPublisher s = Some publish → publish p es w = (r, w') → view w' = view w.

Definition wrapped (e : ServiceError) : Prop := match e with Wrapped _ _ => True | _ => False end.
#[local] Hint Extern 0 (¬ wrapped _) => (intros []) : core.
#[local] Arguments wrapped : simpl never.

Lemma current_status_inv id name w r w' :
  view_keyed (view w) → currentEvidenceStatus id name w = (r, w') →
  view w' = view w ∧
  match r with Ok status => status = status_of (view w) id name | Err e => ¬ wrapped e end.
Proof.
  intros Hk. unfold currentEvidenceStatus.
  intros [(es & w1 & (r0 & Hl & Hr)%wrapE_inv & H)|(e & (r0 & Hl & Hr)%wrapE_inv & ->)]%stateE_bind_inv;
    destruct (list_executions_law _ _ _ _ Hl) as [Hv Hes]; destruct r0; simplify_eq/=; [|done].
  rewrite (listed_find (executions_of (view w) id)) in H by first [by apply Hk|done].
  unfold status_of. destruct (executions_of _ _ !! name); injection H as <- <-; done.
Qed.

(** The first requirement with this name. *)
Definition requirement_named (requirements : list EvidenceRequirement) (name : string) (q : EvidenceRequirement) : Prop :=
  ∃ before after, requirements = before ++ q :: after ∧ er_Name q = name ∧ Forall (λ r, er_Name r ≠ name) before.

Lemma findEvidenceRequirement_Some requirements name q :
  findEvidenceRequirement requirements name = Some q → requirement_named requirements name q.
Proof using Type.
  unfold findEvidenceRequirement. induction requirements as [|r rs IH]; [done|]. cbn. case_bool_decide as Hr.
  - intros [= ->]. exists [], rs. split_and!; [done|done|constructor].
  - intros (before & after & -> & Hq & Hb)%IH. exists (r :: before), after. split_and!; [done|done|by constructor].
Qed.

Lemma requirement_named_elem requirements name q : requirement_named requirements name q → q ∈ requirements ∧ er_Name q = name.
Proof using Type. intros (before & after & -> & Hq & _). split; [set_solver|done]. Qed.

(** An update that is let in: the kind of the requirement, in the name of the
    principal if there is one, and the rest as it was asked for. *)
Definition admitted (principal : option Principal) (q : EvidenceRequirement) (e : EvidenceExecution) : EvidenceExecution :=
  mkEvidenceExecution (ee_ChangePacketID e) (ee_Name e) (er_Type_ q) (ee_Status e) (er_Required q) (ee_Summary e)
    (ee_DetailsURL e) (match principal with Some p => Subject p | None => ee_UpdatedBy e end) (ee_Metadata e)
    (ee_UpdatedAt e).

(** What the update read and checked, when it goes on. *)
Record checked_ok (principal : option Principal) (e : EvidenceExecution) (v : View)
    (packet : ChangePacket) (e1 : EvidenceExecution) (from : EvidenceStatus) : Prop := {
  co_packet : v_packets v !! ee_ChangePacketID e = Some packet;
  co_req : ∃ q, requirement_named (cp_Evidence packet) (ee_Name e) q ∧ e1 = admitted principal q e;
  co_id : ee_ChangePacketID e1 = ee_ChangePacketID e;
  co_name : ee_Name e1 = ee_Name e;
  co_status : ee_Status e1 = ee_Status e;
  co_valid : validEvidenceStatus (ee_Status e) = true;
  co_by : ee_UpdatedBy e1 = match principal with Some p => Subject p | None => ee_UpdatedBy e end;
  co_waived : ee_Status e = EvidenceWaived → TrimSpace (ee_UpdatedBy e1) ≠ "";
  co_from : from = status_of v (ee_ChangePacketID e) (ee_Name e);
  co_step : canTransitionEvidence from (ee_Status e) = true;
}.

Lemma checked_update_inv principal e w r w' :
  view_keyed (view w) → checked_update principal e w = (r, w') →
  view w' = view w ∧
  match r with
  | Ok (packet, e1, from) => checked_ok principal e (view w) packet e1 from
  | Err err => ¬ wrapped err
  end.
Proof.
  intros Hk. unfold checked_update, throw.
  case_decide as Hid; [by intros [= <- <-]|]. case_decide as Hname; [by intros [= <- <-]|].
  destruct (negb (validEvidenceStatus _)) eqn:Hvalid; [by intros [= <- <-]|]. apply negb_false_iff in Hvalid.
  set (e0 := match principal with Some p => _ | None => _ end).
  assert (ee_Status e0 = ee_Status e ∧ ee_ChangePacketID e0 = ee_ChangePacketID e ∧ ee_Name e0 = ee_Name e ∧
    ee_UpdatedBy e0 = match principal with Some p => Subject p | None => ee_UpdatedBy e end)
    as (Es & Ei & En & Eb) by (by destruct principal).
  assert (∀ q, ee_with_Required (er_Required q) (ee_with_Type_ (er_Type_ q) e0) = admitted principal q e) as Ha
    by (by intros q; destruct principal).
  clearbody e0. rewrite Es, Ei, En. case_decide as Hw; [by intros [= <- <-]|].
  intros [(packet & w1 & (r0 & Hg & Hr)%wrapE_inv & H)|(err & (r0 & Hg & Hr)%wrapE_inv & ->)]%stateE_bind_inv;
    destruct (get_packet_law _ _ _ _ Hg) as [Hv Hp]; destruct r0; simplify_eq/=; [|done].
  destruct (findEvidenceRequirement _ _) as [q|] eqn:Eq; [|injection H as <- <-; done].
  apply findEvidenceRequirement_Some in Eq as Hq.
  apply stateE_bind_inv in H as [(from & w2 & Hc & H)|(err & Hc & ->)];
    (destruct (current_status_inv _ _ _ _ _ ltac:(by rewrite Hv) Hc) as [Hv2 Hs]); [|split; [congruence|done]].
  rewrite Hv in Hs. destruct (negb _) eqn:Et; injection H as <- <-; (split; [congruence|]); [by intros []|].
  apply negb_false_iff in Et. constructor; cbn; try done.
  - exists q. by rewrite Ha.
  - intros Hst Hb. apply Hw. done.
Qed.

(** Reconciling touches three fields of a packet, and the lane is the assigner's
    or the one it had. *)
Definition lane_follows (s : Service W) (now : Time) (packet p' : ChangePacket) : Prop :=
  ∃ p1, (∃ decision, p1 = cp_with_UpdatedAt now (cp_with_Decision decision packet)) ∧
  match laneAssigner s with
  | Some assign => ∃ lane, assign p1 = Ok lane ∧ p' = cp_with_MergeLane_ lane p1
  | None => p' = p1
  end.

Lemma assign_lane_inv s now decision packet :
  match assign_lane s (cp_with_UpdatedAt now (cp_with_Decision decision packet)) with
  | Ok p' => cp_ID p' = cp_ID packet ∧ cp_Decision p' = decision ∧ lane_follows s now packet p'
  | Err e => wrapped e
  end.
Proof.
  set (p1 := cp_with_UpdatedAt _ _). unfold assign_lane, lane_follows.
  destruct (laneAssigner s) as [assign|].
  - destruct (assign p1) as [lane|] eqn:E; cbn; [|done]. split_and!; [done|done|]. exists p1. eauto 6.
  - split_and!; [done|done|]. exists p1. eauto 6.
Qed.

Lemma lane_follows_fields s now packet p' :
  lane_follows s now packet p' →
  cp_ID p' = cp_ID packet ∧ cp_Repo p' = cp_Repo packet ∧ cp_PR p' = cp_PR packet ∧ cp_Evidence p' = cp_Evidence packet.
Proof.
  intros (p1 & (decision & ->) & H). destruct (laneAssigner s); [destruct H as (lane & _ & ->)|subst p']; done.
Qed.

Lemma reconciled_decision_follows now v packet es p' :
  view_keyed v → es ≡ₚ (map_to_list (executions_of v (cp_ID packet))).*2 →
  cp_Decision p' = reconciled_decision now packet es → decision_follows now v packet p'.
Proof.
  intros [_ Hk] Hes Hd. unfold decision_follows. rewrite Hd. unfold reconciled_decision.
  case_decide; [done|]. eexists. split; [|split; [done|]]; [by case_match; set_solver|].
  pose proof (listed_complete (executions_of v (cp_ID packet)) es (Hk _) Hes (cp_Evidence packet)) as Hc.
  destruct (requiredEvidenceComplete _ _); cbn.
  - destruct (hasMandatoryReviewers _) eqn:Hm; cbn.
    + split; [done|]. intros [_ Hr%hasMandatoryReviewers_false]. congruence.
    + split; [|done]. intros _. split; [exact (proj1 Hc eq_refl)|]. by apply hasMandatoryReviewers_false.
  - split; [done|]. intros [Hcomplete _]. by specialize (proj2 Hc Hcomplete).
Qed.

Lemma reconcile_inv s t packet w r w' :
  view_keyed (view w) → publisher_keeps_view s → reconcileDecision s t packet w = (r, w') →
  (view w' = view w ∧ ∃ e, r = Err e ∧ wrapped e) ∨
  (∃ p' head, view w' = saved_packet (sync_time (at_save t) p') p' head (view w) ∧
     (same_pull (v_heads (view w) !! cp_ID p') p' → head = head_of p') ∧ cp_ID p' = cp_ID packet ∧
     decision_follows (at_reconcile t) (view w) packet p' ∧ lane_follows s (at_reconcile t) packet p' ∧
     match r with Ok _ => True | Err e => wrapped e end).
Proof.
  intros Hk Hpub. unfold reconcileDecision.
  intros [(es & w1 & (r0 & Hl & Hr)%wrapE_inv & H)|(err & (r0 & Hl & Hr)%wrapE_inv & ->)]%stateE_bind_inv;
    destruct (list_executions_law _ _ _ _ Hl) as [Hv Hes]; destruct r0; simplify_eq/=; [|left; split; [done|by eexists]].
  set (p1 := cp_with_UpdatedAt _ _) in *. pose proof (assign_lane_inv s (at_reconcile t) (reconciled_decision (at_reconcile t) packet a) packet) as Ha.
  fold p1 in Ha.
  apply stateE_bind_inv in H as [(p' & w2 & [= Hlane <-] & H)|(err & [= Hlane <-] & ->)]; rewrite Hlane in Ha;
    [|left; eauto].
  destruct Ha as (Hid & Hd & Hf).
  apply stateE_bind_inv in H as [([] & w3 & (r0 & Hsave & Hr)%wrapE_inv & H)|(err & (r0 & Hsave & Hr)%wrapE_inv & ->)];
    destruct (save_packet_law _ _ _ _ _ Hsave) as (head & Hv3 & Hhead); rewrite Hv in Hv3, Hhead; cycle 1.
  { destruct r0 as [|e0]; simplify_eq/=. destruct Hv3 as [Hv3|[Hv3 _]]; [left; split; [done|by eexists]|right].
    exists p', head. split_and!; [done..| |done|done]. eapply (reconciled_decision_follows _ _ _ _ _ Hk Hes). by rewrite Hd. }
  destruct r0; simplify_eq/=. right. exists p', head.
  assert (view w' = view w3 ∧ match r with Ok _ => True | Err e => wrapped e end) as [Hw Hr].
  { destruct (checkPublisher s) as [publish|] eqn:Ep; [|by injection H as <- <-].
    apply wrapE_inv in H as (r0 & Hp & ->). split; [by eapply Hpub|]. by destruct r0. }
  split_and!; [congruence|done|done| |done|done].
  eapply (reconciled_decision_follows _ _ _ _ _ Hk Hes). by rewrite Hd.
Qed.

Lemma audit_of_appended a v id :
  audit_of (appended_audit a v) id = if decide (id = ea_ChangePacketID a) then audit_of v id ++ [a] else audit_of v id.
Proof.
  unfold audit_of at 1, appended_audit. cbn. case_decide as E; [subst id; by rewrite lookup_insert_eq|].
  by rewrite lookup_insert_ne.
Qed.

(** What is true of the view the update writes first. *)
Lemma recorded_view t principal e v packet e1 from :
  checked_ok principal e v packet e1 from →
  let e2 := ee_with_UpdatedAt (at_update t) e1 in
  evidence_recorded kept_time t e2 packet v
    (appended_audit (kept_audit kept_time (audit_entry t e2 from))
       (saved_execution (kept_execution kept_time (stamped (at_store t) e2)) v)).
Proof.
  intros [Hp (q & Hq%requirement_named_elem & He1) Hi Hn Hs Hv Hb Hw -> Hstep] e2.
  assert (ee_ChangePacketID e2 = ee_ChangePacketID e ∧ ee_Name e2 = ee_Name e ∧ ee_Status e2 = ee_Status e)
    as (Ei & En & Es) by done.
  set (e3 := kept_execution _ _).
  assert (ee_ChangePacketID e3 = ee_ChangePacketID e ∧ ee_Name e3 = ee_Name e ∧ ee_Status e3 = ee_Status e)
    as (Ei3 & En3 & Es3) by (subst e3; unfold stamped; by case_decide).
  constructor; rewrite ?Ei, ?En, ?Es; [done| |done| | |done| |done].
  - exists q. subst e2. rewrite He1. cbn. naive_solver.
  - intros id. rewrite audit_of_appended. cbn. by rewrite Hi.
  - intros id name. change (status_of (appended_audit _ ?v) id name) with (status_of v id name).
    by rewrite status_saved_execution, Ei3, En3, Es3.
  - intros Hk. exact (saved_execution_keyed _ _ Hk).
Qed.

(** Saving the reconciled packet leaves the evidence part alone. *)
Lemma recorded_saved keep t e p v v' now p' head :
  (view_keyed v' → view_indexed v' → head = head_of p') →
  evidence_recorded keep t e p v v' → evidence_recorded keep t e p v (saved_packet now p' head v').
Proof.
  intros Hh [? ? ? ? Hst ? Hk Hi]. constructor; try done.
  - intros id name. by rewrite status_saved_packet.
  - intros Hv. by apply saved_packet_keyed, Hk.
  - intros Hv Hv2. rewrite Hh by auto. by apply saved_packet_indexed, Hi.
Qed.

(** Errors after which an update may have been recorded all the same: while the
    packet was brought up to date, or because an answer of the backend got lost. *)
Definition interrupted (e : ServiceError) : Prop := wrapped e ∨ ∃ err, e = StoreFailed (Backend err).

Lemma decision_follows_status now v v' p p' :
  (∀ id n, status_of v' id n = status_of v id n) → decision_follows now v p p' → decision_follows now v' p p'.
Proof.
  intros Hs. unfold decision_follows, evidence_complete. case_decide; [done|].
  intros (status & ? & ? & Hiff). exists status. split_and!; [done..|]. rewrite Hiff. by setoid_rewrite Hs.
Qed.

(** A run of the update is refused without a trace, or records the evidence, and
    then saves the packet or fails to. *)
Lemma update_inv s t principal e w r w' :
  view_keyed (view w) → publisher_keeps_view s →
  UpdateEvidenceExecution s t principal e w = (r, w') →
  (∃ err, r = Err err ∧ ¬ wrapped err ∧ view w' = view w) ∨
  (∃ packet e1 from, checked_ok principal e (view w) packet e1 from ∧
    let e2 := ee_with_UpdatedAt (at_update t) e1 in
    evidence_recorded kept_time t e2 packet (view w) (view w') ∧
    match r with Ok e' => e' = e2 | Err err => interrupted err end ∧
    let written := appended_audit (kept_audit kept_time (audit_entry t e2 from))
      (saved_execution (kept_execution kept_time (stamped (at_store t) e2)) (view w)) in
    (view w' = written ∧ (∃ err, r = Err err) ∨
     ∃ p' head, view w' = saved_packet (sync_time (at_save t) p') p' head written ∧ cp_ID p' = ee_ChangePacketID e ∧
       (same_pull (v_heads (view w) !! cp_ID p') p' → head = head_of p') ∧
       decision_follows (at_reconcile t) (view w') packet p' ∧ lane_follows s (at_reconcile t) packet p')).
Proof.
  intros Hk Hpub. unfold UpdateEvidenceExecution.
  intros [([[packet e1] from] & w1 & Hc & H)|(err & Hc & ->)]%stateE_bind_inv;
    destruct (checked_update_inv _ _ _ _ _ Hk Hc) as [Hv Hok]; [|left; by eexists].
  unfold commit_update in H. set (e2 := ee_with_UpdatedAt _ e1) in *.
  apply stateE_bind_inv in H as [([] & w2 & (r0 & Hrec & Hr)%wrapE_inv & H)|(err & (r0 & Hrec & Hr)%wrapE_inv & ->)];
    pose proof (record_update_law _ _ _ _ _ _ Hrec) as Hv2; rewrite Hv in Hv2;
    pose proof (recorded_view t _ _ _ _ _ _ Hok) as Hrv; cbn zeta in Hrv; fold e2 in Hrv; cycle 1.
  { destruct r0 as [|e0]; simplify_eq/=. destruct Hv2 as [Hv2|[Hv2 [err ->]]]; [left; by eexists|].
    right. exists packet, e1, from. split; [done|]. rewrite <- Hv2 in Hrv. split; [done|]. split; [right; by eexists|].
    left. split; [done|by eexists]. }
  destruct r0; simplify_eq/=. right. exists packet, e1, from. split; [done|]. rewrite <- Hv2 in Hrv.
  assert (cp_ID packet = ee_ChangePacketID e) as Hid by (apply Hk, (co_packet _ _ _ _ _ _ Hok)).
  assert (v_packets (view w2) = v_packets (view w)) as Hp2 by (by rewrite Hv2).
  assert (view_keyed (view w2)) as Hk2 by (by apply (rc_keyed _ _ _ _ _ _ Hrv)).
  assert (∃ r3, reconcileDecision s t packet w2 = (r3, w') ∧
    match r with Ok e' => e' = e2 ∧ r3 = Ok () | Err err => r3 = Err err end) as (r3 & Hrc & Hr).
  { apply stateE_bind_inv in H as [([] & w3 & Hrc & Hret)|(err & Hrc & ->)]; [|by eauto].
    injection Hret as <- <-. eauto. }
  apply reconcile_inv in Hrc as [(Hv3 & err' & -> & Herr)|(p' & head & Hv3 & Hhead & Hid' & Hd & Hl & Hr3)]; [| |done|done].
  - rewrite Hv3. destruct r as [|err]; [by destruct Hr|]. simplify_eq. split; [done|]. split; [by left|]. eauto.
  - rewrite Hv3. split_and!.
    { apply recorded_saved; [|done]. intros _ Hx. apply Hhead. rewrite Hid', Hid, (Hx _ packet).
      - destruct (lane_follows_fields _ _ _ _ Hl) as (_ & E1 & E2 & _). cbn. by rewrite E1, E2.
      - rewrite Hp2. apply (co_packet _ _ _ _ _ _ Hok). }
    { destruct r; [by destruct Hr|subst; by left]. }
    right. exists p', head. fold e2. rewrite <- Hv2, Hid', Hid. split_and!; [done|done| | |done].
    { rewrite <- Hid, <- Hid'. by rewrite Hv2 in Hhead. }
    eapply decision_follows_status; [|exact Hd]. intros. by rewrite status_saved_packet.
Qed.

(** ** The audit trail *)

(** The status a sequence of audit entries leads to, when every entry starts
    where the last one ended and takes an allowed step. *)
Fixpoint trail (from : EvidenceStatus) (entries : list EvidenceAuditEntry) : option EvidenceStatus :=
  match entries with
  | [] => Some from
  | a :: entries' =>
      if bool_decide (ea_FromStatus a = from) && canTransitionEvidence from (ea_ToStatus a)
      then trail (ea_ToStatus a) entries' else None
  end.

Definition entries_for (name : string) (entries : list EvidenceAuditEntry) : list EvidenceAuditEntry :=
  filter (λ a, ea_EvidenceName a = name) entries.

(** The audit trail of every evidence explains its status. *)
Definition trail_consistent (v : View) : Prop :=
  ∀ id name, trail EvidencePending (entries_for name (audit_of v id)) = Some (status_of v id name).

(** What clients ask of the service and the ingest of its repository. *)
Inductive Request :=
  | UpdateRequest (t : Readings) (principal : option Principal) (e : EvidenceExecution)
  | OutcomeRequest (n : nat) (now : Time) (o : DeploymentOutcome)
  | SaveRequest (now : Time) (packet : ChangePacket)
  | ReadRequest (id : string).

Definition serve (s : Service W) (w : W) (request : Request) : W :=
  match request with
  | UpdateRequest t principal e => (UpdateEvidenceExecution s t principal e w).2
  | OutcomeRequest n now o => (RecordDeploymentOutcome n now o w).2
  | SaveRequest now packet => (SaveChangePacket now packet w).2
  | ReadRequest id => (GetChangePacketView id w).2
  end.

Lemma trail_snoc from l a :
  trail from (l ++ [a]) =
  (s ← trail from l; if bool_decide (ea_FromStatus a = s) && canTransitionEvidence s (ea_ToStatus a)
                     then Some (ea_ToStatus a) else None).
Proof. revert from. induction l as [|b l IH]; intros from; cbn; [done|]. by destruct (_ && _). Qed.

Lemma entries_for_snoc name l a :
  entries_for name (l ++ [a]) = entries_for name l ++ (if decide (ea_EvidenceName a = name) then [a] else []).
Proof. unfold entries_for. rewrite filter_app, filter_cons, filter_nil. by case_decide. Qed.

Lemma evidence_recorded_trail keep t e p v v' :
  evidence_recorded keep t e p v v' → trail_consistent v → trail_consistent v'.
Proof.
  intros [_ _ Hstep Haudit Hstatus _ _ _] Hv id name. rewrite Haudit, Hstatus.
  case_decide as Hid; [|by rewrite decide_False by (by intros [<- _])].
  rewrite entries_for_snoc. cbn. subst id. destruct (decide (ee_Name e = name)) as [Hn|Hn].
  - rewrite decide_True by done. rewrite trail_snoc, (Hv (ee_ChangePacketID e) name). cbn. subst name.
    by rewrite bool_decide_eq_true_2, Hstep.
  - rewrite app_nil_r, decide_False by (by intros [_ ?]). apply Hv.
Qed.

(** The steps keep the invariant, and never move a settled evidence. *)
Definition settled_stays (v v' : View) : Prop :=
  ∀ id name, status_of v id name ∈ [EvidenceSatisfied; EvidenceWaived] → status_of v' id name = status_of v id name.

Lemma evidence_recorded_settled keep t e p v v' : evidence_recorded keep t e p v v' → settled_stays v v'.
Proof.
  intros [_ _ Hstep _ Hstatus _ _ _] id name Hs. rewrite Hstatus. case_decide as Hd; [|done].
  destruct Hd as [<- <-]. by apply canTransition_final.
Qed.

(** Calls that do not write. *)
Definition keeps_view {E A} (m : stateE W E A) : Prop := ∀ w r w', m w = (r, w') → view w' = view w.

Lemma keeps_view_bind {E A B} (m : stateE W E A) (f : A → stateE W E B) :
  keeps_view m → (∀ a, keeps_view (f a)) → keeps_view (m ≫= f).
Proof.
  intros Hm Hf w r w' [(a & w1 & H1 & H2)|(e & H1 & ->)]%stateE_bind_inv; [|by eapply Hm].
  etrans; [by eapply Hf|by eapply Hm].
Qed.

Lemma keeps_view_wrap {E E' A} (f : E → E') (m : stateE W E A) : keeps_view m → keeps_view (wrapE f m).
Proof. intros Hm w r w' (r0 & H & ->)%wrapE_inv. by eapply Hm. Qed.

Lemma keeps_view_ret {E A} (a : A) : keeps_view (mret a : stateE W E A).
Proof. by intros w r w' [= <- <-]. Qed.

Lemma keeps_view_get id : keeps_view (GetChangePacket id).
Proof. intros w r w' H. by apply get_packet_law in H as [? _]. Qed.

Lemma keeps_view_executions id : keeps_view (ListEvidenceExecutions id).
Proof. intros w r w' H. by apply list_executions_law in H as [? _]. Qed.

Lemma keeps_view_audit id limit : keeps_view (ListEvidenceAuditEntries id limit).
Proof. intros w r w'. apply list_audit_law. Qed.

Lemma keeps_view_packets limit : keeps_view (ListChangePackets limit).
Proof. intros w r w'. apply list_packets_law. Qed.

Lemma keeps_view_outcomes limit : keeps_view (ListDeploymentOutcomes limit).
Proof. intros w r w'. apply list_outcomes_law. Qed.

Lemma GetChangePacketView_keeps id : keeps_view (GetChangePacketView id).
Proof.
  repeat first [apply keeps_view_bind; [|intros ?]|apply keeps_view_wrap|apply keeps_view_ret].
  - apply keeps_view_get.
  - apply keeps_view_executions.
  - apply keeps_view_audit.
Qed.

(** The outcome that a request records for a packet. *)
Record outcome_of (p : ChangePacket) (o o' : DeploymentOutcome) : Prop := {
  oc_id : do_ChangePacketID o' = do_ChangePacketID o;
  oc_outcome : do_Outcome o' = do_Outcome o;
  oc_source : do_Source o' = do_Source o;
  oc_valid : validDeploymentOutcome (do_Outcome o) = true;
  oc_valid_source : validOutcomeSource (do_Source o) = true;
  oc_lane : do_Lane o' = cp_MergeLane_ p;
  oc_risks : do_RiskTypes o' = rs_Contributors (cp_RiskSummary_ p);
}.

Definition outcome_written (o : DeploymentOutcome) (v v' : View) (o' : DeploymentOutcome) : Prop :=
  ∃ p, v_packets v !! do_ChangePacketID o = Some p ∧ v' = appended_outcome (kept_outcome kept_time o') v ∧ outcome_of p o o'.

Lemma outcome_inv n now o w r w' :
  RecordDeploymentOutcome n now o w = (r, w') →
  match r with
  | Ok o' => outcome_written o (view w) (view w') o'
  | Err err => view w' = view w ∨ (∃ e, err = StoreFailed (Backend e)) ∧ ∃ o', outcome_written o (view w) (view w') o'
  end.
Proof.
  unfold RecordDeploymentOutcome, throw. case_decide as Hid; [intros [= <- <-]; by left|].
  destruct (validDeploymentOutcome _) eqn:Hv; [|intros [= <- <-]; by left].
  destruct (validOutcomeSource _) eqn:Hs; [|intros [= <- <-]; by left]. cbn [negb].
  intros [(packet & w1 & (r0 & Hg & Hr)%wrapE_inv & H)|(err & (r0 & Hg & Hr)%wrapE_inv & ->)]%stateE_bind_inv;
    destruct (get_packet_law _ _ _ _ Hg) as [Hv1 Hp]; destruct r0; simplify_eq/=; [|by left].
  set (o' := mkDeploymentOutcome _ _ _ _ _ _ _) in H.
  assert (outcome_of a o o') as Ho by by constructor.
  apply stateE_bind_inv in H as [([] & w2 & (r0 & Hsave & Hr)%wrapE_inv & H)|(err & (r0 & Hsave & Hr)%wrapE_inv & ->)];
    pose proof (save_outcome_law _ _ _ _ Hsave) as Hv2; rewrite Hv1 in Hv2; destruct r0; simplify_eq/=.
  - injection H as <- <-. by exists a.
  - destruct Hv2 as [Hv2|[Hv2 [err ->]]]; [by left|]. right. split; [by eexists|]. by exists o', a.
Qed.

Lemma serve_inv s w request :
  publisher_keeps_view s → view_keyed (view w) → trail_consistent (view w) →
  view_keyed (view (serve s w request)) ∧ trail_consistent (view (serve s w request)) ∧
  settled_stays (view w) (view (serve s w request)).
Proof.
  intros Hpub Hk Ht. assert (∀ v, v = view w → view_keyed v ∧ trail_consistent v ∧ settled_stays (view w) v) as Hsame
    by (by intros v ->).
  destruct request as [t principal e|n now o|now p|id]; cbn.
  - destruct (UpdateEvidenceExecution _ _ _ _ _) as [r w'] eqn:E. cbn.
    apply update_inv in E as [(_ & _ & _ & Hv)|(p & e1 & from & _ & Hrec & _)]; [by apply Hsame| |done|done].
    split; [|split]; [by apply (rc_keyed _ _ _ _ _ _ Hrec)|by eapply evidence_recorded_trail|by eapply evidence_recorded_settled].
  - destruct (RecordDeploymentOutcome _ _ _ _) as [r w'] eqn:E. apply outcome_inv in E. cbn.
    destruct r; [by destruct E as (p & _ & -> & _)|].
    destruct E as [?|(_ & o' & p & _ & -> & _)]; [by apply Hsame|done].
  - destruct (SaveChangePacket _ _ _) as [r w'] eqn:E. apply save_packet_law in E as (head & E & _). cbn.
    assert (view w' = view w ∨ view w' = saved_packet (sync_time now p) p head (view w)) as [?| ->]
      by (destruct r; [by right|destruct E as [?|[? _]]; auto]); [by apply Hsame|].
    split; [|split]; [by apply saved_packet_keyed| |].
    + intros i name. rewrite status_saved_packet. apply Ht.
    + intros i name _. by rewrite status_saved_packet.
  - destruct (GetChangePacketView _ _) as [r w'] eqn:E. apply GetChangePacketView_keeps in E. by apply Hsame.
Qed.

(** ** Theorems *)

(** C2: a successful evidence update takes an allowed step of an evidence that the
    stored packet asks for, and this is all it does: it stores the evidence as the
    request gives it, with the kind of the requirement, under the name of the
    principal and at the time of the update; it appends one audit entry, which tells
    the step and who took it; and it saves the packet with nothing changed but its
    time, its lane (the assigner's) and its decision, which stays what it is when
    blocked and otherwise is approved or pending, approved exactly when all required
    evidence is settled and no reviewer is mandatory. *)
Theorem update_success s t principal e w e' w' :
  view_keyed (view w) → publisher_keeps_view s →
  UpdateEvidenceExecution s t principal e w = (Ok e', w') →
  let by_ := match principal with Some p => Subject p | None => ee_UpdatedBy e end in
  let from := status_of (view w) (ee_ChangePacketID e) (ee_Name e) in
  ∃ packet q p' head,
    v_packets (view w) !! ee_ChangePacketID e = Some packet ∧
    requirement_named (cp_Evidence packet) (ee_Name e) q ∧
    canTransitionEvidence from (ee_Status e) = true ∧
    (ee_Status e = EvidenceWaived → TrimSpace by_ ≠ "") ∧
    e' = mkEvidenceExecution (ee_ChangePacketID e) (ee_Name e) (er_Type_ q) (ee_Status e) (er_Required q) (ee_Summary e)
           (ee_DetailsURL e) by_ (ee_Metadata e) (at_update t) ∧
    let audit := mkEvidenceAuditEntry (New "evidence_audit" (audit_number t)) (ee_ChangePacketID e) (ee_Name e)
                   from (ee_Status e) by_ (ee_Summary e) (ee_DetailsURL e) (ee_Metadata e) (kept_time (at_update t)) in
    view w' = saved_packet (sync_time (at_save t) p') p' head
      (appended_audit audit (saved_execution (kept_execution kept_time (stamped (at_store t) e')) (view w))) ∧
    cp_ID p' = ee_ChangePacketID e ∧ (same_pull (v_heads (view w) !! cp_ID p') p' → head = head_of p') ∧
    decision_follows (at_reconcile t) (view w') packet p' ∧ lane_follows s (at_reconcile t) packet p'.
Proof.
  intros Hk Hpub [(err & [=] & _)|(packet & e1 & from & Hok & Hrec & -> & Hsave)]%update_inv by_ from0; [|done|done].
  destruct Hok as [Hp (q & Hq & ->) _ _ _ _ _ Hw -> Hstep].
  destruct Hsave as [(_ & err & [=])|(p' & head & Hv & Hid & Hhead & Hd & Hl)].
  exists packet, q, p', head. split_and!; try done.
Qed.

(** C3: a refused evidence update (invalid, unknown, not allowed) leaves the
    repository as it was; an update that fails while it brings the packet up to
    date has recorded the evidence all the same; and when the backend fails under
    the update itself, it is recorded with its audit entry or not at all. *)
Theorem update_failure s t principal e w err w' :
  view_keyed (view w) → publisher_keeps_view s →
  UpdateEvidenceExecution s t principal e w = (Err err, w') →
  let recorded := ∃ packet e', ee_Status e' = ee_Status e ∧ ee_Name e' = ee_Name e ∧
    evidence_recorded kept_time t e' packet (view w) (view w') in
  match err with
  | Wrapped _ _ => recorded
  | StoreFailed (Backend _) => view w' = view w ∨ recorded
  | _ => view w' = view w
  end.
Proof.
  intros Hk Hpub [(err' & [= <-] & Hw & Hv)|(packet & e1 & from & Hok & Hrec & Hw & _)]%update_inv recorded; [| |done|done].
  - destruct err as [| | |[]| |]; try done. by left.
  - assert recorded as Hr by (exists packet, (ee_with_UpdatedAt (at_update t) e1); by destruct Hok).
    destruct Hw as [|[b ->]]; [by destruct err|by right].
Qed.

(** C1: requests served one after the other, in any order and however they end,
    keep the audit trail: the entries of each evidence start at pending, each
    starts where the one before ended and takes an allowed step, and the last
    one ends in the current status; and evidence once satisfied or waived stays
    so. *)
Theorem serve_all_trail s w requests :
  publisher_keeps_view s → view_keyed (view w) → trail_consistent (view w) →
  trail_consistent (view (foldl (serve s) w requests)) ∧
  settled_stays (view w) (view (foldl (serve s) w requests)).
Proof.
  intros Hpub. revert w. induction requests as [|q requests IH]; intros w Hk Ht; [done|].
  destruct (serve_inv s w q Hpub Hk Ht) as (Hk' & Ht' & Hs). destruct (IH _ Hk' Ht') as [Ht2 Hs2].
  split; [done|]. intros id name Hid. cbn [foldl]. rewrite <- (Hs id name Hid). apply Hs2. by rewrite Hs.
Qed.

(** A recorded deployment outcome belongs to a stored packet, has one of the
    three kinds and a well-formed source, and takes its lane and its risk types
    from the packet, whatever the request said; anything else is refused and
    leaves the repository as it was, unless it is the answer of the backend that
    got lost. *)
Theorem outcome_recorded n now o w r w' :
  RecordDeploymentOutcome n now o w = (r, w') →
  match r with
  | Ok o' => outcome_written o (view w) (view w') o'
  | Err err => view w' = view w ∨ (∃ e, err = StoreFailed (Backend e)) ∧ ∃ o', outcome_written o (view w) (view w') o'
  end.
Proof. apply outcome_inv. Qed.
End updates.

(** ** Calibration counts *)

Section calibration.
Context `{HM : MapOrder}.

(** The counter that [pairs] of a key and an outcome give to a key. *)
Definition counter_of (key : string) (pairs : list (string * DeploymentOutcome)) : calibrationCounter :=
  mkCalibrationCounter
    (sumZ (λ ko, if bool_decide (ko.1 = key) then 1 else 0) pairs)
    (sumZ (λ ko, if bool_decide (ko.1 = key) && adverse_outcome ko.2 then 1 else 0) pairs).

Definition lane_pairs (outcomes : list DeploymentOutcome) : list (string * DeploymentOutcome) :=
  (λ o, (do_Lane o, o)) <$> outcomes.
Definition risk_pairs (outcomes : list DeploymentOutcome) : list (string * DeploymentOutcome) :=
  outcomes ≫= λ o, (λ riskType, (riskType, o)) <$> do_RiskTypes o.

Definition add_pair (counters : gmap string calibrationCounter) (ko : string * DeploymentOutcome)
    : gmap string calibrationCounter := addCalibration counters ko.1 ko.2.

Lemma count_outcomes a b outcomes :
  foldl count_outcome (a, b) outcomes =
  (foldl add_pair a (lane_pairs outcomes), foldl add_pair b (risk_pairs outcomes)).
Proof.
  revert a b. induction outcomes as [|o outcomes IH]; intros a b; [done|]. cbn [foldl].
  rewrite (surjective_pairing (count_outcome _ _)), IH.
  unfold lane_pairs, risk_pairs. cbn [fmap list_fmap mbind list_bind foldl]. rewrite foldl_app. f_equal. f_equal.
  unfold count_outcome. cbn [snd fst]. induction (do_RiskTypes o) as [|k ks IHk] in b |- *; [done|]. cbn. apply IHk.
Qed.

Lemma counter_of_absent key pairs : key ∉ pairs.*1 → counter_of key pairs = mkCalibrationCounter 0 0.
Proof.
  unfold counter_of. induction pairs as [|[k o] pairs IH]; [done|].
  cbn [fmap list_fmap fst]. rewrite not_elem_of_cons. intros [Hk Hp]. cbn.
  rewrite (bool_decide_eq_false_2 (k = key)) by done. cbn. specialize (IH Hp). injection IH as ? ?. f_equal; lia.
Qed.

Lemma add_pairs_lookup pairs key :
  foldl add_pair ∅ pairs !! key =
  if bool_decide (key ≠ "" ∧ key ∈ pairs.*1) then Some (counter_of key pairs) else None.
Proof.
  induction pairs as [|[k o] pairs IH] using rev_ind.
  { cbn [foldl]. rewrite lookup_empty, bool_decide_eq_false_2; [done|]. cbn. set_solver. }
  rewrite foldl_app. cbn [foldl].
  change (add_pair ?m (k, o)) with (addCalibration m k o). unfold addCalibration.
  assert (counter_of key (pairs ++ [(k, o)]) =
    mkCalibrationCounter (samples (counter_of key pairs) + (if bool_decide (k = key) then 1 else 0))
      (adverse (counter_of key pairs) + (if bool_decide (k = key) && adverse_outcome o then 1 else 0))) as ->.
  { unfold counter_of. rewrite !sumZ_app. cbn. f_equal; lia. }
  rewrite fmap_app. cbn [fmap list_fmap fst].
  assert (key ∈ pairs.*1 ++ [k] ↔ key ∈ pairs.*1 ∨ key = k) as Hin
    by (rewrite elem_of_app, list_elem_of_singleton; done).
  rewrite (bool_decide_ext _ (key ≠ "" ∧ (key ∈ pairs.*1 ∨ key = k))) by (rewrite Hin; done).
  destruct (decide (k = key)) as [->|Hne].
  - rewrite (bool_decide_eq_true_2 (key = key)) by done. cbn [andb].
    destruct (decide (key = "")) as [Hk|Hk].
    { rewrite IH, !bool_decide_eq_false_2 by tauto. done. }
    rewrite lookup_insert_eq, IH, (bool_decide_eq_true_2 (_ ∧ (_ ∨ _))) by tauto. f_equal.
    case_bool_decide as H1; [|rewrite counter_of_absent by tauto]; cbn; destruct (adverse_outcome o); f_equal; lia.
  - rewrite (bool_decide_eq_false_2 (k = key)) by done. cbn [andb]. rewrite !Z.add_0_r.
    rewrite (bool_decide_ext _ (key ≠ "" ∧ key ∈ pairs.*1)) by (split; [|tauto]; intros [? [?|?]]; [tauto|congruence]).
    assert (∀ c, mkCalibrationCounter (samples c) (adverse c) = c) as -> by (by intros []).
    destruct (decide (k = "")); [|rewrite lookup_insert_ne by done]; apply IH.
Qed.

Lemma metrics_In dimension counters m :
  m ∈ calibrationMetrics dimension counters ↔
  ∃ key c, counters !! key = Some c ∧ m = calibration_metric dimension (key, c).
Proof.
  unfold calibrationMetrics. rewrite merge_sort_Permutation, list_elem_of_fmap. split.
  - intros ([key c] & -> & H%elem_of_map_range). eauto.
  - intros (key & c & H & ->). exists (key, c). by rewrite elem_of_map_range.
Qed.

Lemma metrics_NoDup dimension counters : NoDup (rcm_Value <$> calibrationMetrics dimension counters).
Proof.
  unfold calibrationMetrics. rewrite merge_sort_Permutation, <- list_fmap_compose.
  apply NoDup_map_range.
Qed.

#[local] Instance metric_le_total : Total metric_le.
Proof. intros a b. apply (total String.le). Qed.
#[local] Instance metric_le_trans : Transitive metric_le.
Proof. intros a b c. unfold metric_le. apply transitivity. Qed.

Lemma metrics_sorted dimension counters : StronglySorted metric_le (calibrationMetrics dimension counters).
Proof. apply StronglySorted_merge_sort; apply _. Qed.

(** The metrics of a dimension: one for each key that is not empty, sorted by
    it, with the number of its outcomes and of the adverse ones among them. *)
Definition metrics_report (dimension : string) (pairs : list (string * DeploymentOutcome))
    (metrics : list RiskCalibrationMetric) : Prop :=
  StronglySorted metric_le metrics ∧ NoDup (rcm_Value <$> metrics) ∧
  ∀ m, m ∈ metrics ↔
    ∃ key, key ≠ "" ∧ key ∈ pairs.*1 ∧ m = calibration_metric dimension (key, counter_of key pairs).

Lemma metrics_report_ok dimension pairs :
  metrics_report dimension pairs (calibrationMetrics dimension (foldl add_pair ∅ pairs)).
Proof.
  split; [apply metrics_sorted|]. split; [apply metrics_NoDup|]. intros m. rewrite metrics_In.
  apply exist_proper. intros key. rewrite add_pairs_lookup. case_bool_decide as H.
  - split; [intros (c & [= <-] & ->); naive_solver|]. intros (_ & _ & ->). eauto.
  - split; [by intros (c & [=] & _)|]. intros (? & ? & _). tauto.
Qed.

(** The calibration report has, for every lane and for every risk type that
    occurs in the outcomes read, one metric, sorted by it, that counts the
    outcomes of that lane or risk type and the rollbacks and incidents among
    them. *)
Theorem calibration_report_counts `{Repository W} now w report w' :
  RiskCalibrationReport_ now w = (Ok report, w') →
  ∃ outcomes, ListDeploymentOutcomes 10000 w = (Ok outcomes, w') ∧
    metrics_report "lane" (lane_pairs outcomes) (rcr_ByLane report) ∧
    metrics_report "risk_type" (risk_pairs outcomes) (rcr_ByRiskType report).
Proof.
  unfold RiskCalibrationReport_.
  intros [(outcomes & w1 & (r0 & Hl & Hr)%wrapE_inv & Hret)|(err & _ & [=])]%stateE_bind_inv.
  rewrite count_outcomes in Hret. injection Hret as <- <-. destruct r0; simplify_eq/=.
  eexists. split; [done|]. split; apply metrics_report_ok.
Qed.
End calibration.

(** ** Concrete runs on the memory repository *)

Definition demo_requirement : EvidenceRequirement :=
  mkEvidenceRequirement "test" "integration-tests" true "" "" None.
Definition demo_packet : ChangePacket :=
  cp_with_ID "cp_1" (cp_with_Evidence [demo_requirement]
    (cp_with_Decision (pd_with_Status DecisionPending zeroPolicyDecision) zeroChangePacket)).
Definition demo_execution (status : EvidenceStatus) : EvidenceExecution :=
  mkEvidenceExecution "cp_1" "integration-tests" "" status false "" "" "" ∅ 0.
Definition demo_readings : Readings := mkReadings 10 11 12 13 0.
Definition demo_writer : option Principal := Some (mkPrincipal "alice" [RoleEvidenceWriter]).

Section demo.
#[local] Existing Instance map_order_sorted.
#[local] Existing Instance counting_entropy.

Definition demo_service : Service MemoryRepository := NewService.
Definition demo_repository : MemoryRepository := (SaveChangePacket 5 demo_packet NewMemoryRepository).2.

Lemma demo_keyed : view_keyed (view demo_repository).
Proof.
  apply (saved_packet_keyed 5 demo_packet (head_of demo_packet) (memory_view NewMemoryRepository)). split; cbn.
  - intros id p. by rewrite lookup_empty.
  - intros id n e. unfold executions_of. cbn. by rewrite lookup_empty.
Defined.

Lemma demo_publishes : publisher_keeps_view demo_service.
Proof. by intros publish p es w r w'. Defined.

Lemma demo_trail : trail_consistent (view demo_repository).
Proof.
  intros id name. change (view demo_repository) with (saved_packet 5 demo_packet (head_of demo_packet) (memory_view NewMemoryRepository)).
  rewrite status_saved_packet. unfold audit_of, status_of, executions_of. cbn. by rewrite !lookup_empty.
Defined.

Lemma update_success_witness :
  ∃ p' head, view (UpdateEvidenceExecution demo_service demo_readings demo_writer (demo_execution EvidenceSatisfied) demo_repository).2 =
    saved_packet 13 p' head
      (appended_audit
         (mkEvidenceAuditEntry (New "evidence_audit" 0) "cp_1" "integration-tests" EvidencePending EvidenceSatisfied "alice" "" "" ∅ 10)
         (saved_execution (mkEvidenceExecution "cp_1" "integration-tests" "test" EvidenceSatisfied true "" "" "alice" ∅ 10)
            (view demo_repository))) ∧
    pd_Status (cp_Decision p') = DecisionApproved.
Proof.
  assert (pd_Status <$> (cp_Decision <$> changePackets (UpdateEvidenceExecution demo_service demo_readings demo_writer
    (demo_execution EvidenceSatisfied) demo_repository).2 !! "cp_1") = Some DecisionApproved) as Es
    by (vm_compute; reflexivity).
  destruct (UpdateEvidenceExecution demo_service demo_readings demo_writer (demo_execution EvidenceSatisfied) demo_repository)
    as [r w'] eqn:E.
  pose proof (f_equal fst E) as Er. vm_compute in Er. subst r.
  destruct (update_success _ _ _ _ _ _ _ demo_keyed demo_publishes E)
    as (packet & q & p' & head & _ & _ & _ & _ & _ & Hv & Hid & _).
  exists p', head. cbn [snd] in *. split; [exact Hv|].
  change (changePackets w') with (v_packets (view w')) in Es. rewrite Hv in Es. cbn in Es. rewrite Hid in Es.
  rewrite lookup_insert_eq in Es. by injection Es.
Defined.

(** A waiver that names nobody is refused. *)
Lemma update_failure_witness :
  view (UpdateEvidenceExecution demo_service demo_readings None (demo_execution EvidenceWaived) demo_repository).2 =
  view demo_repository.
Proof.
  destruct (UpdateEvidenceExecution demo_service demo_readings None (demo_execution EvidenceWaived) demo_repository)
    as [r w'] eqn:E.
  pose proof (f_equal fst E) as Er. vm_compute in Er. subst r.
  exact (update_failure _ _ _ _ _ _ _ demo_keyed demo_publishes E).
Defined.

Lemma serve_all_trail_witness :
  let requests := [UpdateRequest demo_readings demo_writer (demo_execution EvidenceRunning);
                   OutcomeRequest 1 20 (mkDeploymentOutcome "" "cp_1" DeploymentOutcomeSuccess "ci" "" [] 0);
                   UpdateRequest demo_readings demo_writer (demo_execution EvidenceSatisfied);
                   UpdateRequest demo_readings demo_writer (demo_execution EvidenceFailed)] in
  let w' := foldl (serve demo_service) demo_repository requests in
  trail_consistent (view w') ∧ status_of (view w') "cp_1" "integration-tests" = EvidenceSatisfied ∧
  length (audit_of (view w') "cp_1") = 2%nat.
Proof.
  intros requests w'. split; [|vm_compute; by split].
  exact (proj1 (serve_all_trail demo_service demo_repository requests demo_publishes demo_keyed demo_trail)).
Defined.

Lemma outcome_recorded_witness :
  view (RecordDeploymentOutcome 1 20 (mkDeploymentOutcome "" "cp_1" "exploded" "ci" "" [] 0) demo_repository).2 =
  view demo_repository.
Proof.
  destruct (outcome_recorded 1 20 (mkDeploymentOutcome "" "cp_1" "exploded" "ci" "" [] 0) demo_repository
    (Err (EvidenceValidationError "outcome" "must be one of success, rollback, or incident")) demo_repository eq_refl)
    as [H|[[e He] _]]; [exact H|discriminate He].
Defined.

(** Two writers interleaved: both read and check before either writes.  The
    service holds no lock across the two halves of an update. *)
Definition interleaved (e1 e2 : EvidenceExecution) (w : MemoryRepository) : MemoryRepository :=
  match checked_update demo_writer e1 w, checked_update demo_writer e2 w with
  | (Ok checked1, _), (Ok checked2, _) =>
      let '(_, w1) := commit_update demo_service demo_readings checked1 w in
      (commit_update demo_service demo_readings checked2 w1).2
  | _, _ => w
  end.

(** Without a lock across the check and the write of an update, two
    concurrent updates can move evidence that was satisfied back to failed, and
    leave an audit trail that no sequence of allowed steps explains. *)
Theorem interleaved_updates_break_trail :
  let w' := interleaved (demo_execution EvidenceSatisfied) (demo_execution EvidenceFailed) demo_repository in
  status_of (view w') "cp_1" "integration-tests" = EvidenceFailed ∧
  trail EvidencePending (entries_for "integration-tests" (audit_of (view w') "cp_1")) = None ∧
  ea_ToStatus <$> audit_of (view w') "cp_1" = [EvidenceSatisfied; EvidenceFailed].
Proof. vm_compute. done. Qed.
End demo.

Section demo_calibration.
#[local] Existing Instance map_order_sorted.

Definition demo_outcomes : MemoryRepository :=
  mkMemoryRepository ∅ ∅ ∅ ∅
    ((λ n, mkDeploymentOutcome "" "cp_1" (if (n =? 0)%nat then DeploymentOutcomeRollback else DeploymentOutcomeSuccess)
             "ci" "green" [RiskSchema] 0) <$> seq 0 5).

(** One rollback in five is enough for a review. *)
Lemma calibration_report_counts_witness :
  ∃ report outcomes, metrics_report "lane" (lane_pairs outcomes) (rcr_ByLane report) ∧
    rcm_Recommendation <$> rcr_ByLane report = ["review risk weight or require stronger evidence"].
Proof.
  destruct (RiskCalibrationReport_ 0 demo_outcomes) as [r w'] eqn:E.
  assert (match r with Ok report => rcm_Recommendation <$> rcr_ByLane report | Err _ => [] end =
    ["review risk weight or require stronger evidence"]) as Hr
    by (rewrite <- (f_equal fst E : _ = r); vm_compute; reflexivity).
  destruct r as [report|]; [|done].
  destruct (calibration_report_counts 0 demo_outcomes report w' E) as (outcomes & _ & Hm & _). eauto.
Defined.
End demo_calibration.
