(* ===== verification/Http.v ===== *)
(** [internal/controlplane/http.go], [access.go] and the server that
    [internal/app/controlplane/app.go] puts together: the mux, the handlers and
    the access middleware in front of them.

    A handler is a function of the request and the world to the response and the
    world after it.  Logging is left out.  A body is read by [encoding/json]
    through a reader that stops after [maxEvidenceRequestBodySize] bytes; the
    decoder is a parameter. *)
From stdpp Require Import base list gmap strings sorting.
From S2P Require Import Prelude GoStrings Domain Identity Lanes Events Store Access ControlPlane.

Local Open Scope string_scope.
Local Open Scope list_scope.
Local Open Scope Z_scope.

(** ** Requests and responses *)

Definition MethodGet : string := "GET".
Definition MethodPut : string := "PUT".
Definition MethodPost : string := "POST".

Definition StatusOK : Z := 200.
Definition StatusAccepted : Z := 202.
Definition StatusMovedPermanently : Z := 301.
Definition StatusBadRequest : Z := 400.
Definition StatusUnauthorized : Z := 401.
Definition StatusForbidden : Z := 403.
Definition StatusNotFound : Z := 404.
Definition StatusMethodNotAllowed : Z := 405.
Definition StatusConflict : Z := 409.
Definition StatusInternalServerError : Z := 500.

Record HTTPRequest := mkHTTPRequest {
  hr_Method : string;
  hr_Path : string;
  hr_Authorization : string;
  hr_Limit : option (list string);  (** [r.URL.Query()["limit"]] *)
  hr_Body : string;
}.

Inductive Payload :=
  | NoBody
  | Text (message : string)
  | PacketJSON (view : ChangePacketView)
  | PacketsJSON (items : list ChangePacket)
  | AuditJSON (items : list EvidenceAuditEntry)
  | ReportJSON (report : RiskCalibrationReport)
  | ExecutionJSON (execution : EvidenceExecution)
  | OutcomeJSON (outcome : DeploymentOutcome).

Record Response := mkResponse {
  rs_Status : Z;
  rs_Allow : option string;
  rs_Challenge : option string;  (** [WWW-Authenticate] *)
  rs_Location : option string;
  rs_Payload : Payload;
}.

Definition writeJSON (status : Z) (payload : Payload) : Response := mkResponse status None None None payload.
(** [http.Error]. *)
Definition http_Error (message : string) (status : Z) : Response :=
  mkResponse status None None None (Text (line message)).
Definition methodNotAllowed (allowed : string) : Response :=
  mkResponse StatusMethodNotAllowed (Some allowed) None None (Text (line "method not allowed")).
Definition http_NotFound : Response := http_Error "404 page not found" StatusNotFound.

(** ** Errors *)

(** [errors.Is] and [errors.As]: the error itself or one it wraps. *)
Fixpoint root_error (err : ServiceError) : ServiceError :=
  match err with Wrapped _ e => root_error e | _ => err end.

Definition statusForError (err : ServiceError) : Z :=
  match root_error err with
  | StoreFailed ErrChangePacketNotFound => StatusNotFound
  | EvidenceValidationError _ _ => StatusBadRequest
  | EvidenceNotFoundError _ _ => StatusNotFound
  | EvidenceTransitionError _ _ _ => StatusConflict
  | _ => StatusInternalServerError
  end.

(** The [Error] methods. *)
Definition EvidenceValidationError_Error (field message : string) : string :=
  "invalid evidence " +:+ field +:+ ": " +:+ message.
Definition EvidenceNotFoundError_Error (changePacketID name : string) : string :=
  "evidence " +:+ Quote name +:+ " is not required by change packet " +:+ Quote changePacketID.
Definition EvidenceTransitionError_Error (name : string) (from to : EvidenceStatus) : string :=
  "evidence " +:+ Quote name +:+ " cannot transition from " +:+ Quote from +:+ " to " +:+ Quote to.

Definition publicErrorMessage (err : ServiceError) : string :=
  match root_error err with
  | StoreFailed ErrChangePacketNotFound => "change packet not found"
  | EvidenceValidationError field message => EvidenceValidationError_Error field message
  | EvidenceNotFoundError id name => EvidenceNotFoundError_Error id name
  | EvidenceTransitionError name from to => EvidenceTransitionError_Error name from to
  | _ => "internal server error"
  end.

Definition writeLoggedHTTPError (status : Z) (message : string) : Response := http_Error message status.

(** ** Parameters of a request *)

Definition parseListLimit (r : HTTPRequest) : result string Z :=
  match hr_Limit r with
  | None => Ok DefaultListLimit
  | Some [value] =>
      if decide (value = "") then Err "limit must be a positive integer"
      else
        match Atoi value with
        | Some limit =>
            if limit <=? 0 then Err "limit must be a positive integer"
            else Ok (if MaxListLimit <? limit then MaxListLimit else limit)
        | None => Err "limit must be a positive integer"
        end
  | Some _ => Err "limit must be a positive integer"
  end.

Definition packets_prefix : string := "/api/v1/change-packets/".

Definition path_parts (path : string) : list string := Split "/" (Trim (TrimPrefix path packets_prefix) "/").

Definition isEvidenceUpdate (r : HTTPRequest) : bool :=
  if decide (hr_Method r ≠ MethodPut) then false
  else
    match path_parts (hr_Path r) with
    | [p0; p1; p2] => negb (bool_decide (p0 = "")) && bool_decide (p1 = "evidence") && negb (bool_decide (p2 = ""))
    | _ => false
    end.

Definition maxEvidenceRequestBodySize : Z := Z.shiftl 64 10.

Record EvidenceBody := mkEvidenceBody {
  eb_Status : EvidenceStatus;
  eb_Summary : string;
  eb_DetailsURL : string;
  eb_UpdatedBy : string;
  eb_Type_ : EvidenceType;
  eb_Required : bool;
}.

Record OutcomeBody := mkOutcomeBody { ob_Outcome : DeploymentOutcomeKind; ob_Source : string }.

(** What a second [Decode] finds. *)
Inductive BodyRest := BodyEOF | BodyValue | BodyError (err : string).

Class BodyDecoder := {
  DecodeEvidence : Z → string → result string EvidenceBody;
  DecodeRest : Z → string → BodyRest;
  DecodeOutcome : Z → string → result string OutcomeBody;
}.

(** ** The mux *)

(** [path.Clean] of a rooted path: empty and [.] elements go, [..] drops the
    element before it. *)
Definition clean_element (kept : list string) (element : string) : list string :=
  if decide (element = "" ∨ element = ".") then kept
  else if decide (element = "..") then take (length kept - 1) kept
  else kept ++ [element].

Definition cleaned (path : string) : string :=
  "/" +:+ Join "/" (foldl clean_element [] (Split "/" path)).

(** [net/http]'s [cleanPath] keeps a trailing slash. *)
Definition cleanPath (path : string) : string :=
  if decide (path = "") then "/"
  else
    let p := if HasPrefix path "/" then path else "/" +:+ path in
    let np := cleaned p in
    if HasSuffix p "/" && bool_decide (np ≠ "/") then np +:+ "/" else np.

Inductive Route := RouteHealthz | RouteChangePackets | RouteChangePacketByID | RouteRiskCalibration
  | RouteRedirect (location : string) | RouteNotFound.

(** Paths with an escaped slash, which the mux matches by element, are left out. *)
Definition mux_route (path : string) : Route :=
  if decide (cleanPath path ≠ path) then RouteRedirect (cleanPath path)
  else if decide (path = "/healthz") then RouteHealthz
  else if decide (path = "/api/v1/change-packets") then RouteChangePackets
  else if HasPrefix path packets_prefix then RouteChangePacketByID
  else if decide (path = "/api/v1/risk-calibration") then RouteRiskCalibration
  else RouteNotFound.

(** ** Handlers *)

Section handlers.
Context `{HR : Repository W} `{HE : Entropy} `{HM : MapOrder} `{HB : BodyDecoder}.
Context (s : Service W) (t : Readings).

(** A handler sees the principal the middleware put into the context. *)
Definition Handler : Type := HTTPRequest → option Principal → W → Response * W.

Definition answer {A} (call : stateE W ServiceError A) (failed : ServiceError → Response) (ok : A → Response)
    (w : W) : Response * W :=
  match call w with
  | (Ok a, w') => (ok a, w')
  | (Err err, w') => (failed err, w')
  end.

Definition public_error (err : ServiceError) : Response :=
  writeLoggedHTTPError (statusForError err) (publicErrorMessage err).
Definition internal_error (err : ServiceError) : Response :=
  writeLoggedHTTPError StatusInternalServerError "internal server error".

Definition listChangePackets : Handler := λ r _ w,
  match parseListLimit r with
  | Err _ => (writeLoggedHTTPError StatusBadRequest "invalid limit parameter", w)
  | Ok limit => answer (ListPackets limit) internal_error (λ packets, writeJSON StatusOK (PacketsJSON packets)) w
  end.

Definition getChangePacket (id : string) : Handler := λ _ _ w,
  answer (GetChangePacketView id) public_error (λ view, writeJSON StatusOK (PacketJSON view)) w.

Definition listEvidenceAudit (changePacketID : string) : Handler := λ r _ w,
  match parseListLimit r with
  | Err _ => (writeLoggedHTTPError StatusBadRequest "invalid limit parameter", w)
  | Ok limit =>
      answer (ListEvidenceAudit changePacketID limit) public_error (λ entries, writeJSON StatusOK (AuditJSON entries)) w
  end.

Definition recordDeploymentOutcome (changePacketID : string) : Handler := λ r _ w,
  match DecodeOutcome maxEvidenceRequestBodySize (hr_Body r) with
  | Err _ => (writeLoggedHTTPError StatusBadRequest "invalid request body", w)
  | Ok request =>
      answer (RecordDeploymentOutcome (audit_number t) (at_update t)
                (mkDeploymentOutcome "" changePacketID (ob_Outcome request) (ob_Source request) "" [] 0))
        public_error (λ outcome, writeJSON StatusAccepted (OutcomeJSON outcome)) w
  end.

Definition evidence_of_body (changePacketID evidenceName : string) (request : EvidenceBody) : EvidenceExecution :=
  mkEvidenceExecution changePacketID evidenceName (eb_Type_ request) (eb_Status request) (eb_Required request)
    (eb_Summary request) (eb_DetailsURL request) (eb_UpdatedBy request) ∅ 0.

Definition updateEvidenceExecution (changePacketID evidenceName : string) : Handler := λ r principal w,
  match DecodeEvidence maxEvidenceRequestBodySize (hr_Body r) with
  | Err _ => (writeLoggedHTTPError StatusBadRequest "invalid request body", w)
  | Ok request =>
      match DecodeRest maxEvidenceRequestBodySize (hr_Body r) with
      | BodyEOF =>
          answer (UpdateEvidenceExecution s t principal (evidence_of_body changePacketID evidenceName request))
            public_error (λ execution, writeJSON StatusAccepted (ExecutionJSON execution)) w
      | _ => (writeLoggedHTTPError StatusBadRequest "invalid request body", w)
      end
  end.

Definition only (method : string) (handler : Handler) : Handler := λ r principal w,
  if decide (hr_Method r ≠ method) then (methodNotAllowed method, w) else handler r principal w.

Definition handleChangePackets : Handler := only MethodGet listChangePackets.

Definition handleChangePacketByID : Handler := λ r principal w,
  let parts := path_parts (hr_Path r) in
  let changePacketID := default "" (head parts) in
  if decide (changePacketID = "") then (http_Error "missing change packet id" StatusBadRequest, w)
  else
    match parts with
    | [_] => only MethodGet (getChangePacket changePacketID) r principal w
    | [_; p1; p2] =>
        if decide (p1 = "evidence") then
          if decide (p2 = "audit") then only MethodGet (listEvidenceAudit changePacketID) r principal w
          else only MethodPut (updateEvidenceExecution changePacketID p2) r principal w
        else (http_NotFound, w)
    | [_; p1] =>
        if decide (p1 = "outcomes") then only MethodPost (recordDeploymentOutcome changePacketID) r principal w
        else (http_NotFound, w)
    | _ => (http_NotFound, w)
    end.

Definition handleRiskCalibration : Handler := only MethodGet (λ _ _ w,
  answer (RiskCalibrationReport_ (at_update t)) internal_error (λ report, writeJSON StatusOK (ReportJSON report)) w).

Definition mux : Handler := λ r principal w,
  match mux_route (hr_Path r) with
  | RouteHealthz => (mkResponse StatusOK None None None (Text "ok"), w)
  | RouteChangePackets => handleChangePackets r principal w
  | RouteChangePacketByID => handleChangePacketByID r principal w
  | RouteRiskCalibration => handleRiskCalibration r principal w
  | RouteRedirect location => (mkResponse StatusMovedPermanently None None (Some location) NoBody, w)
  | RouteNotFound => (http_NotFound, w)
  end.

(** ** The access middleware *)

Definition unauthorized : Response :=
  mkResponse StatusUnauthorized None (Some "Bearer") None (Text (line "unauthorized")).

Definition AccessMiddleware (authenticator : Authenticator) (next : Handler) : Handler := λ r principal w,
  if decide (hr_Path r = "/healthz") then next r principal w
  else
    match authenticator (hr_Authorization r) with
    | Err _ => (unauthorized, w)
    | Ok principal =>
        let role := if isEvidenceUpdate r then RoleEvidenceWriter else RoleReader in
        match Authorize principal role with
        | Err ErrUnauthenticated => (unauthorized, w)
        | Err _ => (http_Error "forbidden" StatusForbidden, w)
        | Ok _ => next r (Some principal) w
        end
    end.

(** [NewWithAccess]'s HTTP server. *)
Definition http_server (authenticator : Authenticator) (r : HTTPRequest) (w : W) : Response * W :=
  AccessMiddleware authenticator mux r None w.
End handlers.

(** ** Lemmas *)

(** A path that the handler takes for an evidence update is one that the
    middleware takes for an evidence update. *)
Lemma path_parts_last path p0 p1 p2 : path_parts path = [p0; p1; p2] → p2 ≠ "".
Proof.
  unfold path_parts, Trim. set (s := TrimFunc _ _). intros Hs ->.
  assert (s = (p0 +:+ "/" +:+ p1) +:+ String "/" "") as E.
  { rewrite <- (Join_Split "/" s), Hs. cbn. by rewrite !app_assoc_string. }
  apply TrimFunc_last in E. done.
Qed.

Lemma update_path_is_update r p0 p2 :
  hr_Method r = MethodPut → path_parts (hr_Path r) = [p0; "evidence"; p2] → p0 ≠ "" →
  isEvidenceUpdate r = true.
Proof.
  intros Hm Hp Hp0. unfold isEvidenceUpdate. rewrite decide_False by (by rewrite Hm; intros []).
  pose proof (path_parts_last _ _ _ _ Hp). rewrite Hp.
  by rewrite (bool_decide_eq_false_2 (p0 = "")), (bool_decide_eq_false_2 (p2 = "")) by done.
Qed.

Section served.
Context `{HR : Repository W} `{HL : !RepositoryLaws W} `{HE : Entropy} `{HM : MapOrder} `{HB : BodyDecoder}.
Context (s : Service W) (t : Readings).

(** What a handler may do to the view. *)
Definition handled (P : View → View → Prop) (h : W → Response * W) : Prop :=
  ∀ w resp w', h w = (resp, w') → P (view w) (view w').

Lemma answer_handled {A} (P : View → View → Prop) (call : stateE W ServiceError A) failed ok :
  (∀ w r w', call w = (r, w') → P (view w) (view w')) → handled P (answer call failed ok).
Proof.
  intros H w resp w'. unfold answer. destruct (call w) as [[a|e] w1] eqn:E; intros [= <- <-]; by eapply H.
Qed.

Lemma answer_reads {A} (call : stateE W ServiceError A) failed ok :
  keeps_view call → handled (λ v v', v' = v) (answer call failed ok).
Proof. intros H. apply answer_handled. intros w r w'. apply H. Qed.

Definition unchanged : View → View → Prop := λ v v', v' = v.

Definition evidence_updated (principal : option Principal) : View → View → Prop := λ v v',
  v' = v ∨
  v_outcomes v' = v_outcomes v ∧
  ∃ id a, (∀ i, audit_of v' i = if decide (i = id) then audit_of v i ++ [a] else audit_of v i) ∧
    ea_FromStatus a = status_of v id (ea_EvidenceName a) ∧ ea_ToStatus a = status_of v' id (ea_EvidenceName a) ∧
    match principal with Some p => ea_Actor a = Subject p | None => True end.

Definition outcome_added : View → View → Prop := λ v v', v' = v ∨ ∃ o, v' = appended_outcome o v.

Lemma update_evidence_updated principal e w r w' :
  publisher_keeps_view s → view_keyed (view w) →
  UpdateEvidenceExecution s t principal e w = (r, w') → evidence_updated principal (view w) (view w').
Proof.
  intros Hpub Hk [(err & _ & _ & ->)|(p & e1 & from & Hok & Hrec & _)]%update_inv; [by left| |done|done].
  right. destruct Hrec as [_ _ _ Haudit Hstatus Hout _ _], Hok as [_ _ Hid Hname _ _ Hby _ _ _].
  split; [done|]. eexists _, _. split; [exact Haudit|]. cbn. split_and!.
  - by rewrite Hid, Hname.
  - by rewrite Hstatus, decide_True by done.
  - rewrite Hby. by destruct principal.
Qed.

Lemma updateEvidenceExecution_handled id name r principal w resp w' :
  publisher_keeps_view s → view_keyed (view w) →
  updateEvidenceExecution s t id name r principal w = (resp, w') →
  evidence_updated principal (view w) (view w').
Proof.
  intros Hpub Hk. unfold updateEvidenceExecution.
  destruct (DecodeEvidence _ _) as [body|]; [|intros [= <- <-]; by left].
  destruct (DecodeRest _ _); [|intros [= <- <-]; by left..].
  unfold answer. destruct (UpdateEvidenceExecution _ _ _ _ w) as [r0 w1] eqn:E.
  intros H. assert (w1 = w') as -> by (destruct r0; congruence).
  by eapply update_evidence_updated.
Qed.

Lemma recordDeploymentOutcome_handled id r principal :
  handled outcome_added (recordDeploymentOutcome t id r principal).
Proof.
  intros w resp w'. unfold recordDeploymentOutcome.
  destruct (DecodeOutcome _ _) as [body|]; [|intros [= <- <-]; by left].
  apply answer_handled. intros w0 r0 w1 H%outcome_inv. destruct r0 as [o|].
  - right. destruct H as (p & _ & -> & _). by eexists.
  - destruct H as [?|(_ & o & p & _ & -> & _)]; [by left|right; by eexists].
Qed.

Lemma reads_handled id limit :
  handled unchanged (answer (GetChangePacketView id) public_error (λ view, writeJSON StatusOK (PacketJSON view))) ∧
  handled unchanged (answer (ListEvidenceAudit id limit) public_error (λ es, writeJSON StatusOK (AuditJSON es))) ∧
  handled unchanged (answer (ListPackets limit) internal_error (λ ps, writeJSON StatusOK (PacketsJSON ps))) ∧
  handled unchanged (answer (RiskCalibrationReport_ (at_update t)) internal_error
    (λ report, writeJSON StatusOK (ReportJSON report))).
Proof.
  split_and!; apply answer_reads.
  - apply GetChangePacketView_keeps.
  - apply keeps_view_bind; [|intros _]; apply keeps_view_wrap; [apply keeps_view_get|apply keeps_view_audit].
  - apply keeps_view_wrap, keeps_view_packets.
  - apply keeps_view_bind; [apply keeps_view_wrap, keeps_view_outcomes|]. intros outcomes.
    destruct (foldl _ _ _). apply keeps_view_ret.
Qed.

Lemma only_inv method (h : HTTPRequest → option Principal → W → Response * W) r principal w resp w' :
  only method h r principal w = (resp, w') →
  w' = w ∨ hr_Method r = method ∧ h r principal w = (resp, w').
Proof. unfold only. case_decide as Hm; [intros [= <- <-]; by left|]. by right. Qed.

(** What a request may do once it is past the middleware. *)
Definition request_effect (r : HTTPRequest) (principal : option Principal) (v v' : View) : Prop :=
  v' = v ∨
  hr_Method r = MethodPut ∧ isEvidenceUpdate r = true ∧ evidence_updated principal v v' ∨
  hr_Method r = MethodPost ∧ outcome_added v v'.

Lemma byID_effect r principal w resp w' :
  publisher_keeps_view s → view_keyed (view w) →
  handleChangePacketByID s t r principal w = (resp, w') → request_effect r principal (view w) (view w').
Proof.
  intros Hpub Hk. unfold handleChangePacketByID, request_effect.
  destruct (path_parts (hr_Path r)) as [|p0 [|p1 [|p2 [|p3 parts]]]] eqn:Hparts; cbn [head default];
    case_decide as Hp0; try (intros [= <- <-]; by left).
  - intros [->|[_ H]]%only_inv; left; [done|]. by eapply (proj1 (reads_handled p0 0)).
  - destruct (decide (p1 = "outcomes")); [|intros [= <- <-]; by left].
    intros [->|[Hm H]]%only_inv; [by left|]. right. right. split; [done|].
    by eapply recordDeploymentOutcome_handled.
  - destruct (decide (p1 = "evidence")) as [->|]; [|intros [= <- <-]; by left].
    destruct (decide (p2 = "audit")).
    + intros [->|[_ H]]%only_inv; left; [done|]. unfold listEvidenceAudit in H.
      destruct (parseListLimit r) as [limit|]; [|by injection H as <- <-].
      by eapply (proj1 (proj2 (reads_handled p0 limit))).
    + intros [->|[Hm H]]%only_inv; [by left|]. right. left. split; [done|].
      split; [by eapply update_path_is_update|]. by eapply updateEvidenceExecution_handled.
Qed.

Lemma mux_effect r principal w resp w' :
  publisher_keeps_view s → view_keyed (view w) →
  mux s t r principal w = (resp, w') → request_effect r principal (view w) (view w').
Proof.
  intros Hpub Hk. unfold mux. destruct (mux_route _); try (intros [= <- <-]; by left).
  - intros [->|[_ H]]%only_inv; left; [done|]. unfold listChangePackets in H.
    destruct (parseListLimit r) as [limit|]; [|by injection H as <- <-].
    by eapply (proj1 (proj2 (proj2 (reads_handled "" limit)))).
  - by apply byID_effect.
  - intros [->|[_ H]]%only_inv; left; [done|]. by eapply (proj2 (proj2 (proj2 (reads_handled "" 0)))).
Qed.

Definition may (principal : Principal) (role : Role) : Prop :=
  TrimSpace (Subject principal) ≠ "" ∧ (HasRole principal RoleAdmin = true ∨ HasRole principal role = true).

Lemma Authorize_ok principal role : Authorize principal role = Ok () → may principal role.
Proof.
  unfold Authorize, may. case_decide; [done|]. destruct (IsSupportedRole role); cbn; [|done].
  destruct (HasRole principal RoleAdmin), (HasRole principal role); cbn; try done; tauto.
Qed.

(** ** Theorems *)

(** C7: whatever a request is, and however the server answers it, it changes the
    repository only when it carries credentials the authenticator accepts: an
    evidence update needs the evidence-writer role (or admin), adds one audit
    entry in the name of the authenticated principal whatever the body says, and
    touches no outcome; a deployment outcome needs no more than the reader
    role. *)
Theorem http_writes_authorized authenticator r w resp w' :
  publisher_keeps_view s → view_keyed (view w) →
  http_server s t authenticator r w = (resp, w') →
  view w' = view w ∨
  ∃ principal, authenticator (hr_Authorization r) = Ok principal ∧
    (hr_Method r = MethodPut ∧ may principal RoleEvidenceWriter ∧
       evidence_updated (Some principal) (view w) (view w') ∨
     hr_Method r = MethodPost ∧ may principal RoleReader ∧ outcome_added (view w) (view w')).
Proof.
  intros Hpub Hk. unfold http_server, AccessMiddleware. case_decide as Hpath.
  { unfold mux. rewrite Hpath. intros [= <- <-]. by left. }
  destruct (authenticator _) as [principal|]; [|intros [= <- <-]; by left].
  destruct (Authorize _ _) as [[]|[]] eqn:Ha; try (intros [= <- <-]; by left).
  intros [?|[(Hm & Hu & He)|(Hm & Ho)]]%mux_effect; [by left| | |done|done]; right; exists principal; (split; [done|]).
  - left. rewrite Hu in Ha. by apply Authorize_ok in Ha.
  - right. apply Authorize_ok in Ha. split; [done|]. split; [|done].
    unfold isEvidenceUpdate in Ha. rewrite decide_True in Ha by (by rewrite Hm). done.
Qed.
End served.

(** A list limit the server accepts lies within 1 and 200: the default when
    the parameter is absent, otherwise the number given, capped. *)
Theorem list_limit_bounds r limit :
  parseListLimit r = Ok limit →
  1 ≤ limit ≤ MaxListLimit ∧
  match hr_Limit r with
  | None => limit = DefaultListLimit
  | Some values => ∃ value n, values = [value] ∧ Atoi value = Some n ∧ limit = Z.min n MaxListLimit
  end.
Proof.
  unfold parseListLimit, MaxListLimit, DefaultListLimit.
  destruct (hr_Limit r) as [[|value [|]]|]; [done| |done|by intros [= <-]].
  case_decide; [done|]. destruct (Atoi value) as [n|] eqn:En; [|done].
  destruct (Z.leb_spec n 0); [done|]. intros [= <-].
  split; [destruct (Z.ltb_spec 200 n); lia|]. exists value, n. split_and!; [done..|].
  destruct (Z.ltb_spec 200 n); lia.
Qed.

(** ** A concrete server *)

Section demo.
#[local] Existing Instance map_order_sorted.
#[local] Existing Instance counting_entropy.

(** A body that is the status, and nothing else. *)
Definition plain_decoder : BodyDecoder := {|
  DecodeEvidence _ body := Ok (mkEvidenceBody body "" "" "mallory" "" false);
  DecodeRest _ _ := BodyEOF;
  DecodeOutcome _ body := Ok (mkOutcomeBody body "ci") |}.
#[local] Existing Instance plain_decoder.

Definition demo_authenticator : Authenticator := λ header,
  if decide (header = "Bearer w") then Ok (mkPrincipal "alice" [RoleEvidenceWriter])
  else if decide (header = "Bearer r") then Ok (mkPrincipal "bob" [RoleReader])
  else Err ErrUnauthenticated.

Definition demo_put (authorization : string) : HTTPRequest :=
  mkHTTPRequest MethodPut "/api/v1/change-packets/cp_1/evidence/integration-tests" authorization None EvidenceSatisfied.

Lemma http_writes_authorized_witness :
  let served authorization := http_server demo_service demo_readings demo_authenticator (demo_put authorization) demo_repository in
  rs_Status (served "Bearer w").1 = StatusAccepted ∧ rs_Status (served "Bearer r").1 = StatusForbidden ∧
  ∃ principal, demo_authenticator "Bearer w" = Ok principal ∧ may principal RoleEvidenceWriter ∧
    ea_Actor <$> audit_of (view (served "Bearer w").2) "cp_1" = ["alice"].
Proof.
  intros served. split; [by vm_compute|]. split; [by vm_compute|].
  destruct (served "Bearer w") as [resp w'] eqn:E.
  assert (ea_Actor <$> audit_of (view w') "cp_1" = ["alice"]) as Ha
    by (rewrite <- (f_equal snd E : _ = w'); vm_compute; reflexivity).
  destruct (http_writes_authorized demo_service demo_readings demo_authenticator (demo_put "Bearer w")
    demo_repository resp w' demo_publishes demo_keyed E) as [Hv|(principal & Hp & [(_ & Hm & _)|(Hm & _)])].
  - rewrite Hv in Ha. by vm_compute in Ha.
  - exists principal. exact (conj Hp (conj Hm Ha)).
  - by vm_compute in Hm.
Defined.

Lemma list_limit_bounds_witness : 1 ≤ 200 ≤ MaxListLimit.
Proof.
  exact (proj1 (list_limit_bounds (mkHTTPRequest MethodGet "/api/v1/change-packets" "" (Some ["5000"]) "") 200 eq_refl)).
Defined.

(** A reader's request to record evidence that is named [audit] finds no
    handler: the path of the audit trail has the same form. *)
Example evidence_named_audit :
  rs_Status (http_server demo_service demo_readings demo_authenticator
    (mkHTTPRequest MethodPut "/api/v1/change-packets/cp_1/evidence/audit" "Bearer w" None EvidenceSatisfied)
    demo_repository).1 = StatusMethodNotAllowed.
Proof. by vm_compute. Qed.

(** A reader records an outcome. *)
Example reader_records_outcome :
  rs_Status (http_server demo_service demo_readings demo_authenticator
    (mkHTTPRequest MethodPost "/api/v1/change-packets/cp_1/outcomes" "Bearer r" None DeploymentOutcomeRollback)
    demo_repository).1 = StatusAccepted.
Proof. by vm_compute. Qed.
End demo.
