(* ===== verification/Grpc.v ===== *)
(** [internal/controlplanegrpc]: the same service over gRPC.  The messages are
    those of [proto/merger/v1]; the runtime (codes, metadata) is the library's. *)
From stdpp Require Import base list gmap strings sorting.
From S2P Require Import Prelude GoStrings Domain Identity Lanes Events Store Access ControlPlane Http.

Local Open Scope string_scope.
Local Open Scope list_scope.
Local Open Scope Z_scope.

(** ** Messages *)

Record GetChangePacketRequest := mkGetChangePacketRequest { gr_Ref_Id : string }.
Record EvidenceMessage := mkEvidenceMessage {
  em_ChangePacketId : string;
  em_Name : string;
  em_Type_ : string;
  em_Status : string;
  em_Required : bool;
  em_Summary : string;
  em_DetailsUrl : string;
  em_UpdatedBy : string;
  em_UpdatedAt : string;
}.
Record GetChangePacketResponse := mkGetChangePacketResponse {
  gp_Id : string;
  gp_MergeLane : string;
  gp_RiskScore : Z;
  gp_Evidence : list EvidenceMessage;
}.
Record ChangePacketSummary := mkChangePacketSummary {
  su_Id : string;
  su_Repo : string;
  su_PrNumber : Z;
  su_MergeLane : string;
  su_RiskScore : Z;
}.
Record UpdateEvidenceRequest := mkUpdateEvidenceRequest {
  ur_ChangePacketId : string;
  ur_Name : string;
  ur_Type_ : string;
  ur_Status : string;
  ur_Required : bool;
  ur_Summary : string;
  ur_DetailsUrl : string;
  ur_UpdatedBy : string;
}.
Record AuditMessage := mkAuditMessage {
  am_Id : string;
  am_ChangePacketId : string;
  am_EvidenceName : string;
  am_FromStatus : string;
  am_ToStatus : string;
  am_Actor : string;
  am_Summary : string;
  am_DetailsUrl : string;
  am_Metadata : gmap string string;
  am_OccurredAt : string;
}.
Record ListEvidenceAuditEntriesRequest := mkListEvidenceAuditEntriesRequest {
  ar_ChangePacketId : string;
  ar_Limit : Z;
}.

(** ** Times *)

(** A number padded with zeros to a width. *)
Definition padded (width : nat) (n : Z) : string :=
  let digits := itoa n in
  concat_all (replicate (width - String.length digits) "0") +:+ digits.

(** The civil date of a day counted from 0001-01-01. *)
Definition civil (day : Z) : Z * Z * Z :=
  let z := day + 306 in
  let era := z / 146097 in
  let doe := z - era * 146097 in
  let yoe := (doe - doe / 1460 + doe / 36524 - doe / 146096) / 365 in
  let doy := doe - (365 * yoe + yoe / 4 - yoe / 100) in
  let mp := (5 * doy + 2) / 153 in
  let d := doy - (153 * mp + 2) / 5 + 1 in
  let m := if mp <? 10 then mp + 3 else mp - 9 in
  let y := yoe + era * 400 in
  (if m <=? 2 then y + 1 else y, m, d).

(** [time.RFC3339] of a time in UTC. *)
Definition FormatRFC3339 (t : Time) : string :=
  let seconds := t / 1000000000 in
  let '(y, m, d) := civil (seconds / 86400) in
  let s := seconds mod 86400 in
  padded 4 y +:+ "-" +:+ padded 2 m +:+ "-" +:+ padded 2 d +:+ "T" +:+
  padded 2 (s / 3600) +:+ ":" +:+ padded 2 (s / 60 mod 60) +:+ ":" +:+ padded 2 (s mod 60) +:+ "Z".

Definition formatTime (value : Time) : string := if decide (value = 0) then "" else FormatRFC3339 value.

Example formatTime_epoch : formatTime (62135596800 * 1000000000) = "1970-01-01T00:00:00Z".
Proof. by vm_compute. Qed.
Example formatTime_leap_day : formatTime ((62135596800 + 1709251199) * 1000000000) = "2024-02-29T23:59:59Z".
Proof. by vm_compute. Qed.

(** ** The mapping *)

(** [int32(n)]. *)
Definition int32 (n : Z) : Z := (n + 2 ^ 31) mod 2 ^ 32 - 2 ^ 31.

Definition toEvidenceExecution (item : EvidenceExecution) : EvidenceMessage :=
  mkEvidenceMessage (ee_ChangePacketID item) (ee_Name item) (ee_Type_ item) (ee_Status item) (ee_Required item)
    (ee_Summary item) (ee_DetailsURL item) (ee_UpdatedBy item) (formatTime (ee_UpdatedAt item)).

Definition toEvidenceExecutions (items : list EvidenceExecution) : list EvidenceMessage := toEvidenceExecution <$> items.

Definition toGetChangePacketResponse (view : ChangePacketView) : GetChangePacketResponse :=
  mkGetChangePacketResponse (cp_ID (cv_Packet view)) (cp_MergeLane_ (cv_Packet view))
    (int32 (rs_Score (cp_RiskSummary_ (cv_Packet view)))) (toEvidenceExecutions (cv_Evidence view)).

Definition toListChangePacketsResponse (items : list ChangePacket) : list ChangePacketSummary :=
  (λ item, mkChangePacketSummary (cp_ID item) (repo_FullName (cp_Repo item)) (int32 (pr_Number (cp_PR item)))
             (cp_MergeLane_ item) (int32 (rs_Score (cp_RiskSummary_ item)))) <$> items.

Definition fromUpdateEvidenceExecutionRequest (request : UpdateEvidenceRequest) : EvidenceExecution :=
  mkEvidenceExecution (ur_ChangePacketId request) (ur_Name request) (ur_Type_ request) (ur_Status request)
    (ur_Required request) (ur_Summary request) (ur_DetailsUrl request) (ur_UpdatedBy request) ∅ 0.

Definition toEvidenceAuditEntry (item : EvidenceAuditEntry) : AuditMessage :=
  mkAuditMessage (ea_ID item) (ea_ChangePacketID item) (ea_EvidenceName item) (ea_FromStatus item) (ea_ToStatus item)
    (ea_Actor item) (ea_Summary item) (ea_DetailsURL item) (ea_Metadata item) (formatTime (ea_OccurredAt item)).

Definition toListEvidenceAuditEntriesResponse (items : list EvidenceAuditEntry) : list AuditMessage :=
  toEvidenceAuditEntry <$> items.

(** ** Errors *)

Inductive Code := InvalidArgument | NotFound | PermissionDenied | FailedPrecondition | Internal | Unauthenticated.

Record Status := mkStatus { st_Code : Code; st_Message : string }.

Definition StoreError_Error (err : StoreError) : string :=
  match err with ErrChangePacketNotFound => "change packet not found" | Backend e => e end.

Fixpoint ServiceError_Error (err : ServiceError) : string :=
  match err with
  | EvidenceValidationError field message => EvidenceValidationError_Error field message
  | EvidenceNotFoundError id name => EvidenceNotFoundError_Error id name
  | EvidenceTransitionError name from to => EvidenceTransitionError_Error name from to
  | StoreFailed e => StoreError_Error e
  | OtherError e => e
  | Wrapped context e => context +:+ ": " +:+ ServiceError_Error e
  end.

Definition grpc_statusForError (err : ServiceError) : Status :=
  mkStatus
    match root_error err with
    | StoreFailed ErrChangePacketNotFound => NotFound
    | EvidenceValidationError _ _ => InvalidArgument
    | EvidenceNotFoundError _ _ => NotFound
    | EvidenceTransitionError _ _ _ => FailedPrecondition
    | _ => Internal
    end (ServiceError_Error err).

(** ** Methods and access *)

Inductive GrpcRequest :=
  | GetChangePacketCall (request : GetChangePacketRequest)
  | ListChangePacketsCall (limit : Z)
  | UpdateEvidenceExecutionCall (request : UpdateEvidenceRequest)
  | ListEvidenceAuditEntriesCall (request : ListEvidenceAuditEntriesRequest).

Inductive GrpcResponse :=
  | GetChangePacketReply (response : GetChangePacketResponse)
  | ListChangePacketsReply (items : list ChangePacketSummary)
  | UpdateEvidenceExecutionReply (evidence : EvidenceMessage)
  | ListEvidenceAuditEntriesReply (items : list AuditMessage).

Definition GetChangePacket_FullMethodName : string := "/merger.v1.ChangeControlService/GetChangePacket".
Definition ListChangePackets_FullMethodName : string := "/merger.v1.ChangeControlService/ListChangePackets".
Definition UpdateEvidenceExecution_FullMethodName : string := "/merger.v1.ChangeControlService/UpdateEvidenceExecution".
Definition ListEvidenceAuditEntries_FullMethodName : string := "/merger.v1.ChangeControlService/ListEvidenceAuditEntries".

Definition roleForMethod (fullMethod : string) : option Role :=
  if decide (fullMethod ∈ [GetChangePacket_FullMethodName; ListChangePackets_FullMethodName;
                           ListEvidenceAuditEntries_FullMethodName]) then Some RoleReader
  else if decide (fullMethod = UpdateEvidenceExecution_FullMethodName) then Some RoleEvidenceWriter
  else None.

Definition authorizationFromMetadata (values : list string) : string :=
  match values with [value] => value | _ => "" end.

Definition page_limit (limit : Z) : Z :=
  let limit := if limit <=? 0 then DefaultListLimit else limit in
  if MaxListLimit <? limit then MaxListLimit else limit.

Section server.
Context `{HR : Repository W} `{HE : Entropy} `{HM : MapOrder}.
Context (s : Service W) (t : Readings).

Definition service_call {A} (call : stateE W ServiceError A) : stateE W Status A := wrapE grpc_statusForError call.

Definition grpc_GetChangePacket (request : GetChangePacketRequest) : stateE W Status GetChangePacketResponse :=
  if decide (gr_Ref_Id request = "") then throw (mkStatus InvalidArgument "change packet id is required")
  else
    view ← service_call (GetChangePacketView (gr_Ref_Id request));
    mret (toGetChangePacketResponse view).

Definition grpc_ListChangePackets (limit : Z) : stateE W Status (list ChangePacketSummary) :=
  items ← service_call (ListPackets (page_limit limit));
  mret (toListChangePacketsResponse items).

Definition grpc_UpdateEvidenceExecution (principal : option Principal) (request : UpdateEvidenceRequest)
    : stateE W Status EvidenceMessage :=
  if decide (ur_ChangePacketId request = "" ∨ ur_Name request = "")
  then throw (mkStatus InvalidArgument "change packet id and evidence name are required")
  else
    execution ← service_call (UpdateEvidenceExecution s t principal (fromUpdateEvidenceExecutionRequest request));
    mret (toEvidenceExecution execution).

Definition grpc_ListEvidenceAuditEntries (request : ListEvidenceAuditEntriesRequest) : stateE W Status (list AuditMessage) :=
  if decide (ar_ChangePacketId request = "") then throw (mkStatus InvalidArgument "change packet id is required")
  else
    entries ← service_call (ListEvidenceAudit (ar_ChangePacketId request) (page_limit (ar_Limit request)));
    mret (toListEvidenceAuditEntriesResponse entries).

(** The generated dispatch: the method name selects the handler. *)
Definition method_of (request : GrpcRequest) : string :=
  match request with
  | GetChangePacketCall _ => GetChangePacket_FullMethodName
  | ListChangePacketsCall _ => ListChangePackets_FullMethodName
  | UpdateEvidenceExecutionCall _ => UpdateEvidenceExecution_FullMethodName
  | ListEvidenceAuditEntriesCall _ => ListEvidenceAuditEntries_FullMethodName
  end.

Definition grpc_handler (principal : option Principal) (request : GrpcRequest) : stateE W Status GrpcResponse :=
  match request with
  | GetChangePacketCall r => GetChangePacketReply <$> grpc_GetChangePacket r
  | ListChangePacketsCall limit => ListChangePacketsReply <$> grpc_ListChangePackets limit
  | UpdateEvidenceExecutionCall r => UpdateEvidenceExecutionReply <$> grpc_UpdateEvidenceExecution principal r
  | ListEvidenceAuditEntriesCall r => ListEvidenceAuditEntriesReply <$> grpc_ListEvidenceAuditEntries r
  end.

Definition AccessUnaryServerInterceptor {A B} (authenticator : Authenticator) (fullMethod : string)
    (values : list string) (handler : option Principal → A → stateE W Status B) (request : A) : stateE W Status B :=
  match roleForMethod fullMethod with
  | None => throw (mkStatus PermissionDenied "method has no access policy")
  | Some role =>
      match authenticator (authorizationFromMetadata values) with
      | Err _ => throw (mkStatus Unauthenticated "valid bearer credentials are required")
      | Ok principal =>
          match Authorize principal role with
          | Err ErrUnauthenticated => throw (mkStatus Unauthenticated "valid bearer credentials are required")
          | Err _ => throw (mkStatus PermissionDenied "principal does not have the required role")
          | Ok _ => handler (Some principal) request
          end
      end
  end.

(** A call on [NewWithAccess]'s gRPC server, with its [authorization] metadata. *)
Definition grpc_server (authenticator : Authenticator) (values : list string) (request : GrpcRequest)
    : stateE W Status GrpcResponse :=
  AccessUnaryServerInterceptor authenticator (method_of request) values grpc_handler request.
End server.

(** ** Lemmas *)

Section served.
Context `{HR : Repository W} `{HL : !RepositoryLaws W} `{HE : Entropy} `{HM : MapOrder}.
Context (s : Service W) (t : Readings).

Lemma keeps_view_fmap {E A B} (f : A → B) (m : stateE W E A) : keeps_view m → keeps_view (f <$> m).
Proof.
  intros Hm w r w'. unfold fmap, stateE_fmap. destruct (m w) as [[a|e] w1] eqn:E1; intros [= <- <-]; by eapply Hm.
Qed.

Lemma keeps_view_throw {E A} (e : E) : keeps_view (throw e : stateE W E A).
Proof. by intros w r w' [= <- <-]. Qed.

Lemma keeps_view_test {E A} (b : bool) (m1 m2 : stateE W E A) :
  keeps_view m1 → keeps_view m2 → keeps_view (if b then m1 else m2).
Proof. by destruct b. Qed.

Lemma grpc_reads_keep request principal :
  match request with UpdateEvidenceExecutionCall _ => True | _ => keeps_view (grpc_handler s t principal request) end.
Proof.
  destruct request; try done; apply keeps_view_fmap.
  - unfold grpc_GetChangePacket. case_decide; [apply keeps_view_throw|].
    apply keeps_view_bind; [apply keeps_view_wrap, GetChangePacketView_keeps|intros; apply keeps_view_ret].
  - apply keeps_view_bind; [apply keeps_view_wrap, keeps_view_wrap, keeps_view_packets|intros; apply keeps_view_ret].
  - unfold grpc_ListEvidenceAuditEntries. case_decide; [apply keeps_view_throw|].
    apply keeps_view_bind; [apply keeps_view_wrap|intros; apply keeps_view_ret].
    apply keeps_view_bind; [|intros _]; apply keeps_view_wrap; [apply keeps_view_get|apply keeps_view_audit].
Qed.

(** The update method runs the service's update, or refuses before it. *)
Lemma grpc_update_world principal request w :
  (grpc_UpdateEvidenceExecution s t principal request w).2 =
  if decide (ur_ChangePacketId request = "" ∨ ur_Name request = "") then w
  else (UpdateEvidenceExecution s t principal (fromUpdateEvidenceExecutionRequest request) w).2.
Proof.
  unfold grpc_UpdateEvidenceExecution. case_decide; [done|].
  unfold service_call, mbind, stateE_bind, wrapE. by destruct (UpdateEvidenceExecution _ _ _ _ w) as [[]].
Qed.

Lemma stateE_fmap_world {E A B} (f : A → B) (m : stateE W E A) w : ((f <$> m) w).2 = (m w).2.
Proof. unfold fmap, stateE_fmap. by destruct (m w) as [[]]. Qed.

(** ** Theorems *)

(** The gRPC server changes the repository only in an evidence update by a
    caller whose credentials the authenticator accepts and who has the
    evidence-writer role (or admin); the audit entry names that caller. *)
Theorem grpc_writes_authorized authenticator values request w r w' :
  publisher_keeps_view s → view_keyed (view w) →
  grpc_server s t authenticator values request w = (r, w') →
  view w' = view w ∨
  ∃ principal update, request = UpdateEvidenceExecutionCall update ∧
    authenticator (authorizationFromMetadata values) = Ok principal ∧
    may principal RoleEvidenceWriter ∧ evidence_updated (Some principal) (view w) (view w').
Proof.
  intros Hpub Hk. unfold grpc_server, AccessUnaryServerInterceptor, throw.
  destruct (roleForMethod _) as [role|] eqn:Er; [|intros [= <- <-]; by left].
  destruct (authenticator _) as [principal|]; [|intros [= <- <-]; by left].
  destruct (Authorize _ _) as [[]|[]] eqn:Ha; try (intros [= <- <-]; by left).
  intros H. pose proof (grpc_reads_keep request (Some principal)) as Hreads.
  destruct request as [?|?|update|?]; try (left; by eapply Hreads).
  apply (f_equal snd) in H. cbn [grpc_handler snd] in H. rewrite stateE_fmap_world, grpc_update_world in H.
  case_decide; [left; by subst|].
  destruct (UpdateEvidenceExecution _ _ _ _ w) as [r0 w1] eqn:E. cbn in H. subst w1.
  vm_compute in Er. injection Er as <-.
  destruct (update_evidence_updated _ _ _ _ _ _ _ Hpub Hk E) as [?|He]; [by left|].
  right. exists principal, update. apply Authorize_ok in Ha. by split_and!; [..|right].
Qed.

(** The two transports report a service error in corresponding ways. *)
Definition http_of_code (code : Code) : Z :=
  match code with
  | InvalidArgument => StatusBadRequest
  | NotFound => StatusNotFound
  | PermissionDenied => StatusForbidden
  | FailedPrecondition => StatusConflict
  | Internal => StatusInternalServerError
  | Unauthenticated => StatusUnauthorized
  end.

Lemma statusForError_code err : statusForError err = http_of_code (st_Code (grpc_statusForError err)).
Proof. unfold statusForError, grpc_statusForError. cbn. by destruct (root_error err) as [| | |[]| |]. Qed.

(** The path of an evidence. *)
Definition evidence_path (id name : string) : string := packets_prefix +:+ id +:+ "/evidence/" +:+ name.

Definition path_element (s : string) : Prop := s ≠ "" ∧ any_byte (is_byte "/") s = false.

Lemma evidence_path_parts id name :
  path_element id → path_element name → path_parts (evidence_path id name) = [id; "evidence"; name].
Proof.
  intros [Hid Hid'] [Hname Hname']. unfold path_parts, evidence_path, Trim, TrimFunc.
  rewrite TrimPrefix_app, TrimLeft_none by done.
  replace (id +:+ "/evidence/" +:+ name) with ((id +:+ "/evidence/") +:+ name) by by rewrite !app_assoc_string.
  rewrite TrimRight_none, app_assoc_string by done.
  change (id +:+ "/evidence/" +:+ name) with (id +:+ String "/" ("evidence" +:+ String "/" name)).
  by rewrite !Split_piece, Split_whole by done.
Qed.

(** C18: an evidence update has the same effect over HTTP and over gRPC: for the
    same credentials, evidence and body both servers leave the same world, and the
    HTTP status corresponds to the gRPC code.  (Evidence named [audit] is the
    exception: its HTTP path is taken.) *)
Theorem transports_agree `{HB : BodyDecoder} authenticator authorization id name body eb w :
  path_element id → path_element name → name ≠ "audit" →
  mux_route (evidence_path id name) = RouteChangePacketByID →
  DecodeEvidence maxEvidenceRequestBodySize body = Ok eb →
  DecodeRest maxEvidenceRequestBodySize body = BodyEOF →
  let over_http := http_server s t authenticator
    (mkHTTPRequest MethodPut (evidence_path id name) authorization None body) w in
  let over_grpc := grpc_server s t authenticator [authorization]
    (UpdateEvidenceExecutionCall (mkUpdateEvidenceRequest id name (eb_Type_ eb) (eb_Status eb) (eb_Required eb)
       (eb_Summary eb) (eb_DetailsURL eb) (eb_UpdatedBy eb))) w in
  over_http.2 = over_grpc.2 ∧
  rs_Status over_http.1 = match over_grpc.1 with Ok _ => StatusAccepted | Err st => http_of_code (st_Code st) end.
Proof.
  intros Hid Hname Haudit Hroute Hbody Hrest over_http over_grpc.
  pose proof (evidence_path_parts id name Hid Hname) as Hparts.
  assert (isEvidenceUpdate (mkHTTPRequest MethodPut (evidence_path id name) authorization None body) = true) as Hu.
  { eapply update_path_is_update; [done|exact Hparts|apply Hid]. }
  subst over_http over_grpc. unfold http_server, AccessMiddleware, grpc_server, AccessUnaryServerInterceptor.
  rewrite decide_False by done. cbn [hr_Authorization authorizationFromMetadata method_of]. rewrite Hu.
  change (roleForMethod UpdateEvidenceExecution_FullMethodName) with (Some RoleEvidenceWriter). cbv beta iota.
  destruct (authenticator authorization) as [principal|]; [|done].
  destruct (Authorize principal RoleEvidenceWriter) as [[]|[]]; [|done..].
  unfold mux. cbn [hr_Path]. rewrite Hroute. unfold handleChangePacketByID. cbn [hr_Path]. rewrite Hparts.
  destruct Hid as [Hid _], Hname as [Hname _]. cbn [head default].
  rewrite decide_False, decide_True, decide_False by done. unfold only. cbn [hr_Method].
  rewrite decide_False by (by intros []). unfold updateEvidenceExecution. cbn [hr_Body]. rewrite Hbody, Hrest.
  unfold answer, grpc_handler, grpc_UpdateEvidenceExecution. cbn [ur_ChangePacketId ur_Name].
  rewrite decide_False by naive_solver. unfold service_call, fmap, stateE_fmap, mbind, stateE_bind, wrapE.
  change (fromUpdateEvidenceExecutionRequest _) with (evidence_of_body id name eb).
  destruct (UpdateEvidenceExecution _ _ _ _ w) as [[e|err] w']; cbn; [done|].
  split; [done|]. apply statusForError_code.
Qed.
End served.

(** ** Concrete calls *)

Section demo.
#[local] Existing Instance map_order_sorted.
#[local] Existing Instance counting_entropy.
#[local] Existing Instance plain_decoder.

Definition demo_update (status : EvidenceStatus) : UpdateEvidenceRequest :=
  mkUpdateEvidenceRequest "cp_1" "integration-tests" "" status false "" "" "mallory".

Lemma grpc_writes_authorized_witness :
  ∃ principal, demo_authenticator "Bearer w" = Ok principal ∧ may principal RoleEvidenceWriter ∧
    ea_Actor <$> audit_of (view (grpc_server demo_service demo_readings demo_authenticator ["Bearer w"]
      (UpdateEvidenceExecutionCall (demo_update EvidenceRunning)) demo_repository).2) "cp_1" = ["alice"].
Proof.
  destruct (grpc_server demo_service demo_readings demo_authenticator ["Bearer w"]
    (UpdateEvidenceExecutionCall (demo_update EvidenceRunning)) demo_repository) as [r w'] eqn:E.
  assert (ea_Actor <$> audit_of (view w') "cp_1" = ["alice"]) as Ha
    by (rewrite <- (f_equal snd E : _ = w'); vm_compute; reflexivity).
  destruct (grpc_writes_authorized demo_service demo_readings demo_authenticator ["Bearer w"] _
    demo_repository r w' demo_publishes demo_keyed E) as [Hv|(principal & update & _ & Hp & Hm & _)].
  - rewrite Hv in Ha. by vm_compute in Ha.
  - exists principal. exact (conj Hp (conj Hm Ha)).
Defined.

Lemma transports_agree_witness :
  let over_http := http_server demo_service demo_readings demo_authenticator (demo_put "Bearer w") demo_repository in
  let over_grpc := grpc_server demo_service demo_readings demo_authenticator ["Bearer w"]
    (UpdateEvidenceExecutionCall (demo_update EvidenceSatisfied)) demo_repository in
  over_http.2 = over_grpc.2 ∧ rs_Status over_http.1 = StatusAccepted.
Proof.
  intros over_http over_grpc. split; [|by vm_compute].
  refine (proj1 (transports_agree demo_service demo_readings demo_authenticator "Bearer w" "cp_1" "integration-tests"
    EvidenceSatisfied (mkEvidenceBody EvidenceSatisfied "" "" "mallory" "" false) demo_repository
    _ _ _ eq_refl eq_refl eq_refl)); done.
Defined.
End demo.
