(* ===== verification/Runes.v ===== *)
(** Strings as sequences of runes: what [[]rune(s)] and [string(runes)] do with
    UTF-8.  A rune is kept as the bytes that encode it; a byte that starts no valid
    encoding becomes U+FFFD. *)
From stdpp Require Import base list strings.
From S2P Require Import Prelude GoStrings.

Local Open Scope string_scope.
Local Open Scope list_scope.
Local Open Scope Z_scope.

(** ** Definitions *)

Definition byte_in (lo hi : Z) (a : ascii) : bool := (lo <=? byte_val a) && (byte_val a <=? hi).
Definition continuation : ascii → bool := byte_in 128 191.

(** The second byte of an encoding of three or four bytes: overlong encodings,
    surrogates and values above U+10FFFF are out. *)
Definition second_ok (a b : ascii) : bool :=
  let n := byte_val a in
  if n =? 224 then byte_in 160 191 b
  else if n =? 237 then byte_in 128 159 b
  else if n =? 240 then byte_in 144 191 b
  else if n =? 244 then byte_in 128 143 b
  else continuation b.

Definition one_byte (a : ascii) : bool := byte_in 0 127 a.
Definition two_bytes (a b : ascii) : bool := byte_in 194 223 a && continuation b.
Definition three_bytes (a b c : ascii) : bool := byte_in 224 239 a && second_ok a b && continuation c.
Definition four_bytes (a b c d : ascii) : bool :=
  byte_in 240 244 a && second_ok a b && continuation c && continuation d.

Definition rune_error : string := String "239" (String "191" (String "189" "")).

Fixpoint runes (s : string) : list string :=
  match s with
  | EmptyString => []
  | String a s1 =>
      if one_byte a then String a "" :: runes s1
      else
        match s1 with
        | String b s2 =>
            if two_bytes a b then String a (String b "") :: runes s2
            else
              match s2 with
              | String c s3 =>
                  if three_bytes a b c then String a (String b (String c "")) :: runes s3
                  else
                    match s3 with
                    | String d s4 =>
                        if four_bytes a b c d then String a (String b (String c (String d ""))) :: runes s4
                        else rune_error :: runes s1
                    | EmptyString => rune_error :: runes s1
                    end
              | EmptyString => rune_error :: runes s1
              end
        | EmptyString => rune_error :: runes s1
        end
  end.

(** [string(runes)]. *)
Definition of_runes : list string → string := concat_all.

(** ** Lemmas *)

(** The encoding of one rune. *)
Definition rune_encoding (r : string) : Prop :=
  match r with
  | String a "" => one_byte a = true
  | String a (String b "") => one_byte a = false ∧ two_bytes a b = true
  | String a (String b (String c "")) => one_byte a = false ∧ two_bytes a b = false ∧ three_bytes a b c = true
  | String a (String b (String c (String d ""))) =>
      one_byte a = false ∧ two_bytes a b = false ∧ three_bytes a b c = false ∧ four_bytes a b c d = true
  | _ => False
  end.

Lemma rune_encoding_error : rune_encoding rune_error.
Proof. by vm_compute. Qed.

(** An encoding is read as that rune, whatever follows. *)
Lemma runes_encoding r s : rune_encoding r → runes (r +:+ s) = r :: runes s.
Proof.
  destruct r as [|a [|b [|c [|d [|e r]]]]]; [done| | | | |done]; unfold rune_encoding.
  - intros Ha. change (String a "" +:+ s) with (String a s). cbn [runes]. by rewrite Ha.
  - intros [Ha Hb]. change (String a (String b "") +:+ s) with (String a (String b s)). cbn [runes]. by rewrite Ha, Hb.
  - intros (Ha & Hb & Hc). change (String a (String b (String c "")) +:+ s) with (String a (String b (String c s))).
    cbn [runes]. by rewrite Ha, Hb, Hc.
  - intros (Ha & Hb & Hc & Hd).
    change (String a (String b (String c (String d ""))) +:+ s) with (String a (String b (String c (String d s)))).
    cbn [runes]. by rewrite Ha, Hb, Hc, Hd.
Qed.

Lemma runes_encodings s : Forall rune_encoding (runes s).
Proof.
  remember (String.length s) as n eqn:Hn. revert s Hn.
  induction n as [n IH] using lt_wf_ind. intros s ->.
  assert (∀ s', (String.length s' < String.length s)%nat → Forall rune_encoding (runes s')) as Hs
    by (intros; by eapply IH).
  clear IH. destruct s as [|a s1]; [constructor|]. cbn [runes].
  destruct (one_byte a) eqn:Ha; [constructor; [done|apply Hs; cbn; lia]|].
  assert (Forall rune_encoding (rune_error :: runes s1)) as He
    by (constructor; [apply rune_encoding_error|apply Hs; cbn; lia]).
  destruct s1 as [|b s2]; [done|].
  destruct (two_bytes a b) eqn:Hb; [constructor; [done|apply Hs; cbn; lia]|].
  destruct s2 as [|c s3]; [done|].
  destruct (three_bytes a b c) eqn:Hc; [constructor; [done|apply Hs; cbn; lia]|].
  destruct s3 as [|d s4]; [done|].
  destruct (four_bytes a b c d) eqn:Hd; [constructor; [done|apply Hs; cbn; lia]|done].
Qed.

(** Encoding and decoding a sequence of runes gives it back. *)
Lemma runes_of_runes rs s : Forall rune_encoding rs → runes (of_runes rs +:+ s) = rs ++ runes s.
Proof.
  unfold of_runes. induction 1 as [|r rs Hr _ IH]; [done|].
  change (concat_all (r :: rs)) with (r +:+ concat_all rs).
  rewrite app_assoc_string, runes_encoding by done. cbn. by rewrite IH.
Qed.
