(* ===== verification/Github.v ===== *)
(** [internal/github]: the records of the GitHub service and the webhook decoder
    with its signature check.  The service is a record of operations; the REST
    client that implements it is in [GithubClient]. *)
From stdpp Require Import base list gmap strings.
From S2P Require Import Prelude GoStrings Domain Identity.

Local Open Scope string_scope.
Local Open Scope list_scope.
Local Open Scope Z_scope.

(** ** The service *)

Record PullRequest := mkPullRequest {
  gpr_Owner : string;
  gpr_Repo : string;
  gpr_Number : Z;
  gpr_Title : string;
  gpr_Body : string;
  gpr_Author : string;
  gpr_URL : string;
  gpr_HeadSHA : string;
  gpr_BaseSHA : string;
}.

Record CheckRunInput := mkCheckRunInput {
  cri_RepoOwner : string;
  cri_RepoName : string;
  cri_HeadSHA : string;
  cri_Name : string;
  cri_Status : string;
  cri_Conclusion : string;
  cri_Summary : string;
  cri_DetailsURL : string;
}.

(** [github.Service] over a world [W]; the content of a file at a commit does not
    change. *)
Record GitHubService (W : Type) := mkGitHubService {
  GetPullRequest : string → string → Z → stateE W string PullRequest;
  GetPullRequestDiff : string → string → Z → stateE W string string;
  GetFileContent : string → string → string → string → result string string;
  PublishCheckRun : CheckRunInput → stateE W string ();
}.
Arguments mkGitHubService {W}.
Arguments GetPullRequest {W}.
Arguments GetPullRequestDiff {W}.
Arguments GetFileContent {W}.
Arguments PublishCheckRun {W}.

(** [NoopService]. *)
Definition NoopService (W : Type) : GitHubService W :=
  mkGitHubService (λ _ _ _, throw "github pull request fetch not implemented")
    (λ _ _ _, throw "github diff fetch not implemented")
    (λ _ _ _ _, Err "github file content fetch not implemented") (λ _, mret ()).

(** ** Webhook payloads *)

Record RepositoryPayload := mkRepositoryPayload {
  rp_Name : string;
  rp_FullName : string;
  rp_OwnerLogin : string;
}.

Record PullRequestWebhookPayload := mkPullRequestWebhookPayload {
  pw_Action : string;
  pw_InstallationID : Z;
  pw_Repository : RepositoryPayload;
  pw_Number : Z;
  pw_Title : string;
  pw_Body : string;
  pw_HTMLURL : string;
  pw_HeadSHA : string;
  pw_BaseSHA : string;
  pw_UserLogin : string;
  pw_UserType : string;
}.

Record CheckRunWebhookPayload := mkCheckRunWebhookPayload {
  cw_Action : string;
  cw_InstallationID : Z;
  cw_Repository : RepositoryPayload;
  cw_ID : Z;
  cw_Name : string;
  cw_HeadSHA : string;
  cw_Status : string;
  cw_Conclusion : string;
  cw_DetailsURL : string;
  cw_OutputTitle : string;
  cw_OutputSummary : string;
  cw_AppID : Z;
  cw_AppSlug : string;
  cw_PullRequests : list Z;
}.

Definition zeroPullRequestPayload : PullRequestWebhookPayload :=
  mkPullRequestWebhookPayload "" 0 (mkRepositoryPayload "" "" "") 0 "" "" "" "" "" "" "".

Record Webhook := mkWebhook {
  wh_Event : string;
  wh_DeliveryID : string;
  wh_Signature256 : string;
  wh_Payload : PullRequestWebhookPayload;
  wh_CheckRun : option CheckRunWebhookPayload;
}.

(** ** The decoder *)

(** A webhook request: three headers and what reading the body gives. *)
Record WebhookRequest := mkWebhookRequest {
  wr_Event : string;
  wr_Signature : string;
  wr_Delivery : string;
  wr_Body : result string string;
}.

(** HMAC-SHA-256 of a message under a key; [encoding/json] for the payloads. *)
Class WebhookCodec := {
  HMAC : string → string → list Byte.byte;
  UnmarshalCheckRun : string → result string CheckRunWebhookPayload;
  UnmarshalPullRequest : string → result string PullRequestWebhookPayload;
}.

Section webhook.
Context `{HW : WebhookCodec}.
(** The configured secret. *)
Context (secret : string).

Definition verify (payload signature : string) : result string () :=
  if decide (secret = "") then Ok ()
  else if decide (signature = "") then Err "missing GitHub signature header"
  else if negb (HasPrefix signature "sha256=") then Err "unsupported GitHub signature format"
  else if decide (signature = "sha256=" +:+ EncodeToString (HMAC secret payload)) then Ok ()
  else Err "invalid GitHub webhook signature".

Definition Decode (r : WebhookRequest) : result string Webhook :=
  if decide (wr_Event r = "") then Err "missing GitHub event header"
  else
    body ← wr_Body r;
    verify body (wr_Signature r) ;;
    if decide (wr_Event r = "check_run") then
      payload ← UnmarshalCheckRun body;
      Ok (mkWebhook (wr_Event r) (wr_Delivery r) (wr_Signature r) zeroPullRequestPayload (Some payload))
    else
      payload ← UnmarshalPullRequest body;
      Ok (mkWebhook (wr_Event r) (wr_Delivery r) (wr_Signature r) payload None).

(** ** Lemmas *)

Lemma verify_ok payload signature :
  verify payload signature = Ok () ↔
  secret = "" ∨ signature = "sha256=" +:+ EncodeToString (HMAC secret payload).
Proof.
  unfold verify. case_decide as Hs; [tauto|]. case_decide as Hsig.
  { split; [done|]. intros [?|Hm]; [done|]. by rewrite Hsig in Hm. }
  destruct (HasPrefix signature "sha256=") eqn:Hp; cbn [negb].
  - case_decide; [tauto|]. split; [done|]. tauto.
  - split; [done|]. intros [?|Hm]; [done|]. rewrite Hm, HasPrefix_app in Hp. done.
Qed.

(** A webhook that decodes is signed, when there is a secret. *)
Lemma Decode_signed r webhook :
  Decode r = Ok webhook → secret ≠ "" →
  ∃ body, wr_Body r = Ok body ∧ wr_Signature r = "sha256=" +:+ EncodeToString (HMAC secret body).
Proof.
  unfold Decode. case_decide as He; [done|]. intros (body & Hb & H)%bind_ok Hs.
  apply bind_ok in H as ([] & [?|Hv]%verify_ok & _); [done|]. eauto.
Qed.
End webhook.
