(* ===== verification/Checks.v ===== *)
(** [internal/checks/publisher.go]: the GitHub check that reports a packet. *)
From stdpp Require Import base list gmap strings.
From S2P Require Import Prelude GoStrings Runes Domain Github.

Local Open Scope string_scope.
Local Open Scope list_scope.
Local Open Scope Z_scope.

(** ** The summary *)

(** The sections are texts that [buildCheckSummary] writes one after the other. *)
Definition backquoted (s : string) : string := "`" +:+ s +:+ "`".

Definition writeDecisionSummary (packet : ChangePacket) : string :=
  (if decide (pd_Summary (cp_Decision packet) = "") then ""
   else newline +:+ line ("**Why:** " +:+ pd_Summary (cp_Decision packet))) +:+
  (if nonempty (pd_AppliedPolicies (cp_Decision packet))
   then newline +:+ line ("**Applied policies:** " +:+ Join ", " (pd_AppliedPolicies (cp_Decision packet)))
   else "").

Definition writeMutationsSummary (packet : ChangePacket) : string :=
  if nonempty (cp_Mutations packet) then
    line (newline +:+ "### Detected mutations") +:+
    concat_all ((λ m, line ("- **" +:+ mut_Severity m +:+ "** " +:+ backquoted (mut_Kind m) +:+ " — " +:+ mut_Title m)) <$>
      cp_Mutations packet)
  else "".

Definition risk_lines (risk : Risk) : string :=
  line ("- **" +:+ risk_Type_ risk +:+ " (+" +:+ itoa (risk_Score risk) +:+ "):** " +:+ risk_Summary risk) +:+
  concat_all ((λ mitigation, line ("  - " +:+ mitigation)) <$> risk_Mitigations risk).

Definition writeRiskSummary (packet : ChangePacket) : string :=
  if nonempty (cp_Risks packet) then
    line (newline +:+ "### Risk and mitigation") +:+ concat_all (risk_lines <$> cp_Risks packet)
  else "".

Definition reviewerRequirement (reviewer : ReviewerRequirement) : string :=
  if rr_Mandatory reviewer then "required" else "recommended".

Definition writeReviewerSummary (packet : ChangePacket) : string :=
  if nonempty (cp_Reviewers packet) then
    line (newline +:+ "### Required reviewers") +:+
    concat_all ((λ r, line ("- " +:+ backquoted (rr_Team r) +:+ " (" +:+ reviewerRequirement r +:+ "): " +:+ rr_Reason r)) <$>
      cp_Reviewers packet)
  else "".

Definition evidenceStatuses (executions : list EvidenceExecution) : gmap string EvidenceStatus :=
  foldl (λ statuses e, <[ee_Name e := ee_Status e]> statuses) ∅ executions.

Definition evidenceSummaryLine (evidence : EvidenceRequirement) (status : EvidenceStatus) : string :=
  let requirement := if er_Required evidence then "required" else "optional" in
  let status := if decide (status = "") then EvidencePending else status in
  let marker := if decide (status = EvidenceSatisfied ∨ status = EvidenceWaived) then "x" else " " in
  "- [" +:+ marker +:+ "] " +:+ backquoted (er_Name evidence) +:+ " (" +:+ requirement +:+ ") — **" +:+ status +:+ "**" +:+
  (if decide (er_Reason evidence = "") then "" else ": " +:+ er_Reason evidence).

Definition writeEvidenceSummary (packet : ChangePacket) (executions : list EvidenceExecution) : string :=
  if nonempty (cp_Evidence packet) then
    line (newline +:+ "### Evidence checklist") +:+
    concat_all ((λ e, line (evidenceSummaryLine e (default "" (evidenceStatuses executions !! er_Name e)))) <$>
      cp_Evidence packet)
  else "".

Definition writeDeploymentSummary (packet : ChangePacket) : string :=
  let deployment := cp_Deployment packet in
  line (newline +:+ "### Deployment guidance") +:+
  line ("- Strategy: **" +:+ dr_Strategy deployment +:+ "**") +:+
  (if dr_RequiresCanary deployment then line "- Canary rollout required" else "") +:+
  (if dr_RequiresRollbackPlan deployment then line "- Rollback plan required" else "") +:+
  (if nonempty (dr_Environments deployment)
   then line ("- Environments: " +:+ Join ", " (dr_Environments deployment)) else "").

Definition truncateSummary (value : string) (maxRunes : nat) : string :=
  let rs := runes value in
  if (length rs <=? maxRunes)%nat then value else of_runes (take (maxRunes - 1) rs) +:+ "…".

Definition check_header (packet : ChangePacket) : string :=
  line "## Merger change control" +:+ line "" +:+
  line "| Merge lane | Risk | Decision |" +:+ line "| --- | ---: | --- |" +:+
  line ("| **" +:+ cp_MergeLane_ packet +:+ "** | " +:+ itoa (rs_Score (cp_RiskSummary_ packet)) +:+ " (" +:+
        rs_Severity (cp_RiskSummary_ packet) +:+ ") | " +:+ pd_Status (cp_Decision packet) +:+ " |").

Definition maxSummaryRunes : nat := Z.to_nat 60000.

Definition buildCheckSummary (packet : ChangePacket) (executions : list EvidenceExecution) : string :=
  truncateSummary
    (check_header packet +:+ writeDecisionSummary packet +:+ writeMutationsSummary packet +:+
     writeRiskSummary packet +:+ writeReviewerSummary packet +:+ writeEvidenceSummary packet executions +:+
     writeDeploymentSummary packet) maxSummaryRunes.

(** ** The check run *)

Definition check_conclusion (lane : MergeLane) : string :=
  if decide (lane = MergeLaneGreen) then "success"
  else if decide (lane = MergeLaneBlack) then "action_required"
  else "neutral".

Definition check_run (packet : ChangePacket) (executions : list EvidenceExecution) : CheckRunInput :=
  mkCheckRunInput (repo_Owner (cp_Repo packet)) (repo_Name (cp_Repo packet)) (pr_HeadSHA (cp_PR packet))
    "merger/change-control" "completed" (check_conclusion (cp_MergeLane_ packet))
    (buildCheckSummary packet executions) "".

(** The installation a packet names in its metadata.  [strconv.ParseInt] of a
    decimal within 64 bits is [Atoi] here. *)
Definition check_installation (packet : ChangePacket) : option Z :=
  let raw := default "" (cp_Metadata packet !! "installation_id") in
  if decide (raw = "") then None else Atoi raw.

Section publisher.
Context {W : Type}.
(** The client, with its [ForInstallation] when it is an [InstallationBinder]. *)
Record GitHubCheckPublisher := mkGitHubCheckPublisher {
  cpb_client : option (GitHubService W);
  cpb_ForInstallation : option (Z → GitHubService W);
}.

Definition PublishWithEvidence (p : GitHubCheckPublisher) (packet : ChangePacket) (executions : list EvidenceExecution)
    : stateE W string () :=
  match cpb_client p with
  | None => mret ()
  | Some client =>
      let client :=
        match cpb_ForInstallation p, check_installation packet with
        | Some ForInstallation, Some installationID => ForInstallation installationID
        | _, _ => client
        end in
      PublishCheckRun client (check_run packet executions)
  end.

Definition Publish (p : GitHubCheckPublisher) (packet : ChangePacket) : stateE W string () :=
  PublishWithEvidence p packet [].
End publisher.
Arguments GitHubCheckPublisher : clear implicits.

(** ** Theorems *)

Lemma runes_ellipsis : runes "…" = ["…"].
Proof. by vm_compute. Qed.

Lemma truncateSummary_runes value maxRunes :
  (0 < maxRunes)%nat →
  runes (truncateSummary value maxRunes) =
  if (length (runes value) <=? maxRunes)%nat then runes value else take (maxRunes - 1) (runes value) ++ ["…"].
Proof.
  intros Hmax. unfold truncateSummary. destruct (_ <=? _)%nat; [done|].
  rewrite runes_of_runes by apply Forall_take, runes_encodings. by rewrite runes_ellipsis.
Qed.

(** The check of a packet reports success for the GREEN lane and no other,
    asks for action for BLACK and no other, and its summary never has more than
    60000 characters, whatever the packet holds (a longer one is cut and
    marked). *)
Theorem check_run_reports packet executions :
  let input := check_run packet executions in
  (cri_Conclusion input = "success" ↔ cp_MergeLane_ packet = MergeLaneGreen) ∧
  (cri_Conclusion input = "action_required" ↔ cp_MergeLane_ packet = MergeLaneBlack) ∧
  (length (runes (cri_Summary input)) ≤ maxSummaryRunes)%nat.
Proof.
  cbn [check_run cri_Conclusion cri_Summary]. split_and!.
  - unfold check_conclusion. case_decide; [done|]. by case_decide.
  - unfold check_conclusion. case_decide as Hg; [by rewrite Hg|]. by case_decide.
  - unfold buildCheckSummary. set (text := check_header _ +:+ _). clearbody text.
    assert (0 < maxSummaryRunes)%nat as Hpos by (unfold maxSummaryRunes; lia).
    generalize dependent maxSummaryRunes. intros n Hpos. rewrite truncateSummary_runes by done.
    destruct (Nat.leb_spec (length (runes text)) n); [done|].
    rewrite length_app, length_take. cbn. lia.
Qed.

(** A check that reports evidence marks exactly the settled ones. *)
Example evidence_line_waived :
  evidenceSummaryLine (mkEvidenceRequirement "test" "ci" true "risky" "" None) EvidenceWaived =
  "- [x] `ci` (required) — **waived**: risky".
Proof. by vm_compute. Qed.
