(* ===== verification/Ingest.v ===== *)
(** [internal/ingest]: from a webhook to a stored Change Packet and its check, and
    from a completed GitHub check to evidence. *)
From stdpp Require Import base list gmap strings.
From S2P Require Import Prelude GoStrings GoPath Domain Identity Documents Lanes ConflictRisk Events Store.
From S2P Require Import Access ControlPlane Github.
From S2P Require Diff Risk PolicyValidation Policy Mutations Analyzers RuntimeGraph Scan.

Local Open Scope string_scope.
Local Open Scope list_scope.
Local Open Scope Z_scope.

(** ** Files *)

Definition languageFromPath (path : string) : string :=
  let ext := ToLower (Ext path) in
  if decide (ext = ".go") then "go"
  else if decide (ext = ".sql") then "sql"
  else if decide (ext = ".yaml" ∨ ext = ".yml") then "yaml"
  else if decide (ext = ".proto") then "proto"
  else "unknown".

Definition mapChangedFiles (files : list Diff.File) : list ChangedFile :=
  (λ file, {|
    file_Path := Diff.f_Path file;
    file_PreviousPath := Diff.f_PreviousPath file;
    file_Language := languageFromPath (Diff.f_Path file);
    file_Status := Diff.f_Status file;
    file_Additions := Diff.f_Additions file;
    file_Deletions := Diff.f_Deletions file;
    file_Changes := Diff.f_Additions file + Diff.f_Deletions file;
    file_Patch := Diff.f_Patch file |}) <$> files.

(** ** Checks and evidence *)

Definition evidenceStatusForCheckRun (status conclusion : string) : option EvidenceStatus :=
  if decide (status ≠ "completed") then None
  else if decide (conclusion = "success") then Some EvidenceSatisfied
  else Some EvidenceFailed.

Definition matchingEvidenceRequirement (requirements : list EvidenceRequirement) (checkName : string) (appID : Z)
    : option EvidenceRequirement :=
  find (λ requirement,
    match er_GitHubCheck requirement with
    | Some binding => bool_decide (ghc_Name binding = checkName) && bool_decide (ghc_AppID binding = appID)
    | None => false
    end) requirements.

(** ** The processor *)

Inductive IngestError :=
  | BusFailed (err : string)
  | GetDiffFailed (repoOwner repoName : string) (prNumber : Z) (err : string)
  | ClassifyFailed (err : string)
  | RuntimeFailed (err : string)
  | PolicyFailed (err : PolicyValidation.PolicyError)
  | SaveFailed (err : StoreError)
  | CheckFailed (err : string)
  | FindFailed (err : StoreError)
  | ReconcileFailed (checkName packetID : string) (err : ServiceError).

(** The clock of one webhook, by the number of the reading. *)
Definition Clock : Type := nat → Time.

Section processor.
Context `{HR : Repository W} `{HE : Entropy} `{HG : Mutations.SliceGrowth} `{HM : MapOrder} `{HP : Parsers}
  `{HD : RuntimeGraph.GraphDecoder}.

(** The interfaces the processor is built from; the engines are those of the
    program. *)
Record Processor := mkProcessor {
  p_bus : Envelope → stateE W string ();
  p_github : GitHubService W;
  p_ForInstallation : option (Z → GitHubService W);
  p_mutations : Mutations.RuleBasedEngine;
  p_risk : Risk.Weights;
  p_policy : PolicyValidation.Config;
  p_assigner : LanesConfig;
  p_checks : ChangePacket → stateE W string ();
  p_runtime : list RuntimeGraph.Source;
  p_store : bool;  (** whether there is a packet store *)
  p_evidence : option (EvidenceExecution → stateE W ServiceError EvidenceExecution);
}.

Definition bindInstallation (p : Processor) (installationID : Z) : GitHubService W :=
  match p_ForInstallation p with
  | Some ForInstallation => if decide (installationID ≠ 0) then ForInstallation installationID else p_github p
  | None => p_github p
  end.

(** *** Events *)

Definition publish (p : Processor) (event : Envelope) : stateE W IngestError () := wrapE BusFailed (p_bus p event).

Definition publishPROpened (p : Processor) (k : nat) (fullName : string) (prNumber : Z) (action : string) :=
  publish p (NewEnvelope k EventPROpened "ingest" (PROpenedPayload fullName prNumber action)).
Definition publishMutations (p : Processor) (k : nat) (mutations : list Mutation) :=
  publish p (NewEnvelope k EventMutationDetected "mutations" (MutationsPayload mutations)).
Definition publishRisk (p : Processor) (k : nat) (risks : list Risk) :=
  publish p (NewEnvelope k EventRiskAssigned "risk" (RisksPayload risks)).
Definition publishViolations (p : Processor) (k : nat) (violations : list PolicyViolation) :=
  publish p (NewEnvelope k EventPolicyViolationDetected "policy" (ViolationsPayload violations)).
Definition publishLane (p : Processor) (k : nat) (packetID : string) (lane : MergeLane) :=
  publish p (NewEnvelope k EventMergeLaneAssigned "lanes" (LanePayload packetID lane)).

(** *** The packet *)

Definition fetchPullRequest (service : GitHubService W) (repoOwner repoName : string) (prNumber : Z)
    (payload : PullRequestWebhookPayload) : stateE W IngestError PullRequest := λ w,
  match GetPullRequest service repoOwner repoName prNumber w with
  | (Ok pr, w') => (Ok pr, w')
  | (Err _, w') =>
      (Ok (mkPullRequest repoOwner repoName prNumber (pw_Title payload) (pw_Body payload) (pw_UserLogin payload)
             (pw_HTMLURL payload) (pw_HeadSHA payload) (pw_BaseSHA payload)), w')
  end.

Definition new_packet (k : nat) (Now : Clock) (correlationID : string) (payload : PullRequestWebhookPayload)
    (pr : PullRequest) (repoOwner repoName : string) (files : list Diff.File) : ChangePacket := {|
  cp_ID := New "cp" k;
  cp_Repo := mkRepoRef repoOwner repoName (rp_FullName (pw_Repository payload)) "";
  cp_PR := mkPullRequestRef (gpr_Number pr) (gpr_URL pr) (gpr_HeadSHA pr) (gpr_BaseSHA pr);
  cp_Author_ := mkAuthor (gpr_Author pr) "" "" (pw_UserType payload);
  cp_Title := gpr_Title pr; cp_Summary := TrimSpace (gpr_Body pr); cp_Source := "github.pull_request";
  cp_Files := mapChangedFiles files; cp_Mutations := []; cp_Risks := []; cp_RiskSummary_ := zeroRiskSummary;
  cp_Conflict := zeroConflictAssessment; cp_Evidence := []; cp_Runtime := zeroRuntimeImpact;
  cp_Ownership := []; cp_Reviewers := [];
  cp_Deployment := mkDeploymentRequirement DeployDirect [] false false "" [];
  cp_MergeLane_ := MergeLaneYellow; cp_Decision := pd_with_Status DecisionPending zeroPolicyDecision;
  cp_Metadata := <["installation_id" := itoa (pw_InstallationID payload)]> {["correlation_id" := correlationID]};
  cp_CreatedAt := Now 0%nat; cp_UpdatedAt := Now 1%nat |}.

Definition buildChangePacket (p : Processor) (k : nat) (Now : Clock) (correlationID : string)
    (payload : PullRequestWebhookPayload) (pr : PullRequest) (service : GitHubService W)
    (repoOwner repoName : string) (prNumber : Z) : stateE W IngestError ChangePacket :=
  rawDiff ← wrapE (GetDiffFailed repoOwner repoName prNumber) (GetPullRequestDiff service repoOwner repoName prNumber);
  let packet := new_packet k Now correlationID payload pr repoOwner repoName (Diff.ParseUnified rawDiff) in
  publish p (NewEnvelope (S k) EventChangePacketCreated "ingest" (PacketPointer (cp_ID packet))) ;;
  mret packet.

(** *** The stages *)

Definition github_loader (service : GitHubService W) (repoOwner repoName ref : string) : string → result string string :=
  λ path, GetFileContent service repoOwner repoName path ref.

(** Classification draws identifiers from [k] on and leaves the next number. *)
Definition enrichMutations (p : Processor) (k : nat) (packet : ChangePacket) (service : GitHubService W)
    (repoOwner repoName : string) : stateE W IngestError (ChangePacket * nat) :=
  let loader := github_loader service repoOwner repoName (pr_HeadSHA (cp_PR packet)) in
  '(mutationList, k) ← liftE (map_err ClassifyFailed
    (Mutations.Classify (p_mutations p)
      (Mutations.mkAnalysisRequest (cp_Repo packet) (pr_HeadSHA (cp_PR packet)) (cp_Files packet) (Some loader)) k));
  publishMutations p k mutationList ;;
  mret (cp_with_Mutations mutationList packet, S k).

Definition enrichRuntimeImpact (p : Processor) (packet : ChangePacket) (service : GitHubService W)
    (repoOwner repoName : string) : stateE W IngestError ChangePacket :=
  let loader := github_loader service repoOwner repoName (pr_HeadSHA (cp_PR packet)) in
  '(runtimeImpact, ownership) ← liftE (map_err RuntimeFailed
    (RuntimeGraph.ResolveImpact (p_runtime p)
      (RuntimeGraph.mkResolutionInput packet (pr_HeadSHA (cp_PR packet)) (Some loader)
        (RuntimeGraph.mkOptions false "" 0))));
  mret (cp_with_Ownership ownership (cp_with_Runtime runtimeImpact packet)).

Definition enrichRisk (p : Processor) (k : nat) (packet : ChangePacket) : stateE W IngestError ChangePacket :=
  let packet := cp_with_Conflict (Analyze packet) packet in
  let '(riskSummary, risks) := Risk.Evaluate (p_risk p) packet in
  let packet := cp_with_Risks risks (cp_with_RiskSummary_ riskSummary packet) in
  publishRisk p k (cp_Risks packet) ;;
  mret packet.

Definition applyPolicy (p : Processor) (Now : Clock) (packet : ChangePacket) : result IngestError ChangePacket :=
  policyEval ← map_err PolicyFailed (Policy.Evaluate (p_policy p) (Now 2%nat) packet);
  Ok (Scan.with_evaluation policyEval packet).

Definition assignMergeLane (p : Processor) (Now : Clock) (packet : ChangePacket) : ChangePacket :=
  cp_with_UpdatedAt (Now 3%nat) (cp_with_MergeLane_ (Assign (p_assigner p) packet) packet).

Definition announce_violations (p : Processor) (k : nat) (violations : list PolicyViolation) : stateE W IngestError () :=
  if nonempty violations then publishViolations p k violations else mret ().

Definition finalize (p : Processor) (k : nat) (Now : Clock) (packet : ChangePacket) : stateE W IngestError () :=
  let violations := pd_Violations (cp_Decision packet) in
  announce_violations p k violations ;;
  publishLane p (if nonempty violations then S k else k) (cp_ID packet) (cp_MergeLane_ packet) ;;
  (if p_store p then wrapE SaveFailed (SaveChangePacket (Now 4%nat) packet) else mret ()) ;;
  wrapE CheckFailed (p_checks p packet).

(** Everything up to the last stage; it also gives the number of the next
    identifier. *)
Definition prepared (p : Processor) (k : nat) (Now : Clock) (correlationID : string)
    (payload : PullRequestWebhookPayload) : stateE W IngestError (ChangePacket * nat) :=
  let githubService := bindInstallation p (pw_InstallationID payload) in
  let repoOwner := rp_OwnerLogin (pw_Repository payload) in
  let repoName := rp_Name (pw_Repository payload) in
  let prNumber := pw_Number payload in
  publishPROpened p k (rp_FullName (pw_Repository payload)) prNumber (pw_Action payload) ;;
  pr ← fetchPullRequest githubService repoOwner repoName prNumber payload;
  packet ← buildChangePacket p (S k) Now correlationID payload pr githubService repoOwner repoName prNumber;
  '(packet, k) ← enrichMutations p (3 + k) packet githubService repoOwner repoName;
  packet ← enrichRuntimeImpact p packet githubService repoOwner repoName;
  packet ← enrichRisk p k packet;
  packet ← liftE (applyPolicy p Now packet);
  mret (assignMergeLane p Now packet, S k).

Definition ProcessPROpened (p : Processor) (k : nat) (Now : Clock) (correlationID : string)
    (payload : PullRequestWebhookPayload) : stateE W IngestError ChangePacket :=
  '(packet, k) ← prepared p k Now correlationID payload;
  finalize p k Now packet ;;
  mret packet.

(** *** Check runs *)

Definition check_execution (payload : CheckRunWebhookPayload) (status : EvidenceStatus) (packet : ChangePacket)
    (requirement : EvidenceRequirement) : EvidenceExecution :=
  let summary := if decide (cw_OutputSummary payload = "") then cw_OutputTitle payload else cw_OutputSummary payload in
  mkEvidenceExecution (cp_ID packet) (er_Name requirement) "" status false summary (cw_DetailsURL payload)
    ("github-app:" +:+ itoa (cw_AppID payload))
    (list_to_map [("github_check_run_id", itoa (cw_ID payload)); ("github_check_name", cw_Name payload);
                  ("github_app_id", itoa (cw_AppID payload)); ("github_head_sha", cw_HeadSHA payload)]) 0.

Definition reconcileCheckRunForPullRequest
    (update : EvidenceExecution → stateE W ServiceError EvidenceExecution) (payload : CheckRunWebhookPayload)
    (prNumber : Z) (status : EvidenceStatus) : stateE W IngestError () := λ w,
  match FindLatestChangePacket (rp_FullName (cw_Repository payload)) prNumber (cw_HeadSHA payload) w with
  | (Err ErrChangePacketNotFound, w') => (Ok (), w')
  | (Err err, w') => (Err (FindFailed err), w')
  | (Ok packet, w') =>
      match matchingEvidenceRequirement (cp_Evidence packet) (cw_Name payload) (cw_AppID payload) with
      | None => (Ok (), w')
      | Some requirement =>
          wrapE (ReconcileFailed (cw_Name payload) (cp_ID packet))
            (update (check_execution payload status packet requirement) ;; mret ()) w'
      end
  end.

Fixpoint reconcile_all (update : EvidenceExecution → stateE W ServiceError EvidenceExecution)
    (payload : CheckRunWebhookPayload) (status : EvidenceStatus) (pullRequests : list Z) : stateE W IngestError () :=
  match pullRequests with
  | [] => mret ()
  | number :: pullRequests' =>
      reconcileCheckRunForPullRequest update payload number status ;;
      reconcile_all update payload status pullRequests'
  end.

Definition ProcessCheckRun (p : Processor) (payload : CheckRunWebhookPayload) : stateE W IngestError () :=
  match p_evidence p with
  | None => mret ()
  | Some update =>
      if negb (p_store p) || bool_decide (cw_Action payload ≠ "completed") then mret ()
      else
        match evidenceStatusForCheckRun (cw_Status payload) (cw_Conclusion payload) with
        | None => mret ()
        | Some status =>
            if bool_decide (cw_HeadSHA payload = "") || bool_decide (rp_FullName (cw_Repository payload) = "")
            then mret ()
            else reconcile_all update payload status (cw_PullRequests payload)
        end
  end.

(** *** The webhook handler *)

(** The answer: a status and, for a processed pull request, the packet it
    reports. *)
Definition webhook_ServeHTTP `{HW : WebhookCodec} (secret : string) (p : Processor) (k : nat) (Now : Clock)
    (r : WebhookRequest) (w : W) : Z * option ChangePacket * W :=
  match Decode secret r with
  | Err _ => (400, None, w)
  | Ok webhook =>
      if decide (wh_Event webhook = "check_run") then
        match wh_CheckRun webhook with
        | None => (202, None, w)
        | Some payload =>
            match ProcessCheckRun p payload w with
            | (Err _, w') => (502, None, w')
            | (Ok _, w') => (202, None, w')
            end
        end
      else if decide (wh_Event webhook ≠ "pull_request") then (202, None, w)
      else if decide (pw_Action (wh_Payload webhook) ∈ ["opened"; "reopened"; "synchronize"]) then
        match ProcessPROpened p k Now (wh_DeliveryID webhook) (wh_Payload webhook) w with
        | (Err _, w') => (502, None, w')
        | (Ok packet, w') => (200, Some packet, w')
        end
      else (202, None, w)
  end.
End processor.
Arguments Processor : clear implicits.

(** ** Lemmas *)

Section ingested.
Context `{HR : Repository W} `{HL : !RepositoryLaws W} `{HE : Entropy} `{HG : Mutations.SliceGrowth} `{HM : MapOrder}
  `{HP : Parsers} `{HD : RuntimeGraph.GraphDecoder}.
Context (p : Processor W) (k : nat) (Now : Clock) (correlationID : string).

Lemma keeps_view_lift {E A} (r : result E A) : keeps_view (liftE r : stateE W E A).
Proof. by intros w r0 w' [= <- <-]. Qed.

(** The contents at the head of the packet, as the installation reads them. *)
Definition head_loader (payload : PullRequestWebhookPayload) (packet : ChangePacket) : string → result string string :=
  github_loader (bindInstallation p (pw_InstallationID payload)) (rp_OwnerLogin (pw_Repository payload))
    (rp_Name (pw_Repository payload)) (pr_HeadSHA (cp_PR packet)).

(** The runtime impact and the owners are what the sources of the processor say of
    the packet as it was when they were asked: before the stages that follow. *)
Definition impact_of (payload : PullRequestWebhookPayload) (packet : ChangePacket) : Prop :=
  ∃ q, cp_ID q = cp_ID packet ∧ cp_Repo q = cp_Repo packet ∧ cp_PR q = cp_PR packet ∧ cp_Files q = cp_Files packet ∧
    cp_Mutations q = cp_Mutations packet ∧
    RuntimeGraph.ResolveImpact (p_runtime p)
      (RuntimeGraph.mkResolutionInput q (pr_HeadSHA (cp_PR q)) (Some (head_loader payload q))
         (RuntimeGraph.mkOptions false "" 0)) = Ok (cp_Runtime packet, cp_Ownership packet).

(** What the pipeline fixes about the packet it prepares. *)
Lemma prepared_inv payload w packet k' w' :
  prepared p k Now correlationID payload w = (Ok (packet, k'), w') →
  ∃ q e rawDiff w1 w2,
    GetPullRequestDiff (bindInstallation p (pw_InstallationID payload)) (rp_OwnerLogin (pw_Repository payload))
      (rp_Name (pw_Repository payload)) (pw_Number payload) w1 = (Ok rawDiff, w2) ∧
    cp_Files q = mapChangedFiles (Diff.ParseUnified rawDiff) ∧
    (∃ n, Mutations.Classify (p_mutations p)
       (Mutations.mkAnalysisRequest (cp_Repo q) (pr_HeadSHA (cp_PR q)) (cp_Files q) (Some (head_loader payload q))) (3 + k) =
       Ok (cp_Mutations q, n)) ∧
    impact_of payload q ∧
    Analyze q = cp_Conflict q ∧
    Risk.Evaluate (p_risk p) q = (cp_RiskSummary_ q, cp_Risks q) ∧
    Policy.Evaluate (p_policy p) (Now 2%nat) q = Ok e ∧
    packet = assignMergeLane p Now (Scan.with_evaluation e q).
Proof.
  unfold prepared. intros [([] & w1 & _ & H)|(? & _ & [=])]%stateE_bind_inv.
  apply stateE_bind_inv in H as [(pr & w2 & _ & H)|(? & _ & [=])].
  apply stateE_bind_inv in H as [(p1 & w3 & Hb & H)|(? & _ & [=])].
  apply stateE_bind_inv in H as [([p2 k2] & w4 & Hm & H)|(? & _ & [=])].
  apply stateE_bind_inv in H as [(p3 & w5 & Hr & H)|(? & _ & [=])].
  apply stateE_bind_inv in H as [(p4 & w6 & Hk & H)|(? & _ & [=])].
  apply stateE_bind_inv in H as [(p5 & w7 & Hp & H)|(? & _ & [=])].
  injection H as <- <- <-. injection Hp as Hp <-. apply bind_ok in Hp as (e & He%map_err_ok & [= <-]).
  apply stateE_bind_inv in Hb as [(rawDiff & wd & (r0 & Hd & Hr0)%wrapE_inv & Hb)|(? & _ & [=])].
  destruct r0; simplify_eq/=. apply stateE_bind_inv in Hb as [([] & we & _ & Hb)|(? & _ & [=])].
  injection Hb as <- <-.
  apply stateE_bind_inv in Hm as [([ms km] & wm & Hc & Hm)|(? & _ & [=])].
  apply stateE_bind_inv in Hm as [([] & wn & _ & Hm)|(? & _ & [=])]. injection Hm as <- <- <-.
  apply stateE_bind_inv in Hr as [([impact owners] & wr & Hi & Hr)|(? & _ & [=])]. injection Hr as <- <-.
  injection Hc as Hc%map_err_ok <-. injection Hi as Hi%map_err_ok <-. set (p3 := cp_with_Ownership _ _) in Hk.
  assert (cp_Files p3 = mapChangedFiles (Diff.ParseUnified a)) as Hf by done.
  assert (∃ n, Mutations.Classify (p_mutations p)
    (Mutations.mkAnalysisRequest (cp_Repo p3) (pr_HeadSHA (cp_PR p3)) (cp_Files p3) (Some (head_loader payload p3))) (3 + k) =
    Ok (cp_Mutations p3, n)) as Hcl by (by exists km).
  assert (impact_of payload p3) as Him by (eexists; split_and!; cycle 5; [exact Hi|done..]).
  clearbody p3.
  unfold enrichRisk in Hk. cbn zeta in Hk. destruct (Risk.Evaluate _ _) as [summary risks] eqn:Er.
  apply stateE_bind_inv in Hk as [([] & wk & _ & Hk)|(? & _ & [=])]. injection Hk as <- <-.
  match type of He with Policy.Evaluate _ _ ?q = _ => exists q, e end. eexists _, _, _. split; [exact Hd|].
  split_and!; [done|exact Hcl|exact Him|by apply Scan.Analyze_ext| |exact He|done].
  etransitivity; [|exact Er]. by apply Scan.Risk_Evaluate_ext.
Qed.

(** Neither the bus nor the GitHub service writes packets and evidence. *)
Definition boundary_keeps_view (payload : PullRequestWebhookPayload) : Prop :=
  (∀ event, keeps_view (p_bus p event)) ∧
  let service := bindInstallation p (pw_InstallationID payload) in
  (∀ owner name number, keeps_view (GetPullRequest service owner name number)) ∧
  (∀ owner name number, keeps_view (GetPullRequestDiff service owner name number)).

Lemma keeps_view_pair {E A B C} (m : stateE W E (A * B)) (f : A → B → stateE W E C) :
  keeps_view m → (∀ a b, keeps_view (f a b)) → keeps_view ('(a, b) ← m; f a b).
Proof. intros Hm Hf. apply keeps_view_bind; [done|]. by intros [a b]. Qed.

Lemma prepared_keeps payload : boundary_keeps_view payload → keeps_view (prepared p k Now correlationID payload).
Proof.
  intros (Hbus & Hpr & Hdiff).
  assert (∀ event, keeps_view (publish p event)) as Hpub by (intros; by apply keeps_view_wrap).
  unfold prepared. cbn zeta. apply keeps_view_bind; [apply Hpub|intros _].
  apply keeps_view_bind; [|intros pr].
  { intros w r w'. unfold fetchPullRequest. destruct (GetPullRequest _ _ _ _ w) as [[pr|e] w1] eqn:E;
      intros [= <- <-]; by eapply Hpr. }
  apply keeps_view_bind; [|intros packet].
  { apply keeps_view_bind; [by apply keeps_view_wrap|intros diff].
    apply keeps_view_bind; [apply Hpub|intros _; apply keeps_view_ret]. }
  apply keeps_view_pair; [|intros p1 k1].
  { apply keeps_view_pair; [apply keeps_view_lift|intros ms n].
    apply keeps_view_bind; [apply Hpub|intros _; apply keeps_view_ret]. }
  apply keeps_view_bind; [|intros p2].
  { apply keeps_view_pair; [apply keeps_view_lift|intros; apply keeps_view_ret]. }
  apply keeps_view_bind; [|intros p3].
  { unfold enrichRisk. cbn zeta. destruct (Risk.Evaluate _ _) as [summary risks].
    apply keeps_view_bind; [apply Hpub|intros _; apply keeps_view_ret]. }
  apply keeps_view_bind; [apply keeps_view_lift|intros p4]. apply keeps_view_ret.
Qed.

(** Only the last stage publishes the check. *)
Definition no_check_error {A} (m : stateE W IngestError A) : Prop :=
  ∀ w e w', m w = (Err e, w') → ∀ c, e ≠ CheckFailed c.

Lemma no_check_bind {A B} (m : stateE W IngestError A) (f : A → stateE W IngestError B) :
  no_check_error m → (∀ a, no_check_error (f a)) → no_check_error (m ≫= f).
Proof.
  intros Hm Hf w e w' [(a & w1 & _ & H)|(e' & H & [= ->])]%stateE_bind_inv; [by eapply Hf|by eapply Hm].
Qed.

Lemma no_check_ret {A} (a : A) : no_check_error (mret a).
Proof. by intros w e w'. Qed.

Lemma no_check_wrap {E A} (f : E → IngestError) (m : stateE W E A) :
  (∀ e c, f e ≠ CheckFailed c) → no_check_error (wrapE f m).
Proof. intros Hf w e w' (r0 & _ & Hr)%wrapE_inv c. destruct r0; cbn in Hr; [done|]. injection Hr as ->. apply Hf. Qed.

Lemma no_check_lift {E A} (f : E → IngestError) (r : result E A) :
  (∀ e c, f e ≠ CheckFailed c) → no_check_error (liftE (map_err f r)).
Proof. intros Hf w e w' [= Hr <-] c. destruct r; cbn in Hr; [done|]. injection Hr as <-. apply Hf. Qed.

Lemma no_check_publish event : no_check_error (publish p event).
Proof. by apply no_check_wrap. Qed.
#[local] Hint Resolve no_check_publish no_check_ret : core.

Lemma prepared_no_check payload w c w' : ¬ prepared p k Now correlationID payload w = (Err (CheckFailed c), w').
Proof.
  enough (no_check_error (prepared p k Now correlationID payload)) as Hn by (intros H; by destruct (Hn _ _ _ H c)).
  unfold prepared. cbn zeta. apply no_check_bind; [apply no_check_publish|intros _].
  apply no_check_bind; [|intros pr].
  { intros w0 e w0'. unfold fetchPullRequest. by destruct (GetPullRequest _ _ _ _ w0) as [[]]. }
  apply no_check_bind; [|intros packet].
  { apply no_check_bind; [by apply no_check_wrap|intros diff]. apply no_check_bind; auto. }
  apply no_check_bind; [|intros [p1 k1]].
  { apply no_check_bind; [by apply no_check_lift|intros [ms n]]. apply no_check_bind; [apply no_check_publish|auto]. }
  apply no_check_bind; [|intros p2].
  { apply no_check_bind; [by apply no_check_lift|intros []]. auto. }
  apply no_check_bind; [|intros p3].
  { unfold enrichRisk. cbn zeta. destruct (Risk.Evaluate _ _). apply no_check_bind; [apply no_check_publish|auto]. }
  apply no_check_bind; [|auto]. intros w0 e w0' [= Hr <-] c' ->. unfold applyPolicy in Hr.
  by destruct (Policy.Evaluate _ _ _).
Qed.

(** The packet is stored, and found by what it says of itself unless it takes the
    place of one of another pull request. *)
Definition stored (packet : ChangePacket) (v v' : View) : Prop :=
  ∃ head, v' = saved_packet (sync_time (Now 4%nat) packet) packet head v ∧
    (same_pull (v_heads v !! cp_ID packet) packet → head = head_of packet).

(** The last stage: events, then the packet, then the check. *)
Lemma finalize_inv n packet w r w' :
  (∀ event, keeps_view (p_bus p event)) → p_store p = true →
  finalize p n Now packet w = (r, w') →
  (∃ w2 c, stored packet (view w) (view w2) ∧ p_checks p packet w2 = (c, w') ∧ r = map_err CheckFailed c) ∨
  (∃ e, r = Err e ∧ (∀ c, e ≠ CheckFailed c) ∧ view w' = view w) ∨
  (∃ e, r = Err (SaveFailed (Backend e)) ∧ stored packet (view w) (view w')).
Proof.
  intros Hbus Hstore. unfold finalize. rewrite Hstore.
  set (violations := announce_violations _ _ _).
  assert (keeps_view violations ∧ ∀ w e w', violations w = (Err e, w') → ∀ c, e ≠ CheckFailed c) as [Hk Herr].
  { subst violations. unfold announce_violations. destruct (nonempty _); [|split; [apply keeps_view_ret|done]].
    split; [apply keeps_view_wrap, Hbus|]. intros w0 e w0' (r0 & _ & Hr)%wrapE_inv c. destruct r0; naive_solver. }
  clearbody violations.
  intros [([] & w1 & H1 & H)|(e & H1 & ->)]%stateE_bind_inv; [|right; left; exists e; split_and!; [done|by eapply Herr|by eapply Hk]].
  apply Hk in H1.
  apply stateE_bind_inv in H as [([] & w2 & (r0 & H2 & Hr)%wrapE_inv & H)|(e & (r0 & H2 & Hr)%wrapE_inv & ->)];
    apply Hbus in H2; destruct r0; simplify_eq/=; [|right; left; eexists; split_and!; [done|done|congruence]].
  rewrite <- H1, <- H2.
  apply stateE_bind_inv in H as [([] & w3 & (r0 & H3 & Hr)%wrapE_inv & H)|(e & (r0 & H3 & Hr)%wrapE_inv & ->)];
    apply save_packet_law in H3 as (head & H3 & Hh); destruct r0; simplify_eq/=; cycle 1.
  { right. destruct H3 as [H3|[H3 [e ->]]]; [left; eexists; split_and!; [done|done|done]|].
    right. exists e. split; [done|]. by exists head. }
  apply wrapE_inv in H as (c & H4 & ->). left. exists w3, c. split_and!; [by exists head|done|done].
Qed.

(** ** Properties of the pull-request pipeline *)

(** C17: a processed pull request is stored before its check is published, and the
    check is of exactly the stored packet; when the check cannot be published the
    packet is stored all the same; any earlier failure leaves the repository as it
    was, unless it is the answer of the backend to the storing that got lost. *)
Theorem pull_request_stored_before_check payload w r w' :
  boundary_keeps_view payload → p_store p = true →
  ProcessPROpened p k Now correlationID payload w = (r, w') →
  match r with
  | Ok packet => ∃ w1, stored packet (view w) (view w1) ∧ p_checks p packet w1 = (Ok (), w')
  | Err (CheckFailed e) => ∃ packet w1, stored packet (view w) (view w1) ∧ p_checks p packet w1 = (Err e, w')
  | Err (SaveFailed (Backend _)) => view w' = view w ∨ ∃ packet, stored packet (view w) (view w')
  | Err _ => view w' = view w
  end.
Proof.
  intros Hb Hstore. pose proof (prepared_keeps payload Hb) as Hkeep. destruct Hb as [Hbus _]. unfold ProcessPROpened.
  intros [([packet k1] & w1 & H1 & H)|(e & H1 & ->)]%stateE_bind_inv.
  - apply Hkeep in H1. assert (∃ r0, finalize p k1 Now packet w1 = (r0, w') ∧ r = (r0 ;; Ok packet)) as (r0 & Hf & ->).
    { apply stateE_bind_inv in H as [([] & w2 & Hf & Hr)|(e & Hf & ->)]; [injection Hr as <- <-|]; eauto. }
    apply finalize_inv in Hf as [(w2 & c & Hv & Hc & ->)|[(e & -> & He & Hv)|(e & -> & Hv)]];
      [| | |done|done]; rewrite H1 in Hv.
    + destruct c as [[]|c]; cbn; eauto.
    + cbn. destruct e as [| | | | |[]|c| |]; try done; [by left|by destruct (He c)].
    + right. by exists packet.
  - pose proof (Hkeep _ _ _ H1) as Hv. destruct e as [| | | | |[]|c| |]; try done; [by left|]. exfalso.
    by apply prepared_no_check in H1.
Qed.

(** C4: the packet of a processed pull request is consistent with itself: the
    engines of the processor (mutations, runtime, conflicts, risk, policy, lane), run
    again on it, give the fields it carries, and its files are those of the diff that
    GitHub returned. *)
Theorem pull_request_consistent payload w packet w' :
  ProcessPROpened p k Now correlationID payload w = (Ok packet, w') →
  (∃ rawDiff w1 w2,
     GetPullRequestDiff (bindInstallation p (pw_InstallationID payload)) (rp_OwnerLogin (pw_Repository payload))
       (rp_Name (pw_Repository payload)) (pw_Number payload) w1 = (Ok rawDiff, w2) ∧
     cp_Files packet = mapChangedFiles (Diff.ParseUnified rawDiff)) ∧
  (∃ n, Mutations.Classify (p_mutations p)
     (Mutations.mkAnalysisRequest (cp_Repo packet) (pr_HeadSHA (cp_PR packet)) (cp_Files packet)
        (Some (head_loader payload packet))) (3 + k) = Ok (cp_Mutations packet, n)) ∧
  impact_of payload packet ∧
  Analyze packet = cp_Conflict packet ∧
  Risk.Evaluate (p_risk p) packet = (cp_RiskSummary_ packet, cp_Risks packet) ∧
  (∃ e, Policy.Evaluate (p_policy p) (Now 2%nat) packet = Ok e ∧ Scan.with_evaluation e packet = packet) ∧
  Assign (p_assigner p) packet = cp_MergeLane_ packet.
Proof.
  unfold ProcessPROpened. intros [([packet0 k1] & w1 & H1 & H)|(? & _ & [=])]%stateE_bind_inv.
  apply stateE_bind_inv in H as [([] & w2 & _ & H)|(? & _ & [=])]. injection H as -> _.
  apply prepared_inv in H1 as (q & e & rawDiff & v1 & v2 & Hd & Hf & Hm & Hi & Ha & Hr & He & ->). split_and!.
  - eauto.
  - exact Hm.
  - exact Hi.
  - etransitivity; [|exact Ha]. by apply Scan.Analyze_ext.
  - etransitivity; [|exact Hr]. by apply Scan.Risk_Evaluate_ext.
  - exists e. split; [|apply Scan.with_evaluation_again]. rewrite <- He. by apply Scan.Policy_Evaluate_ext.
  - by apply Scan.Assign_ext.
Qed.
End ingested.

(** ** Properties of check reconciliation *)

Section reconciled.
Context `{HR : Repository W} `{HL : !RepositoryLaws W} `{HE : Entropy}.
Context (s : Service W) (update : EvidenceExecution → stateE W ServiceError EvidenceExecution).
(** The updater is the control plane's, without a principal. *)
Hypothesis Hupdate : ∀ e w r w', update e w = (r, w') → ∃ t, UpdateEvidenceExecution s t None e w = (r, w').
Hypothesis Hpub : publisher_keeps_view s.
Context (payload : CheckRunWebhookPayload) (status : EvidenceStatus).

(** The evidence of a stored packet that the check run may move. *)
Definition bound_evidence (v : View) (id name : string) : Prop :=
  ∃ packet q, v_packets v !! id = Some packet ∧
    repo_FullName (cp_Repo packet) = rp_FullName (cw_Repository payload) ∧
    pr_Number (cp_PR packet) ∈ cw_PullRequests payload ∧ pr_HeadSHA (cp_PR packet) = cw_HeadSHA payload ∧
    q ∈ cp_Evidence packet ∧ er_Name q = name ∧
    er_GitHubCheck q = Some (mkGitHubCheckBinding (cw_Name payload) (cw_AppID payload)).

(** Later packets are the earlier ones brought up to date. *)
Definition same_packets (v v' : View) : Prop :=
  ∀ id packet', v_packets v' !! id = Some packet' →
    ∃ packet, v_packets v !! id = Some packet ∧ cp_Repo packet' = cp_Repo packet ∧
      cp_PR packet' = cp_PR packet ∧ cp_Evidence packet' = cp_Evidence packet.

Definition confined (v v' : View) : Prop :=
  (view_keyed v → view_keyed v' ∧ (view_indexed v → view_indexed v')) ∧ same_packets v v' ∧
  ∀ id name, status_of v' id name ≠ status_of v id name → status_of v' id name = status ∧ bound_evidence v id name.

Lemma confined_refl v : confined v v.
Proof. split; [done|]. split; [|done]. intros id packet Hp. by exists packet. Qed.

Lemma confined_trans v1 v2 v3 : confined v1 v2 → confined v2 v3 → confined v1 v3.
Proof.
  intros (Hk1 & Hp1 & Hs1) (Hk2 & Hp2 & Hs2). split; [tauto|]. split.
  - intros id p3 (p2 & H2 & -> & -> & ->)%Hp2. apply Hp1 in H2 as (p1 & H1 & -> & -> & ->). by exists p1.
  - intros id name Hne. destruct (decide (status_of v3 id name = status_of v2 id name)) as [E|E].
    + rewrite E in *. by apply Hs1.
    + destruct (Hs2 _ _ E) as [-> (p2 & q & H2 & Hrepo & Hpr & Hsha & Hq)]. split; [done|].
      apply Hp1 in H2 as (p1 & H1 & E1 & E2 & E3). exists p1, q. by rewrite <- E1, <- E2, <- E3.
Qed.

Lemma matching_Some requirements q name appID :
  matchingEvidenceRequirement requirements name appID = Some q →
  q ∈ requirements ∧ er_GitHubCheck q = Some (mkGitHubCheckBinding name appID).
Proof.
  intros [Hin Hq]%find_some. apply list_elem_of_In in Hin. split; [done|].
  destruct (er_GitHubCheck q) as [[n a]|]; [|done]. apply andb_true_iff in Hq as [Hn Ha].
  apply bool_decide_eq_true in Hn, Ha. cbn in *. by subst.
Qed.

Lemma reconcile_confined number w r w' :
  number ∈ cw_PullRequests payload → view_keyed (view w) → view_indexed (view w) →
  reconcileCheckRunForPullRequest update payload number status w = (r, w') → confined (view w) (view w').
Proof.
  intros Hnumber Hk Hindexed. unfold reconcileCheckRunForPullRequest.
  destruct (FindLatestChangePacket _ _ _ w) as [r0 w1] eqn:Ef. apply find_latest_law in Ef as [Hv Hf].
  assert (∀ w2, view w2 = view w → confined (view w) (view w2)) as Hsame by (intros w2 ->; apply confined_refl).
  destruct r0 as [packet|[]]; [|intros [= <- <-]; by apply Hsame..].
  destruct Hf as (id & Hid & Hhead). injection (eq_trans (eq_sym (Hindexed _ _ Hid)) Hhead) as Hrepo Hpr Hsha.
  destruct (matchingEvidenceRequirement _ _ _) as [q|] eqn:Eq; [|intros [= <- <-]; by apply Hsame].
  apply matching_Some in Eq as [Hq Hbind]. intros (r1 & H & _)%wrapE_inv.
  assert (∃ r2 t, UpdateEvidenceExecution s t None (check_execution payload status packet q) w1 = (r2, w')) as (r2 & t & Hu).
  { apply stateE_bind_inv in H as [(a & w2 & [t Ht]%Hupdate & [= _ <-])|(e & [t Ht]%Hupdate & _)]; eauto. }
  rewrite <- Hv in Hk. apply update_inv in Hu as [(err & _ & _ & Hv')|(packet2 & e1 & from & Hok & Hrec & _ & Hsave)];
    [by apply Hsame; congruence| |done|done].
  destruct Hok as [Hpk _ Hci Hn Hst _ _ _ _ _]. cbn in Hpk, Hci, Hn, Hst, Hsave.
  assert (cp_ID packet = id) as Hcid by (rewrite Hv in Hk; by apply Hk).
  rewrite Hv in Hrec, Hpk, Hsave. 
  split; [intros Hkv; split; [by apply (rc_keyed _ _ _ _ _ _ Hrec)|by apply (rc_indexed _ _ _ _ _ _ Hrec)]|]. split.
  - intros i p' Hp'. destruct Hsave as [[Hsave _]|(p2 & head & Hsave & Hid2 & _ & _ & (_ & E1 & E2 & E3)%lane_follows_fields)];
      rewrite Hsave in Hp'; cbn in Hp'; [by exists p'|].
    + rewrite Hid2 in Hp'. apply lookup_insert_Some in Hp' as [[<- <-]|[_ Hp']]; [|by exists p'].
      exists packet2. by rewrite Hpk.
  - intros i name Hne. rewrite (rc_status _ _ _ _ _ _ Hrec) in Hne |- *. cbn in Hne |- *.
    rewrite Hci, Hn, Hst in *. case_decide as Hd; [|done]. destruct Hd as [<- <-]. split; [done|].
    exists packet, q. rewrite Hcid, Hpr. done.
Qed.

Lemma reconcile_all_confined numbers w r w' :
  (∀ n, n ∈ numbers → n ∈ cw_PullRequests payload) → view_keyed (view w) → view_indexed (view w) →
  reconcile_all update payload status numbers w = (r, w') → confined (view w) (view w').
Proof.
  revert w. induction numbers as [|n numbers IH]; intros w Hsub Hk Hi; cbn [reconcile_all].
  { intros [= <- <-]. apply confined_refl. }
  intros [([] & w1 & H1 & H2)|(e & H1 & ->)]%stateE_bind_inv;
    (eapply reconcile_confined in H1; [|apply Hsub; left|done|done]); [|done].
  eapply confined_trans; [done|]. destruct (proj1 H1 Hk) as [Hk1 Hi1]. apply (IH w1); [set_solver|done|by apply Hi1|done].
Qed.
End reconciled.

(** C6: a GitHub check run moves no evidence but that which a policy bound to this
    very check and app, in a packet of the same repository, of one of the check's
    pull requests, at the checked commit; and only a completed check that
    explicitly succeeded satisfies it: any other conclusion fails it. *)
Theorem check_run_confined `{HR : Repository W} `{HL : !RepositoryLaws W} `{HE : Entropy}
    (p : Processor W) (s : Service W) update payload w r w' :
  p_evidence p = Some update →
  (∀ e w r w', update e w = (r, w') → ∃ t, UpdateEvidenceExecution s t None e w = (r, w')) →
  publisher_keeps_view s → view_keyed (view w) → view_indexed (view w) →
  ProcessCheckRun p payload w = (r, w') →
  ∀ id name, status_of (view w') id name ≠ status_of (view w) id name →
    cw_Action payload = "completed" ∧ cw_Status payload = "completed" ∧
    status_of (view w') id name =
      (if decide (cw_Conclusion payload = "success") then EvidenceSatisfied else EvidenceFailed) ∧
    bound_evidence payload (view w) id name.
Proof.
  intros He Hupdate Hpub Hk Hi. unfold ProcessCheckRun. rewrite He.
  destruct (p_store p); [|by intros [= <- <-]]. case_bool_decide as Hact; [by intros [= <- <-]|].
  cbn [negb orb].
  destruct (evidenceStatusForCheckRun _ _) as [status|] eqn:Es; [|by intros [= <- <-]].
  destruct (_ || _); [by intros [= <- <-]|].
  intros Hall id name Hne. eapply reconcile_all_confined in Hall; [|exact Hupdate|exact Hpub|done..].
  destruct Hall as (_ & _ & Hs). apply Hs in Hne as [-> Hb]. unfold evidenceStatusForCheckRun in Es.
  case_decide as Hst; [done|]. split_and!; [done|done| |done]. case_decide; by injection Es.
Qed.

(** C39: with a configured secret, a webhook request changes the world only if its
    body is signed with that secret, whatever its headers and its content. *)
Theorem webhook_needs_signature `{HR : Repository W} `{HE : Entropy} `{HG : Mutations.SliceGrowth} `{HM : MapOrder}
    `{HP : Parsers} `{HD : RuntimeGraph.GraphDecoder} `{HW : WebhookCodec} secret (p : Processor W) k Now r w :
  secret ≠ "" →
  (webhook_ServeHTTP secret p k Now r w).2 ≠ w →
  ∃ body, wr_Body r = Ok body ∧ wr_Signature r = "sha256=" +:+ EncodeToString (HMAC secret body).
Proof.
  intros Hs. unfold webhook_ServeHTTP. destruct (Decode secret r) as [webhook|] eqn:Ed; [|done].
  intros _. by eapply Decode_signed.
Qed.

(** ** Concrete webhooks *)

Section demo.
#[local] Existing Instance counting_entropy.
#[local] Existing Instance Mutations.doubling.
#[local] Existing Instance map_order_sorted.
#[local] Existing Instance RuntimeGraph.no_documents.
#[local] Existing Instance RuntimeGraph.chain_decoder.

Definition demo_github : GitHubService MemoryRepository :=
  mkGitHubService (λ _ _ _, throw "unreachable") (λ _ _ _, mret Scan.conflicted_diff) (λ _ _ _ _, Err "no content")
    (λ _, mret ()).

Definition demo_processor : Processor MemoryRepository :=
  mkProcessor (λ _, mret ()) demo_github None Analyzers.DefaultEngine Risk.defaultWeights (PolicyValidation.mkConfig [])
    (mkLanesConfig 20 45 75) (λ _, throw "github is down")
    (RuntimeGraph.NewResolver (RuntimeGraph.mkOptions false "" 0)) true
    (Some (UpdateEvidenceExecution demo_service demo_readings None)).

Definition demo_clock : Clock := λ n, Z.of_nat (S n).

Definition demo_opened : PullRequestWebhookPayload :=
  mkPullRequestWebhookPayload "opened" 0 (mkRepositoryPayload "app" "acme/app" "acme") 7 "Title" " Body " "" "head" "base"
    "dev" "User".

Lemma demo_boundary : boundary_keeps_view demo_processor demo_opened.
Proof. split; [|split]; intros; by intros w r w' [= <- <-]. Defined.

(** The check cannot be published; the packet is stored. *)
Lemma pull_request_stored_before_check_witness :
  ∃ packet w1, stored demo_clock packet (view NewMemoryRepository) (view w1) ∧
    (ProcessPROpened demo_processor 0 demo_clock "delivery" demo_opened NewMemoryRepository).1 =
      Err (CheckFailed "github is down").
Proof.
  assert ((ProcessPROpened demo_processor 0 demo_clock "delivery" demo_opened NewMemoryRepository).1 =
    Err (CheckFailed "github is down")) as Er by (vm_compute; reflexivity).
  destruct (ProcessPROpened demo_processor 0 demo_clock "delivery" demo_opened NewMemoryRepository) as [r w'] eqn:E.
  cbn [fst] in Er. subst r.
  destruct (pull_request_stored_before_check demo_processor 0 demo_clock "delivery" demo_opened NewMemoryRepository
    _ w' demo_boundary eq_refl E) as (packet & w1 & Hv & _).
  exists packet, w1. exact (conj Hv eq_refl).
Defined.

Definition checking_processor : Processor MemoryRepository :=
  mkProcessor (λ _, mret ()) demo_github None Analyzers.DefaultEngine Risk.defaultWeights (PolicyValidation.mkConfig [])
    (mkLanesConfig 20 45 75) (λ _, mret ())
    (RuntimeGraph.NewResolver (RuntimeGraph.mkOptions false "" 0)) true
    (Some (UpdateEvidenceExecution demo_service demo_readings None)).

Lemma pull_request_consistent_witness :
  ∃ packet, (ProcessPROpened checking_processor 0 demo_clock "delivery" demo_opened NewMemoryRepository).1 = Ok packet ∧
    Assign (mkLanesConfig 20 45 75) packet = cp_MergeLane_ packet ∧ cp_MergeLane_ packet = MergeLaneBlack.
Proof.
  assert (match (ProcessPROpened checking_processor 0 demo_clock "delivery" demo_opened NewMemoryRepository).1 with
    | Ok packet => cp_MergeLane_ packet = MergeLaneBlack | Err _ => False end) as Hl by (vm_compute; reflexivity).
  destruct (ProcessPROpened checking_processor 0 demo_clock "delivery" demo_opened NewMemoryRepository) as [[packet|] w'] eqn:E;
    [|destruct Hl].
  exists packet. pose proof (pull_request_consistent checking_processor 0 demo_clock "delivery" demo_opened _ _ _ E)
    as (_ & _ & _ & _ & _ & _ & Hassign). exact (conj eq_refl (conj Hassign Hl)).
Defined.

(** A packet whose evidence is bound to a check. *)
Definition bound_packet : ChangePacket :=
  cp_with_Repo (mkRepoRef "acme" "app" "acme/app" "") (cp_with_PR (mkPullRequestRef 7 "" "head" "base")
    (cp_with_Evidence [er_with_GitHubCheck (Some (mkGitHubCheckBinding "ci" 1)) demo_requirement] demo_packet)).

Definition bound_repository : MemoryRepository := (SaveChangePacket 5 bound_packet NewMemoryRepository).2.

Definition demo_check (conclusion : string) (appID : Z) : CheckRunWebhookPayload :=
  mkCheckRunWebhookPayload "completed" 0 (mkRepositoryPayload "app" "acme/app" "acme") 99 "ci" "head" "completed"
    conclusion "" "" "" appID "" [7].

Lemma bound_keyed : view_keyed (view bound_repository).
Proof.
  apply (saved_packet_keyed 5 bound_packet (head_of bound_packet) (memory_view NewMemoryRepository)). split; cbn.
  - intros id p. by rewrite lookup_empty.
  - intros id n e. unfold executions_of. cbn. by rewrite lookup_empty.
Defined.

Lemma bound_indexed : view_indexed (view bound_repository).
Proof. apply (saved_packet_indexed 5 bound_packet (memory_view NewMemoryRepository)). intros id p. cbn. by rewrite lookup_empty. Defined.

Lemma check_run_confined_witness :
  let w' := (ProcessCheckRun checking_processor (demo_check "neutral" 1) bound_repository).2 in
  status_of (view w') "cp_1" "integration-tests" = EvidenceFailed ∧
  bound_evidence (demo_check "neutral" 1) (view bound_repository) "cp_1" "integration-tests".
Proof.
  intros w'.
  assert (status_of (view w') "cp_1" "integration-tests" ≠ status_of (view bound_repository) "cp_1" "integration-tests") as Hne
    by (vm_compute; discriminate).
  destruct (check_run_confined checking_processor demo_service (UpdateEvidenceExecution demo_service demo_readings None)
    (demo_check "neutral" 1) bound_repository _ w' eq_refl (λ e w r w1 H, ex_intro _ demo_readings H) demo_publishes bound_keyed
    bound_indexed
    (surjective_pairing _) "cp_1" "integration-tests" Hne) as (_ & _ & Hs & Hb).
  exact (conj Hs Hb).
Defined.

(** A check of another app moves nothing. *)
Example other_app_ignored :
  ProcessCheckRun checking_processor (demo_check "success" 2) bound_repository = (Ok (), bound_repository).
Proof. by vm_compute. Qed.

(** A check that failed and then succeeds on a rerun: the evidence stays failed
    and the webhook is answered with an error, because failed evidence may only
    run again or be waived. *)
Example rerun_after_failure_rejected :
  let w1 := (ProcessCheckRun checking_processor (demo_check "failure" 1) bound_repository).2 in
  let '(r, w2) := ProcessCheckRun checking_processor (demo_check "success" 1) w1 in
  r = Err (ReconcileFailed "ci" "cp_1" (EvidenceTransitionError "integration-tests" EvidenceFailed EvidenceSatisfied)) ∧
  status_of (view w2) "cp_1" "integration-tests" = EvidenceFailed.
Proof. by vm_compute. Qed.

(** For the witness, a signature is the text of secret and body. *)
Definition plain_codec : WebhookCodec := {|
  HMAC secret body := String.list_byte_of_string (secret +:+ body);
  UnmarshalCheckRun _ := Ok (demo_check "success" 1);
  UnmarshalPullRequest _ := Err "not a pull request" |}.
#[local] Existing Instance plain_codec.

Lemma webhook_needs_signature_witness :
  let request := mkWebhookRequest "check_run" ("sha256=" +:+ EncodeToString (HMAC "key" "body")) "1" (Ok "body") in
  (webhook_ServeHTTP "key" checking_processor 0 demo_clock request bound_repository).1.1 = 202 ∧
  ∃ body, wr_Body request = Ok body ∧ wr_Signature request = "sha256=" +:+ EncodeToString (HMAC "key" body).
Proof.
  intros request. split; [by vm_compute|].
  apply (webhook_needs_signature "key" checking_processor 0 demo_clock request bound_repository); [done|].
  intros H%(f_equal (λ w, status_of (view w) "cp_1" "integration-tests")). by vm_compute in H.
Defined.
End demo.
