(* ===== verification/Agreement.v ===== *)
(** What [merger scan] says of a change is what the ingest service will say of its
    pull request: neither the random identifiers, nor the order Go ranges over maps
    in, nor the clock shows in the analysis ([internal/scan/scan.go] and
    [internal/ingest/pr_opened.go] over the same engines). *)
From stdpp Require Import base list gmap strings.
From S2P Require Import Prelude GoStrings Domain Identity Documents Lanes ConflictRisk Events Store Github Ingest.
From S2P Require Diff Risk PolicyValidation Policy Mutations Analyzers RuntimeGraph Scan.

Local Open Scope string_scope.
Local Open Scope list_scope.
Local Open Scope Z_scope.

(** Two results of the same kind, with values that are related. *)
Definition result_sim {E A B} (R : A → B → Prop) (r1 : result E A) (r2 : result E B) : Prop :=
  match r1, r2 with
  | Ok a, Ok b => R a b
  | Err e1, Err e2 => e1 = e2
  | _, _ => False
  end.

Lemma foldM_sim {E S1 S2 A B} (R : S1 → S2 → Prop) (P : A → B → Prop) (f1 : S1 → A → result E S1)
    (f2 : S2 → B → result E S2) s1 s2 l1 l2 :
  (∀ s1 s2 a b, R s1 s2 → P a b → result_sim R (f1 s1 a) (f2 s2 b)) →
  R s1 s2 → Forall2 P l1 l2 → result_sim R (foldM f1 s1 l1) (foldM f2 s2 l2).
Proof.
  intros Hf Hs Hl. revert s1 s2 Hs. induction Hl as [|a b l1 l2 Hab _ IH]; intros s1 s2 Hs; [done|].
  cbn. specialize (Hf _ _ _ _ Hs Hab). destruct (f1 s1 a), (f2 s2 b); try done. by apply IH.
Qed.

Lemma foldl_sim {S1 S2 A B} (R : S1 → S2 → Prop) (P : A → B → Prop) (f1 : S1 → A → S1) (f2 : S2 → B → S2) s1 s2 l1 l2 :
  (∀ s1 s2 a b, R s1 s2 → P a b → R (f1 s1 a) (f2 s2 b)) →
  R s1 s2 → Forall2 P l1 l2 → R (foldl f1 s1 l1) (foldl f2 s2 l2).
Proof. intros Hf Hs Hl. revert s1 s2 Hs. induction Hl; intros; [done|]. cbn. auto. Qed.

Lemma Forall2_diag {A} (R : A → A → Prop) l : (∀ a, R a a) → Forall2 R l l.
Proof. intros HR. induction l; by constructor. Qed.

(** ** Classification, identifiers apart *)

Module Classification.
Import Mutations Analyzers.

Definition anonymous (m : Mutation) : Mutation := mut_with_ID "" m.

Definition anonymous_entry (e : Entry) : Entry := mkEntry (anonymous (en_Mutation e)) (en_Signals e).

Definition same_entry (e1 e2 : Entry) : Prop := anonymous_entry e1 = anonymous_entry e2.

(** The states of two classifications that have drawn different identifiers. *)
Definition same_state (s1 s2 : CState) : Prop :=
  anonymous_entry <$> cs_index s1 = anonymous_entry <$> cs_index s2 ∧ cs_heap s1 = cs_heap s2.

(** Files and their contents are what the built-in analyzers read. *)
Definition same_input (i1 i2 : AnalysisInput) : Prop := in_File i1 = in_File i2 ∧ in_Content i1 = in_Content i2.

Definition same_analyzer (a1 a2 : Analyzer) : Prop :=
  an_Supports a1 = an_Supports a2 ∧
  ∀ i1 i2 n1 n2, same_input i1 i2 →
    result_sim (λ r1 r2, anonymous <$> r1.1 = anonymous <$> r2.1) (an_Analyze a1 i1 n1) (an_Analyze a2 i2 n2).

Section engines.
Context (E1 E2 : Entropy) `{HG : SliceGrowth} `{HP : Parsers}.

Lemma same_entry_iff e1 e2 :
  same_entry e1 e2 ↔ anonymous (en_Mutation e1) = anonymous (en_Mutation e2) ∧ en_Signals e1 = en_Signals e2.
Proof using Type.
  unfold same_entry, anonymous_entry. split; [|by intros [-> ->]].
  intros H. split; [exact (f_equal en_Mutation H)|exact (f_equal en_Signals H)].
Qed.

Lemma same_kind m1 m2 : anonymous m1 = anonymous m2 → mut_Kind m1 = mut_Kind m2.
Proof using Type. intros H. exact (f_equal mut_Kind H). Qed.

Lemma same_state_insert s1 s2 kind e1 e2 h n1 n2 :
  same_state s1 s2 → same_entry e1 e2 →
  same_state (mkCState (<[kind := e1]> (cs_index s1)) h n1) (mkCState (<[kind := e2]> (cs_index s2)) h n2).
Proof using Type. intros [Hi _] He. split; [|done]. cbn. by rewrite !fmap_insert, Hi, He. Qed.

Lemma merge_mutation_same c1 c2 d1 d2 :
  anonymous c1 = anonymous c2 → anonymous d1 = anonymous d2 →
  anonymous (merge_mutation c1 d1) = anonymous (merge_mutation c2 d2).
Proof using Type.
  destruct c1, c2, d1, d2. unfold anonymous, mut_with_ID, merge_mutation. cbn.
  intros [= -> -> -> -> -> -> -> -> ->] [= -> -> -> -> -> -> -> -> ->]. done.
Qed.

Lemma addMutation_same c1 c2 s1 s2 :
  same_entry c1 c2 → same_state s1 s2 → same_state (addMutation (H := E1) c1 s1) (addMutation (H := E2) c2 s2).
Proof using Type.
  intros Hc Hs. pose proof Hc as [Hm Hg]%same_entry_iff. unfold addMutation. rewrite <- (same_kind _ _ Hm), (proj2 Hs).
  set (kind := mut_Kind _). pose proof (f_equal (lookup kind) (proj1 Hs)) as Hl. rewrite !lookup_fmap in Hl.
  destruct (cs_index s1 !! kind) as [e1|], (cs_index s2 !! kind) as [e2|]; try discriminate Hl.
  - apply Some_inj, same_entry_iff in Hl as [He Hsig]. rewrite Hsig, Hg.
    destruct (appendUniqueSignals _ _ _) as [signals h]. apply same_state_insert; [done|].
    apply same_entry_iff. split; [by apply merge_mutation_same|done].
  - repeat case_decide; apply same_state_insert; by try apply same_entry_iff.
Qed.

Lemma rule_step_same file signals shared s1 s2 rule :
  same_state s1 s2 →
  same_state (rule_step (H := E1) file signals shared s1 rule) (rule_step (H := E2) file signals shared s2 rule).
Proof using Type.
  intros Hs. unfold rule_step. destruct (Matches _ _ _); [|done]. by apply addMutation_same.
Qed.

Lemma add_analyzed_same m1 m2 s1 s2 :
  anonymous m1 = anonymous m2 → same_state s1 s2 →
  same_state (add_analyzed (H := E1) s1 m1) (add_analyzed (H := E2) s2 m2).
Proof using Type.
  intros Hm [Hi Hh]. unfold add_analyzed. rewrite (f_equal mut_Signals Hm : mut_Signals m1 = mut_Signals m2), Hh.
  destruct (alloc _ _ _) as [signals h]. apply addMutation_same; [by apply same_entry_iff|done].
Qed.

Lemma analyzer_step_same i1 i2 s1 s2 a1 a2 :
  same_analyzer a1 a2 → same_input i1 i2 → same_state s1 s2 →
  result_sim same_state (analyzer_step (H := E1) i1 s1 a1) (analyzer_step (H := E2) i2 s2 a2).
Proof using Type.
  intros [Hsup Hana] Hi Hs. unfold analyzer_step. rewrite Hsup, (proj1 Hi). destruct (an_Supports a2 _); [|done]. cbn.
  specialize (Hana i1 i2 (cs_ids s1) (cs_ids s2) Hi).
  destruct (an_Analyze a1 _ _) as [[ms1 n1]|], (an_Analyze a2 _ _) as [[ms2 n2]|]; try done. cbn in *.
  apply (foldl_sim same_state (λ m1 m2, anonymous m1 = anonymous m2)); [intros; by apply add_analyzed_same|done|].
  by apply Forall2_fmap, list_eq_Forall2.
Qed.

(** What is read of a request. *)
Definition same_request (r1 r2 : AnalysisRequest) : Prop :=
  rq_Files r1 = rq_Files r2 ∧ ∀ path, loadContent (rq_Content r1) path = loadContent (rq_Content r2) path.

Definition same_engine (e1 e2 : RuleBasedEngine) : Prop :=
  rules e1 = rules e2 ∧ extractors e1 = extractors e2 ∧ Forall2 same_analyzer (analyzers e1) (analyzers e2).

Lemma file_step_same e1 e2 r1 r2 s1 s2 file :
  same_engine e1 e2 → same_request r1 r2 → same_state s1 s2 →
  result_sim same_state (file_step (H := E1) e1 r1 s1 file) (file_step (H := E2) e2 r2 s2 file).
Proof using Type.
  intros (Hr & Hx & Ha) [_ Hload] [Hi Hh]. unfold file_step, extractSignals. rewrite Hx.
  destruct (foldM _ _ _) as [[signals capacity]|]; [|done]. cbn [mbind result_bind]. rewrite Hh.
  destruct (alloc _ _ _) as [shared h]. rewrite Hr, Hload.
  apply (foldM_sim same_state same_analyzer); [|apply (foldl_sim same_state eq)|done].
  - intros t1 t2 a1 a2 Ht Ha'. by apply analyzer_step_same.
  - intros t1 t2 rule ? Ht <-. by apply rule_step_same.
  - done.
  - by apply Forall2_diag.
Qed.

Lemma add_fallback_same files s1 s2 :
  same_state s1 s2 → same_state (add_fallback (H := E1) files s1) (add_fallback (H := E2) files s2).
Proof using Type.
  intros Hs. unfold add_fallback.
  assert (size (cs_index s1) = size (cs_index s2)) as ->
    by (rewrite <- (map_size_fmap anonymous_entry (cs_index s1)), (proj1 Hs); apply map_size_fmap).
  destruct (_ && _); [|done]. by apply add_analyzed_same.
Qed.

Lemma materialized_same (M1 M2 : MapOrder) s1 s2 :
  same_state s1 s2 →
  anonymous <$> ((λ kv, materialize (cs_heap s1) kv.2) <$> @map_range M1 _ (cs_index s1)) ≡ₚ
  anonymous <$> ((λ kv, materialize (cs_heap s2) kv.2) <$> @map_range M2 _ (cs_index s2)).
Proof using Type.
  intros [Hi Hh]. rewrite !map_range_perm, Hh.
  assert (∀ m : gmap string Entry, anonymous <$> ((λ kv, materialize (cs_heap s2) kv.2) <$> map_to_list m) =
    (λ kv, materialize (cs_heap s2) kv.2) <$> map_to_list (anonymous_entry <$> m)) as H.
  { intros m. rewrite map_to_list_fmap, <- !list_fmap_compose. by apply list_fmap_ext. }
  by rewrite !H, Hi.
Qed.

(** Classification apart from the identifiers and the order of the answer. *)
Lemma Classify_same (M1 M2 : MapOrder) e1 e2 r1 r2 n1 n2 :
  same_engine e1 e2 → same_request r1 r2 →
  result_sim (λ c1 c2, anonymous <$> c1.1 ≡ₚ anonymous <$> c2.1)
    (Classify (H := E1) (H1 := M1) e1 r1 n1) (Classify (H := E2) (H1 := M2) e2 r2 n2).
Proof using Type.
  intros He Hr. unfold Classify. rewrite <- (proj1 Hr).
  assert (result_sim same_state (foldM (file_step (H := E1) e1 r1) (mkCState ∅ [] n1) (rq_Files r1))
    (foldM (file_step (H := E2) e2 r2) (mkCState ∅ [] n2) (rq_Files r1))) as Hs.
  { apply (foldM_sim same_state eq); [|done|by apply Forall2_diag]. intros s1 s2 f ? Hs <-. by apply file_step_same. }
  destruct (foldM _ _ _) as [s1|], (foldM _ _ _) as [s2|]; try done. by apply materialized_same, add_fallback_same.
Qed.

Lemma DefaultEngine_same : same_engine (DefaultEngine (H := E1)) (DefaultEngine (H := E2)).
Proof using Type.
  split; [done|split; [done|]]. cbn. unfold DefaultAnalyzers.
  repeat apply Forall2_cons_2; [..|apply Forall2_nil_2]; (split; [done|]); intros [? ? f c] [? ? f2 c2] n1 n2 [Hf Hc];
    cbn in Hf, Hc; subst f2 c2; cbn [an_Analyze goASTAnalyzer sqlDDLAnalyzer openAPIAnalyzer manifestAnalyzer runtimeConfigAnalyzer].
  - unfold goAST_Analyze. cbn [in_Content in_File]. case_decide; [done|]. destruct (parser_ParseFile _ _); [|done].
    by destruct (nonempty _), (nonempty _).
  - unfold sqlDDL_Analyze. cbn [in_Content in_File]. by destruct (containsAny _ _).
  - unfold openAPI_Analyze. cbn [in_Content in_File]. destruct (HasSuffix _ _); [done|]. destruct (yaml_Unmarshal c) as [parsed|]; [|done].
    by destruct (existsb _ parsed).
  - done.
  - unfold runtimeConfig_Analyze. cbn [in_Content in_File]. destruct (yaml_Unmarshal c) as [parsed|]; [|done]. by destruct (existsb _ _).
Qed.
End engines.
End Classification.

(** ** Runtime impact, the order of maps apart *)

Module Impact.
Import RuntimeGraph.

(** Inserting by distinct keys gives the same map in any order. *)
Lemma foldl_insert_perm {A} (key : A → string) (l1 l2 : list A) (m : gmap string A) :
  l1 ≡ₚ l2 → NoDup (key <$> l1) →
  foldl (λ m a, <[key a := a]> m) m l1 = foldl (λ m a, <[key a := a]> m) m l2.
Proof.
  intros Hp. revert m. induction Hp as [|a l1 l2 _ IH|a b l|l1 l2 l3 Hp IH1 _ IH2]; intros m Hd; [done|..].
  - apply NoDup_cons in Hd as [_ Hd]. by apply IH.
  - cbn. cbn in Hd. apply NoDup_cons in Hd as [Hn _]. rewrite insert_insert_ne; [done|]. intros Hk. apply Hn. rewrite Hk. by left.
  - rewrite IH1 by done. apply IH2. by rewrite <- Hp.
Qed.

Lemma keyed_values `{MapOrder} {A} (key : A → string) (m : gmap string A) :
  (∀ k a, m !! k = Some a → key a = k) → NoDup (key <$> (map_range m).*2).
Proof.
  intros Hk. assert (key <$> (map_range m).*2 = (map_range m).*1) as ->; [|apply NoDup_map_range].
  rewrite <- list_fmap_compose. apply list_fmap_ext. intros i [k a] Hi. apply Hk, elem_of_map_range, list_elem_of_lookup. eauto.
Qed.

(** Without edges, a fragment counts by what it indexes. *)
Record same_fragment (f1 f2 : Fragment) : Prop := {
  sf_edges1 : fr_Edges f1 = [];
  sf_edges2 : fr_Edges f2 = [];
  sf_systems m : indexSystems m (fr_Systems f1) = indexSystems m (fr_Systems f2);
  sf_owners m : indexOwners m (fr_Ownership f1) = indexOwners m (fr_Ownership f2);
  sf_criticality : fr_Criticality f1 = fr_Criticality f2;
  sf_notes : fr_Notes f1 = fr_Notes f2;
}.

Lemma same_fragment_refl f : fr_Edges f = [] → same_fragment f f.
Proof. by constructor. Qed.

(** What the sources read of an input that names no manifest. *)
Record same_input (i1 i2 : ResolutionInput) : Prop := {
  si_files : cp_Files (res_Packet i1) = cp_Files (res_Packet i2);
  si_loader path : Mutations.loadContent (res_Loader i1) path = Mutations.loadContent (res_Loader i2) path;
  si_loaders : is_Some (res_Loader i1) ∧ is_Some (res_Loader i2);
}.

Lemma loaded_same i1 i2 path : same_input i1 i2 → loaded (res_Loader i1) path = loaded (res_Loader i2) path.
Proof.
  intros Hi. pose proof (si_loader _ _ Hi path) as H. unfold loaded. unfold Mutations.loadContent in H.
  destruct (res_Loader i1) as [l1|], (res_Loader i2) as [l2|]; repeat case_match; naive_solver.
Qed.

Section sources.
Context (M1 M2 : MapOrder) `{HP : Parsers} `{HD : GraphDecoder}.

Lemma topology_keyed files so :
  (∀ k v, so.1 !! k = Some v → sys_Name v = k) → (∀ k v, so.2 !! k = Some v → ob_Team v = k) →
  let so' := foldl topology_step so files in
  (∀ k v, so'.1 !! k = Some v → sys_Name v = k) ∧ (∀ k v, so'.2 !! k = Some v → ob_Team v = k).
Proof using Type.
  revert so. induction files as [|f files IH]; intros so H1 H2; [done|]. apply IH.
  - unfold topology_step. repeat case_match; try done. cbn. intros k v [[<- <-]|[_ ?]]%lookup_insert_Some; auto.
  - unfold topology_step. repeat case_match; try done. cbn. intros k v [[<- <-]|[_ ?]]%lookup_insert_Some; auto.
Qed.

Lemma range_values {A} (m : gmap string A) : (@map_range M1 _ m).*2 ≡ₚ (@map_range M2 _ m).*2.
Proof using Type. by rewrite !map_range_perm. Qed.

Lemma topology_same i1 i2 :
  same_input i1 i2 →
  result_sim same_fragment (@repositoryTopology_Collect M1 i1) (@repositoryTopology_Collect M2 i2).
Proof using Type.
  intros Hi. unfold repositoryTopology_Collect. rewrite (si_files _ _ Hi).
  assert (∀ {A} (key : A → string) k v, (∅ : gmap string A) !! k = Some v → key v = k) as He
    by (intros A key k v Hk; by apply lookup_empty_Some in Hk).
  destruct (topology_keyed (cp_Files (res_Packet i2)) (∅, ∅) (He _ _) (He _ _)) as [Hs Ho].
  destruct (foldl _ _ _) as [services owners]. split; try done; intros m; cbn.
  - apply foldl_insert_perm; [apply range_values|by apply keyed_values].
  - apply foldl_insert_perm; [apply range_values|by apply keyed_values].
Qed.

Lemma manifest_same i1 i2 :
  same_input i1 i2 → result_sim same_fragment (manifest_Collect i1) (manifest_Collect i2).
Proof using Type.
  intros Hi. unfold manifest_Collect. rewrite (si_files _ _ Hi).
  assert (∀ f file, manifest_step i1 f file = manifest_step i2 f file) as Hstep
    by (intros; unfold manifest_step; by rewrite (loaded_same _ _ _ Hi)).
  assert (∀ files f, foldl (manifest_step i1) f files = foldl (manifest_step i2) f files) as ->
    by (induction files; intros; cbn; [done|by rewrite Hstep]).
  apply same_fragment_refl. apply (foldl_ind _ (λ _ f, fr_Edges f = [])); [done|].
  intros _ file f He _. unfold manifest_step. by repeat case_match.
Qed.

Lemma codeowners_keyed lines files m :
  (∀ k v, m !! k = Some v → ob_Team v = k) →
  ∀ k v, foldl (λ m file, foldl (codeowners_line file) m lines) m files !! k = Some v → ob_Team v = k.
Proof using Type.
  intros Hm. apply (foldl_ind _ (λ _ m, ∀ k v, m !! k = Some v → ob_Team v = k)); [done|]. intros _ f m1 Hm1 _.
  apply (foldl_ind _ (λ _ m, ∀ k v, m !! k = Some v → ob_Team v = k)); [done|]. intros _ line m2 Hm2 _.
  unfold codeowners_line. repeat case_match; try done. intros k v [[<- <-]|[_ ?]]%lookup_insert_Some; auto.
Qed.

Lemma codeowners_same i1 i2 :
  same_input i1 i2 → result_sim same_fragment (@codeOwners_Collect M1 i1) (@codeOwners_Collect M2 i2).
Proof using Type.
  intros Hi. unfold codeOwners_Collect. pose proof (si_loader _ _ Hi "CODEOWNERS") as Hroot.
  pose proof (loaded_same _ _ ".github/CODEOWNERS" Hi) as Hgithub.
  destruct (si_loaders _ _ Hi) as [[l1 H1] [l2 H2]]. rewrite H1, H2 in *. rewrite Hgithub.
  unfold Mutations.loadContent in Hroot. rewrite Hroot.
  set (content := match loaded _ _ with Some _ => _ | None => _ end). case_decide; [by apply same_fragment_refl|].
  rewrite (si_files _ _ Hi).
  assert (collectCodeOwners (H := M1) content (cp_Files (res_Packet i2)) ≡ₚ
          collectCodeOwners (H := M2) content (cp_Files (res_Packet i2))) as Hp by apply range_values.
  split; try done; cbn.
  - intros m. apply foldl_insert_perm; [exact Hp|]. apply keyed_values, codeowners_keyed.
    intros k v Hk. by apply lookup_empty_Some in Hk.
  - apply Permutation_length in Hp.
    by destruct (collectCodeOwners (H := M1) _ _), (collectCodeOwners (H := M2) _ _).
Qed.

Lemma gather_same i1 i2 g name c1 c2 :
  result_sim same_fragment (c1 i1) (c2 i2) → gather i1 g (mkSource name c1) = gather i2 g (mkSource name c2).
Proof using Type.
  unfold gather. cbn [Collect]. destruct (c1 i1) as [f1|], (c2 i2) as [f2|]; cbn; try done; [|by intros ->].
  intros [He1 He2 Hs Ho Hc Hn]. by rewrite He1, He2, Hc, Hn, Hs, Ho.
Qed.

(** Two answers, apart from the order of systems and owners. *)
Record same_impact (r1 r2 : RuntimeImpact * list OwnershipBoundary) : Prop := {
  sm_radius : ri_BlastRadius r1.1 = ri_BlastRadius r2.1;
  sm_criticality : ri_Criticality r1.1 = ri_Criticality r2.1;
  sm_services : ri_Services r1.1 ≡ₚ ri_Services r2.1;
  sm_notes : ri_Notes r1.1 = ri_Notes r2.1;
  sm_owners : r1.2 ≡ₚ r2.2;
}.

Lemma ResolveImpact_same o1 o2 i1 i2 :
  EnableCodeOwners o1 = EnableCodeOwners o2 → same_input i1 i2 → GraphManifestPath (res_Options i1) = "" → GraphManifestPath (res_Options i2) = "" →
  result_sim same_impact
    (@ResolveImpact M1 (NewResolver (H := M1) o1) i1) (@ResolveImpact M2 (NewResolver (H := M2) o2) i2).
Proof using Type.
  intros Ho Hi H1 H2. rewrite (@graph_manifest_needs_input_options M1), (@graph_manifest_needs_input_options M2) by done.
  unfold ResolveImpact, NewResolver. cbn [GraphManifestPath EnableCodeOwners]. rewrite Ho.
  rewrite decide_True by done. set (g0 := mkGathered _ _ _ _). rewrite app_nil_l, !foldM_app.
  pose proof (topology_same _ _ Hi) as Ht. pose proof (manifest_same _ _ Hi) as Hm. pose proof (codeowners_same _ _ Hi) as Hc.
  assert (foldM (gather i1) g0 [mkSource "repository-topology" (@repositoryTopology_Collect M1); mkSource "manifest-source" manifest_Collect] =
    foldM (gather i2) g0 [mkSource "repository-topology" (@repositoryTopology_Collect M2); mkSource "manifest-source" manifest_Collect]) as ->.
  { cbn [foldM]. rewrite (gather_same _ _ _ _ _ _ Ht). destruct (gather i2 g0 _) as [g|]; [|done]. cbn [mbind result_bind].
    by rewrite (gather_same _ _ _ _ _ _ Hm). }
  destruct (foldM _ g0 _) as [g|]; [|done]. cbn [mbind result_bind].
  assert (foldM (gather i1) g (if EnableCodeOwners o2 then [mkSource "codeowners-source" (@codeOwners_Collect M1)] else []) =
    foldM (gather i2) g (if EnableCodeOwners o2 then [mkSource "codeowners-source" (@codeOwners_Collect M2)] else [])) as ->.
  { destruct (EnableCodeOwners o2); [|done]. cbn [foldM]. by rewrite (gather_same _ _ _ _ _ _ Hc). }
  destruct (foldM _ g _) as [g'|]; [|done]. split; try done; cbn; apply range_values.
Qed.
End sources.
End Impact.

(** ** Risk, policy and lane *)

Section engines.
Context (M1 M2 : MapOrder).
Import Classification.

Lemma sumZ_perm {A} (f : A → Z) l1 l2 : l1 ≡ₚ l2 → sumZ f l1 = sumZ f l2.
Proof using Type. induction 1; cbn; lia. Qed.

Lemma sumZ_fmap {A B} (f : B → Z) (g : A → B) l : sumZ f (g <$> l) = sumZ (λ a, f (g a)) l.
Proof using Type. induction l; cbn; congruence. Qed.

Lemma existsb_fmap {A B} (f : B → bool) (g : A → B) l : existsb f (g <$> l) = existsb (λ a, f (g a)) l.
Proof using Type. induction l; cbn; congruence. Qed.

Lemma existsb_perm {A} (f : A → bool) l1 l2 : l1 ≡ₚ l2 → existsb f l1 = existsb f l2.
Proof using Type. intros H. apply eq_true_iff_eq. rewrite !existsb_elem. by setoid_rewrite H. Qed.

(** What the packets of two analyses share. *)
Record same_facts (p q : ChangePacket) : Prop := {
  fa_files : cp_Files p = cp_Files q;
  fa_mutations : anonymous <$> cp_Mutations p ≡ₚ anonymous <$> cp_Mutations q;
  fa_impact : Impact.same_impact (cp_Runtime p, cp_Ownership p) (cp_Runtime q, cp_Ownership q);
  fa_conflict : same_assessment (cp_Conflict p) (cp_Conflict q);
}.

Lemma Risk_same weights p q :
  same_facts p q →
  rs_Score (@Risk.Evaluate M1 weights p).1 = rs_Score (@Risk.Evaluate M2 weights q).1 ∧
  rs_Severity (@Risk.Evaluate M1 weights p).1 = rs_Severity (@Risk.Evaluate M2 weights q).1.
Proof using Type.
  intros [Hf Hm Hi Hc]. rewrite (@Risk.Evaluate_eq M1), (@Risk.Evaluate_eq M2). cbn.
  enough (Risk.raw_score weights p = Risk.raw_score weights q) as -> by done.
  unfold Risk.raw_score, Risk.conflict_points.
  rewrite Hf, (Impact.sm_criticality _ _ Hi : ri_Criticality (cp_Runtime p) = ri_Criticality (cp_Runtime q)),
    (f_equal ca_Score (proj1 Hc) : ca_Score (cp_Conflict p) = ca_Score (cp_Conflict q)). do 3 f_equal.
  assert (∀ l, sumZ (λ m, Risk.weight weights (mut_Kind m)) l =
    sumZ (λ m, Risk.weight weights (mut_Kind m)) (anonymous <$> l)) as H by (intros l; by rewrite sumZ_fmap).
  rewrite (H (cp_Mutations p)), (H (cp_Mutations q)). by apply sumZ_perm.
Qed.

Lemma matchesRule_same rule p q :
  same_facts p q → rs_Score (cp_RiskSummary_ p) = rs_Score (cp_RiskSummary_ q) →
  Policy.matchesRule rule p = Policy.matchesRule rule q.
Proof using Type.
  intros [Hf Hm Hi Hc] Hs.
  unfold Policy.matchesRule, Policy.packetTouchesAnyPath, Policy.packetTouchesOwners.
  rewrite Hf, Hs, (Impact.sm_criticality _ _ Hi : ri_Criticality (cp_Runtime p) = ri_Criticality (cp_Runtime q)),
    (existsb_perm _ _ _ (Impact.sm_owners _ _ Hi : cp_Ownership p ≡ₚ cp_Ownership q)).
  enough (∀ kinds, Policy.packetHasAnyMutation p kinds = Policy.packetHasAnyMutation q kinds) as -> by done.
  intros kinds. unfold Policy.packetHasAnyMutation.
  set (f := λ m : Mutation, existsb (λ kind, bool_decide (mut_Kind m = kind)) kinds).
  assert (∀ l, existsb f l = existsb f (anonymous <$> l)) as H by (intros l; by rewrite existsb_fmap).
  rewrite (H (cp_Mutations p)), (H (cp_Mutations q)). by apply existsb_perm.
Qed.

(** The clock shows in the time of the decision only. *)
Definition at_time (now : Time) (e : Policy.Evaluation) : Policy.Evaluation :=
  Policy.set_decision (pd_with_DecidedAt now) e.

Lemma applyRules_at_time now e rules :
  foldl Policy.applyRule (at_time now e) rules = at_time now (foldl Policy.applyRule e rules).
Proof using Type.
  revert e. induction rules as [|r rules IH]; intros e; [done|]. cbn. rewrite <- IH. f_equal.
  unfold Policy.applyRule, Policy.applyPolicyAction. destruct (PolicyValidation.act_Block _).
  - destruct e as [[] ? ? ?]. cbn. unfold at_time, Policy.set_decision, Policy.raise_lane. cbn. by case_decide.
  - cbn. destruct (_ || _); destruct e as [[] ? ? ?]; unfold at_time, Policy.set_decision, Policy.raise_lane; cbn; by case_decide.
Qed.

Lemma Evaluate_same config now1 now2 p q e :
  same_facts p q → rs_Score (cp_RiskSummary_ p) = rs_Score (cp_RiskSummary_ q) →
  Policy.Evaluate config now1 p = Ok e → Policy.Evaluate config now2 q = Ok (at_time now2 e).
Proof using Type.
  intros Hf Hs [Hwf ->]%Policy.Evaluate_inv. apply Policy.Evaluate_inv. split; [done|].
  assert (Policy.matching config p = Policy.matching config q) as ->.
  { unfold Policy.matching. apply list_filter_iff. intros r. by rewrite (matchesRule_same r p q). }
  change (Policy.initial_evaluation now2) with (at_time now2 (Policy.initial_evaluation now1)).
  by rewrite applyRules_at_time.
Qed.
End engines.

(** ** The two pipelines *)

(** A packet whose fields are what the default engines make of a diff and the
    contents of files. *)
Record analysed (M : MapOrder) `{HG : Mutations.SliceGrowth} `{HP : Parsers} `{HD : RuntimeGraph.GraphDecoder}
    (E : Entropy) (diff : string) (loader : string → result string string) (codeOwners : bool)
    (policy : PolicyValidation.Config) (lanes : LanesConfig) (p : ChangePacket) : Prop := {
  an_files : cp_Files p = mapChangedFiles (Diff.ParseUnified diff);
  an_mutations : ∃ repo ref k n,
    Mutations.Classify (Analyzers.DefaultEngine)
      (Mutations.mkAnalysisRequest repo ref (cp_Files p) (Some loader)) k = Ok (cp_Mutations p, n);
  an_impact : ∃ options input, RuntimeGraph.EnableCodeOwners options = codeOwners ∧
    cp_Files (RuntimeGraph.res_Packet input) = cp_Files p ∧ RuntimeGraph.res_Loader input = Some loader ∧
    RuntimeGraph.GraphManifestPath (RuntimeGraph.res_Options input) = "" ∧
    RuntimeGraph.ResolveImpact (RuntimeGraph.NewResolver options) input = Ok (cp_Runtime p, cp_Ownership p);
  an_conflict : Analyze p = cp_Conflict p;
  an_risk : Risk.Evaluate Risk.defaultWeights p = (cp_RiskSummary_ p, cp_Risks p);
  an_policy : ∃ now e, Policy.Evaluate policy now p = Ok e ∧ Scan.with_evaluation e p = p;
  an_lane : Assign lanes p = cp_MergeLane_ p;
}.

(** What two analyses of one change agree on: all that the lane, the gate and the
    evidence depend on. *)
Record same_analysis (p q : ChangePacket) : Prop := {
  sa_facts : same_facts p q;
  sa_score : rs_Score (cp_RiskSummary_ p) = rs_Score (cp_RiskSummary_ q);
  sa_severity : rs_Severity (cp_RiskSummary_ p) = rs_Severity (cp_RiskSummary_ q);
  sa_decision : pd_with_DecidedAt 0 (cp_Decision p) = pd_with_DecidedAt 0 (cp_Decision q);
  sa_evidence : cp_Evidence p = cp_Evidence q;
  sa_reviewers : cp_Reviewers p = cp_Reviewers q;
  sa_deployment : cp_Deployment p = cp_Deployment q;
  sa_lane : cp_MergeLane_ p = cp_MergeLane_ q;
}.

Section analyses.
Context (M1 M2 : MapOrder) (E1 E2 : Entropy) `{HG : Mutations.SliceGrowth} `{HP : Parsers}
  `{HD : RuntimeGraph.GraphDecoder}.

Lemma Analyze_same p q :
  cp_Files p = cp_Files q → initial_assessment p = initial_assessment q →
  same_assessment (@Analyze M1 p) (@Analyze M2 q).
Proof using Type.
  intros Hf Hi. assert (@Analyze M2 q = @Analyze M2 p) as -> by (unfold Analyze; by rewrite Hf, Hi).
  apply analyze_order_independent.
Qed.

Lemma analysed_facts diff l1 l2 codeOwners policy lanes p q :
  analysed M1 E1 diff l1 codeOwners policy lanes p → analysed M2 E2 diff l2 codeOwners policy lanes q →
  (∀ path, Mutations.loadContent (Some l1) path = Mutations.loadContent (Some l2) path) →
  initial_assessment p = initial_assessment q → same_facts p q.
Proof using Type.
  intros H1 H2 Hl Hinit.
  assert (cp_Files p = cp_Files q) as Hf by (rewrite (an_files _ _ _ _ _ _ _ _ H1); symmetry; apply H2).
  split; [done|..].
  - destruct (an_mutations _ _ _ _ _ _ _ _ H1) as (? & ? & k1 & n1 & C1), (an_mutations _ _ _ _ _ _ _ _ H2) as (? & ? & k2 & n2 & C2).
    match type of C1 with Mutations.Classify _ ?r1 _ = _ => match type of C2 with Mutations.Classify _ ?r2 _ = _ =>
      pose proof (Classification.Classify_same E1 E2 M1 M2 _ _ r1 r2 k1 k2 (Classification.DefaultEngine_same E1 E2)) as H end end.
    rewrite C1, C2 in H. apply H. by split.
  - destruct (an_impact _ _ _ _ _ _ _ _ H1) as (o1 & i1 & Ho1 & Hf1 & Hl1 & Hg1 & R1).
    destruct (an_impact _ _ _ _ _ _ _ _ H2) as (o2 & i2 & Ho2 & Hf2 & Hl2 & Hg2 & R2).
    pose proof (Impact.ResolveImpact_same M1 M2 o1 o2 i1 i2) as H. rewrite R1, R2 in H. apply H; [congruence| |done..].
    split; [congruence| |]; rewrite Hl1, Hl2; [exact Hl|by split; eexists].
  - rewrite <- (an_conflict _ _ _ _ _ _ _ _ H1), <- (an_conflict _ _ _ _ _ _ _ _ H2). by apply Analyze_same.
Qed.

Lemma analysed_same diff l1 l2 codeOwners policy lanes p q :
  analysed M1 E1 diff l1 codeOwners policy lanes p → analysed M2 E2 diff l2 codeOwners policy lanes q →
  (∀ path, Mutations.loadContent (Some l1) path = Mutations.loadContent (Some l2) path) →
  initial_assessment p = initial_assessment q → same_analysis p q.
Proof using Type.
  intros H1 H2 Hl Hinit. pose proof (analysed_facts _ _ _ _ _ _ _ _ H1 H2 Hl Hinit) as Hf.
  destruct (Risk_same M1 M2 Risk.defaultWeights p q Hf) as [Hscore Hsev].
  rewrite (an_risk _ _ _ _ _ _ _ _ H1), (an_risk _ _ _ _ _ _ _ _ H2) in Hscore, Hsev. cbn in Hscore, Hsev.
  destruct (an_policy _ _ _ _ _ _ _ _ H1) as (now1 & e1 & P1 & W1), (an_policy _ _ _ _ _ _ _ _ H2) as (now2 & e2 & P2 & W2).
  apply (Evaluate_same _ _ now2 _ q) in P1; [|done..]. rewrite P1 in P2. injection P2 as <-.
  assert (pd_with_DecidedAt 0 (cp_Decision p) = pd_with_DecidedAt 0 (cp_Decision q)) as Hd by (by rewrite <- W1, <- W2).
  assert (cp_Evidence p = cp_Evidence q ∧ cp_Reviewers p = cp_Reviewers q ∧ cp_Deployment p = cp_Deployment q)
    as (Hev & Hrev & Hdep) by (by rewrite <- W1, <- W2).
  split; try done. rewrite <- (an_lane _ _ _ _ _ _ _ _ H1), <- (an_lane _ _ _ _ _ _ _ _ H2).
  pose proof (proj1 (fa_conflict _ _ Hf)) as Hc. unfold Assign, forcedLane, requiresEscalatedReview.
  by rewrite (f_equal pd_Status Hd : pd_Status (cp_Decision p) = _), (f_equal pd_MinimumLane Hd : pd_MinimumLane (cp_Decision p) = _),
    (f_equal ca_RequiresHumanResolution Hc : ca_RequiresHumanResolution (cp_Conflict p) = _),
    (f_equal ca_Route Hc : ca_Route (cp_Conflict p) = _), Hscore, Hrev, Hdep.
Qed.
End analyses.

Section pipelines.
Context (M1 M2 : MapOrder) (E1 E2 : Entropy) `{HG : Mutations.SliceGrowth} `{HP : Parsers}
  `{HD : RuntimeGraph.GraphDecoder} `{HV : Scan.Environment} `{HR : Repository W}.

(** The policy and the lane come last, in both. *)
Lemma analysed_final (M : MapOrder) (E : Entropy) diff loader codeOwners policy lanes q now t e :
  cp_Files q = mapChangedFiles (Diff.ParseUnified diff) →
  (∃ repo ref k n, Mutations.Classify Analyzers.DefaultEngine
     (Mutations.mkAnalysisRequest repo ref (cp_Files q) (Some loader)) k = Ok (cp_Mutations q, n)) →
  (∃ options input, RuntimeGraph.EnableCodeOwners options = codeOwners ∧
    cp_Files (RuntimeGraph.res_Packet input) = cp_Files q ∧ RuntimeGraph.res_Loader input = Some loader ∧
    RuntimeGraph.GraphManifestPath (RuntimeGraph.res_Options input) = "" ∧
    RuntimeGraph.ResolveImpact (RuntimeGraph.NewResolver options) input = Ok (cp_Runtime q, cp_Ownership q)) →
  Analyze q = cp_Conflict q →
  Risk.Evaluate Risk.defaultWeights q = (cp_RiskSummary_ q, cp_Risks q) →
  Policy.Evaluate policy now q = Ok e →
  analysed M E diff loader codeOwners policy lanes
    (cp_with_UpdatedAt t (cp_with_MergeLane_ (Assign lanes (Scan.with_evaluation e q)) (Scan.with_evaluation e q))).
Proof using Type.
  intros Hf Hm Hi Ha Hr He. split; [done..| | | |].
  - etransitivity; [|exact Ha]. by apply Scan.Analyze_ext.
  - etransitivity; [|exact Hr]. by apply Scan.Risk_Evaluate_ext.
  - exists now, e. split; [|apply Scan.with_evaluation_again]. rewrite <- He. by apply Scan.Policy_Evaluate_ext.
  - by apply Scan.Assign_ext.
Qed.

(** The current head of the target branch that a packet was built with. *)
Definition current_base (p : ChangePacket) : string := meta (cp_Metadata p) currentBaseSHAMetadataKey.

Lemma Run_analysed opts p :
  @Scan.Run E2 HG M2 HP HD HV opts = Ok p →
  analysed M2 E2 (Scan.opt_Diff opts) (Scan.fs_Load (Scan.opt_RepoRoot opts)) (Scan.opt_EnableCodeOwners opts)
    (Scan.opt_Policy opts) (Scan.opt_Lanes opts) p ∧
  pr_BaseSHA (cp_PR p) = Scan.opt_BaseSHA opts ∧ (Scan.opt_CurrentBaseSHA opts = "" → current_base p = "").
Proof using Type.
  unfold Scan.Run. cbn zeta. intros ([ms n] & Hm%map_err_ok & H)%bind_ok. cbn [fst snd] in H.
  apply bind_ok in H as ([impact owners] & Hi%map_err_ok & H). cbn [fst snd] in H.
  destruct (Risk.Evaluate _ _) as [summary risks] eqn:Er.
  apply bind_ok in H as (e & He%map_err_ok & [= <-]).
  split.
  - eapply analysed_final; [done|by eexists _, _, _, _| | | |exact He].
    + eexists _, _. split_and!; cycle 4; [exact Hi|done..].
    + by apply Scan.Analyze_ext.
    + cbn [cp_RiskSummary_ cp_Risks cp_with_Risks cp_with_RiskSummary_]. rewrite <- Er. by apply Scan.Risk_Evaluate_ext.
  - split; [done|]. intros Hc. unfold current_base. cbn. by rewrite Hc.
Qed.

Context (p : Processor W) (payload : PullRequestWebhookPayload).

(** The service, the owner, the repository and the number that the pull request is
    fetched with. *)
Let service := bindInstallation p (pw_InstallationID payload).
Let owner := rp_OwnerLogin (pw_Repository payload).
Let name := rp_Name (pw_Repository payload).

(** The options of a scan are those of a pull request: the checkout is the head of
    the pull request, the diff is its diff, and both programs are configured
    alike.  The scan is not told the head of the target branch, which the ingest
    service does not know. *)
Record corresponds (opts : Scan.Options) : Prop := {
  co_diff w diff w' : GetPullRequestDiff service owner name (pw_Number payload) w = (Ok diff, w') → diff = Scan.opt_Diff opts;
  co_fetched w pr w' : GetPullRequest service owner name (pw_Number payload) w = (Ok pr, w') →
    gpr_HeadSHA pr = Scan.opt_Ref opts ∧ gpr_BaseSHA pr = Scan.opt_BaseSHA opts;
  co_payload : pw_HeadSHA payload = Scan.opt_Ref opts ∧ pw_BaseSHA payload = Scan.opt_BaseSHA opts;
  co_contents path : Mutations.loadContent (Some (github_loader service owner name (Scan.opt_Ref opts))) path =
    Mutations.loadContent (Some (Scan.fs_Load (Scan.opt_RepoRoot opts))) path;
  co_current : Scan.opt_CurrentBaseSHA opts = "";
  co_engine : p_mutations p = Analyzers.DefaultEngine (H := E1);
  co_weights : p_risk p = Risk.defaultWeights;
  co_policy : p_policy p = Scan.opt_Policy opts;
  co_lanes : p_assigner p = Scan.opt_Lanes opts;
  co_runtime : ∃ options, p_runtime p = @RuntimeGraph.NewResolver M1 HP HD options ∧
    RuntimeGraph.EnableCodeOwners options = Scan.opt_EnableCodeOwners opts;
}.

Lemma prepared_analysed opts k (now : Clock) correlationID w packet k' w' :
  corresponds opts →
  @prepared W E1 HG M1 p k now correlationID payload w = (Ok (packet, k'), w') →
  analysed M1 E1 (Scan.opt_Diff opts) (github_loader service owner name (Scan.opt_Ref opts)) (Scan.opt_EnableCodeOwners opts)
    (Scan.opt_Policy opts) (Scan.opt_Lanes opts) packet ∧
  pr_BaseSHA (cp_PR packet) = Scan.opt_BaseSHA opts ∧ current_base packet = "".
Proof using Type.
  intros Hco. unfold prepared. fold service owner name.
  intros [([] & w1 & _ & H)|(? & _ & [=])]%stateE_bind_inv.
  apply stateE_bind_inv in H as [(pr & w2 & Hpr & H)|(? & _ & [=])].
  assert (gpr_HeadSHA pr = Scan.opt_Ref opts ∧ gpr_BaseSHA pr = Scan.opt_BaseSHA opts) as [Hhead Hbase].
  { unfold fetchPullRequest in Hpr. destruct (GetPullRequest _ _ _ _ _) as [[pr'|] w3] eqn:E; injection Hpr as <- <-;
      [by apply (co_fetched _ Hco) in E|apply Hco]. }
  apply stateE_bind_inv in H as [(p1 & w3 & Hb & H)|(? & _ & [=])].
  apply stateE_bind_inv in H as [([p2 k2] & w4 & Hm & H)|(? & _ & [=])].
  apply stateE_bind_inv in H as [(p3 & w5 & Hr & H)|(? & _ & [=])].
  apply stateE_bind_inv in H as [(p4 & w6 & Hk & H)|(? & _ & [=])].
  apply stateE_bind_inv in H as [(p5 & w7 & Hp & H)|(? & _ & [=])].
  injection H as <- <- <-. injection Hp as Hp <-. apply bind_ok in Hp as (e & He%map_err_ok & [= <-]).
  apply stateE_bind_inv in Hb as [(rawDiff & wd & (r0 & Hd & Hr0)%wrapE_inv & Hb)|(? & _ & [=])].
  destruct r0; simplify_eq/=. apply (co_diff _ Hco) in Hd as ->.
  apply stateE_bind_inv in Hb as [([] & we & _ & Hb)|(? & _ & [=])]. injection Hb as <- <-.
  apply stateE_bind_inv in Hm as [([ms km] & wm & Hc & Hm)|(? & _ & [=])].
  apply stateE_bind_inv in Hm as [([] & wn & _ & Hm)|(? & _ & [=])]. injection Hm as <- <- <-.
  apply stateE_bind_inv in Hr as [([impact owners] & wr & Hi & Hr)|(? & _ & [=])]. injection Hr as <- <-.
  injection Hc as Hc%map_err_ok <-. injection Hi as Hi%map_err_ok <-.
  rewrite Hhead, (co_engine _ Hco) in Hc. destruct (co_runtime _ Hco) as (options & Hrun & Hown). rewrite Hhead, Hrun in Hi.
  rewrite (co_policy _ Hco) in He. set (p3 := cp_with_Ownership _ _) in Hk.
  assert (cp_Files p3 = mapChangedFiles (Diff.ParseUnified (Scan.opt_Diff opts)) ∧ cp_Mutations p3 = ms ∧
    cp_Runtime p3 = impact ∧ cp_Ownership p3 = owners ∧ pr_BaseSHA (cp_PR p3) = Scan.opt_BaseSHA opts ∧ current_base p3 = "")
    as (Hf & Hms & Him & How & Hb & Hcur).
  { split_and!; [done..|exact Hbase|]. unfold current_base, meta. cbn. by rewrite !lookup_insert_ne. }
  clearbody p3. rewrite <- Hms in Hc. cbn [cp_Files new_packet] in Hc. rewrite <- Hf in Hc. rewrite <- Him, <- How in Hi. unfold enrichRisk in Hk. cbn zeta in Hk. rewrite (co_weights _ Hco) in Hk.
  destruct (Risk.Evaluate _ _) as [summary risks] eqn:Er.
  apply stateE_bind_inv in Hk as [([] & wk & _ & Hk)|(? & _ & [=])]. injection Hk as <- <-.
  unfold assignMergeLane. rewrite (co_lanes _ Hco). split; [|done].
  eapply analysed_final; [exact Hf|eexists _, _, _, _; exact Hc| | | |exact He].
  - eexists _, _. split_and!; cycle 4; [exact Hi|done..].
  - by apply Scan.Analyze_ext.
  - etransitivity; [|exact Er]. by apply Scan.Risk_Evaluate_ext.
Qed.

(** C5: a scan of the checkout of a pull request, with the diff of the pull request
    and the configuration of the ingest service, succeeds whenever the ingest
    service processes the pull request, and tells in advance what it will store:
    the same mutations, affected systems and owners, the same conflict assessment,
    score and severity, the same decision with its evidence, reviewers and
    deployment, and the same lane, whatever identifiers are drawn, in whichever
    order maps are ranged over, and whenever either runs. *)
Theorem scan_predicts_pull_request opts k now correlationID w packet w' :
  corresponds opts →
  @ProcessPROpened W HR E1 HG M1 p k now correlationID payload w = (Ok packet, w') →
  ∃ scanned, @Scan.Run E2 HG M2 HP HD HV opts = Ok scanned ∧ same_analysis packet scanned.
Proof using Type.
  intros Hco. unfold ProcessPROpened. intros [([packet0 k1] & w1 & H & Hfin)|(? & _ & [=])]%stateE_bind_inv.
  apply stateE_bind_inv in Hfin as [([] & w2 & _ & [= -> _])|(? & _ & [=])].
  apply (prepared_analysed opts) in H as (Ha & Hb & Hc); [|done].
  destruct (an_policy _ _ _ _ _ _ _ _ Ha) as (t & e & [Hwf _]%Policy.Evaluate_inv & _).
  destruct (proj2 (@Scan.Run_succeeds E2 HG M2 HP HD HV opts) Hwf) as [scanned Hrun]. exists scanned. split; [done|].
  destruct (Run_analysed _ _ Hrun) as (Ha' & Hb' & Hc').
  apply (analysed_same _ _ _ _ _ _ _ _ _ _ _ _ Ha Ha'); [apply co_contents, Hco|].
  unfold initial_assessment, current_base in *. by rewrite Hb, Hb', Hc, (Hc' (co_current _ Hco)).
Qed.
End pipelines.

Section demo.
#[local] Existing Instance Mutations.doubling.
#[local] Existing Instance RuntimeGraph.no_documents.
#[local] Existing Instance RuntimeGraph.chain_decoder.

(** A migration that a policy asks evidence for, scanned where [rand.Read] fails, in
    another order of maps and at another time than it is processed. *)
Definition migration_diff : string :=
  Join newline ["diff --git a/db/0001.sql b/db/0001.sql"; "+create table t"; "diff --git a/internal/auth/a.go b/internal/auth/a.go"; "+x"].

Definition migration : Scan.Options :=
  Scan.mkOptions migration_diff "" zeroRepoRef "head" "base" "" "" zeroAuthor (PolicyValidation.mkConfig [Policy.asking_rule])
    (mkLanesConfig 20 45 75) true.

Definition migration_github : GitHubService MemoryRepository :=
  mkGitHubService (λ _ _ _, throw "unreachable") (λ _ _ _, mret migration_diff) (λ _ _ _ _, Err "no content") (λ _, mret ()).

Definition migration_processor : Processor MemoryRepository :=
  mkProcessor (λ _, mret ()) migration_github None (Analyzers.DefaultEngine (H := counting_entropy)) Risk.defaultWeights
    (PolicyValidation.mkConfig [Policy.asking_rule]) (mkLanesConfig 20 45 75) (λ _, mret ())
    (@RuntimeGraph.NewResolver map_order_sorted _ _ (RuntimeGraph.mkOptions true "graph.yaml" 2)) true None.

Definition no_entropy : Entropy := {| UnixNano n := 1000 + Z.of_nat n; rand_Read _ := None |}.
Definition later_checkout : Scan.Environment := {| Scan.os_ReadFile _ _ := None; Scan.Now n := 5000 + Z.of_nat n |}.

Lemma migration_corresponds :
  corresponds (HV := later_checkout) map_order_sorted counting_entropy migration_processor demo_opened migration.
Proof.
  split; try reflexivity.
  - intros w diff w' H. by injection H.
  - intros w pr w' H. discriminate H.
  - split; reflexivity.
  - exists (RuntimeGraph.mkOptions true "graph.yaml" 2). split; reflexivity.
Defined.

Lemma scan_predicts_pull_request_witness :
  ∃ packet scanned,
    (@ProcessPROpened _ (@memory_repository map_order_sorted) counting_entropy _ map_order_sorted migration_processor 0 demo_clock "delivery" demo_opened
       NewMemoryRepository).1 = Ok packet ∧
    @Scan.Run no_entropy _ map_order_reversed _ _ later_checkout migration = Ok scanned ∧
    cp_MergeLane_ scanned = MergeLaneRed ∧ cp_MergeLane_ packet = MergeLaneRed ∧
    er_Name <$> cp_Evidence packet = ["migration_plan"].
Proof.
  destruct (@ProcessPROpened _ (@memory_repository map_order_sorted) counting_entropy _ map_order_sorted migration_processor 0 demo_clock "delivery"
    demo_opened NewMemoryRepository) as [[packet|] w'] eqn:E; [|vm_compute in E; discriminate E].
  destruct (scan_predicts_pull_request map_order_sorted map_order_reversed counting_entropy no_entropy
    (HV := later_checkout) _ _ migration 0 demo_clock "delivery" NewMemoryRepository packet w' migration_corresponds E)
    as (scanned & Hrun & Hsame).
  exists packet, scanned. split; [reflexivity|]. split; [exact Hrun|].
  assert (cp_MergeLane_ scanned = MergeLaneRed ∧ er_Name <$> cp_Evidence scanned = ["migration_plan"]) as [Hl He]
    by (vm_compute in Hrun; injection Hrun as <-; by split).
  rewrite (sa_lane _ _ Hsame), (sa_evidence _ _ Hsame). split_and!; [exact Hl|exact Hl|exact He].
Defined.
End demo.
