(* ===== verification/Jwt.v ===== *)
(** [internal/access/jwt_authenticator.go]: bearer tokens that are signed JSON web
    tokens.  The segments, the claims, their times (at 64 bits) and the
    role bindings are those of the code; SHA-256, HMAC, RSA, X.509, PEM and JSON
    are the fields of [Crypto] and [ClaimCodec]. *)
From stdpp Require Import base list gmap strings.
From S2P Require Import Prelude GoStrings Base64 Domain Documents Access.

Local Open Scope string_scope.
Local Open Scope list_scope.
Local Open Scope Z_scope.

(** ** Claims *)

(** The claims are decoded with [UseNumber]: a number keeps its literal, so no
    value is a [float64]. *)
Abbreviation Claims := (gmap string json) (only parsing).

(** [claims[name]]. *)
Definition claim_of (claims : Claims) (name : string) : json := default JNull (claims !! name).

Definition stringClaim (value : json) : option string :=
  match value with JString text => Some text | _ => None end.

Definition audienceMatches (value : json) (audience : string) : bool :=
  match value with
  | JString typed => bool_decide (typed = audience)
  | JArray typed => existsb (λ candidate, bool_decide (stringClaim candidate = Some audience)) typed
  | _ => false
  end.

(** [time.Unix(seconds, 0)]: the sum with the seconds from year 1 to 1970 wraps
    around at 64 bits. *)
Definition unixToInternal : Z := 62135596800.
Definition wrap64 (z : Z) : Z := (z + 2 ^ 63) mod 2 ^ 64 - 2 ^ 63.
Definition Unix (seconds : Z) : Time := wrap64 (seconds + unixToInternal) * 1000000000.

(** [typed.Int64()] is [strconv.ParseInt(literal, 10, 64)]. *)
Definition numericDate (value : json) : option Time :=
  match value with JNumber literal => Unix <$> Atoi literal | _ => None end.

Definition splitClaimString (value : string) : list string :=
  if Contains value "," then filter (λ v, v ≠ "") (TrimSpace <$> Split "," value)
  else Fields value.

Definition claimValues (value : json) : result AccessError (list string) :=
  match value with
  | JNull => Ok []
  | JString typed => Ok (splitClaimString typed)
  | JArray typed =>
      match mapM stringClaim typed with
      | Some texts => Ok (TrimSpace <$> texts)
      | None => Err ErrUnauthenticated
      end
  | _ => Err ErrUnauthenticated
  end.

Definition splitJWT (token : string) : result AccessError (string * string * string) :=
  match Split "." token with
  | [h; c; s] =>
      if existsb (λ part, bool_decide (TrimSpace part = "")) [h; c; s] then Err ErrUnauthenticated
      else Ok (h, c, s)
  | _ => Err ErrUnauthenticated
  end.

Definition decodeJWTComponent (segment : string) : result AccessError string :=
  match RawURLDecode segment with Some value => Ok value | None => Err ErrUnauthenticated end.

(** ** The authenticator *)

Definition JWTAlgorithmHS256 : string := "HS256".
Definition JWTAlgorithmRS256 : string := "RS256".

Record JWTClaimBinding := mkJWTClaimBinding {
  cb_ClaimValue : string;
  cb_Roles : list Role;
}.

Record JWTConfig := mkJWTConfig {
  jc_Algorithm : string;
  jc_Issuer : string;
  jc_Audience : string;
  jc_SubjectClaim : string;
  jc_RolesClaim : string;
  jc_SecretEnv : string;
  jc_PublicKeyPath : string;
  jc_RoleBindings : list JWTClaimBinding;
}.

(** [crypto/hmac], [crypto/rsa], [crypto/x509] and [encoding/pem].  A parsed key
    or certificate may hold another kind of key: then it is [None].  A PEM block
    takes some of the text ([pem_Decode_rest]). *)
Class Crypto := {
  crypto_digest : Digest;
  HMAC_SHA256 : string → string → string;
  RSAPublicKey : Type;
  VerifyPKCS1v15 : RSAPublicKey → string → string → bool;
  ParsePKIXPublicKey : string → result string (option RSAPublicKey);
  ParsePKCS1PublicKey : string → result string RSAPublicKey;
  ParseCertificate : string → result string (option RSAPublicKey);
  pem_Decode : string → option (string * string * string);
  pem_Decode_rest raw block_type bytes rest :
    pem_Decode raw = Some (block_type, bytes, rest) → (String.length rest < String.length raw)%nat;
}.
#[export] Existing Instance crypto_digest.

(** [json.Unmarshal] of the header's [alg], and [decodeJWTClaims]'s decoder. *)
Class ClaimCodec := {
  DecodeAlgorithm : string → option string;
  DecodeClaims : string → option Claims;
}.

Section jwt.
Context `{HC : Crypto} `{HX : ClaimCodec}.

Inductive jwtVerifier :=
  | hmacSHA256Verifier (secret : string)
  | rsaSHA256Verifier (key : RSAPublicKey).

Definition Verify (v : jwtVerifier) (signingInput signature : string) : result AccessError () :=
  match v with
  | hmacSHA256Verifier secret =>
      if decide (signature = HMAC_SHA256 secret signingInput) then Ok () else Err ErrUnauthenticated
  | rsaSHA256Verifier key =>
      if VerifyPKCS1v15 key (Sum256 signingInput) signature then Ok () else Err ErrUnauthenticated
  end.

(** [now] is an argument of [Authenticate]. *)
Record JWTAuthenticator := mkJWTAuthenticator {
  ja_algorithm : string;
  ja_issuer : string;
  ja_audience : string;
  ja_subjectClaim : string;
  ja_rolesClaim : string;
  ja_bindings : gmap string (list Role);
  ja_verifier : jwtVerifier;
}.

Inductive JWTError :=
  | JWTUnsupportedAlgorithm (algorithm : string)
  | JWTEmptyIssuer
  | JWTEmptyAudience
  | JWTEmptyClaimValue (index : nat)
  | JWTDuplicateClaimValue (claimValue : string)
  | JWTBadRoles (index : nat) (err : TokenError)
  | JWTNoBindings
  | JWTEmptySecretEnv
  | JWTSecretUnset (secretEnv : string)
  | JWTEmptyKeyPath
  | JWTKeyFile (err : string)
  | JWTKeyNotRSA
  | JWTNoKey.

Definition add_binding (bindings : gmap string (list Role)) (ib : nat * JWTClaimBinding)
    : result JWTError (gmap string (list Role)) :=
  let '(index, binding) := ib in
  let claimValue := TrimSpace (cb_ClaimValue binding) in
  fail_if (bool_decide (claimValue = "")) (JWTEmptyClaimValue index) ;;
  fail_if (bool_decide (is_Some (bindings !! claimValue))) (JWTDuplicateClaimValue claimValue) ;;
  roles ← map_err (JWTBadRoles index) (validatedRoles (cb_Roles binding));
  Ok (<[claimValue := roles]> bindings).

(** A parsed key that must be an RSA key. *)
Definition rsa_key (parsed : result string (option RSAPublicKey)) : result JWTError RSAPublicKey :=
  match parsed with
  | Err err => Err (JWTKeyFile err)
  | Ok None => Err JWTKeyNotRSA
  | Ok (Some key) => Ok key
  end.

(** One more than the length of the text is fuel enough ([parse_key_enough]). *)
Fixpoint parse_key (fuel : nat) (raw : string) : result JWTError RSAPublicKey :=
  match fuel with
  | O => Err JWTNoKey
  | S fuel =>
      if decide (raw = "") then Err JWTNoKey
      else
        match pem_Decode raw with
        | None => Err JWTNoKey
        | Some (block_type, bytes, rest) =>
            if decide (block_type = "PUBLIC KEY") then rsa_key (ParsePKIXPublicKey bytes)
            else if decide (block_type = "RSA PUBLIC KEY") then map_err JWTKeyFile (ParsePKCS1PublicKey bytes)
            else if decide (block_type = "CERTIFICATE") then rsa_key (ParseCertificate bytes)
            else parse_key fuel rest
        end
  end.

Definition parseRSAPublicKeyPEM (raw : string) : result JWTError RSAPublicKey :=
  parse_key (S (String.length raw)) raw.

(** [os.LookupEnv] and [os.ReadFile]. *)
Context (LookupEnv : string → option string) (ReadFile : string → result string string).

Definition newJWTVerifier (algorithm : string) (cfg : JWTConfig) : result JWTError jwtVerifier :=
  if decide (algorithm = JWTAlgorithmHS256) then
    let secretEnv := TrimSpace (jc_SecretEnv cfg) in
    fail_if (bool_decide (secretEnv = "")) JWTEmptySecretEnv ;;
    let secret := default "" (LookupEnv secretEnv) in
    fail_if (bool_decide (secret = "")) (JWTSecretUnset secretEnv) ;;
    Ok (hmacSHA256Verifier secret)
  else if decide (algorithm = JWTAlgorithmRS256) then
    let publicKeyPath := TrimSpace (jc_PublicKeyPath cfg) in
    fail_if (bool_decide (publicKeyPath = "")) JWTEmptyKeyPath ;;
    raw ← map_err JWTKeyFile (ReadFile publicKeyPath);
    key ← parseRSAPublicKeyPEM raw;
    Ok (rsaSHA256Verifier key)
  else Err (JWTUnsupportedAlgorithm algorithm).

Definition or_default (claim fallback : string) : string := if decide (claim = "") then fallback else claim.

Definition NewJWTAuthenticator (cfg : JWTConfig) : result JWTError JWTAuthenticator :=
  let algorithm := ToUpper (TrimSpace (jc_Algorithm cfg)) in
  fail_if (bool_decide (algorithm ≠ JWTAlgorithmHS256) && bool_decide (algorithm ≠ JWTAlgorithmRS256))
    (JWTUnsupportedAlgorithm (jc_Algorithm cfg)) ;;
  let issuer := TrimSpace (jc_Issuer cfg) in
  fail_if (bool_decide (issuer = "")) JWTEmptyIssuer ;;
  let audience := TrimSpace (jc_Audience cfg) in
  fail_if (bool_decide (audience = "")) JWTEmptyAudience ;;
  bindings ← foldM add_binding ∅ (indexed (jc_RoleBindings cfg));
  fail_if (bool_decide (size bindings = 0%nat)) JWTNoBindings ;;
  verifier ← newJWTVerifier algorithm cfg;
  Ok (mkJWTAuthenticator algorithm issuer audience (or_default (TrimSpace (jc_SubjectClaim cfg)) "sub")
        (or_default (TrimSpace (jc_RolesClaim cfg)) "roles") bindings verifier).

(** ** Authenticating *)

Definition validateJWTHeader (headerSegment algorithm : string) : result AccessError () :=
  headerJSON ← decodeJWTComponent headerSegment;
  match DecodeAlgorithm headerJSON with
  | None => Err ErrUnauthenticated
  | Some header => fail_if (negb (EqualFold (TrimSpace header) algorithm)) ErrUnauthenticated
  end.

Definition decodeJWTClaimsSegment (claimsSegment : string) : result AccessError Claims :=
  claimsJSON ← decodeJWTComponent claimsSegment;
  match DecodeClaims claimsJSON with Some claims => Ok claims | None => Err ErrUnauthenticated end.

Definition verifiedClaims (a : JWTAuthenticator) (headerSegment claimsSegment signatureSegment : string)
    : result AccessError Claims :=
  let signingInput := headerSegment +:+ "." +:+ claimsSegment in
  signature ← decodeJWTComponent signatureSegment;
  validateJWTHeader headerSegment (ja_algorithm a) ;;
  Verify (ja_verifier a) signingInput signature ;;
  decodeJWTClaimsSegment claimsSegment.

Definition validateClaims (a : JWTAuthenticator) (now : Time) (claims : Claims) : result AccessError () :=
  fail_if (bool_decide (stringClaim (claim_of claims "iss") ≠ Some (ja_issuer a))) ErrUnauthenticated ;;
  fail_if (negb (audienceMatches (claim_of claims "aud") (ja_audience a))) ErrUnauthenticated ;;
  fail_if (match numericDate (claim_of claims "exp") with Some expiresAt => negb (now <? expiresAt) | None => true end)
    ErrUnauthenticated ;;
  fail_if (match numericDate (claim_of claims "nbf") with Some notBefore => now <? notBefore | None => false end)
    ErrUnauthenticated.

Definition subjectFromClaims (a : JWTAuthenticator) (claims : Claims) : result AccessError string :=
  match stringClaim (claim_of claims (ja_subjectClaim a)) with
  | None => Err ErrUnauthenticated
  | Some subject =>
      fail_if (bool_decide (TrimSpace subject = "")) ErrUnauthenticated ;;
      Ok (TrimSpace subject)
  end.

(** The roles so far, and those seen. *)
Definition appendBoundRoles (acc : list Role * gset Role) (bound : list Role) : list Role * gset Role :=
  foldl (λ '(current, seen) role, if decide (role ∈ seen) then (current, seen) else (current ++ [role], {[role]} ∪ seen))
    acc bound.

Definition rolesFromClaims (a : JWTAuthenticator) (claims : Claims) : result AccessError (list Role) :=
  values ← claimValues (claim_of claims (ja_rolesClaim a));
  Ok (foldl (λ acc value, appendBoundRoles acc (default [] (ja_bindings a !! value))) ([], ∅) values).1.

Definition jwt_Authenticate (a : JWTAuthenticator) (now : Time) : Authenticator := λ authorization,
  token ← bearerToken authorization;
  parts ← splitJWT token;
  let '(headerSegment, claimsSegment, signatureSegment) := parts in
  claims ← verifiedClaims a headerSegment claimsSegment signatureSegment;
  validateClaims a now claims ;;
  subject ← subjectFromClaims a claims;
  roles ← rolesFromClaims a claims;
  Ok (mkPrincipal subject roles).

(** ** What the authenticator accepts *)

Definition claim_key (b : JWTClaimBinding) : string := TrimSpace (cb_ClaimValue b).

(** The roles a configuration binds to a claim value: at most one binding has
    that value. *)
Definition bound_roles (bindings : list JWTClaimBinding) (value : string) : list Role :=
  mjoin (cb_Roles <$> filter (λ b, TrimSpace (cb_ClaimValue b) = value) bindings).

(** A presented token that is signed for the configuration and carries [claims]. *)
Definition jwt_signed (cfg : JWTConfig) (verifier : jwtVerifier) (header : string) (claims : Claims) : Prop :=
  ∃ token h c s signature json algorithm body,
    bearerToken header = Ok token ∧ Split "." token = [h; c; s] ∧
    Forall (λ part, TrimSpace part ≠ "") [h; c; s] ∧
    RawURLDecode s = Some signature ∧
    RawURLDecode h = Some json ∧ DecodeAlgorithm json = Some algorithm ∧
    EqualFold (TrimSpace algorithm) (ToUpper (TrimSpace (jc_Algorithm cfg))) = true ∧
    Verify verifier (h +:+ "." +:+ c) signature = Ok () ∧
    RawURLDecode c = Some body ∧ DecodeClaims body = Some claims.

(** Claims of the configured issuer, for the configured audience, at a time they
    are good for. *)
Definition claims_good (cfg : JWTConfig) (now : Time) (claims : Claims) : Prop :=
  claim_of claims "iss" = JString (TrimSpace (jc_Issuer cfg)) ∧
  audienceMatches (claim_of claims "aud") (TrimSpace (jc_Audience cfg)) = true ∧
  (∃ expiresAt, numericDate (claim_of claims "exp") = Some expiresAt ∧ now < expiresAt) ∧
  (∀ notBefore, numericDate (claim_of claims "nbf") = Some notBefore → notBefore ≤ now).

(** The principal of such claims. *)
Definition jwt_principal (cfg : JWTConfig) (claims : Claims) (p : Principal) : Prop :=
  ∃ subject values,
    claim_of claims (or_default (TrimSpace (jc_SubjectClaim cfg)) "sub") = JString subject ∧
    TrimSpace subject ≠ "" ∧
    claimValues (claim_of claims (or_default (TrimSpace (jc_RolesClaim cfg)) "roles")) = Ok values ∧
    p = mkPrincipal (TrimSpace subject)
          (append_unique_by (λ x y, bool_decide (x = y)) [] (mjoin (bound_roles (jc_RoleBindings cfg) <$> values))).

(** ** Lemmas *)

Lemma stringClaim_some value text : stringClaim value = Some text ↔ value = JString text.
Proof. destruct value; cbn; naive_solver. Qed.

Lemma appendBoundRoles_spec acc bound :
  (∀ r, r ∈ acc.2 ↔ r ∈ acc.1) →
  (appendBoundRoles acc bound).1 = append_unique_by (λ x y, bool_decide (x = y)) acc.1 bound ∧
  (∀ r, r ∈ (appendBoundRoles acc bound).2 ↔ r ∈ (appendBoundRoles acc bound).1).
Proof.
  revert acc. induction bound as [|role bound IH]; intros [current seen] Hs; [done|].
  rewrite append_unique_cons. cbn [appendBoundRoles foldl fst].
  assert (existsb (λ v, bool_decide (v = role)) current = bool_decide (role ∈ seen)) as ->.
  { apply Bool.eq_iff_eq_true. rewrite existsb_elem, bool_decide_eq_true, (Hs role).
    setoid_rewrite bool_decide_eq_true. naive_solver. }
  case_decide as Hr; [rewrite bool_decide_eq_true_2 by done|rewrite bool_decide_eq_false_2 by done]; apply IH; [done|].
  cbn in *. set_solver.
Qed.

Lemma append_unique_app {A} (same : A → A → bool) vs l1 l2 :
  append_unique_by same vs (l1 ++ l2) = append_unique_by same (append_unique_by same vs l1) l2.
Proof. apply foldl_app. Qed.

Lemma bound_fold_spec (bindings : string → list Role) (values : list string) acc :
  (∀ r, r ∈ acc.2 ↔ r ∈ acc.1) →
  (foldl (λ acc value, appendBoundRoles acc (bindings value)) acc values).1 =
  append_unique_by (λ x y, bool_decide (x = y)) acc.1 (mjoin (bindings <$> values)).
Proof.
  revert acc. induction values as [|v values IH]; intros acc Hs; [done|]. cbn [foldl fmap list_fmap mjoin list_join].
  destruct (appendBoundRoles_spec acc (bindings v) Hs) as [E Hs']. by rewrite IH, E, <- append_unique_app.
Qed.

Lemma bound_roles_snoc bs b value :
  bound_roles (bs ++ [b]) value =
  bound_roles bs value ++ (if decide (TrimSpace (cb_ClaimValue b) = value) then cb_Roles b else []).
Proof.
  unfold bound_roles. rewrite filter_app, fmap_app, join_app, filter_cons. f_equal.
  case_decide; cbn; [by rewrite app_nil_r|done].
Qed.

(** The map of the bindings, and when there is one. *)
Lemma add_binding_ok bindings i b bindings' :
  add_binding bindings (i, b) = Ok bindings' ↔
  (TrimSpace (cb_ClaimValue b) ≠ "" ∧ roles_valid (cb_Roles b)) ∧ bindings !! TrimSpace (cb_ClaimValue b) = None ∧
  bindings' = <[TrimSpace (cb_ClaimValue b) := cb_Roles b]> bindings.
Proof.
  unfold add_binding. rewrite !bind_unit_ok, !fail_if_ok, !bool_decide_eq_false, bind_ok, <- validatedRoles_valid.
  setoid_rewrite map_err_ok. rewrite <- eq_None_not_Some. split.
  - intros (? & ? & roles & Hr & [= <-]). pose proof Hr as Hr'. apply validatedRoles_ok in Hr' as (-> & _). done.
  - intros ([? ?] & ? & ->). eauto 6.
Qed.

Lemma bindings_ok bs bindings :
  foldM add_binding ∅ (indexed bs) = Ok bindings →
  (∀ value, default [] (bindings !! value) = bound_roles bs value) ∧
  Forall (λ b, roles_valid (cb_Roles b)) bs.
Proof.
  intros Hf. rewrite <- (indexed_snd bs).
  enough ((∀ value, default [] (bindings !! value) = bound_roles (indexed bs).*2 value ∧
                    (bindings !! value = None → bound_roles (indexed bs).*2 value = [])) ∧
          Forall (λ b, roles_valid (cb_Roles b)) (indexed bs).*2) as [Hv ?] by (split; [intros; apply Hv|done]).
  apply (foldM_ind _ (λ ibs m, (∀ value, default [] (m !! value) = bound_roles ibs.*2 value ∧
      (m !! value = None → bound_roles ibs.*2 value = [])) ∧ Forall (λ b, roles_valid (cb_Roles b)) ibs.*2) _ _ _ Hf).
  { split; [|constructor]. intros value. by rewrite lookup_empty. }
  intros ibs [i b] m m' [Hv Hr] ([Hne ?] & Hnew & ->)%add_binding_ok. rewrite fmap_app. split.
  - intros value. cbn. rewrite bound_roles_snoc. destruct (Hv value) as [Hd Hn].
    destruct (decide _) as [<-|Hx].
    + rewrite lookup_insert_eq, (Hn Hnew). done.
    + rewrite lookup_insert_ne, app_nil_r by done. done.
  - apply Forall_app. split; [done|]. by constructor.
Qed.

Lemma bindings_total bs :
  (∃ bindings, foldM add_binding ∅ (indexed bs) = Ok bindings) ↔
  Forall (λ b, TrimSpace (cb_ClaimValue b) ≠ "" ∧ roles_valid (cb_Roles b)) bs ∧
  NoDup (claim_key <$> bs).
Proof.
  rewrite (foldM_fresh _ (λ ib, TrimSpace (cb_ClaimValue ib.2) ≠ "" ∧ roles_valid (cb_Roles ib.2))
    (λ m ib, m !! TrimSpace (cb_ClaimValue ib.2) = None)
    (λ a b, TrimSpace (cb_ClaimValue a.2) = TrimSpace (cb_ClaimValue b.2))).
  - rewrite (Forall_indexed (λ b, TrimSpace (cb_ClaimValue b) ≠ "" ∧ roles_valid (cb_Roles b))), <- (fmap_indexed claim_key), NoDup_fmap_pairs.
    split; [tauto|]. intros [? ?]. split_and!; [done| |done]. apply Forall_forall. intros. apply lookup_empty.
  - intros m [i b]. setoid_rewrite add_binding_ok. naive_solver.
  - intros m [i a] m' [j b]. intros (_ & _ & ->)%add_binding_ok. cbn. rewrite lookup_insert_None. naive_solver.
Qed.

(** More fuel than text changes nothing. *)
Lemma parse_key_enough n m raw :
  (String.length raw < n)%nat → (String.length raw < m)%nat → parse_key n raw = parse_key m raw.
Proof.
  revert m raw. induction n as [|n IH]; intros m raw Hn Hm; [lia|]. destruct m as [|m]; [lia|]. cbn.
  case_decide; [done|]. destruct (pem_Decode raw) as [[[block bytes] rest]|] eqn:E; [|done].
  apply pem_Decode_rest in E. repeat (case_decide; [done|]). apply IH; lia.
Qed.

(** What a built authenticator keeps of its configuration. *)
Record built (cfg : JWTConfig) (a : JWTAuthenticator) : Prop := {
  bt_algorithm : ja_algorithm a = ToUpper (TrimSpace (jc_Algorithm cfg));
  bt_issuer : ja_issuer a = TrimSpace (jc_Issuer cfg);
  bt_audience : ja_audience a = TrimSpace (jc_Audience cfg);
  bt_subject : ja_subjectClaim a = or_default (TrimSpace (jc_SubjectClaim cfg)) "sub";
  bt_roles : ja_rolesClaim a = or_default (TrimSpace (jc_RolesClaim cfg)) "roles";
  bt_bindings value : default [] (ja_bindings a !! value) = bound_roles (jc_RoleBindings cfg) value;
  bt_supported : Forall (λ b, roles_valid (cb_Roles b)) (jc_RoleBindings cfg);
  bt_verifier : newJWTVerifier (ja_algorithm a) cfg = Ok (ja_verifier a);
}.

Lemma NewJWTAuthenticator_built cfg a : NewJWTAuthenticator cfg = Ok a → built cfg a.
Proof.
  unfold NewJWTAuthenticator. rewrite !bind_unit_ok. intros (_ & _ & _ & H).
  apply bind_ok in H as (bindings & Hb & H). apply bind_unit_ok in H as [_ H].
  apply bind_ok in H as (verifier & Hv & [= <-]). apply bindings_ok in Hb as [? ?]. by constructor.
Qed.

Lemma splitJWT_ok token h c s :
  splitJWT token = Ok (h, c, s) ↔ Split "." token = [h; c; s] ∧ Forall (λ part, TrimSpace part ≠ "") [h; c; s].
Proof.
  unfold splitJWT. rewrite Forall_forall.
  destruct (Split "." token) as [|h' [|c' [|s' [|]]]]; try (split; [done|by intros []]).
  destruct (existsb _ _) eqn:E.
  - apply existsb_elem in E as (x & Hx & Hb%bool_decide_eq_true). split; [done|].
    intros [[= -> -> ->] Hn]. by destruct (Hn x Hx).
  - rewrite existsb_none in E. split.
    + intros [= -> -> ->]. split; [done|]. intros x Hx. specialize (E x Hx). by apply bool_decide_eq_false in E.
    + by intros [[= -> -> ->] _].
Qed.

Lemma decodeJWTComponent_ok segment value : decodeJWTComponent segment = Ok value ↔ RawURLDecode segment = Some value.
Proof. unfold decodeJWTComponent. destruct (RawURLDecode segment); naive_solver. Qed.

Lemma validateJWTHeader_ok h algorithm :
  validateJWTHeader h algorithm = Ok () ↔
  ∃ json alg, RawURLDecode h = Some json ∧ DecodeAlgorithm json = Some alg ∧ EqualFold (TrimSpace alg) algorithm = true.
Proof.
  unfold validateJWTHeader. rewrite bind_ok. setoid_rewrite decodeJWTComponent_ok. apply exist_proper. intros json.
  destruct (DecodeAlgorithm json) as [alg|]; [|naive_solver]. rewrite fail_if_ok, negb_false_iff. naive_solver.
Qed.

Lemma decodeJWTClaimsSegment_ok c claims :
  decodeJWTClaimsSegment c = Ok claims ↔ ∃ body, RawURLDecode c = Some body ∧ DecodeClaims body = Some claims.
Proof.
  unfold decodeJWTClaimsSegment. rewrite bind_ok. setoid_rewrite decodeJWTComponent_ok. apply exist_proper. intros body.
  destruct (DecodeClaims body); naive_solver.
Qed.

Lemma jwt_signed_ok cfg a header claims :
  built cfg a →
  (∃ token h c s, bearerToken header = Ok token ∧ splitJWT token = Ok (h, c, s) ∧ verifiedClaims a h c s = Ok claims) ↔
  jwt_signed cfg (ja_verifier a) header claims.
Proof.
  intros Hb. unfold jwt_signed, verifiedClaims. rewrite <- (bt_algorithm _ _ Hb).
  do 4 (apply exist_proper; intros ?). rewrite splitJWT_ok. split.
  - intros (? & [? ?] & (sig & Hs%decodeJWTComponent_ok & Hr)%bind_ok).
    apply bind_unit_ok in Hr as [(json & alg & ? & ? & ?)%validateJWTHeader_ok Hr].
    apply bind_unit_ok in Hr as [? (body & ? & ?)%decodeJWTClaimsSegment_ok]. by exists sig, json, alg, body.
  - intros (sig & json & alg & body & ? & ? & ? & ? & ? & ? & ? & ? & ? & ?). split; [done|]. split; [done|].
    apply bind_ok. exists sig. rewrite decodeJWTComponent_ok, !bind_unit_ok, validateJWTHeader_ok, decodeJWTClaimsSegment_ok.
    eauto 10.
Qed.

Lemma validateClaims_ok cfg a now claims :
  built cfg a → validateClaims a now claims = Ok () ↔ claims_good cfg now claims.
Proof.
  intros Hb. unfold validateClaims, claims_good.
  rewrite !bind_unit_ok, !fail_if_ok, (bt_issuer _ _ Hb), (bt_audience _ _ Hb), negb_false_iff, <- stringClaim_some,
    bool_decide_eq_false.
  assert (∀ P : Prop, Decision P → ¬ ¬ P ↔ P) as Hdn by (intros P HP; split; [apply dec_stable|tauto]).
  rewrite (Hdn (_ = _) _).
  destruct (numericDate (claim_of claims "exp")) as [e|], (numericDate (claim_of claims "nbf")) as [n|];
    rewrite ?negb_false_iff, ?Z.ltb_lt, ?Z.ltb_ge; naive_solver.
Qed.

Lemma jwt_principal_ok cfg a claims p :
  built cfg a →
  (∃ subject roles, subjectFromClaims a claims = Ok subject ∧ rolesFromClaims a claims = Ok roles ∧
     p = mkPrincipal subject roles) ↔ jwt_principal cfg claims p.
Proof.
  intros Hb. unfold subjectFromClaims, rolesFromClaims, jwt_principal.
  rewrite (bt_subject _ _ Hb), (bt_roles _ _ Hb).
  assert (∀ values, (foldl (λ acc value, appendBoundRoles acc (default [] (ja_bindings a !! value))) ([], ∅) values).1 =
    append_unique_by (λ x y, bool_decide (x = y)) [] (mjoin (bound_roles (jc_RoleBindings cfg) <$> values))) as Hf.
  { intros values. rewrite (bound_fold_spec (λ v, default [] (ja_bindings a !! v)) values ([], ∅)) by set_solver. cbn.
    do 2 f_equal. apply list_fmap_ext. intros. apply (bt_bindings _ _ Hb). }
  split.
  - intros (subject & roles & Hs & (values & Hv & [= <-])%bind_ok & ->). rewrite Hf.
    destruct (stringClaim _) as [text|] eqn:E; [|done]. apply stringClaim_some in E.
    apply bind_unit_ok in Hs as [Hn%fail_if_ok%bool_decide_eq_false [= <-]]. eauto 6.
  - intros (subject & values & -> & Hn & Hv & ->). cbn. eexists _, _.
    rewrite bind_unit_ok, fail_if_ok, bool_decide_eq_false, Hv. cbn. by rewrite Hf.
Qed.

Lemma jwt_Authenticate_ok cfg a now header p :
  built cfg a →
  jwt_Authenticate a now header = Ok p ↔
  ∃ claims, jwt_signed cfg (ja_verifier a) header claims ∧ claims_good cfg now claims ∧ jwt_principal cfg claims p.
Proof.
  intros Hb. setoid_rewrite <- jwt_signed_ok; [|done]. setoid_rewrite <- validateClaims_ok; [|done].
  setoid_rewrite <- jwt_principal_ok; [|done]. unfold jwt_Authenticate. split.
  - intros (token & Ht & ([[h c] s] & Hp & (claims & Hv & H)%bind_ok)%bind_ok)%bind_ok.
    apply bind_unit_ok in H as [Hc H].
    apply bind_ok in H as (subject & Hs & (roles & Hr & [= <-])%bind_ok). eauto 15.
  - intros (claims & (token & h & c & s & Ht & Hp & Hv) & Hc & (subject & roles & Hs & Hr & ->)).
    rewrite Ht. cbn. rewrite Hp. cbn. rewrite Hv. cbn. rewrite Hc. cbn. rewrite Hs. cbn. rewrite Hr. done.
Qed.

(** ** Theorem *)

(** C8: an authenticator built from a configuration lets in exactly the bearers of
    a token with three segments that names the configured algorithm, that the
    configured key signs, and whose claims are of the configured issuer, for the
    configured audience, unexpired and not for later; the principal is the
    subject of the claims, with the roles the configuration binds to the values
    of the roles claim, each once, in order, and all supported. *)
Theorem jwt_authenticator_exact cfg a :
  NewJWTAuthenticator cfg = Ok a →
  newJWTVerifier (ToUpper (TrimSpace (jc_Algorithm cfg))) cfg = Ok (ja_verifier a) ∧
  ∀ now header p,
    (jwt_Authenticate a now header = Ok p ↔
     ∃ claims, jwt_signed cfg (ja_verifier a) header claims ∧ claims_good cfg now claims ∧ jwt_principal cfg claims p) ∧
    (jwt_Authenticate a now header = Ok p →
     Subject p ≠ "" ∧ NoDup (Roles p) ∧ Forall (λ r, IsSupportedRole r = true) (Roles p)).
Proof.
  intros Hb%NewJWTAuthenticator_built. split.
  { rewrite <- (bt_algorithm _ _ Hb). apply (bt_verifier _ _ Hb). }
  intros now header p. pose proof (jwt_Authenticate_ok cfg a now header p Hb) as Hiff. split; [done|].
  intros (claims & _ & _ & subject & values & _ & Hn & _ & ->)%Hiff. cbn. split; [done|]. split.
  - rewrite <- (list_fmap_id (append_unique_by _ _ _)). apply append_unique_NoDup; [|constructor].
    intros. apply bool_decide_eq_true.
  - rewrite Forall_forall. intros r [Hr|Hr]%append_unique_sub; [set_solver|].
    apply list_elem_of_join in Hr as (l & Hr & (v & -> & _)%list_elem_of_fmap).
    unfold bound_roles in Hr. apply list_elem_of_join in Hr as (l & Hr & (b & -> & [_ Hin]%list_elem_of_filter)%list_elem_of_fmap).
    pose proof (bt_supported _ _ Hb) as Hs. rewrite Forall_forall in Hs. destruct (Hs b Hin) as (_ & _ & Hsup).
    rewrite Forall_forall in Hsup. by apply Hsup.
Qed.
End jwt.

(** A time far enough in the future wraps around into the past: such a token has
    expired, and one that is not to be used before it is used today. *)
Example far_future_is_past : Unix (2 ^ 63 - 1) < 0.
Proof. done. Qed.

Section demo.
(** For the witness, a signature is the secret before the text, the header is the
    name of the algorithm, and every body carries the same claims. *)
Program Definition plain_crypto : Crypto := {|
  crypto_digest := plain_digest;
  HMAC_SHA256 secret text := secret +:+ text;
  RSAPublicKey := string;
  VerifyPKCS1v15 key sum signature := bool_decide (signature = key +:+ sum);
  ParsePKIXPublicKey bytes := Ok (Some bytes);
  ParsePKCS1PublicKey bytes := Ok bytes;
  ParseCertificate bytes := Ok None;
  pem_Decode raw := None |}.
Next Obligation. done. Qed.
#[local] Existing Instance plain_crypto.

Definition demo_claims : Claims :=
  <["iss" := JString "https://id.example"]> (<["aud" := JArray [JString "other"; JString "merger"]]>
  (<["exp" := JNumber "1900000000"]> (<["sub" := JString "carol"]>
  (<["roles" := JString "ops, readers,nobody"]> ∅)))).
#[local] Instance plain_codec : ClaimCodec := {| DecodeAlgorithm := Some; DecodeClaims body := Some demo_claims |}.

Definition demo_jwt_env (name : string) : option string := if decide (name = "JWT_SECRET") then Some "k" else None.
Definition demo_jwt_config : JWTConfig :=
  mkJWTConfig "hs256" "https://id.example" "merger" "" "" "JWT_SECRET" ""
    [mkJWTClaimBinding "readers" [RoleReader]; mkJWTClaimBinding "ops" [RoleEvidenceWriter; RoleReader]].
Definition demo_now : Time := Unix 1700000000.

Definition demo_run (header : string) : result AccessError Principal :=
  match NewJWTAuthenticator demo_jwt_env (λ _, Err "no file") demo_jwt_config with
  | Ok a => jwt_Authenticate a demo_now header
  | Err _ => Err (ErrForbidden "" "")
  end.

Lemma jwt_authenticator_exact_witness :
  ∃ a, NewJWTAuthenticator demo_jwt_env (λ _, Err "no file") demo_jwt_config = Ok a ∧
    (∃ claims, jwt_signed demo_jwt_config (ja_verifier a) "Bearer SFMyNTY.Yw.a1NGTXlOVFkuWXc" claims ∧
       claims_good demo_jwt_config demo_now claims) ∧
    jwt_Authenticate a demo_now "Bearer SFMyNTY.Yw.b1NGTXlOVFkuWXc" = Err ErrUnauthenticated.
Proof.
  assert (demo_run "Bearer SFMyNTY.Yw.a1NGTXlOVFkuWXc" = Ok (mkPrincipal "carol" [RoleEvidenceWriter; RoleReader])) as H1
    by (vm_compute; reflexivity).
  assert (demo_run "Bearer SFMyNTY.Yw.b1NGTXlOVFkuWXc" = Err ErrUnauthenticated) as H2 by (vm_compute; reflexivity).
  unfold demo_run in H1, H2.
  destruct (NewJWTAuthenticator demo_jwt_env (λ _, Err "no file") demo_jwt_config) as [a|e] eqn:E; [|discriminate H1].
  exists a. split; [done|]. split.
  - destruct (jwt_authenticator_exact demo_jwt_env (λ _, Err "no file") demo_jwt_config a E) as [_ Hiff].
    destruct (proj1 (proj1 (Hiff _ _ _)) H1) as (claims & Hs & Hg & _).
    exact (ex_intro _ claims (conj Hs Hg)).
  - exact H2.
Defined.
End demo.
