(* ===== verification/Startup.v ===== *)
(** [cmd/merger-controlplane/main.go]: how the control plane makes its
    authenticator of its configuration, and what the two components promise
    together.  The rest of the start is in [Bootstrap]. *)
From stdpp Require Import base list gmap strings.
From S2P Require Import Prelude GoStrings Domain Access Jwt Config.

Local Open Scope string_scope.
Local Open Scope list_scope.
Local Open Scope Z_scope.

(** ** Definitions *)

Inductive StartError :=
  | TokensRefused (err : TokenError)
  | JWTRefused (err : JWTError)
  | UnsupportedMode (mode : AccessMode).

Definition static_token (token : AccessTokenConfig) : StaticToken :=
  mkStaticToken (tk_Subject token) (tk_TokenEnv token) (tk_Roles token).

Definition claim_binding (binding : AccessJWTBindingConfig) : JWTClaimBinding :=
  mkJWTClaimBinding (jb_ClaimValue binding) (jb_Roles binding).

Definition jwt_config (cfg : AccessJWTConfig) : JWTConfig :=
  mkJWTConfig (jw_Algorithm cfg) (jw_Issuer cfg) (jw_Audience cfg) (jw_SubjectClaim cfg) (jw_RolesClaim cfg)
    (jw_SecretEnv cfg) (jw_PublicKeyPath cfg) (claim_binding <$> jw_RoleBindings cfg).

Section startup.
Context `{HC : Crypto} `{HX : ClaimCodec}.
Context (LookupEnv : string → option string) (ReadFile : string → result string string).

(** The authenticator, at the time of a request. *)
Definition buildAuthenticator (cfg : AccessConfig) : result StartError (Time → Authenticator) :=
  if decide (ac_Mode cfg = AccessModeDisabled) then Ok (λ _, DisabledAuthenticator)
  else if decide (ac_Mode cfg = AccessModeStaticToken) then
    credentials ← map_err TokensRefused (NewStaticTokenAuthenticator LookupEnv (static_token <$> ac_Tokens cfg));
    Ok (λ _, Authenticate credentials)
  else if decide (ac_Mode cfg = AccessModeJWT) then
    authenticator ← map_err JWTRefused (NewJWTAuthenticator LookupEnv ReadFile (jwt_config (ac_JWT cfg)));
    Ok (jwt_Authenticate authenticator)
  else Err (UnsupportedMode (ac_Mode cfg)).

(** ** What the environment must provide *)

Definition secret_of (token : AccessTokenConfig) : string := default "" (LookupEnv (env_key token)).

(** The tokens are set, without white space, and no two have the same digest. *)
Definition tokens_available (tokens : list AccessTokenConfig) : Prop :=
  Forall (λ token, secret_of token ≠ "" ∧ any_byte IsSpace (secret_of token) = false) tokens ∧
  NoDup ((λ token, Sum256 (secret_of token)) <$> tokens).

(** The key is there. *)
Definition key_available (cfg : AccessJWTConfig) : Prop :=
  if decide (ToUpper (TrimSpace (jw_Algorithm cfg)) = "HS256")
  then ∃ secret, LookupEnv (TrimSpace (jw_SecretEnv cfg)) = Some secret ∧ secret ≠ ""
  else ∃ raw key, ReadFile (TrimSpace (jw_PublicKeyPath cfg)) = Ok raw ∧ parseRSAPublicKeyPEM raw = Ok key.

Definition credentials_available (cfg : AccessConfig) : Prop :=
  (ac_Mode cfg = AccessModeStaticToken → tokens_available (ac_Tokens cfg)) ∧
  (ac_Mode cfg = AccessModeJWT → key_available (ac_JWT cfg)).

(** ** Lemmas *)

Lemma validEnvironmentName_nonempty name : validEnvironmentName name = true → name ≠ "".
Proof. by intros H ->. Qed.

Lemma static_starts tokens :
  tokens ≠ [] → tokens_valid tokens →
  (∃ c, NewStaticTokenAuthenticator LookupEnv (static_token <$> tokens) = Ok c) ↔ tokens_available tokens.
Proof.
  intros Hne (Hv & Hs & He). rewrite new_authenticator_total, <- !list_fmap_compose, Forall_fmap.
  assert (token_subject ∘ static_token <$> tokens = subject_key <$> tokens) as -> by done.
  assert (token_env ∘ static_token <$> tokens = env_key <$> tokens) as -> by done.
  assert (token_digest LookupEnv ∘ static_token <$> tokens = (λ token, Sum256 (secret_of token)) <$> tokens) as -> by done.
  unfold tokens_available. split.
  - intros (_ & Hr & _ & _ & ?). split; [|done]. eapply Forall_impl; [exact Hr|]. intros t [_ _ _ ?]. done.
  - intros [Hr ?]. split_and!; try done; [by destruct tokens|]. rewrite Forall_forall in *. intros t Ht.
    destruct (Hv t Ht) as [? ?%validEnvironmentName_nonempty ?]. constructor; [done..|by apply Hr].
Qed.

Lemma jwt_starts cfg :
  jwt_valid cfg → (∃ a, NewJWTAuthenticator LookupEnv ReadFile (jwt_config cfg) = Ok a) ↔ key_available cfg.
Proof.
  intros Hv. destruct Hv as [Halg Hiss Haud _ _ Hsome Hb Hd].
  transitivity (∃ v, newJWTVerifier LookupEnv ReadFile (ToUpper (TrimSpace (jw_Algorithm cfg))) (jwt_config cfg) = Ok v).
  - destruct (proj2 (bindings_total (claim_binding <$> jw_RoleBindings cfg))) as [m Hm].
    { rewrite Forall_fmap, <- list_fmap_compose. split; [done|exact Hd]. }
    assert (size m ≠ 0%nat) as Hsize.
    { intros Hz%map_size_empty_inv. subst m. apply bindings_ok in Hm as [Hm _].
      destruct (jw_RoleBindings cfg) as [|b bs]; [done|]. apply Forall_cons in Hb as [(? & Hne & _) _].
      specialize (Hm (TrimSpace (jb_ClaimValue b))). unfold bound_roles in Hm.
      rewrite lookup_empty, fmap_cons, filter_cons, decide_True in Hm by done. cbn in Hm. by destruct (jb_Roles b). }
    unfold NewJWTAuthenticator. cbn [jwt_config jc_Algorithm jc_Issuer jc_Audience jc_RoleBindings].
    assert (bool_decide (ToUpper (TrimSpace (jw_Algorithm cfg)) ≠ JWTAlgorithmHS256) &&
            bool_decide (ToUpper (TrimSpace (jw_Algorithm cfg)) ≠ JWTAlgorithmRS256) = false) as ->.
    { apply andb_false_iff. rewrite !bool_decide_eq_false.
      destruct Halg as [(-> & _)|(-> & _)]; [left|right]; by intros []. }
    rewrite (bool_decide_eq_false_2 (TrimSpace (jw_Issuer cfg) = "")), (bool_decide_eq_false_2 (TrimSpace (jw_Audience cfg) = "")) by done.
    cbn. rewrite Hm. cbn. rewrite (bool_decide_eq_false_2 (size m = 0%nat)) by done. cbn. split.
    + intros (a & (v & Hver & _)%bind_ok). eauto.
    + intros [v ->]. cbn. eauto.
  - unfold newJWTVerifier, key_available. change JWTAlgorithmHS256 with "HS256". change JWTAlgorithmRS256 with "RS256".
    cbn [jwt_config jc_SecretEnv jc_PublicKeyPath]. destruct Halg as [(-> & He & _)|(-> & _ & Hp)].
    + apply validEnvironmentName_nonempty in He. rewrite !decide_True by done.
      rewrite (bool_decide_eq_false_2 (blank (jw_SecretEnv cfg))) by done. cbn. split.
      * intros (v & [Hs%fail_if_ok%bool_decide_eq_false _]%bind_unit_ok).
        destruct (LookupEnv _) as [secret|]; [by exists secret|done].
      * intros (secret & -> & Hs). cbn. rewrite bool_decide_eq_false_2 by done. cbn. eauto.
    + rewrite !(decide_False (P := "RS256" = "HS256")), decide_True by done.
      rewrite bool_decide_eq_false_2 by done. cbn. split.
      * intros (v & (raw & ?%map_err_ok & (key & ? & _)%bind_ok)%bind_ok). eauto.
      * intros (raw & key & -> & Hk). cbn. rewrite Hk. cbn. eauto.
Qed.

(** Whom a request with bearer token [presented] in its header is let in as. *)
Definition configured_principal (cfg : AccessConfig) (now : Time) (header presented : string) (p : Principal) : Prop :=
  (ac_Mode cfg = AccessModeStaticToken ∧ ∃ token, token ∈ ac_Tokens cfg ∧ Sum256 presented = Sum256 (secret_of token) ∧
     p = mkPrincipal (TrimSpace (tk_Subject token)) (tk_Roles token)) ∨
  (ac_Mode cfg = AccessModeJWT ∧ ∃ verifier claims,
     newJWTVerifier LookupEnv ReadFile (ToUpper (TrimSpace (jw_Algorithm (ac_JWT cfg)))) (jwt_config (ac_JWT cfg)) = Ok verifier ∧
     jwt_signed (jwt_config (ac_JWT cfg)) verifier header claims ∧
     claims_good (jwt_config (ac_JWT cfg)) now claims ∧ jwt_principal (jwt_config (ac_JWT cfg)) claims p).

Lemma static_principal cfg tokens credentials header p now :
  ac_Mode cfg = AccessModeStaticToken → ac_Tokens cfg = tokens →
  NewStaticTokenAuthenticator LookupEnv (static_token <$> tokens) = Ok credentials →
  Authenticate credentials header = Ok p →
  ∃ presented, bearerToken header = Ok presented ∧ configured_principal cfg now header presented p.
Proof.
  intros Hm <- [HF _]%new_authenticator_ok (presented & Hb & H)%bind_ok.
  pose proof (match_position_spec (Sum256 presented) credentials) as Hp.
  destruct (match_position _ _) as [|i]; [done|]. destruct Hp as (c & Hi & Hd). rewrite Hi in H. injection H as <-.
  destruct (Forall2_lookup_r _ _ _ _ _ HF Hi) as (entry & He & secret & [Henv Hdig Hsub _ Hroles _ _]).
  apply list_lookup_fmap_Some in He as (token & -> & Ht). exists presented. split; [done|]. left. split; [done|].
  exists token. split; [apply list_elem_of_lookup; eauto|]. unfold secret_of, env_key.
  cbn [static_token st_TokenEnv st_Subject st_Roles] in *. rewrite Henv. cbn. split; [congruence|].
  destruct c as [dg [subject roles]]. cbn in *. congruence.
Qed.

(** ** Theorem *)

(** C9: a configuration the control plane accepts gets an authenticator exactly
    when the environment provides its credentials (every token variable set,
    without white space, no two alike; the secret or an RSA public key for JWT):
    nothing else can go wrong after validation.  In production that
    authenticator lets in only bearers of a configured token, as its subject and
    with its roles, or of a token the configured key signed. *)
Theorem control_plane_authenticates cfg :
  startable cfg →
  ((∃ auth, buildAuthenticator (cf_Access cfg) = Ok auth) ↔ credentials_available (cf_Access cfg)) ∧
  (production cfg → ∀ auth now header p,
     buildAuthenticator (cf_Access cfg) = Ok auth → auth now header = Ok p →
     ∃ presented, bearerToken header = Ok presented ∧ configured_principal (cf_Access cfg) now header presented p).
Proof.
  intros ([Ha _ _ _] & _ & Hprod). unfold buildAuthenticator, credentials_available.
  destruct Ha as [(Hm & _)|[(Hm & Hne & _ & Ht)|(Hm & _ & Hj)]]; rewrite !Hm.
  - rewrite decide_True by done. split; [|by intros []%Hprod].
    split; [|by eauto]. intros _. by split.
  - rewrite decide_False, decide_True by done. pose proof (static_starts _ Hne Ht) as Hs. split.
    + split.
      * intros (auth & (c & ?%map_err_ok & _)%bind_ok). split; [|done]. intros _. apply Hs. eauto.
      * intros [Hav _]. destruct (proj2 Hs) as [c ->]; [by apply Hav|]. cbn. eauto.
    + intros _ auth now header p (c & Hc%map_err_ok & [= <-])%bind_ok Hp. by eapply static_principal.
  - rewrite !(decide_False (P := AccessModeJWT = _)), decide_True by done. pose proof (jwt_starts _ Hj) as Hs. split.
    + split.
      * intros (auth & (a & ?%map_err_ok & _)%bind_ok). split; [done|]. intros _. apply Hs. eauto.
      * intros [_ Hav]. destruct (proj2 Hs) as [a ->]; [by apply Hav|]. cbn. eauto.
    + intros _ auth now header p (a & Hb%map_err_ok%NewJWTAuthenticator_built & [= <-])%bind_ok Hp.
      pose proof Hp as (presented & Hbt & _)%bind_ok. exists presented. split; [done|]. right. split; [done|].
      apply (jwt_Authenticate_ok LookupEnv ReadFile _ _ _ _ _ Hb) in Hp as (claims & ? & ? & ?).
      exists (ja_verifier a), claims. split_and!; try done.
      pose proof (bt_verifier _ _ _ _ Hb) as Hv. by rewrite (bt_algorithm _ _ _ _ Hb) in Hv.
Qed.
End startup.

Section demo.
#[local] Existing Instance plain_crypto.
#[local] Existing Instance plain_codec.

Definition demo_config : Config :=
  mkConfig (cf_Service Defaults)
    (mkAccessConfig AccessModeStaticToken
       [mkAccessTokenConfig "bob" "READER_TOKEN" [RoleReader]; mkAccessTokenConfig "alice" "WRITER_TOKEN" [RoleEvidenceWriter]]
       zeroJWTConfig)
    (cf_LoggingLevel Defaults) (cf_GitHub Defaults) (cf_Events Defaults) (cf_Persistence Defaults) (cf_PolicyPath Defaults)
    (cf_Lanes Defaults) (mkTelemetryConfig "merger" "production") (cf_RuntimeGraph Defaults) [].

Lemma demo_startable : startable demo_config.
Proof. apply ValidateForControlPlane_ok. vm_compute. reflexivity. Qed.

Lemma demo_production : production demo_config.
Proof. apply (bool_decide_eq_true_1 _). vm_compute. reflexivity. Qed.

Lemma control_plane_authenticates_witness :
  startable demo_config ∧ credentials_available demo_env (λ _, Err "no file") (cf_Access demo_config) ∧
  ∃ presented, bearerToken "Bearer w-456" = Ok presented ∧
    configured_principal demo_env (λ _, Err "no file") (cf_Access demo_config) 0 "Bearer w-456" presented
      (mkPrincipal "alice" [RoleEvidenceWriter]).
Proof.
  split; [exact demo_startable|].
  destruct (control_plane_authenticates demo_env (λ _, Err "no file") demo_config demo_startable) as [Hiff Hp].
  destruct (buildAuthenticator demo_env (λ _, Err "no file") (cf_Access demo_config)) as [auth|e] eqn:E;
    [|vm_compute in E; discriminate E].
  split; [apply Hiff; exists auth; reflexivity|].
  apply (Hp demo_production auth); [reflexivity|]. vm_compute in E. injection E as <-. vm_compute. reflexivity.
Defined.
End demo.
