(* ===== verification/Resolve.v ===== *)
(** [internal/resolve/resolve.go]: from a repository root and optional paths to
    the options of a scan, for the command line and the MCP server alike. *)
From stdpp Require Import base list gmap strings.
From S2P Require Import Prelude GoStrings GoPath Domain Config.
From S2P Require Identity Documents Mutations RuntimeGraph PolicyValidation Lanes Scan.

Local Open Scope string_scope.
Local Open Scope list_scope.
Local Open Scope Z_scope.

(** ** Definitions *)

Definition configCandidates : list string := [
  "merger.yaml"; "merger.yml"; "merger.json"; ".merger/merger.yaml"; ".merger/merger.yml"; ".merger/merger.json";
  ".merger/config.yaml"; ".merger/config.yml"; ".merger/config.json"].

Definition configDirCandidates : list string :=
  ["merger.yaml"; "merger.yml"; "merger.json"; "config.yaml"; "config.yml"; "config.json"].

(** [os.Stat]: whether the path names a directory, or the error. *)
Class FileInfo := { Stat : string → result string bool }.

Inductive ResolveError :=
  | StatFailed (err : string)
  | NoConfigIn (path : string)
  | DefaultsInvalid (err : string)
  | LoadConfigFailed (path err : string)
  | LoadPolicyFailed (path : string) (err : PolicyLoadError).

Section resolve.
Context `{HF : FileInfo} `{HL : Loader}.

Definition fileExists (path : string) : bool :=
  match Stat path with Ok is_dir => negb is_dir | Err _ => false end.

(** The first candidate under a directory that is a file. *)
Fixpoint first_file (dir : string) (candidates : list string) : option string :=
  match candidates with
  | [] => None
  | name :: candidates' =>
      let candidate := filepath_Join [dir; name] in
      if fileExists candidate then Some candidate else first_file dir candidates'
  end.

Definition discoverConfigPath (root explicit : string) : result ResolveError string :=
  if decide (explicit = "") then Ok (default "" (first_file root configCandidates))
  else
    match Stat explicit with
    | Err err => Err (StatFailed err)
    | Ok false => Ok explicit
    | Ok true =>
        match first_file explicit configDirCandidates with
        | Some candidate => Ok candidate
        | None => Err (NoConfigIn explicit)
        end
    end.

Definition resolve_Config (root explicit : string) : result ResolveError (Config * string) :=
  path ← discoverConfigPath root explicit;
  if decide (path = "") then
    map_err DefaultsInvalid (Validate Defaults) ;;
    Ok (Defaults, "")
  else
    cfg ← map_err (LoadConfigFailed path) (Load path);
    Ok (cfg, path).

Definition PolicyPath (root explicit : string) (cfg : Config) : string :=
  if decide (explicit ≠ "") then explicit
  else if decide (cf_PolicyPath cfg = "") then ""
  else
    let path := if IsAbs (cf_PolicyPath cfg) then cf_PolicyPath cfg else filepath_Join [root; cf_PolicyPath cfg] in
    if fileExists path then path else "".

Definition resolve_Policy (root explicit : string) (cfg : Config)
    : result ResolveError (PolicyValidation.Config * string * bool) :=
  let path := PolicyPath root explicit cfg in
  if decide (path = "") then Ok (PolicyValidation.mkConfig [], "", false)
  else
    policyConfig ← map_err (LoadPolicyFailed path) (LoadConfig path);
    Ok (policyConfig, path, true).

Definition RepoRef_of (raw : string) : RepoRef :=
  if decide (raw = "") then zeroRepoRef
  else
    match Cut "/" raw with
    | None => mkRepoRef "" raw raw ""
    | Some (owner, name) => mkRepoRef owner name raw ""
    end.

(** [lanes.Config{...}] of the configured thresholds. *)
Definition lanes_of (cfg : Config) : Lanes.LanesConfig :=
  Lanes.mkLanesConfig (ln_GreenMax (cf_Lanes cfg)) (ln_YellowMax (cf_Lanes cfg)) (ln_RedMax (cf_Lanes cfg)).

(** [pkg/merger/scan.go]: the SDK's defaults and entry points. *)
Definition DefaultLanes : Lanes.LanesConfig := lanes_of Defaults.
Definition LoadPolicy (path : string) : result PolicyLoadError PolicyValidation.Config := LoadConfig path.

Definition ScanOptions (root configPath policyPath repo ref diff : string)
    : result ResolveError (Scan.Options * bool) :=
  cp ← resolve_Config root configPath;
  let '(cfg, _) := cp in
  ppf ← resolve_Policy root policyPath cfg;
  let '(policyConfig, _, policyFound) := ppf in
  Ok (Scan.mkOptions diff root (RepoRef_of repo) ref "" "" "" zeroAuthor policyConfig (lanes_of cfg)
        (rg_EnableCodeOwners (cf_RuntimeGraph cfg)), policyFound).
End resolve.

(** ** Lemmas *)

Section resolved.
Context `{HF : FileInfo} `{HL : Loader}.

Lemma Load_valid path cfg : Load path = Ok cfg → valid cfg.
Proof.
  intros (raw & _ & (c & _ & (_ & (Hv%Validate_ok & [= ->])%bind_unit_ok)%bind_unit_ok)%bind_ok)%bind_ok. done.
Qed.

(** Without a configuration the command scans with the SDK's default lanes. *)
Lemma unconfigured_lanes root policyPath repo ref diff opts found :
  resolve_Config root "" = Ok (Defaults, "") → ScanOptions root "" policyPath repo ref diff = Ok (opts, found) →
  Scan.opt_Lanes opts = DefaultLanes.
Proof.
  unfold ScanOptions. intros ->. cbn [mbind result_bind].
  intros ([[policyConfig path] policyFound] & _ & [= <- _])%bind_ok. done.
Qed.

Lemma Defaults_valid : valid Defaults.
Proof. apply Validate_ok. vm_compute. reflexivity. Qed.

Lemma resolve_Config_valid root explicit cfg path : resolve_Config root explicit = Ok (cfg, path) → valid cfg.
Proof.
  intros (p & _ & H)%bind_ok. case_decide.
  - apply bind_unit_ok in H as [_ [= <- <-]]. apply Defaults_valid.
  - apply bind_ok in H as (c & Hc%map_err_ok%Load_valid & [= <- <-]). done.
Qed.

Lemma LoadConfig_well_formed path config : LoadConfig path = Ok config → PolicyValidation.well_formed config.
Proof.
  intros (raw & _ & (c & _ & (_ & (Hv%map_err_ok & [= ->])%bind_unit_ok)%bind_unit_ok)%bind_ok)%bind_ok.
  by apply PolicyValidation.well_formed_iff.
Qed.

Lemma resolve_Policy_ok root explicit cfg config path found :
  resolve_Policy root explicit cfg = Ok (config, path, found) →
  PolicyValidation.well_formed config ∧ path = PolicyPath root explicit cfg ∧
  (found = true ↔ path ≠ "") ∧
  (if found then LoadConfig path = Ok config else config = PolicyValidation.mkConfig []).
Proof.
  unfold resolve_Policy. case_decide as Hp.
  - intros [= <- <- <-]. split_and!; [|done|done|done]. apply PolicyValidation.well_formed_iff. vm_compute. reflexivity.
  - intros (c & Hc%map_err_ok & [= <- <- <-])%bind_ok. split_and!; [by eapply LoadConfig_well_formed|done..].
Qed.

(** Which configuration a root and an explicit path resolve to: the file named, the
    first candidate in the directory named, or the first candidate under the root,
    and the defaults only when none of these is a file. *)
Definition config_resolved (root explicit : string) (cfg : Config) (path : string) : Prop :=
  if decide (explicit = "") then
    match first_file root configCandidates with
    | Some candidate => path = candidate ∧ (candidate ≠ "" → Load candidate = Ok cfg)
    | None => path = "" ∧ cfg = Defaults
    end
  else
    (Stat explicit = Ok false ∧ path = explicit ∨
     Stat explicit = Ok true ∧ first_file explicit configDirCandidates = Some path) ∧
    (path ≠ "" → Load path = Ok cfg).

Lemma resolve_Config_resolved root explicit cfg path :
  resolve_Config root explicit = Ok (cfg, path) → config_resolved root explicit cfg path.
Proof.
  unfold resolve_Config, config_resolved, discoverConfigPath. intros (p & Hd & H)%bind_ok.
  assert (path = p ∧ (p = "" → cfg = Defaults) ∧ (p ≠ "" → Load p = Ok cfg)) as (-> & Hempty & Hload).
  { case_decide; [by apply bind_unit_ok in H as [_ [= <- <-]]|].
    apply bind_ok in H as (c & Hc%map_err_ok & [= <- <-]). done. }
  destruct (decide (explicit = "")) as [He|He] in Hd |- *.
  - destruct (first_file root configCandidates) as [candidate|]; cbn in Hd; injection Hd as <-.
    + done.
    + split; [done|]. by apply Hempty.
  - split; [|done]. destruct (Stat explicit) as [[|]|]; [|by injection Hd as <-; left|done].
    destruct (first_file _ _); [|done]. injection Hd as <-. by right.
Qed.

(** The first candidate that is a file, with none before it. *)
Lemma first_file_spec dir candidates :
  match first_file dir candidates with
  | None => Forall (λ name, fileExists (filepath_Join [dir; name]) = false) candidates
  | Some path =>
      ∃ before name after, candidates = before ++ name :: after ∧ path = filepath_Join [dir; name] ∧
        fileExists path = true ∧ Forall (λ name, fileExists (filepath_Join [dir; name]) = false) before
  end.
Proof.
  induction candidates as [|name candidates IH]; [constructor|]. cbn [first_file].
  destruct (fileExists (filepath_Join [dir; name])) eqn:E.
  - exists [], name, candidates. by split_and!.
  - destruct (first_file dir candidates) as [path|].
    + destruct IH as (before & n & after & -> & Hp & He & Hb). exists (name :: before), n, after. split_and!; try done.
      by constructor.
    + by constructor.
Qed.

(** ** Theorem *)

(** C33: options that resolve are options that scan: whatever files there are and
    whatever the diff, the scan of resolved options yields a packet.  They carry the
    diff, the root and the repository that were given; the thresholds, which increase
    strictly within 0 and 100, and the switch of the code owners of the resolved
    configuration; and the policy loaded from the file named on the command line or
    else configured, or the empty policy when there is no such file.  The
    configuration is the file that was named, or the first candidate in the directory
    that was named or under the root; the defaults are used only if there is none. *)
Theorem resolved_options_scan `{HE : Identity.Entropy, HG : Mutations.SliceGrowth, HM : MapOrder, HP : Documents.Parsers,
    HD : RuntimeGraph.GraphDecoder, HV : Scan.Environment} root configPath policyPath repo ref diff opts found :
  ScanOptions root configPath policyPath repo ref diff = Ok (opts, found) →
  (∃ packet, Scan.Run opts = Ok packet) ∧
  (Scan.opt_Diff opts, Scan.opt_RepoRoot opts, Scan.opt_Repo opts, Scan.opt_Ref opts) = (diff, root, RepoRef_of repo, ref) ∧
  ∃ cfg path,
    config_resolved root configPath cfg path ∧ valid cfg ∧
    Scan.opt_Lanes opts = lanes_of cfg ∧
    (0 ≤ Lanes.GreenMax (lanes_of cfg) < Lanes.YellowMax (lanes_of cfg) ∧
     Lanes.YellowMax (lanes_of cfg) < Lanes.RedMax (lanes_of cfg) ≤ 100) ∧
    Scan.opt_EnableCodeOwners opts = rg_EnableCodeOwners (cf_RuntimeGraph cfg) ∧
    (found = true ↔ PolicyPath root policyPath cfg ≠ "") ∧
    (if found then LoadConfig (PolicyPath root policyPath cfg) = Ok (Scan.opt_Policy opts)
     else Scan.opt_Policy opts = PolicyValidation.mkConfig []).
Proof.
  intros ([cfg path] & Hc & ([[config ppath] f] & Hp & [= <- <-])%bind_ok)%bind_ok.
  pose proof (resolve_Config_valid _ _ _ _ Hc) as Hv. pose proof (v_lanes _ Hv) as Hl.
  apply resolve_Policy_ok in Hp as (Hwf & -> & Hf & He). split_and!; [by apply Scan.Run_succeeds|done|].
  exists cfg, path. split_and!; try done; try apply Hl. by apply resolve_Config_resolved.
Qed.
End resolved.

Section demo.
#[local] Existing Instance Identity.counting_entropy.
#[local] Existing Instance Mutations.doubling.
#[local] Existing Instance map_order_sorted.
#[local] Existing Instance RuntimeGraph.no_documents.
#[local] Existing Instance RuntimeGraph.chain_decoder.
#[local] Existing Instance Scan.empty_checkout.

(** A checkout with a configuration in its dot directory, which is an empty document,
    and a policy of one rule. *)
Definition freeze : PolicyValidation.Config := PolicyValidation.mkConfig [
  PolicyValidation.mkRuleConfig "freeze" "" (PolicyValidation.mkWhenClause [] ["db/"] [] 0 [])
    (PolicyValidation.mkRequirementClause [] [] [] (PolicyValidation.mkDeploymentClause "" false false []))
    (PolicyValidation.mkActionClause true "")].
Definition demo_files : FileInfo := {| Stat path :=
  if decide (path ∈ ["checkout/.merger/config.yaml"; "checkout/config/policies/default.yaml"]) then Ok false else Err "no such file" |}.
Definition demo_loader : Loader := {|
  ReadFile path := Ok ""; DecodeConfig defaults _ := Ok defaults; DecodePolicy _ _ := Ok freeze;
  DecodeTrailing _ := TrailingEOF |}.
#[local] Existing Instance demo_files.
#[local] Existing Instance demo_loader.

Lemma resolved_options_scan_witness :
  ∃ opts packet, ScanOptions "checkout" "" "" "acme/shop" "main" Scan.conflicted_diff = Ok (opts, true) ∧
    Scan.Run opts = Ok packet ∧ Scan.opt_Policy opts = freeze.
Proof.
  destruct (ScanOptions "checkout" "" "" "acme/shop" "main" Scan.conflicted_diff) as [[opts found]|e] eqn:E;
    [|vm_compute in E; discriminate E].
  destruct (resolved_options_scan _ _ _ _ _ _ _ _ E) as ([packet Hp] & _ & cfg & path & _ & _ & _ & _ & _ & _ & Hpol).
  exists opts, packet. destruct found; [|vm_compute in E; discriminate E].
  split; [reflexivity|]. split; [exact Hp|].
  apply bind_ok in Hpol as (raw & Hraw & Hpol). apply bind_ok in Hpol as (c & Hc & Hpol).
  apply bind_unit_ok in Hpol as [_ Hpol]. apply bind_unit_ok in Hpol as [_ Hpol].
  injection Hpol as <-. injection Hc as <-. reflexivity.
Defined.

Example discovered : resolve_Config "checkout" "" = Ok (Defaults, "checkout/.merger/config.yaml").
Proof. vm_compute. reflexivity. Qed.
End demo.
