(* ===== verification/Cli.v ===== *)
(** [internal/cli] and [cmd/merger/main.go]: the [merger] command.  The flags of a
    subcommand are the fields of a record (package [flag] parses them), the
    terminal and the files written are the state, and the other effects of the
    process ([os], [os/exec], the JSON encoder) are the fields of [Process]. *)
From stdpp Require Import base list gmap strings.
From S2P Require Import Prelude GoStrings GoPath Domain Lanes Documents Identity.
From S2P Require Config Resolve Scan Mutations RuntimeGraph PolicyValidation.

Local Open Scope string_scope.
Local Open Scope list_scope.
Local Open Scope Z_scope.

(** ** Effects *)

Record Terminal := mkTerminal {
  tm_Stdout : string;
  tm_Stderr : string;
  tm_Appended : list (string * string);
  tm_Written : list (string * string);
}.

(** [io.ReadAll(os.Stdin)], [git diff] in a checkout, [os.OpenFile] for
    appending, a write to that file, [os.MkdirAll], [os.WriteFile], and
    [json.Encoder.Encode] with two spaces of indentation. *)
Class Process := {
  ReadStdin : result string string;
  GitDiff : string → string → result string string;
  OpenAppend : string → result string ();
  WriteAppend : string → string → result string ();
  MkdirAll : string → result string ();
  WriteFile : string → string → result string ();
  EncodeIndented : ChangePacket → result string string;
  Number : string;
}.

Inductive CliError :=
  | ExitError (code : Z) (message : string)
  | Failed (context err : string)
  | ResolveFailed (err : Resolve.ResolveError)
  | ScanFailed (err : Scan.ScanError).

Definition M := stateE Terminal CliError.

Definition print (text : string) : M () := λ t,
  (Ok (), mkTerminal (tm_Stdout t +:+ text) (tm_Stderr t) (tm_Appended t) (tm_Written t)).
Definition print_error (text : string) : M () := λ t,
  (Ok (), mkTerminal (tm_Stdout t) (tm_Stderr t +:+ text) (tm_Appended t) (tm_Written t)).
Definition record_append (path text : string) : M () := λ t,
  (Ok (), mkTerminal (tm_Stdout t) (tm_Stderr t) (tm_Appended t ++ [(path, text)]) (tm_Written t)).
Definition record_write (path text : string) : M () := λ t,
  (Ok (), mkTerminal (tm_Stdout t) (tm_Stderr t) (tm_Appended t) (tm_Written t ++ [(path, text)])).

(** ** [scan]: its gate *)

Definition laneRank : gmap string Z :=
  list_to_map [(MergeLaneGreen, 1); (MergeLaneYellow, 2); (MergeLaneRed, 3); (MergeLaneBlack, 4)].
Definition rank (lane : MergeLane) : Z := default 0 (laneRank !! lane).

Definition validateScanFormat (format : string) : result CliError () :=
  fail_if (bool_decide (format ≠ "text") && bool_decide (format ≠ "json"))
    (ExitError 2 ("unknown format " +:+ Quote format +:+ " (want text or json)")).

Definition parseFailLane (raw : string) : result string MergeLane :=
  if decide (raw = "") then Ok ""
  else
    let lane := ToUpper raw in
    match laneRank !! lane with
    | None => Err ("invalid -fail-on-lane " +:+ Quote raw +:+ " (want GREEN, YELLOW, RED, or BLACK)")
    | Some _ => Ok lane
    end.

Definition enforceFailLane (failLane : MergeLane) (packet : ChangePacket) : result CliError () :=
  fail_if (bool_decide (failLane ≠ "") && (rank failLane <=? rank (cp_MergeLane_ packet)))
    (ExitError 2 ("merge lane " +:+ cp_MergeLane_ packet +:+ " is at or above the -fail-on-lane threshold " +:+ failLane)).

(** ** The text report *)

Definition text_mutation (m : Mutation) : string :=
  line ("  - [" +:+ mut_Severity m +:+ "] " +:+ mut_Kind m +:+ ": " +:+ mut_Title m +:+ " (" +:+ mut_Detector m +:+ ")").

Definition has_route (packet : ChangePacket) : bool :=
  bool_decide (ca_Route (cp_Conflict packet) ≠ "") && bool_decide (ca_Route (cp_Conflict packet) ≠ ConflictRouteNone).

Definition reviewer_label (r : ReviewerRequirement) : string :=
  rr_Team r +:+ (if rr_Mandatory r then " (mandatory)" else "").

Definition evidence_label (e : EvidenceRequirement) : string :=
  er_Type_ e +:+ (if er_Required e then " (required)" else "") +:+
  match er_GitHubCheck e with
  | Some check => " [GitHub check: " +:+ ghc_Name check +:+ " / app " +:+ itoa (ghc_AppID check) +:+ "]"
  | None => ""
  end.

Definition explain_risk (r : Risk) : string :=
  line ("    - [" +:+ risk_Severity r +:+ "] " +:+ risk_Type_ r +:+ " +" +:+ itoa (risk_Score r) +:+ ": " +:+ risk_Summary r) +:+
  (if decide (risk_Reason r = "") then "" else line ("      reason: " +:+ risk_Reason r)) +:+
  concat_all ((λ mitigation, line ("      mitigate: " +:+ mitigation)) <$> risk_Mitigations r).

Definition writeExplanation (packet : ChangePacket) : string :=
  let d := cp_Decision packet in
  line (newline +:+ "explanation:") +:+
  (if decide (pd_Summary d = "") then "" else line ("  policy: " +:+ pd_Summary d)) +:+
  concat_all ((λ reason, line ("  - policy reason: " +:+ reason)) <$> pd_Reasons d) +:+
  concat_all ((λ v, line ("  - violation [" +:+ pv_Severity v +:+ "] " +:+ pv_Policy v +:+ ": " +:+ pv_Reason v)) <$> pd_Violations d) +:+
  (if nonempty (cp_Risks packet) then line "  risks:" +:+ concat_all (explain_risk <$> cp_Risks packet)
   else line "  risks: no scored risk contributors") +:+
  (if nonempty (ri_Services (cp_Runtime packet)) then
     line "  affected services:" +:+
     concat_all ((λ s, line ("    - " +:+ sys_Name s +:+ " (" +:+ sys_Kind s +:+ ", criticality=" +:+ sys_Criticality s +:+ ")")) <$>
       ri_Services (cp_Runtime packet))
   else "") +:+
  concat_all ((λ note, line ("  - runtime note: " +:+ note)) <$> ri_Notes (cp_Runtime packet)) +:+
  (if has_route packet then
     line ("  conflict route: " +:+ ca_Route (cp_Conflict packet)) +:+
     concat_all ((λ f, line ("  - conflict [" +:+ cf_Severity f +:+ "] " +:+ cf_Kind f +:+ ": " +:+ cf_Summary f)) <$>
       ca_Findings (cp_Conflict packet)) +:+
     concat_all ((λ mitigation, line ("      mitigate: " +:+ mitigation)) <$> ca_Mitigations (cp_Conflict packet))
   else "").

Definition writeTextReport (packet : ChangePacket) (explain : bool) : string :=
  let repo := if decide (repo_FullName (cp_Repo packet) = "") then "-" else repo_FullName (cp_Repo packet) in
  line "merger scan" +:+
  line ("repo:       " +:+ repo) +:+
  line ("files:      " +:+ itoa (Z.of_nat (length (cp_Files packet))) +:+ " changed") +:+
  line ("mutations:  " +:+ itoa (Z.of_nat (length (cp_Mutations packet)))) +:+
  concat_all (text_mutation <$> cp_Mutations packet) +:+
  line ("risk:       score " +:+ itoa (rs_Score (cp_RiskSummary_ packet)) +:+ " (" +:+ rs_Severity (cp_RiskSummary_ packet) +:+ ")") +:+
  (if has_route packet then
     line ("conflict:   route " +:+ ca_Route (cp_Conflict packet) +:+ " (score " +:+ itoa (ca_Score (cp_Conflict packet)) +:+ ")")
   else "") +:+
  line ("runtime:    blast radius " +:+ ri_BlastRadius (cp_Runtime packet) +:+ ", criticality " +:+ ri_Criticality (cp_Runtime packet)) +:+
  line ("decision:   " +:+ pd_Status (cp_Decision packet)) +:+
  (if nonempty (cp_Reviewers packet) then line ("reviewers:  " +:+ Join ", " (reviewer_label <$> cp_Reviewers packet)) else "") +:+
  (if nonempty (cp_Evidence packet) then line ("evidence:   " +:+ Join ", " (evidence_label <$> cp_Evidence packet)) else "") +:+
  line ("deployment: " +:+ dr_Strategy (cp_Deployment packet) +:+
        (if dr_RequiresCanary (cp_Deployment packet) then " (canary required)" else "")) +:+
  line ("merge lane: " +:+ cp_MergeLane_ packet) +:+
  (if explain then writeExplanation packet else "").

Definition github_output (packet : ChangePacket) : string :=
  line ("lane=" +:+ cp_MergeLane_ packet) +:+ line ("risk-score=" +:+ itoa (rs_Score (cp_RiskSummary_ packet))) +:+
  line ("change-packet-id=" +:+ cp_ID packet).

(** ** The subcommands *)

Record ScanFlags := mkScanFlags {
  sf_repo_root : string;
  sf_config : string;
  sf_policy : string;
  sf_diff : string;
  sf_base_ref : string;
  sf_format : string;
  sf_explain : bool;
  sf_github_output : string;
  sf_fail_on_lane : string;
  sf_repo : string;
  sf_ref : string;
}.

Definition dquote : string := String "034" EmptyString.

Definition defaultConfigTemplate : string := concat_all (line <$> [
  "# merger configuration";
  "# Docs: https://github.com/devr-tools/merger";
  "";
  "service:";
  "  ingest_address: " +:+ dquote +:+ ":8080" +:+ dquote +:+ "";
  "  controlplane_address: " +:+ dquote +:+ ":8081" +:+ dquote +:+ "";
  "  controlplane_grpc_address: " +:+ dquote +:+ ":9091" +:+ dquote +:+ "";
  "";
  "access:";
  "  mode: disabled";
  "  # Static token example:";
  "  # tokens:";
  "  #   - subject: ci";
  "  #     token_env: MERGER_CI_TOKEN";
  "  #     roles: [evidence_writer]";
  "  # JWT example:";
  "  # jwt:";
  "  #   algorithm: HS256";
  "  #   issuer: https://auth.example.test";
  "  #   audience: merger-controlplane";
  "  #   secret_env: MERGER_CONTROLPLANE_JWT_SECRET";
  "  #   role_bindings:";
  "  #     - claim_value: merger.read";
  "  #       roles: [reader]";
  "";
  "logging:";
  "  level: info";
  "";
  "policy:";
  "  path: .merger/policies/default.yaml";
  "";
  "lanes:";
  "  green_max: 20";
  "  yellow_max: 55";
  "  red_max: 85";
  "";
  "runtime_graph:";
  "  enable_codeowners: true"]).

Definition defaultPolicyTemplate : string := concat_all (line <$> [
  "# merger policy rules";
  "# Policies are evaluated against detected mutations, risk, and ownership.";
  "policies:";
  "  - name: auth_requires_security_review";
  "    when:";
  "      mutations:";
  "        - auth_behavior_change";
  "    require:";
  "      reviewers:";
  "        - security";
  "      evidence:";
  "        - auth_integration_tests";
  "      deployment:";
  "        strategy: canary";
  "        requires_canary: true";
  "    action:";
  "      minimum_lane: RED"]).

Section commands.
Context `{HP : Process} `{HF : Resolve.FileInfo} `{HL : Config.Loader}.
Context `{HE : Entropy, HG : Mutations.SliceGrowth, HM : MapOrder, HY : Parsers, HD : RuntimeGraph.GraphDecoder,
          HV : Scan.Environment}.

Definition readDiff (root diffPath baseRef : string) : result CliError string :=
  if decide (diffPath = "-") then map_err (Failed "read diff from stdin") ReadStdin
  else if decide (diffPath ≠ "") then map_err (Failed "read diff file") (Config.ReadFile diffPath)
  else if decide (baseRef ≠ "") then map_err (Failed ("git diff " +:+ baseRef +:+ "...HEAD")) (GitDiff root (baseRef +:+ "...HEAD"))
  else Err (ExitError 2 "provide a diff with -diff <file|-> or a range with -base-ref <ref>").

Definition writeGitHubOutput (path : string) (packet : ChangePacket) : M () :=
  liftE (map_err (Failed "open GitHub output file") (OpenAppend path)) ;;
  liftE (map_err (Failed "write GitHub outputs") (WriteAppend path (github_output packet))) ;;
  record_append path (github_output packet).

Definition writeJSON (packet : ChangePacket) : M () :=
  text ← liftE (map_err (Failed "encode json") (EncodeIndented packet));
  print (line text).

Definition writeScanOutput (format : string) (explain : bool) (githubOutput : string) (packet : ChangePacket) : M () :=
  (if decide (format = "json") then writeJSON packet else print (writeTextReport packet explain)) ;;
  if decide (githubOutput = "") then mret () else writeGitHubOutput githubOutput packet.

(** The notice on standard error. *)
Definition warn (f : ScanFlags) (found : bool) : M () :=
  if negb found && bool_decide (sf_format f = "text")
  then print_error (line "merger: no policy file found — scanning with an empty rule set") else mret ().

Definition runScan (f : ScanFlags) : M () :=
  liftE (validateScanFormat (sf_format f)) ;;
  failLane ← liftE (map_err (ExitError 2) (parseFailLane (sf_fail_on_lane f)));
  rawDiff ← liftE (readDiff (sf_repo_root f) (sf_diff f) (sf_base_ref f));
  op ← liftE (map_err ResolveFailed
         (Resolve.ScanOptions (sf_repo_root f) (sf_config f) (sf_policy f) (sf_repo f) (sf_ref f) rawDiff));
  let '(options, policyFound) := op in
  warn f policyFound ;;
  packet ← liftE (map_err ScanFailed (Scan.Run options));
  writeScanOutput (sf_format f) (sf_explain f) (sf_github_output f) packet ;;
  liftE (enforceFailLane failLane packet).

Definition lanes_line (cfg : Config.Config) : string :=
  line ("lanes:    green<=" +:+ itoa (Config.ln_GreenMax (Config.cf_Lanes cfg)) +:+
        " yellow<=" +:+ itoa (Config.ln_YellowMax (Config.cf_Lanes cfg)) +:+
        " red<=" +:+ itoa (Config.ln_RedMax (Config.cf_Lanes cfg))).

Definition runValidate (root configPath policyPath : string) : M () :=
  cp ← liftE (map_err ResolveFailed (Resolve.resolve_Config root configPath));
  let '(cfg, resolvedConfig) := cp in
  print (if decide (resolvedConfig = "") then line "config:   (none found — validated defaults)"
         else line ("config:   " +:+ resolvedConfig)) ;;
  ppf ← liftE (map_err ResolveFailed (Resolve.resolve_Policy root policyPath cfg));
  let '(policyConfig, resolvedPolicy, found) := ppf in
  liftE (fail_if (negb found)
    (ExitError 1 ("policy file not found (looked for " +:+
       Quote (if decide (policyPath = "") then Config.cf_PolicyPath cfg else policyPath) +:+
       "); pass -policy or set policy.path"))) ;;
  liftE (map_err (ExitError 1) (Config.Validate cfg)) ;;
  print (line ("policy:   " +:+ resolvedPolicy +:+ " (" +:+
               itoa (Z.of_nat (length (PolicyValidation.Policies policyConfig))) +:+ " rule(s))")) ;;
  print (lanes_line cfg) ;;
  print (line "ok").

Definition init_files (dir : string) : list (string * string) :=
  let mergerDir := filepath_Join [dir; ".merger"] in
  let policiesDir := filepath_Join [mergerDir; "policies"] in
  [(filepath_Join [mergerDir; "merger.yaml"], defaultConfigTemplate);
   (filepath_Join [policiesDir; "default.yaml"], defaultPolicyTemplate)].

Definition refuse_existing (force : bool) (file : string * string) : result CliError () :=
  fail_if (Resolve.fileExists file.1 && negb force)
    (ExitError 1 (file.1 +:+ " already exists (use -force to overwrite)")).

Definition write_file (file : string * string) : M () :=
  liftE (map_err (Failed ("write " +:+ file.1)) (WriteFile file.1 file.2)) ;;
  record_write file.1 file.2 ;;
  print (line ("wrote " +:+ file.1)).

(** A loop over effects that stops at the first error. *)
Fixpoint for_each {A} (f : A → M ()) (l : list A) : M () :=
  match l with
  | [] => mret ()
  | a :: l' => f a ;; for_each f l'
  end.

Definition runInit (dir : string) (force : bool) : M () :=
  let policiesDir := filepath_Join [filepath_Join [dir; ".merger"]; "policies"] in
  liftE (map_err (Failed ("create " +:+ policiesDir)) (MkdirAll policiesDir)) ;;
  liftE (forallM (refuse_existing force) (init_files dir)) ;;
  for_each write_file (init_files dir) ;;
  print (line "initialized .merger/ — run `merger validate` to check it").

Definition runVersion : M () := print (line ("merger v" +:+ Number)).

Definition usage : string := concat_all (line <$> [
  "merger " +:+ Number +:+ " — mutation control plane CLI";
  "";
  "Usage:";
  "  merger <command> [flags]";
  "";
  "Commands:";
  "  scan        Analyze a diff and assign a merge lane (offline pipeline)";
  "  validate    Validate a merger configuration and its policy file";
  "  init        Scaffold a .merger/ configuration in the current repository";
  "  mcp         Serve the analysis tools over MCP (stdio)";
  "  version     Print the merger version";
  "  help        Show this help";
  "";
  "Run " +:+ dquote +:+ "merger <command> -h" +:+ dquote +:+ " for command-specific flags."]).

(** Package [flag], one parser per subcommand, and the MCP server. *)
Class Flags := {
  ParseScanFlags : list string → result string ScanFlags;
  ParseValidateFlags : list string → result string (string * string * string);
  ParseInitFlags : list string → result string (string * bool);
  ParseNoFlags : list string → result string ();
  mcp_Run : M ();
}.

Definition cli_Run `{Flags} (args : list string) : M () :=
  match args with
  | [] => print_error usage ;; throw (ExitError 2 "")
  | command :: rest =>
      if decide (command ∈ ["version"; "--version"; "-v"]) then
        liftE (map_err (Failed "flags") (ParseNoFlags rest)) ;; runVersion
      else if decide (command = "init") then
        df ← liftE (map_err (Failed "flags") (ParseInitFlags rest)); runInit df.1 df.2
      else if decide (command = "validate") then
        rcp ← liftE (map_err (Failed "flags") (ParseValidateFlags rest)); runValidate rcp.1.1 rcp.1.2 rcp.2
      else if decide (command = "scan") then
        f ← liftE (map_err (Failed "flags") (ParseScanFlags rest)); runScan f
      else if decide (command = "mcp") then
        liftE (map_err (Failed "flags") (ParseNoFlags rest)) ;; mcp_Run
      else if decide (command ∈ ["help"; "--help"; "-h"]) then print usage
      else print_error usage ;; throw (ExitError 2 ("unknown command " +:+ Quote command))
  end.

(** [main]'s exit status; of the other errors only their being errors matters. *)
Definition exit_status (r : result CliError ()) : Z :=
  match r with
  | Ok _ => 0
  | Err (ExitError code _) => code
  | Err _ => 1
  end.

(** ** Lemmas *)

Lemma rank_lane_order lane : rank lane = lane_order lane.
Proof.
  unfold rank, laneRank, lane_order. cbn [list_to_map foldr].
  repeat (case_decide; [subst; rewrite ?lookup_insert_ne, lookup_insert_eq by done; done|]).
  by rewrite !lookup_insert_ne by done.
Qed.

Lemma parseFailLane_ok raw lane :
  parseFailLane raw = Ok lane ↔ (raw = "" ∧ lane = "") ∨ (raw ≠ "" ∧ lane = ToUpper raw ∧ supported_lane lane).
Proof.
  unfold parseFailLane. case_decide; [naive_solver|]. rewrite <- lane_order_supported.
  assert (∀ l, 1 ≤ lane_order l ↔ ∃ n, laneRank !! l = Some n) as Hl.
  { intros l. rewrite <- rank_lane_order. unfold rank. destruct (laneRank !! l) as [n|] eqn:E; [|cbn; naive_solver lia].
    split; [eauto|]. intros _. cbn. revert E. unfold laneRank. cbn [list_to_map foldr].
    rewrite !lookup_insert_Some, lookup_empty. naive_solver lia. }
  destruct (laneRank !! ToUpper raw) as [n|] eqn:E.
  - split; [intros [= <-]; right; split_and!; [done|done|apply Hl; eauto]|]. intros [[-> _]|(_ & -> & _)]; done.
  - split; [done|]. intros [[-> _]|(_ & -> & (n & Hn)%Hl)]; congruence.
Qed.

(** What a scan of these flags comes to: the lane of the gate, the options that
    resolve, and the packet. *)
Definition scan_reaches (f : ScanFlags) (failLane : MergeLane) (found : bool) (packet : ChangePacket) : Prop :=
  sf_format f ∈ ["text"; "json"] ∧ parseFailLane (sf_fail_on_lane f) = Ok failLane ∧
  ∃ diff opts, readDiff (sf_repo_root f) (sf_diff f) (sf_base_ref f) = Ok diff ∧
    Resolve.ScanOptions (sf_repo_root f) (sf_config f) (sf_policy f) (sf_repo f) (sf_ref f) diff = Ok (opts, found) ∧
    Scan.Run opts = Ok packet.

Definition output (f : ScanFlags) (found : bool) (packet : ChangePacket) : M () :=
  warn f found ;; writeScanOutput (sf_format f) (sf_explain f) (sf_github_output f) packet.

(** The packet is below the lane of the gate, if there is one. *)
Definition passes (failLane : MergeLane) (packet : ChangePacket) : Prop :=
  failLane = "" ∨ lane_order (cp_MergeLane_ packet) < lane_order failLane.

Lemma validateScanFormat_ok format : validateScanFormat format = Ok () ↔ format ∈ ["text"; "json"].
Proof.
  unfold validateScanFormat. rewrite fail_if_ok, andb_false_iff, !bool_decide_eq_false, !elem_of_cons, elem_of_nil.
  destruct (decide (format = "text")), (decide (format = "json")); tauto.
Qed.

Lemma enforceFailLane_ok failLane packet : enforceFailLane failLane packet = Ok () ↔ passes failLane packet.
Proof.
  unfold enforceFailLane, passes. rewrite fail_if_ok, andb_false_iff, bool_decide_eq_false, Z.leb_gt, !rank_lane_order.
  destruct (decide (failLane = "")); tauto.
Qed.

Lemma warn_ok f found t : (warn f found t).1 = Ok ().
Proof. unfold warn. by destruct (_ && _). Qed.

Lemma runScan_reaches f failLane found packet t :
  scan_reaches f failLane found packet →
  runScan f t =
    match output f found packet t with
    | (Ok _, t1) => (enforceFailLane failLane packet, t1)
    | (Err e, t1) => (Err e, t1)
    end.
Proof.
  intros (Hf%validateScanFormat_ok & Hl & diff & opts & Hd & Ho & Hr).
  unfold runScan, output, liftE, mbind, stateE_bind. rewrite Hf, Hl. cbn [map_err]. rewrite Hd, Ho. cbn [map_err].
  pose proof (warn_ok f found t) as Hw. destruct (warn f found t) as [rw t0]. cbn [fst] in Hw. subst rw.
  rewrite Hr. cbn [map_err]. by destruct (writeScanOutput _ _ _ _ t0) as [[] t1].
Qed.

Lemma runScan_ok f t t' :
  runScan f t = (Ok (), t') → ∃ failLane found packet, scan_reaches f failLane found packet.
Proof.
  unfold runScan, liftE. intros H.
  apply stateE_bind_inv in H as [([] & t0 & [= Hf <-] & H)|(e & _ & [=])].
  apply stateE_bind_inv in H as [(failLane & t0 & [= Hl <-] & H)|(e & _ & [=])].
  apply stateE_bind_inv in H as [(diff & t0 & [= Hd <-] & H)|(e & _ & [=])].
  apply stateE_bind_inv in H as [([opts found] & t0 & [= Ho <-] & H)|(e & _ & [=])].
  apply stateE_bind_inv in H as [(u & t0 & _ & H)|(e & _ & [=])].
  apply stateE_bind_inv in H as [(packet & t1 & [= Hr <-] & H)|(e & _ & [=])].
  exists failLane, found, packet. split; [by apply validateScanFormat_ok|]. split; [by apply map_err_ok in Hl|].
  exists diff, opts. split_and!; [done|by apply map_err_ok in Ho|by apply map_err_ok in Hr].
Qed.

Lemma scan_lane_supported f failLane found packet : scan_reaches f failLane found packet → supported_lane (cp_MergeLane_ packet).
Proof.
  intros (_ & _ & diff & opts & _ & _ & (q & e & _ & _ & _ & _ & _ & _ & ->)%Scan.Run_inv). apply Assign_supported.
Qed.

(** ** Theorem *)

(** C34: [merger scan] succeeds exactly when its flags and inputs lead to a packet
    that is written and whose lane is below the lane of [-fail-on-lane], when
    there is one; a packet at or above it makes the exit status 2, after its
    report was printed all the same; and once the options resolve no scan fails
    on its way to a packet. *)
Theorem scan_gate f t :
  ((runScan f t).1 = Ok () ↔
   ∃ failLane found packet, scan_reaches f failLane found packet ∧ (output f found packet t).1 = Ok () ∧
     passes failLane packet) ∧
  (∀ failLane found packet, scan_reaches f failLane found packet → (output f found packet t).1 = Ok () →
     supported_lane (cp_MergeLane_ packet) ∧ (runScan f t).2 = (output f found packet t).2 ∧
     exit_status (runScan f t).1 = if decide (passes failLane packet) then 0 else 2) ∧
  (∀ failLane found packet, scan_reaches f failLane found packet → sf_format f = "text" → sf_github_output f = "" →
     (output f found packet t).1 = Ok () ∧
     tm_Stdout (runScan f t).2 = tm_Stdout t +:+ writeTextReport packet (sf_explain f)).
Proof.
  split_and!.
  - split.
    + destruct (runScan f t) as [r t'] eqn:E. cbn. intros ->. pose proof E as (failLane & found & packet & Hs)%runScan_ok.
      exists failLane, found, packet. rewrite (runScan_reaches _ _ _ _ _ Hs) in E.
      destruct (output f found packet t) as [[[]|e] t1]; [|done]. injection E as He <-.
      split_and!; [done|done|by apply enforceFailLane_ok].
    + intros (failLane & found & packet & Hs & Ho & Hp). rewrite (runScan_reaches _ _ _ _ _ Hs).
      destruct (output f found packet t) as [r t1]. cbn [fst] in Ho. subst r. by apply enforceFailLane_ok.
  - intros failLane found packet Hs Ho. split; [by eapply scan_lane_supported|].
    rewrite (runScan_reaches _ _ _ _ _ Hs). destruct (output f found packet t) as [r t1]. cbn [fst] in Ho. subst r.
    split; [done|]. cbn [fst]. case_decide as Hp.
    + apply enforceFailLane_ok in Hp as ->. done.
    + unfold enforceFailLane, fail_if. destruct (_ && _) eqn:E; [done|]. destruct Hp. apply enforceFailLane_ok.
      unfold enforceFailLane. by rewrite E.
  - intros failLane found packet Hs Hf Hg.
    assert (tm_Stdout (warn f found t).2 = tm_Stdout t) as Hout by (unfold warn; by destruct (_ && _)).
    pose proof (warn_ok f found t) as Hw.
    assert ((output f found packet t).1 = Ok () ∧
            tm_Stdout (output f found packet t).2 = tm_Stdout t +:+ writeTextReport packet (sf_explain f)) as [Ho Hs2].
    { unfold output, writeScanOutput. rewrite Hf, Hg, (decide_False (P := "text" = "json")), (decide_True (P := "" = "")) by done.
      unfold mbind, stateE_bind, print. destruct (warn f found t) as [rw t0]. cbn [fst snd] in *. subst rw. cbn.
      by rewrite Hout. }
    split; [done|]. rewrite (runScan_reaches _ _ _ _ _ Hs). destruct (output f found packet t) as [r t1].
    cbn [fst snd] in *. by subst r.
Qed.
End commands.

Section demo.
#[local] Existing Instance Identity.counting_entropy.
#[local] Existing Instance Mutations.doubling.
#[local] Existing Instance map_order_sorted.
#[local] Existing Instance RuntimeGraph.no_documents.
#[local] Existing Instance RuntimeGraph.chain_decoder.
#[local] Existing Instance Scan.empty_checkout.
#[local] Existing Instance Resolve.demo_files.
#[local] Existing Instance Resolve.demo_loader.

(** A diff with conflict markers on standard input, and a disk that takes every
    write. *)
#[local] Instance demo_process : Process := {|
  ReadStdin := Ok Scan.conflicted_diff; GitDiff root range := Err "not a repository"; OpenAppend path := Ok ();
  WriteAppend path text := Ok (); MkdirAll path := Ok (); WriteFile path text := Ok ();
  EncodeIndented packet := Ok (cp_ID packet); Number := "1.2.0" |}.

Definition demo_flags (failOn : string) : ScanFlags :=
  mkScanFlags "checkout" "" "" "-" "" "text" false "" failOn "acme/shop" "".
Definition demo_terminal : Terminal := mkTerminal "" "" [] [].

Definition demo_resolved : Scan.Options :=
  match Resolve.ScanOptions "checkout" "" "" "acme/shop" "" Scan.conflicted_diff with
  | Ok (opts, _) => opts
  | Err _ => Scan.conflicted
  end.

Lemma demo_scanned : Scan.Run demo_resolved = Ok (Scan.scanned demo_resolved).
Proof. vm_compute. reflexivity. Qed.

Lemma demo_reaches : scan_reaches (demo_flags "yellow") MergeLaneYellow true (Scan.scanned demo_resolved).
Proof.
  split; [by apply elem_of_cons; left|]. split; [vm_compute; reflexivity|]. exists Scan.conflicted_diff, demo_resolved.
  split; [reflexivity|]. split; [vm_compute; reflexivity|exact demo_scanned].
Qed.

Lemma scan_gate_witness :
  exit_status (runScan (demo_flags "yellow") demo_terminal).1 = 2 ∧
  tm_Stdout (runScan (demo_flags "yellow") demo_terminal).2 = writeTextReport (Scan.scanned demo_resolved) false.
Proof.
  destruct (scan_gate (demo_flags "yellow") demo_terminal) as (_ & Hg & Hr).
  destruct (Hr _ _ _ demo_reaches eq_refl eq_refl) as [Ho Hs]. split; [|exact Hs].
  destruct (Hg _ _ _ demo_reaches Ho) as (_ & _ & ->). destruct (decide _) as [Hp|]; [|reflexivity].
  exfalso. assert (lane_order (cp_MergeLane_ (Scan.scanned demo_resolved)) = 4) as Hl by (vm_compute; reflexivity).
  destruct Hp as [Hp|Hp]; [discriminate Hp|]. rewrite Hl in Hp. vm_compute in Hp. discriminate Hp.
Defined.

(** Without [-force], [merger init] does not overwrite. *)
Example init_refuses :
  (let files := {| Resolve.Stat path := if decide (path = ".merger/policies/default.yaml") then Ok false else Err "no such file" |} in
   let '(r, t) := runInit (HF := files) "." false demo_terminal in (exit_status r, tm_Written t)) = (1, []).
Proof. vm_compute. reflexivity. Qed.
End demo.
