(* ===== verification/Mcp.v ===== *)
(** [internal/mcpserver]: the tools an agent calls over the Model Context
    Protocol, and the session that serves them. *)
From stdpp Require Import base list gmap strings.
From S2P Require Import Prelude GoStrings Domain Documents Identity Lanes.
From S2P Require Config Resolve Scan Mutations RuntimeGraph PolicyValidation Policy.

Local Open Scope string_scope.
Local Open Scope list_scope.
Local Open Scope Z_scope.

(** ** Results

    The text of a result is the JSON of one of these values, or a plain text; the
    encoding is left out. *)
Record MutationNote := mkMutationNote {
  mn_kind : MutationKind;
  mn_severity : Severity;
  mn_title : string;
  mn_files : list string;
}.

Record RiskNote := mkRiskNote {
  rn_type : RiskType;
  rn_severity : Severity;
  rn_summary : string;
  rn_reason : string;
  rn_mitigations : list string;
}.

Record Explanation := mkExplanation {
  ex_changePacketId : string;
  ex_mergeLane : MergeLane;
  ex_decision : DecisionStatus;
  ex_decisionSummary : string;
  ex_decisionReasons : list string;
  ex_risk : RiskSummary;
  ex_mutations : list MutationNote;
  ex_risks : list RiskNote;
  ex_runtimeImpact : RuntimeImpact;
  ex_nextAction : string;
  ex_evidenceRequired : Z;
}.

Record EvidenceStep := mkEvidenceStep {
  es_name : string;
  es_type : EvidenceType;
  es_reason : string;
  es_producer : string;
  es_action : string;
  es_trustedGitHubCheck : option GitHubCheckBinding;
}.

Record Plan := mkPlan {
  pl_changePacketId : string;
  pl_mergeLane : MergeLane;
  pl_decision : DecisionStatus;
  pl_steps : list EvidenceStep;
  pl_deployment : DeploymentRequirement;
  pl_requiredReviews : list ReviewerRequirement;
}.

Record Readiness := mkReadiness {
  rd_changePacketId : string;
  rd_ready : bool;
  rd_mergeLane : MergeLane;
  rd_decision : DecisionStatus;
  rd_blockers : list string;
  rd_nextAction : string;
}.

Inductive ToolError :=
  | ErrUnknownTool (name : string)
  | PacketRequired
  | PacketUndecodable (err : string)
  | ResolveFailed (err : Resolve.ResolveError)
  | ScanFailed (err : Scan.ScanError).

Inductive Content :=
  | PacketContent (packet : ChangePacket)
  | ExplanationContent (explanation : Explanation)
  | PlanContent (plan : Plan)
  | ReadinessContent (readiness : Readiness)
  | TextContent (text : string)
  | ErrorContent (err : ToolError).

Record Result := mkResult {
  rs_Content : Content;
  rs_IsError : bool;
}.

(** [map[string]any], as a list of its entries. *)
Abbreviation Args := (list (string * json)) (only parsing).

Fixpoint arg (args : Args) (key : string) : option json :=
  match args with
  | [] => None
  | (k, v) :: args' => if decide (k = key) then Some v else arg args' key
  end.

(** The round trip of [change_packet] through [encoding/json] into a
    [ChangePacket]. *)
Class PacketCodec := { DecodePacket : json → result string ChangePacket }.

(** ** The tools *)

Definition stringArg (args : Args) (key : string) : string :=
  match arg args key with Some (JString s) => s | _ => "" end.

Definition stringSet (args : Args) (key : string) : gset string :=
  match arg args key with
  | Some (JArray raw) =>
      list_to_set (omap (λ item, match item with JString value => if decide (value = "") then None else Some value | _ => None end) raw)
  | _ => ∅
  end.

Definition changePacketArg `{PacketCodec} (args : Args) : result ToolError ChangePacket :=
  match arg args "change_packet" with
  | None | Some JNull => Err PacketRequired
  | Some raw => map_err PacketUndecodable (DecodePacket raw)
  end.

Definition requiredEvidenceCount (packet : ChangePacket) : Z :=
  foldl (λ count evidence, if er_Required evidence then count + 1 else count) 0 (cp_Evidence packet).

Definition requiredReviews (packet : ChangePacket) : list ReviewerRequirement :=
  filter (λ review, rr_Mandatory review = true) (cp_Reviewers packet).

Definition nextAction (packet : ChangePacket) : string :=
  if decide (pd_Status (cp_Decision packet) ≠ DecisionApproved) then "resolve the policy decision and its reasons before merge"
  else if 0 <? requiredEvidenceCount packet then "complete the required evidence plan and verify its results"
  else if nonempty (requiredReviews packet) then "obtain the mandatory reviews"
  else if decide (cp_MergeLane_ packet = MergeLaneBlack) then "escalate the BLACK-lane change for explicit approval"
  else "the packet has no unreported policy, evidence, or review requirements".

Definition explain (packet : ChangePacket) : Explanation :=
  mkExplanation (cp_ID packet) (cp_MergeLane_ packet) (pd_Status (cp_Decision packet)) (pd_Summary (cp_Decision packet))
    (pd_Reasons (cp_Decision packet)) (cp_RiskSummary_ packet)
    ((λ m, mkMutationNote (mut_Kind m) (mut_Severity m) (mut_Title m) (mut_Files m)) <$> cp_Mutations packet)
    ((λ r, mkRiskNote (risk_Type_ r) (risk_Severity r) (risk_Summary r) (risk_Reason r) (risk_Mitigations r)) <$> cp_Risks packet)
    (cp_Runtime packet) (nextAction packet) (requiredEvidenceCount packet).

Definition evidence_step (evidence : EvidenceRequirement) : EvidenceStep :=
  mkEvidenceStep (er_Name evidence) (er_Type_ evidence) (er_Reason evidence) (er_Producer evidence)
    (match er_GitHubCheck evidence with
     | None => "run, attach, or explicitly waive this evidence for the exact Change Packet"
     | Some _ => "wait for the named trusted GitHub check on this Change Packet's head SHA"
     end) (er_GitHubCheck evidence).

Definition plan_evidence (packet : ChangePacket) : Plan :=
  mkPlan (cp_ID packet) (cp_MergeLane_ packet) (pd_Status (cp_Decision packet))
    (evidence_step <$> filter (λ evidence, er_Required evidence = true) (cp_Evidence packet))
    (cp_Deployment packet) (requiredReviews packet).

Definition decision_blockers (packet : ChangePacket) : list string :=
  if decide (pd_Status (cp_Decision packet) = DecisionApproved) then []
  else ["policy decision is " +:+ Quote (pd_Status (cp_Decision packet))].

Definition evidence_blockers (packet : ChangePacket) (completed : gset string) : list string :=
  (λ evidence, "required evidence not verified: " +:+ er_Name evidence) <$>
  filter (λ evidence, er_Required evidence = true ∧ er_Name evidence ∉ completed) (cp_Evidence packet).

Definition review_blockers (packet : ChangePacket) (completed : gset string) : list string :=
  (λ review, "mandatory review not verified: " +:+ rr_Team review) <$>
  filter (λ review, rr_Mandatory review = true ∧ rr_Team review ∉ completed) (cp_Reviewers packet).

Definition lane_blockers (packet : ChangePacket) : list string :=
  if decide (cp_MergeLane_ packet = MergeLaneBlack) then ["BLACK lane changes require escalation before merge"] else [].

Definition check_readiness (packet : ChangePacket) (completedEvidence completedReviews : gset string) : Readiness :=
  let blockers := decision_blockers packet ++ evidence_blockers packet completedEvidence ++
                  review_blockers packet completedReviews ++ lane_blockers packet in
  mkReadiness (cp_ID packet) (negb (nonempty blockers)) (cp_MergeLane_ packet) (pd_Status (cp_Decision packet)) blockers
    (if nonempty blockers then nextAction packet
     else "the reported policy decision, required evidence, and mandatory reviews are ready for merge").

Definition jsonResult (content : Content) : Result := mkResult content false.

(** *** What [tools/list] says of them *)

Record ToolDefinition := mkToolDefinition {
  td_Name : string;
  td_Description : string;
  td_InputSchema : json;
}.

(** The schema of an argument, and of an object with arguments of which some are
    required. *)
Definition typed (type description : string) : json :=
  JObject [("type", JString type); ("description", JString description)].
Definition strings_schema (description : string) : json :=
  JObject [("type", JString "array"); ("items", JObject [("type", JString "string")]); ("description", JString description)].
Definition object_schema (properties : list (string * json)) (required : list string) : json :=
  JObject ([("type", JString "object"); ("properties", JObject properties)] ++
           (if nonempty required then [("required", JArray (JString <$> required))] else [])).

Definition packet_properties : list (string * json) :=
  [("change_packet", typed "object" "Change Packet JSON returned by merger_scan.")].

Definition packetInputSchema : json := object_schema packet_properties ["change_packet"].

Definition readinessInputSchema : json :=
  object_schema (packet_properties ++ [
    ("completed_evidence", strings_schema
       "Names of evidence requirements completed for this exact Change Packet. Only use verified results.");
    ("completed_reviews", strings_schema "Teams that have supplied the required review. Only use completed approvals.")])
    ["change_packet"].

Definition config_properties : list (string * json) := [
  ("config", typed "string" "Path to a merger config file or directory (optional; auto-discovered otherwise).");
  ("policy", typed "string" "Path to a policy file (optional; defaults to the config's policy path).")].

Definition Definitions : list ToolDefinition := [
  mkToolDefinition "merger_scan"
    ("Analyze a unified diff and return the resulting Change Packet as JSON: detected mutations, runtime impact, risk " +:+
     "score, policy decision, and assigned merge lane.")
    (object_schema ([
       ("diff", typed "string" "Raw unified diff to analyze (as produced by `git diff`).");
       ("repo_root", typed "string"
          ("Repository root for file-content lookups and relative config paths. " +:+ "Defaults to the current directory."));
       ("repo", typed "string" "Repository identifier as owner/name (optional).");
       ("ref", typed "string" "Revision the diff targets (optional).")] ++ config_properties) ["diff"]);
  mkToolDefinition "merger_validate"
    ("Validate a merger configuration and its policy file, reporting the resolved config path, policy rule count, and " +:+
     "lane thresholds.")
    (object_schema ([
       ("repo_root", typed "string" "Repository root to resolve config and policy against. Defaults to the current directory.")]
       ++ config_properties) []);
  mkToolDefinition "merger_explain"
    ("Explain a Change Packet in agent-oriented terms: why its lane and decision were assigned, what changed, and the " +:+
     "concrete risks and mitigations to address. Pass the Change Packet returned by merger_scan.") packetInputSchema;
  mkToolDefinition "merger_plan_evidence"
    ("Turn a Change Packet's required evidence into a concrete, ordered checklist for an agent. Includes trusted " +:+
     "GitHub check bindings when configured. Pass the Change Packet returned by merger_scan.") packetInputSchema;
  mkToolDefinition "merger_check_readiness"
    ("Assess whether a Change Packet is ready to merge using the evidence and reviews an agent reports as complete. " +:+
     "Reports exact blockers without claiming unreported checks or reviews passed. Pass the Change Packet returned by " +:+
     "merger_scan.") readinessInputSchema].

Section tools.
Context `{HC : PacketCodec} `{HF : Resolve.FileInfo} `{HL : Config.Loader}.
Context `{HE : Entropy, HG : Mutations.SliceGrowth, HM : MapOrder, HY : Parsers, HD : RuntimeGraph.GraphDecoder,
          HV : Scan.Environment}.

Definition toolExplain (args : Args) : result ToolError Result :=
  packet ← changePacketArg args;
  Ok (jsonResult (ExplanationContent (explain packet))).

Definition toolPlanEvidence (args : Args) : result ToolError Result :=
  packet ← changePacketArg args;
  Ok (jsonResult (PlanContent (plan_evidence packet))).

Definition toolCheckReadiness (args : Args) : result ToolError Result :=
  packet ← changePacketArg args;
  Ok (jsonResult (ReadinessContent
        (check_readiness packet (stringSet args "completed_evidence") (stringSet args "completed_reviews")))).

Definition root_of (args : Args) : string :=
  let root := stringArg args "repo_root" in if decide (root = "") then "." else root.

Definition toolScan (args : Args) : result ToolError Result :=
  op ← map_err ResolveFailed
         (Resolve.ScanOptions (root_of args) (stringArg args "config") (stringArg args "policy")
            (stringArg args "repo") (stringArg args "ref") (stringArg args "diff"));
  packet ← map_err ScanFailed (Scan.Run (fst op));
  Ok (jsonResult (PacketContent packet)).

Definition toolValidate (args : Args) : result ToolError Result :=
  cp ← map_err ResolveFailed (Resolve.resolve_Config (root_of args) (stringArg args "config"));
  let '(cfg, cfgPath) := cp in
  ppf ← map_err ResolveFailed (Resolve.resolve_Policy (root_of args) (stringArg args "policy") cfg);
  let '(policyConfig, policyPath, found) := ppf in
  if negb found then
    Ok (mkResult (TextContent "no policy file found; set policy.path in the config or pass a policy path") true)
  else
    Ok (mkResult (TextContent (
      (if decide (cfgPath = "") then line "config: (none found — using defaults)" else line ("config: " +:+ cfgPath)) +:+
      line ("policy: " +:+ policyPath +:+ " (" +:+ itoa (Z.of_nat (length (PolicyValidation.Policies policyConfig))) +:+ " rule(s))") +:+
      line ("lanes:  green<=" +:+ itoa (Config.ln_GreenMax (Config.cf_Lanes cfg)) +:+
            " yellow<=" +:+ itoa (Config.ln_YellowMax (Config.cf_Lanes cfg)) +:+
            " red<=" +:+ itoa (Config.ln_RedMax (Config.cf_Lanes cfg))) +:+
      "ok")) false).

Definition Call (name : string) (args : Args) : result ToolError Result :=
  if decide (name = "merger_scan") then toolScan args
  else if decide (name = "merger_validate") then toolValidate args
  else if decide (name = "merger_explain") then toolExplain args
  else if decide (name = "merger_plan_evidence") then toolPlanEvidence args
  else if decide (name = "merger_check_readiness") then toolCheckReadiness args
  else Err (ErrUnknownTool name).
End tools.

(** ** The session *)

Definition protocolVersion : string := "2025-06-18".
Definition jsonRPCParseError : Z := -32700.
Definition jsonRPCInvalidRequest : Z := -32600.
Definition jsonRPCMethodNotFound : Z := -32601.
Definition jsonRPCInvalidParams : Z := -32602.
Definition jsonRPCServerError : Z := -32000.

(** Raw JSON is its text; an absent field is the empty text. *)
Abbreviation RawMessage := string (only parsing).

Record requestEnvelope := mkRequestEnvelope {
  rq_JSONRPC : string;
  rq_ID : RawMessage;
  rq_Method : string;
  rq_Params : RawMessage;
}.

Inductive Outcome :=
  | InitializeResult (version : string)
  | EmptyResult
  | ToolsResult (tools : list ToolDefinition)
  | CallResult (result : Result)
  | ErrorOutcome (code : Z) (message : string).

Record responseEnvelope := mkResponseEnvelope {
  re_ID : RawMessage;
  re_Outcome : Outcome;
}.

Definition successResponse (id : RawMessage) (outcome : Outcome) : responseEnvelope := mkResponseEnvelope id outcome.
Definition errorResponse (id : RawMessage) (code : Z) (message : string) : responseEnvelope :=
  mkResponseEnvelope id (ErrorOutcome code message).

(** [json.Unmarshal] of a request, of the parameters of [initialize] (the protocol
    version), and of those of a tool call (its name and its arguments, none for
    [null]). *)
Class RequestCodec := {
  DecodeRequest : string → option requestEnvelope;
  DecodeInitialize : RawMessage → option string;
  DecodeToolCall : RawMessage → option (string * list (string * json));
}.

(** A server is whether its session is initialized; its tools are fixed. *)
Record Server := mkServer { sv_initialized : bool }.

Definition NewServer : Server := mkServer false.

Section server.
Context `{HQ : RequestCodec} `{HC : PacketCodec} `{HF : Resolve.FileInfo} `{HL : Config.Loader}.
Context `{HE : Entropy, HG : Mutations.SliceGrowth, HM : MapOrder, HY : Parsers, HD : RuntimeGraph.GraphDecoder,
          HV : Scan.Environment}.

Definition handleInitialize (req : requestEnvelope) : responseEnvelope :=
  match (if decide (rq_Params req = "") then Some "" else DecodeInitialize (rq_Params req)) with
  | None => errorResponse (rq_ID req) jsonRPCInvalidParams "invalid initialize params"
  | Some version =>
      successResponse (rq_ID req)
        (InitializeResult (if decide (TrimSpace version = protocolVersion) then version else protocolVersion))
  end.

(** The tools are total functions: no handler panics. *)
Definition handleToolCall (req : requestEnvelope) : responseEnvelope :=
  match DecodeToolCall (rq_Params req) with
  | None => errorResponse (rq_ID req) jsonRPCInvalidParams "invalid tool call params"
  | Some (name, arguments) =>
      if decide (TrimSpace name = "") then errorResponse (rq_ID req) jsonRPCInvalidParams "tool name is required"
      else
        match Call name arguments with
        | Err (ErrUnknownTool name) => errorResponse (rq_ID req) jsonRPCInvalidParams ("unknown tool: " +:+ name)
        | Err err => successResponse (rq_ID req) (CallResult (mkResult (ErrorContent err) true))
        | Ok result => successResponse (rq_ID req) (CallResult result)
        end
  end.

Definition requireInitialized (s : Server) (id : RawMessage) : option responseEnvelope :=
  if sv_initialized s then None else Some (errorResponse id jsonRPCServerError "server not initialized").

Definition HandleRequest (s : Server) (req : requestEnvelope) : option responseEnvelope * Server :=
  if decide (rq_JSONRPC req ≠ "2.0") then
    (Some (errorResponse (rq_ID req) jsonRPCInvalidRequest "invalid JSON-RPC version"), s)
  else if decide (rq_Method req = "initialize") then (Some (handleInitialize req), s)
  else if decide (rq_Method req = "notifications/initialized") then (None, mkServer true)
  else if decide (rq_Method req = "ping") then (Some (successResponse (rq_ID req) EmptyResult), s)
  else if decide (rq_Method req = "tools/list") then
    (Some (default (successResponse (rq_ID req) (ToolsResult Definitions)) (requireInitialized s (rq_ID req))), s)
  else if decide (rq_Method req = "tools/call") then
    (Some (default (handleToolCall req) (requireInitialized s (rq_ID req))), s)
  else if HasPrefix (rq_Method req) "notifications/" then (None, s)
  else (Some (errorResponse (rq_ID req) jsonRPCMethodNotFound ("method not found: " +:+ rq_Method req)), s).

Definition HandleLine (s : Server) (line : string) : option responseEnvelope * Server :=
  match DecodeRequest line with
  | None => (Some (errorResponse "" jsonRPCParseError "Parse error"), s)
  | Some req => HandleRequest s req
  end.

(** One reading of the loop: the answers written so far, and the server. *)
Definition serve_line (acc : list responseEnvelope * Server) (chunk : string) : list responseEnvelope * Server :=
  let '(written, s) := acc in
  let line := TrimSpace chunk in
  if decide (line = "") then acc
  else
    let '(resp, s') := HandleLine s line in
    (match resp with Some r => written ++ [r] | None => written end, s').

(** The input up to its end, which may come without a last newline; every write
    succeeds. *)
Definition Serve (s : Server) (input : string) : list responseEnvelope * Server :=
  foldl serve_line ([], s) (Split "010" input).

(** ** Lemmas *)

(** A line that declares the session initialized. *)
Definition announces (chunk : string) : bool :=
  match DecodeRequest (TrimSpace chunk) with
  | Some req => bool_decide (TrimSpace chunk ≠ "" ∧ rq_JSONRPC req = "2.0" ∧ rq_Method req = "notifications/initialized")
  | None => false
  end.

(** The identifier of the answer to a line, if it gets one. *)
Definition answered_as (chunk : string) : option RawMessage :=
  if decide (TrimSpace chunk = "") then None
  else
    match DecodeRequest (TrimSpace chunk) with
    | None => Some ""
    | Some req =>
        if decide (rq_JSONRPC req = "2.0" ∧ HasPrefix (rq_Method req) "notifications/" = true) then None
        else Some (rq_ID req)
    end.

(** An answer that shows the tools or the result of one. *)
Definition tool_answer (r : responseEnvelope) : bool :=
  match re_Outcome r with ToolsResult _ | CallResult _ => true | _ => false end.

Lemma handleInitialize_answer req : re_ID (handleInitialize req) = rq_ID req ∧ tool_answer (handleInitialize req) = false.
Proof. unfold handleInitialize. by destruct (if decide _ then _ else _). Qed.

Lemma handleToolCall_id req : re_ID (handleToolCall req) = rq_ID req.
Proof.
  unfold handleToolCall. destruct (DecodeToolCall _) as [[name arguments]|]; [|done].
  case_decide; [done|]. by destruct (Call name arguments) as [|[]].
Qed.

(** One line: the answers grow by at most the answer to it, which shows tools only
    if the session is initialized. *)
Lemma serve_line_spec w s chunk :
  let '(w', s') := serve_line (w, s) chunk in
  sv_initialized s' = sv_initialized s || announces chunk ∧
  match answered_as chunk with
  | None => w' = w
  | Some id => ∃ r, w' = w ++ [r] ∧ re_ID r = id ∧ (tool_answer r = true → sv_initialized s = true)
  end.
Proof.
  unfold serve_line, answered_as, announces, HandleLine.
  destruct (decide (TrimSpace chunk = "")) as [Hb|Hb].
  { rewrite orb_comm. split; [|done]. destruct (DecodeRequest _); [|done]. by rewrite bool_decide_eq_false_2 by naive_solver. }
  destruct (DecodeRequest (TrimSpace chunk)) as [req|]; [|split; [by rewrite orb_false_r|eexists; by split_and!]].
  unfold HandleRequest.
  destruct (decide (rq_JSONRPC req ≠ "2.0")) as [Hv|Hv].
  { rewrite decide_False, bool_decide_eq_false_2, orb_false_r by naive_solver. split; [done|]. eexists. by split_and!. }
  apply dec_stable in Hv.
  assert (∀ m, rq_Method req = m → m ≠ "notifications/initialized" →
    bool_decide (TrimSpace chunk ≠ "" ∧ rq_JSONRPC req = "2.0" ∧ rq_Method req = "notifications/initialized") = false) as Hno.
  { intros m <- Hm. apply bool_decide_eq_false_2. naive_solver. }
  destruct (decide (rq_Method req = "initialize")) as [E1|E1].
  { rewrite (Hno _ E1), orb_false_r by done. split; [done|]. rewrite decide_False by (rewrite E1; naive_solver).
    destruct (handleInitialize_answer req) as [? Ht]. eexists. split_and!; [done|done|]. by rewrite Ht. }
  destruct (decide (rq_Method req = "notifications/initialized")) as [E2|E2].
  { rewrite bool_decide_eq_true_2, orb_true_r by done. split; [done|]. by rewrite decide_True by (by rewrite E2). }
  rewrite (Hno _ eq_refl E2), orb_false_r.
  destruct (decide (rq_Method req = "ping")) as [E3|E3].
  { split; [done|]. rewrite decide_False by (rewrite E3; naive_solver). eexists. by split_and!. }
  unfold requireInitialized.
  destruct (decide (rq_Method req = "tools/list")) as [E4|E4].
  { split; [done|]. rewrite decide_False by (rewrite E4; naive_solver). destruct (sv_initialized s); eexists; by split_and!. }
  destruct (decide (rq_Method req = "tools/call")) as [E5|E5].
  { split; [done|]. rewrite decide_False by (rewrite E5; naive_solver).
    destruct (sv_initialized s); eexists; split_and!; try done. apply handleToolCall_id. }
  destruct (HasPrefix _ _) eqn:E6.
  - split; [done|]. by rewrite decide_True by done.
  - split; [done|]. rewrite decide_False by naive_solver. eexists. by split_and!.
Qed.

Lemma serve_lines_spec w s chunks :
  let '(w', s') := foldl serve_line (w, s) chunks in
  sv_initialized s' = sv_initialized s || existsb announces chunks ∧
  ∃ answers, w' = w ++ answers ∧ re_ID <$> answers = omap answered_as chunks ∧
    ∀ r, r ∈ answers → tool_answer r = true →
      ∃ before chunk after, chunks = before ++ chunk :: after ∧ answered_as chunk = Some (re_ID r) ∧
        sv_initialized s || existsb announces before = true.
Proof.
  revert w s. induction chunks as [|chunk chunks IH]; intros w s; cbn [foldl].
  { rewrite orb_false_r. split; [done|]. exists []. rewrite app_nil_r. split_and!; [done|done|set_solver]. }
  pose proof (serve_line_spec w s chunk) as Hl. destruct (serve_line (w, s) chunk) as [w1 s1]. destruct Hl as [Hs1 Hl].
  specialize (IH w1 s1). destruct (foldl serve_line (w1, s1) chunks) as [w' s'].
  destruct IH as (Hs' & answers & -> & Hids & Ht). split; [cbn [existsb]; by rewrite Hs', Hs1, orb_assoc|].
  cbn [omap list_omap].
  assert (∀ r, r ∈ answers → tool_answer r = true →
    ∃ before c after, chunk :: chunks = before ++ c :: after ∧ answered_as c = Some (re_ID r) ∧
      sv_initialized s || existsb announces before = true) as Hlater.
  { intros r Hr Hta. destruct (Ht r Hr Hta) as (before & c & after & -> & Hc & Hi).
    exists (chunk :: before), c, after. split_and!; [done|done|]. cbn [existsb]. by rewrite orb_assoc, <- Hs1. }
  destruct (answered_as chunk) as [id|] eqn:Ea.
  - destruct Hl as (r & -> & Hid & Hr). exists (r :: answers). rewrite <- app_assoc.
    split_and!; [done|by rewrite fmap_cons, Hid, <- Hids|].
    intros r0 [->|Hr0]%elem_of_cons Hta; [|by apply Hlater].
    exists [], chunk, chunks. split_and!; [done|by rewrite Hid|]. by rewrite (Hr Hta).
  - subst w1. by exists answers.
Qed.

Lemma requiredEvidenceCount_spec packet :
  requiredEvidenceCount packet = Z.of_nat (length (filter (λ e, er_Required e = true) (cp_Evidence packet))).
Proof.
  unfold requiredEvidenceCount. generalize (cp_Evidence packet) as es. intros es.
  rewrite <- (Z.add_0_l (Z.of_nat _)). generalize 0 as n. induction es as [|e es IH]; intros n; [cbn; lia|].
  cbn [foldl]. rewrite filter_cons, IH. destruct (er_Required e).
  - rewrite decide_True by done. cbn [length]. lia.
  - by rewrite decide_False by done.
Qed.
End server.

Lemma fmap_filter_nil {A B} (f : A → B) (P : A → Prop) `{∀ x, Decision (P x)} (l : list A) :
  f <$> filter P l = [] ↔ ∀ x, x ∈ l → ¬ P x.
Proof.
  transitivity (filter P l = []); [by destruct (filter P l)|]. split.
  - intros H0 x Hx HP. assert (x ∈ filter P l) as Hin by (by apply list_elem_of_filter). rewrite H0 in Hin. set_solver.
  - intros Hn. destruct (filter P l) as [|x l'] eqn:E; [done|]. exfalso.
    assert (x ∈ filter P l) as [HP Hx]%list_elem_of_filter by (rewrite E; left). by apply (Hn x).
Qed.

Lemma ready_iff packet evidence reviews :
  rd_ready (check_readiness packet evidence reviews) = true ↔
  pd_Status (cp_Decision packet) = DecisionApproved ∧
  (∀ e, e ∈ cp_Evidence packet → er_Required e = true → er_Name e ∈ evidence) ∧
  (∀ r, r ∈ cp_Reviewers packet → rr_Mandatory r = true → rr_Team r ∈ reviews) ∧
  cp_MergeLane_ packet ≠ MergeLaneBlack.
Proof.
  unfold check_readiness. cbn [rd_ready]. rewrite negb_true_iff, <- not_true_iff_false, nonempty_true.
  assert (∀ l : list string, ¬ l ≠ [] ↔ l = []) as -> by (intros []; naive_solver).
  rewrite !app_nil. unfold evidence_blockers, review_blockers. rewrite !fmap_filter_nil.
  unfold decision_blockers, lane_blockers.
  split.
  - intros (Hd & He & Hr & Hl). split_and!.
    + destruct (decide (pd_Status (cp_Decision packet) = DecisionApproved)); [done|discriminate Hd].
    + intros e Hin Hreq. destruct (decide (er_Name e ∈ evidence)); [done|]. by destruct (He e).
    + intros r Hin Hm. destruct (decide (rr_Team r ∈ reviews)); [done|]. by destruct (Hr r).
    + destruct (decide (cp_MergeLane_ packet = MergeLaneBlack)); [discriminate Hl|done].
  - intros (Hd & He & Hr & Hl). rewrite decide_True, decide_False by done. split_and!; naive_solver.
Qed.

(** A name was reported in a list of the call. *)
Definition reported (args : Args) (key name : string) : Prop :=
  ∃ raw, arg args key = Some (JArray raw) ∧ JString name ∈ raw ∧ name ≠ "".

Lemma stringSet_reported args key name : name ∈ stringSet args key ↔ reported args key name.
Proof.
  unfold stringSet, reported. destruct (arg args key) as [[]|]; try (set_solver).
  rewrite elem_of_list_to_set, list_elem_of_omap. split.
  - intros ([] & Hin & Hv); simplify_eq. case_decide; simplify_eq. eauto.
  - intros (l & [= ->] & Hin & Hne). exists (JString name). split; [done|]. by rewrite decide_False.
Qed.

(** What stands in the way of a packet, as the answer words it. *)
Inductive blocks (args : Args) (packet : ChangePacket) : string → Prop :=
  | blocks_decision :
      pd_Status (cp_Decision packet) ≠ DecisionApproved →
      blocks args packet ("policy decision is " +:+ Quote (pd_Status (cp_Decision packet)))
  | blocks_evidence e :
      e ∈ cp_Evidence packet → er_Required e = true → ¬ reported args "completed_evidence" (er_Name e) →
      blocks args packet ("required evidence not verified: " +:+ er_Name e)
  | blocks_review r :
      r ∈ cp_Reviewers packet → rr_Mandatory r = true → ¬ reported args "completed_reviews" (rr_Team r) →
      blocks args packet ("mandatory review not verified: " +:+ rr_Team r)
  | blocks_lane :
      cp_MergeLane_ packet = MergeLaneBlack → blocks args packet "BLACK lane changes require escalation before merge".

Lemma elem_of_blockers args packet b :
  b ∈ rd_blockers (check_readiness packet (stringSet args "completed_evidence") (stringSet args "completed_reviews")) ↔
  blocks args packet b.
Proof.
  unfold check_readiness, decision_blockers, evidence_blockers, review_blockers, lane_blockers. cbn [rd_blockers].
  rewrite !elem_of_app, !list_elem_of_fmap. setoid_rewrite list_elem_of_filter. setoid_rewrite stringSet_reported. split.
  - intros [H|[(e & -> & [? ?] & ?)|[(r & -> & [? ?] & ?)|H]]].
    + case_decide; [by apply elem_of_nil in H|]. apply list_elem_of_singleton in H as ->. by constructor.
    + by constructor.
    + by constructor.
    + case_decide; [|by apply elem_of_nil in H]. apply list_elem_of_singleton in H as ->. by constructor.
  - intros [Hd|e ? ? ?|r ? ? ?|Hl].
    + left. rewrite decide_False by done. by apply list_elem_of_singleton.
    + right. left. by exists e.
    + right. right. left. by exists r.
    + do 3 right. rewrite decide_True by done. by apply list_elem_of_singleton.
Qed.

Lemma ready_blockers packet evidence reviews :
  rd_ready (check_readiness packet evidence reviews) = true ↔ rd_blockers (check_readiness packet evidence reviews) = [].
Proof. unfold check_readiness. cbn [rd_ready rd_blockers]. by destruct (_ ++ _). Qed.

(** *** The schemas and the tools *)

Definition schema_field (schema : json) (key : string) : option json :=
  match schema with JObject entries => arg entries key | _ => None end.

(** The arguments a tool declares. *)
Definition declared (tool : ToolDefinition) : list string :=
  match schema_field (td_InputSchema tool) "properties" with Some (JObject entries) => entries.*1 | _ => [] end.

Definition agree_on (keys : list string) (args args' : Args) : Prop := Forall (λ key, arg args key = arg args' key) keys.

Lemma stringArg_agree args args' key : arg args key = arg args' key → stringArg args key = stringArg args' key.
Proof. unfold stringArg. by intros ->. Qed.

Section declared.
Context `{HC : PacketCodec} `{HF : Resolve.FileInfo} `{HL : Config.Loader}.
Context `{HE : Entropy, HG : Mutations.SliceGrowth, HM : MapOrder, HY : Parsers, HD : RuntimeGraph.GraphDecoder,
          HV : Scan.Environment}.

Lemma changePacketArg_known args name : changePacketArg args ≠ Err (ErrUnknownTool name).
Proof using Type. unfold changePacketArg, map_err. by repeat case_match. Qed.

Lemma Call_known name args : name ∈ td_Name <$> Definitions → Call name args ≠ Err (ErrUnknownTool name).
Proof using Type.
  assert (∀ (f : ChangePacket → Result) name,
    (packet ← changePacketArg args; Ok (f packet)) ≠ Err (ErrUnknownTool name)) as Hp.
  { intros f n. pose proof (changePacketArg_known args n) as Hk. destruct (changePacketArg args); [done|]. cbn. naive_solver. }
  cbn [fmap list_fmap Definitions td_Name]. intros Hin.
  repeat (apply elem_of_cons in Hin as [->|Hin]); [..|by apply elem_of_nil in Hin]; unfold Call; cbn -[toolScan toolValidate].
  - unfold toolScan, map_err. destruct (Resolve.ScanOptions _ _ _ _ _ _); [|done]. cbn. by destruct (Scan.Run _).
  - unfold toolValidate, map_err. destruct (Resolve.resolve_Config _ _) as [[cfg path]|]; [|done]. cbn.
    by destruct (Resolve.resolve_Policy _ _ _) as [[[] []]|].
  - apply Hp.
  - apply Hp.
  - apply Hp.
Qed.

(** The tools are the declared ones, each is told all it looks at by the arguments it
    declares (others change nothing), and the tools that need a packet refuse a call
    without one, as their schemas say; [merger_scan] instead takes a missing diff for
    an empty one. *)
Theorem tools_as_declared name args :
  (name ∈ td_Name <$> Definitions ↔ Call name args ≠ Err (ErrUnknownTool name)) ∧
  Forall (λ tool, ∀ args', td_Name tool = name → agree_on (declared tool) args args' →
    Call name args = Call name args') Definitions ∧
  Forall (λ tool, td_Name tool = name → name ≠ "merger_scan" → ∀ required,
    schema_field (td_InputSchema tool) "required" = Some (JArray (JString <$> required)) →
    Exists (λ key, arg args key = None) required → Call name args = Err PacketRequired) Definitions.
Proof using Type.
  split_and!.
  - split; [apply Call_known|]. cbn [fmap list_fmap Definitions td_Name]. unfold Call. intros Hn.
    repeat (case_decide; [subst; set_solver|]). done.
  - unfold Definitions. repeat constructor; cbn [td_Name]; intros args' <- Ha; unfold agree_on in Ha; cbn in Ha;
      repeat (apply Forall_cons in Ha as [? Ha]); unfold Call; cbn -[toolScan toolValidate] in *.
    + unfold toolScan, root_of. by rewrite !(stringArg_agree args args') by done.
    + unfold toolValidate, root_of. by rewrite !(stringArg_agree args args') by done.
    + unfold toolExplain, changePacketArg. by rewrite H.
    + unfold toolPlanEvidence, changePacketArg. by rewrite H.
    + unfold toolCheckReadiness, changePacketArg, stringSet. by rewrite H, H0, H1.
  - unfold Definitions. repeat constructor; cbn [td_Name]; intros <- Hs required; try done; unfold Call; cbn.
    all: intros Hr Hex; destruct required as [|key []]; simplify_eq/=; inversion Hex as [? ? Ha|? ? Ha]; try by inversion Ha.
    all: unfold toolExplain, toolPlanEvidence, toolCheckReadiness, changePacketArg; by rewrite Ha.
Qed.
End declared.

(** ** Theorems *)

(** C36: [merger_check_readiness], called with a packet, answers for that packet: it
    is ready exactly when its decision is approved, everything it requires and every
    mandatory review was reported, and its lane is not BLACK.  Otherwise the answer
    names every requirement and review that is missing, the decision and the lane
    when they are in the way, and nothing else.  What counts as reported are the
    strings of the two lists of the call, but for the empty one; a call without a
    packet, or with one that does not decode, is refused. *)
Theorem readiness_exact `{HQ : PacketCodec, HF : Resolve.FileInfo, HL : Config.Loader, HE : Entropy,
    HG : Mutations.SliceGrowth, HM : MapOrder, HY : Parsers, HD : RuntimeGraph.GraphDecoder, HV : Scan.Environment} args :
  match arg args "change_packet" with
  | None | Some JNull => Call "merger_check_readiness" args = Err PacketRequired
  | Some raw =>
      match DecodePacket raw with
      | Err err => Call "merger_check_readiness" args = Err (PacketUndecodable err)
      | Ok packet =>
          ∃ r, Call "merger_check_readiness" args = Ok (jsonResult (ReadinessContent r)) ∧
            (rd_changePacketId r, rd_mergeLane r, rd_decision r) =
              (cp_ID packet, cp_MergeLane_ packet, pd_Status (cp_Decision packet)) ∧
            (rd_ready r = true ↔ rd_blockers r = []) ∧
            (rd_ready r = true ↔
               pd_Status (cp_Decision packet) = DecisionApproved ∧
               (∀ e, e ∈ cp_Evidence packet → er_Required e = true → reported args "completed_evidence" (er_Name e)) ∧
               (∀ v, v ∈ cp_Reviewers packet → rr_Mandatory v = true → reported args "completed_reviews" (rr_Team v)) ∧
               cp_MergeLane_ packet ≠ MergeLaneBlack) ∧
            ∀ b, b ∈ rd_blockers r ↔ blocks args packet b
      end
  end.
Proof.
  unfold Call. cbn. unfold toolCheckReadiness, changePacketArg.
  destruct (arg args "change_packet") as [raw|]; [|done].
  assert (∀ packet, let r := check_readiness packet (stringSet args "completed_evidence") (stringSet args "completed_reviews") in
    (rd_ready r = true ↔ rd_blockers r = []) ∧
    (rd_ready r = true ↔
       pd_Status (cp_Decision packet) = DecisionApproved ∧
       (∀ e, e ∈ cp_Evidence packet → er_Required e = true → reported args "completed_evidence" (er_Name e)) ∧
       (∀ v, v ∈ cp_Reviewers packet → rr_Mandatory v = true → reported args "completed_reviews" (rr_Team v)) ∧
       cp_MergeLane_ packet ≠ MergeLaneBlack) ∧
    ∀ b, b ∈ rd_blockers r ↔ blocks args packet b) as H.
  { intros packet r. split_and!; [apply ready_blockers| |apply elem_of_blockers].
    setoid_rewrite <- stringSet_reported. apply ready_iff. }
  destruct raw; [done|..]; destruct (DecodePacket _) as [packet|err]; try done; cbn; eexists; split_and!; try done; apply H.
Qed.

(** What the tool answers for a packet of [merger_scan]: the decision is pending
    whenever the packet asks for evidence or a review, so such a packet is never
    ready, whatever is reported complete. *)
Theorem scanned_packet_stays_unready packet evidence reviews `{HE : Entropy, HG : Mutations.SliceGrowth, HM : MapOrder,
    HY : Parsers, HD : RuntimeGraph.GraphDecoder, HV : Scan.Environment} opts :
  Scan.Run opts = Ok packet → cp_Evidence packet ≠ [] ∨ cp_Reviewers packet ≠ [] →
  rd_ready (check_readiness packet evidence reviews) = false.
Proof.
  intros Hrun Hask. apply not_true_iff_false. intros (Hs & _)%ready_iff.
  apply Scan.Run_inv in Hrun as (q & e & _ & _ & _ & _ & _ & He & ->).
  destruct (Policy.approved_needs_nothing _ _ _ _ He Hs) as [? ?]. by destruct Hask.
Qed.

(** C35: a session answers every line that is not blank and not a notification
    exactly once, in order and under the identifier of the request (a line that
    is no request as well); it is initialized from the first line on that
    announces it; and no answer shows the tools or the result of one before
    that. *)
Theorem session_gated `{HQ : RequestCodec, HC : PacketCodec, HF : Resolve.FileInfo, HL : Config.Loader, HE : Entropy,
    HG : Mutations.SliceGrowth, HM : MapOrder, HY : Parsers, HD : RuntimeGraph.GraphDecoder, HV : Scan.Environment} input :
  let chunks := Split "010" input in
  let '(answers, s) := Serve NewServer input in
  re_ID <$> answers = omap answered_as chunks ∧
  sv_initialized s = existsb announces chunks ∧
  ∀ r, r ∈ answers → tool_answer r = true →
    ∃ before chunk after, chunks = before ++ chunk :: after ∧ answered_as chunk = Some (re_ID r) ∧
      existsb announces before = true.
Proof.
  cbn zeta. unfold Serve. pose proof (serve_lines_spec [] NewServer (Split "010" input)) as H.
  destruct (foldl serve_line ([], NewServer) (Split "010" input)) as [w s].
  destruct H as (Hs & answers & -> & Hids & Ht). done.
Qed.

Section demo.
#[local] Existing Instance Identity.counting_entropy.
#[local] Existing Instance Mutations.doubling.
#[local] Existing Instance map_order_sorted.
#[local] Existing Instance RuntimeGraph.no_documents.
#[local] Existing Instance RuntimeGraph.chain_decoder.
#[local] Existing Instance Scan.empty_checkout.
#[local] Existing Instance Resolve.demo_files.
#[local] Existing Instance Resolve.demo_loader.

(** Requests are a method and an identifier, and every call is for a plan. *)
#[local] Instance plain_requests : RequestCodec := {|
  DecodeRequest text := match Cut " " text with Some (method, id) => Some (mkRequestEnvelope "2.0" id method "") | None => None end;
  DecodeInitialize params := None;
  DecodeToolCall params := Some ("merger_scan", []) |}.
#[local] Instance no_packets : PacketCodec := {| DecodePacket _ := Err "no packet" |}.

(** The calls for an approved packet that requires tests, without and with them. *)
Definition tested_packet : ChangePacket :=
  cp_with_Evidence [mkEvidenceRequirement "" "tests" true "" "" None]
    (cp_with_Decision (mkPolicyDecision DecisionApproved "" [] [] [] "" 0) zeroChangePacket).
Definition readiness_call (completed : list string) : Args :=
  [("change_packet", JObject []); ("completed_evidence", JArray (JString <$> completed))].

Lemma readiness_exact_witness :
  (∃ r, Call (HC := {| DecodePacket _ := Ok tested_packet |}) "merger_check_readiness" (readiness_call ["lint"]) =
          Ok (jsonResult (ReadinessContent r)) ∧ rd_ready r = false) ∧
  (∃ r, Call (HC := {| DecodePacket _ := Ok tested_packet |}) "merger_check_readiness" (readiness_call ["tests"]) =
          Ok (jsonResult (ReadinessContent r)) ∧ rd_ready r = true).
Proof.
  split.
  - destruct (readiness_exact (HQ := {| DecodePacket _ := Ok tested_packet |}) (readiness_call ["lint"]))
      as (r & Hr & _ & Hb & _ & Hblocks).
    exists r. split; [exact Hr|]. apply not_true_iff_false. intros Ht. apply Hb in Ht.
    assert ("required evidence not verified: tests" ∈ rd_blockers r) as Hin.
    { apply Hblocks. apply (blocks_evidence _ _ (mkEvidenceRequirement "" "tests" true "" "" None)); [left|reflexivity|].
      intros (l & Hl & Hin & _). injection Hl as <-. apply list_elem_of_singleton in Hin. discriminate Hin. }
    rewrite Ht in Hin. by apply elem_of_nil in Hin.
  - destruct (readiness_exact (HQ := {| DecodePacket _ := Ok tested_packet |}) (readiness_call ["tests"]))
      as (r & Hr & _ & _ & Hready & _).
    exists r. split; [exact Hr|]. apply Hready. split_and!.
    + reflexivity.
    + intros e He _. apply list_elem_of_singleton in He as ->. exists [JString "tests"].
      split_and!; [reflexivity|left|discriminate].
    + intros v Hv. by apply elem_of_nil in Hv.
    + discriminate.
Defined.

(** A tool call before the session is initialized is refused, and one after it is
    answered. *)
Definition demo_session : string :=
  Join newline ["initialize 1"; "tools/call 2"; "notifications/initialized -"; ""; "tools/call 3"; "garbage"].

Lemma session_gated_witness :
  (let '(answers, s) := Serve NewServer demo_session in re_ID <$> answers) = ["1"; "2"; "3"; ""].
Proof.
  pose proof (session_gated demo_session) as H. cbn zeta in H.
  destruct (Serve NewServer demo_session) as [answers s]. destruct H as (-> & _). vm_compute. reflexivity.
Defined.

Example early_call_refused :
  (let '(answers, _) := Serve NewServer demo_session in
   (λ r, match re_Outcome r with ErrorOutcome code _ => code | _ => 0 end) <$> answers) =
  [0; jsonRPCServerError; 0; jsonRPCParseError].
Proof. vm_compute. reflexivity. Qed.
End demo.
