(* ===== verification/GithubClient.v ===== *)
(** [internal/github]: the REST client ([client.go], [transport.go],
    [pull_requests.go], [contents.go], [checks.go]) and its GitHub App
    authentication with the cache of installation tokens ([app_auth.go]).

    The network is an environment that answers each call from the calls before
    it; the state of a client is the log of the calls with their answers, the
    cache all clones of the client share, and the number of clock readings so
    far.  Which token is an installation's is read off the log, not off the cache.
    Every call also carries the same [X-GitHub-Api-Version] header, which is
    left out. *)
From stdpp Require Import base list gmap strings.
From S2P Require Import Prelude GoStrings GoPath Base64 Domain Identity Access Jwt Github.

Local Open Scope string_scope.
Local Open Scope list_scope.
Local Open Scope Z_scope.

(** ** Calls *)

Record HTTPCall := mkHTTPCall {
  hc_Method : string;
  hc_URL : string;
  hc_Accept : string;
  hc_Authorization : string;
  hc_ContentType : string;
  hc_Body : string;
}.

Record HTTPAnswer := mkHTTPAnswer {
  ha_Status : Z;
  ha_Body : string;
}.

Record installationToken := mkInstallationToken {
  it_value : string;
  it_expiresAt : Time;
}.

Record ClientConfig := mkClientConfig {
  gcc_AppID : string;
  gcc_InstallationID : Z;
  gcc_PrivateKeyPath : string;
  gcc_WebhookSecret : string;
  gcc_APIBaseURL : string;
  gcc_Timeout : string;
}.

Record PullRequestResponse := mkPullRequestResponse {
  pre_HTMLURL : string;
  pre_Title : string;
  pre_Body : string;
  pre_HeadSHA : string;
  pre_BaseSHA : string;
  pre_UserLogin : string;
}.

(** The network; [json]'s decoders of the answers and encoders of the check run and
    of a string, what [http.NewRequest] refuses, and [time.ParseDuration]. *)
Class GitHubAPI := {
  Respond : list (HTTPCall * result string HTTPAnswer) → HTTPCall → result string HTTPAnswer;
  RequestError : string → option string;
  DecodeToken : string → result string installationToken;
  DecodePullRequest : string → result string PullRequestResponse;
  DecodeContents : string → result string (string * string);
  EncodeCheckRun : CheckRunInput → string;
  EncodeString : string → string;
  ParseDuration : string → result string Z;
}.

(** The private key of the app; signing, as [Crypto] has verifying. *)
Class AppCrypto := {
  RSAPrivateKey : Type;
  SignPKCS1v15 : RSAPrivateKey → string → result string string;
  ParsePKCS1PrivateKey : string → result string RSAPrivateKey;
  ParsePKCS8PrivateKey : string → result string (option RSAPrivateKey);
}.

Inductive ClientError :=
  | RequestRefused (err : string)
  | NetworkFailed (err : string)
  | APIFailed (method url : string) (status : Z) (body : string)
  | AnswerUndecodable (err : string)
  | SigningFailed (err : string)
  | UnsupportedEncoding (encoding : string)
  | CorruptContent
  | KeyUnreadable (err : string)
  | KeyNotPEM
  | KeyNotRSA
  | BadTimeout (err : string).

Record ClientState := mkClientState {
  cs_Log : list (HTTPCall * result string HTTPAnswer);
  cs_Tokens : gmap Z installationToken;
  cs_Readings : nat;
}.

(** [url.QueryEscape]. *)
Definition hex_upper (n : Z) : ascii := default "0"%char (String.get (Z.to_nat n) "0123456789ABCDEF").
Definition unreserved (a : ascii) : bool :=
  in_range "A" "Z" a || in_range "a" "z" a || in_range "0" "9" a ||
  is_byte "-" a || is_byte "_" a || is_byte "." a || is_byte "~" a.
Fixpoint QueryEscape (s : string) : string :=
  match s with
  | EmptyString => ""
  | String a s' =>
      (if unreserved a then String a ""
       else if is_byte " " a then "+"
       else String "%" (String (hex_upper (byte_val a / 16)) (String (hex_upper (byte_val a mod 16)) ""))) +:+
      QueryEscape s'
  end.

Example escaped_ref : QueryEscape "feature/a b~1" = "feature%2Fa+b~1".
Proof. by vm_compute. Qed.

(** [encodeSegment]. *)
Definition encodeSegment (raw : string) : string := TrimRight (URLEncode raw) "=".

Definition quoted (s : string) : string := String "034" s +:+ String "034" "".

(** [json.Marshal] of the header's map: its keys in order. *)
Definition jwt_header : string :=
  "{" +:+ quoted "alg" +:+ ":" +:+ quoted "RS256" +:+ "," +:+ quoted "typ" +:+ ":" +:+ quoted "JWT" +:+ "}".

(** [t.Unix()] of a time in UTC. *)
Definition to_unix (t : Time) : Z := t / 1000000000 - unixToInternal.

Definition second : Z := 1000000000.

Section client.
Context `{HC : Crypto} `{HA : AppCrypto} `{HG : GitHubAPI}.
Context (Now : nat → Time).

Record AppAuthenticator := mkAppAuthenticator {
  aa_appID : string;
  aa_privateKey : RSAPrivateKey;
}.

(** The HTTP client's timeout is of no concern here. *)
Record Client := mkClient {
  cl_baseURL : string;
  cl_authenticator : AppAuthenticator;
  cl_installationID : Z;
  cl_webhookSecret : string;
}.

Definition M := stateE ClientState ClientError.

Definition read_clock : M Time := λ s,
  (Ok (Now (cs_Readings s)), mkClientState (cs_Log s) (cs_Tokens s) (S (cs_Readings s))).

Definition NewAppAuthenticator (ReadFile : string → result string string) (appID privateKeyPath : string) : result ClientError AppAuthenticator :=
  raw ← map_err KeyUnreadable (ReadFile privateKeyPath);
  match pem_Decode raw with
  | None => Err KeyNotPEM
  | Some (_, bytes, _) =>
      match ParsePKCS1PrivateKey bytes with
      | Ok key => Ok (mkAppAuthenticator appID key)
      | Err err =>
          match ParsePKCS8PrivateKey bytes with
          | Err _ => Err (KeyUnreadable err)
          | Ok None => Err KeyNotRSA
          | Ok (Some key) => Ok (mkAppAuthenticator appID key)
          end
      end
  end.

Definition NewClient (ReadFile : string → result string string) (cfg : ClientConfig) : result ClientError Client :=
  map_err BadTimeout (if decide (gcc_Timeout cfg = "") then Ok (10 * second) else ParseDuration (gcc_Timeout cfg)) ;;
  authenticator ← NewAppAuthenticator ReadFile (gcc_AppID cfg) (gcc_PrivateKeyPath cfg);
  Ok (mkClient (TrimRight (gcc_APIBaseURL cfg) "/") authenticator (gcc_InstallationID cfg) (gcc_WebhookSecret cfg)).

Definition ForInstallation (c : Client) (installationID : Z) : Client :=
  mkClient (cl_baseURL c) (cl_authenticator c) installationID (cl_webhookSecret c).

(** ** Transport *)

Definition send (call : HTTPCall) : M HTTPAnswer := λ s,
  let answer := Respond (cs_Log s) call in
  (map_err NetworkFailed answer, mkClientState (cs_Log s ++ [(call, answer)]) (cs_Tokens s) (cs_Readings s)).

Definition do (call : HTTPCall) : M string :=
  match RequestError (hc_URL call) with
  | Some err => throw (RequestRefused err)
  | None =>
      resp ← send call;
      if 400 <=? ha_Status resp then
        throw (APIFailed (hc_Method call) (hc_URL call) (ha_Status resp) (ha_Body resp))
      else mret (ha_Body resp)
  end.

Definition getWithBearer (c : Client) (endpoint bearerToken accept : string) : M string :=
  do (mkHTTPCall "GET" (cl_baseURL c +:+ endpoint) accept ("Bearer " +:+ bearerToken) "" "").

Definition postWithBearer (c : Client) (endpoint bearerToken : string) (payload : option string) : M string :=
  do (mkHTTPCall "POST" (cl_baseURL c +:+ endpoint) "application/vnd.github+json" ("Bearer " +:+ bearerToken)
        (match payload with Some _ => "application/json" | None => "" end) (default "" payload)).

(** ** Authentication *)

Definition jwt_payload (a : AppAuthenticator) (iat exp : Z) : string :=
  "{" +:+ quoted "exp" +:+ ":" +:+ itoa exp +:+ "," +:+ quoted "iat" +:+ ":" +:+ itoa iat +:+ "," +:+
  quoted "iss" +:+ ":" +:+ EncodeString (aa_appID a) +:+ "}".

Definition unsigned_jwt (a : AppAuthenticator) (iat exp : Z) : string :=
  encodeSegment jwt_header +:+ "." +:+ encodeSegment (jwt_payload a iat exp).

Definition appJWT (a : AppAuthenticator) : M string :=
  issued ← read_clock;
  expires ← read_clock;
  let unsigned := unsigned_jwt a (to_unix (issued - 30 * second)) (to_unix (expires + 9 * 60 * second)) in
  signature ← liftE (map_err SigningFailed (SignPKCS1v15 (aa_privateKey a) (Sum256 unsigned)));
  mret (unsigned +:+ "." +:+ encodeSegment signature).

Definition token_endpoint (installationID : Z) : string :=
  "/app/installations/" +:+ itoa installationID +:+ "/access_tokens".

Definition cached_token (installationID : Z) : M installationToken := λ s,
  (Ok (default (mkInstallationToken "" 0) (cs_Tokens s !! installationID)), s).

Definition keep_token (installationID : Z) (token : installationToken) : M () := λ s,
  (Ok (), mkClientState (cs_Log s) (<[installationID := token]> (cs_Tokens s)) (cs_Readings s)).

Definition fetch_token (c : Client) (installationID : Z) : M string :=
  jwtToken ← appJWT (cl_authenticator c);
  body ← postWithBearer c (token_endpoint installationID) jwtToken None;
  response ← liftE (map_err AnswerUndecodable (DecodeToken body));
  keep_token installationID response ;;
  mret (it_value response).

(** The clock is read only for a cached token; the lock makes the whole of it one
    step. *)
Definition Token (c : Client) (installationID : Z) : M string :=
  cached ← cached_token installationID;
  if decide (it_value cached = "") then fetch_token c installationID
  else
    now ← read_clock;
    if now <? it_expiresAt cached - 60 * second then mret (it_value cached)
    else fetch_token c installationID.

(** ** The service *)

Definition client_GetPullRequest (c : Client) (owner repo : string) (number : Z) : M PullRequest :=
  token ← Token c (cl_installationID c);
  body ← getWithBearer c ("/repos/" +:+ owner +:+ "/" +:+ repo +:+ "/pulls/" +:+ itoa number) token "application/vnd.github+json";
  response ← liftE (map_err AnswerUndecodable (DecodePullRequest body));
  mret (mkPullRequest owner repo number (pre_Title response) (pre_Body response) (pre_UserLogin response)
          (pre_HTMLURL response) (pre_HeadSHA response) (pre_BaseSHA response)).

Definition client_GetPullRequestDiff (c : Client) (owner repo : string) (number : Z) : M string :=
  token ← Token c (cl_installationID c);
  getWithBearer c ("/repos/" +:+ owner +:+ "/" +:+ repo +:+ "/pulls/" +:+ itoa number) token "application/vnd.github.diff".

Definition client_GetFileContent (c : Client) (owner repo filePath ref : string) : M string :=
  token ← Token c (cl_installationID c);
  body ← getWithBearer c
    ("/repos/" +:+ owner +:+ "/" +:+ repo +:+ "/contents/" +:+ Clean filePath +:+ "?ref=" +:+ QueryEscape ref)
    token "application/vnd.github+json";
  response ← liftE (map_err AnswerUndecodable (DecodeContents body));
  let '(content, encoding) := response in
  if negb (EqualFold encoding "base64") then throw (UnsupportedEncoding encoding)
  else
    match StdDecode (String.string_of_list_ascii (filter (λ a, a ≠ "010"%char) (String.list_ascii_of_string content))) with
    | Some raw => mret raw
    | None => throw CorruptContent
    end.

Definition client_PublishCheckRun (c : Client) (input : CheckRunInput) : M () :=
  token ← Token c (cl_installationID c);
  postWithBearer c ("/repos/" +:+ cri_RepoOwner input +:+ "/" +:+ cri_RepoName input +:+ "/check-runs") token
    (Some (EncodeCheckRun input)) ;;
  mret ().

(** ** What the client sends *)

(** The characters of a segment are no padding, so trimming the padding leaves the
    digits. *)
Lemma trim_padding c chars pad :
  Forall (λ a, is_byte c a = false) chars → TrimRight pad c = "" →
  TrimRight (String.string_of_list_ascii chars +:+ pad) c = String.string_of_list_ascii chars.
Proof.
  unfold TrimRight. induction chars as [|a chars IH]; intros Hc Hp; [done|]. apply Forall_cons in Hc as [Ha Hc].
  change (String.string_of_list_ascii (a :: chars) +:+ pad) with (String a (String.string_of_list_ascii chars +:+ pad)).
  cbn [TrimRightFunc]. rewrite (IH Hc Hp). destruct chars; cbn [String.string_of_list_ascii]; [by rewrite Ha|done].
Qed.

Lemma encodeSegment_digits raw :
  encodeSegment raw = String.string_of_list_ascii (digit_char "-" "_" <$> digits_of_bytes (bytes_of raw)).
Proof.
  apply trim_padding.
  - apply Forall_fmap. eapply Forall_impl; [apply digits_range, bytes_of_range|]. intros d Hd. apply (digit_char_value d Hd).
  - unfold padding. by destruct (length (bytes_of raw) mod 3)%nat as [|[|[|?]]].
Qed.

(** What a segment encodes is decoded from it, by the decoder of the JWT
    authenticator. *)
Lemma RawURLDecode_encodeSegment raw : RawURLDecode (encodeSegment raw) = Some raw.
Proof.
  unfold RawURLDecode. rewrite encodeSegment_digits, mapM_digit_value by apply digits_range, bytes_of_range.
  cbn. rewrite digits_bytes by apply bytes_of_range. cbn. by rewrite string_of_bytes.
Qed.

Lemma segment_no_dot raw : any_byte (is_byte ".") (encodeSegment raw) = false.
Proof.
  rewrite encodeSegment_digits. pose proof (digits_range _ (bytes_of_range raw)) as Hd.
  induction Hd as [|d digits Hd _ IH]; [done|]. cbn.
  rewrite IH, orb_false_r. apply (digit_char_value d Hd).
Qed.

(** The state of a client with an empty cache. *)
Definition initial : ClientState := mkClientState [] ∅ 0.

Definition token_call (c : Client) (installationID : Z) (jwt : string) : HTTPCall :=
  mkHTTPCall "POST" (cl_baseURL c +:+ token_endpoint installationID) "application/vnd.github+json"
    ("Bearer " +:+ jwt) "" "".

(** What the app signed over the times [iat] and [exp]. *)
Definition signed_by (a : AppAuthenticator) (iat exp : Z) (jwt : string) : Prop :=
  ∃ signature,
    SignPKCS1v15 (aa_privateKey a) (Sum256 (unsigned_jwt a iat exp)) = Ok signature ∧
    jwt = unsigned_jwt a iat exp +:+ "." +:+ encodeSegment signature.

Definition succeeded (answer : result string HTTPAnswer) : Prop :=
  ∃ response, answer = Ok response ∧ ha_Status response < 400.

Definition answers (answer : result string HTTPAnswer) (token : installationToken) : Prop :=
  ∃ response, answer = Ok response ∧ ha_Status response < 400 ∧ DecodeToken (ha_Body response) = Ok token.

(** What the answer to a call for a token of an installation issues, by the log
    alone. *)
Definition issues (c : Client) (installationID : Z) (entry : HTTPCall * result string HTTPAnswer)
    : option installationToken :=
  let '(call, answer) := entry in
  if decide (hc_Method call = "POST" ∧ hc_URL call = cl_baseURL c +:+ token_endpoint installationID ∧
             hc_ContentType call = "") then
    match answer with
    | Err _ => None
    | Ok response =>
        if 400 <=? ha_Status response then None
        else match DecodeToken (ha_Body response) with Ok token => Some token | Err _ => None end
    end
  else None.

(** The last token that GitHub has issued to an installation. *)
Definition last_issued (c : Client) (log : list (HTTPCall * result string HTTPAnswer)) (installationID : Z)
    : option installationToken :=
  foldl (λ last entry, match issues c installationID entry with Some token => Some token | None => last end) None log.

(** It has more than a minute to go. *)
Definition fresh (c : Client) (s : ClientState) (installationID : Z) (token : installationToken) : Prop :=
  last_issued c (cs_Log s) installationID = Some token ∧ it_value token ≠ "" ∧
  Now (cs_Readings s) < it_expiresAt token - 60 * second.

(** ** Requests *)

Inductive Request :=
  | PullRequestOf (owner repo : string) (number : Z)
  | DiffOf (owner repo : string) (number : Z)
  | FileContentOf (owner repo filePath ref : string)
  | CheckRunOf (input : CheckRunInput).

Definition perform (c : Client) (q : Request) : M () :=
  match q with
  | PullRequestOf owner repo number => (λ _, ()) <$> client_GetPullRequest c owner repo number
  | DiffOf owner repo number => (λ _, ()) <$> client_GetPullRequestDiff c owner repo number
  | FileContentOf owner repo filePath ref => (λ _, ()) <$> client_GetFileContent c owner repo filePath ref
  | CheckRunOf input => client_PublishCheckRun c input
  end.

(** The call a request makes, under a token. *)
Definition request_call (c : Client) (q : Request) (token : string) : HTTPCall :=
  let get path accept := mkHTTPCall "GET" (cl_baseURL c +:+ path) accept ("Bearer " +:+ token) "" "" in
  match q with
  | PullRequestOf owner repo number =>
      get ("/repos/" +:+ owner +:+ "/" +:+ repo +:+ "/pulls/" +:+ itoa number) "application/vnd.github+json"
  | DiffOf owner repo number =>
      get ("/repos/" +:+ owner +:+ "/" +:+ repo +:+ "/pulls/" +:+ itoa number) "application/vnd.github.diff"
  | FileContentOf owner repo filePath ref =>
      get ("/repos/" +:+ owner +:+ "/" +:+ repo +:+ "/contents/" +:+ Clean filePath +:+ "?ref=" +:+ QueryEscape ref)
        "application/vnd.github+json"
  | CheckRunOf input =>
      mkHTTPCall "POST" (cl_baseURL c +:+ "/repos/" +:+ cri_RepoOwner input +:+ "/" +:+ cri_RepoName input +:+ "/check-runs")
        "application/vnd.github+json" ("Bearer " +:+ token) "application/json" (EncodeCheckRun input)
  end.

(** The states after any requests of any clones of a client. *)
Inductive reachable (c : Client) : ClientState → Prop :=
  | reachable_initial : reachable c initial
  | reachable_step s installationID q :
      reachable c s → reachable c (perform (ForInstallation c installationID) q s).2.

(** The app signed the JWT at this time: it is dated half a minute back and expires
    nine minutes ahead. *)
Definition signed_now (c : Client) (s : ClientState) (jwt : string) : Prop :=
  ∃ n, (cs_Readings s ≤ n ≤ S (cs_Readings s))%nat ∧
    signed_by (cl_authenticator c) (to_unix (Now n - 30 * second)) (to_unix (Now (S n) + 9 * 60 * second)) jwt.

(** What a request of a clone adds to the log, with its result.  Under a fresh token
    it is the call of the request.  When no token is fresh it is a call for one, and,
    when that issues a token, the call of the request under this very token.  A
    request that is not sent is an error, and so is one that is not answered below
    400. *)
Inductive exchange (c : Client) (s : ClientState) (installationID : Z) (q : Request)
    : list (HTTPCall * result string HTTPAnswer) → result ClientError () → Prop :=
  | exchange_none e : exchange c s installationID q [] (Err e)
  | exchange_cached token answer r :
      fresh c s installationID token → (r = Ok () → succeeded answer) →
      exchange c s installationID q [(request_call c q (it_value token), answer)] r
  | exchange_refused jwt answer e :
      (∀ token, ¬ fresh c s installationID token) → signed_now c s jwt →
      exchange c s installationID q [(token_call c installationID jwt, answer)] (Err e)
  | exchange_fetched jwt issue token answer r :
      (∀ token, ¬ fresh c s installationID token) → signed_now c s jwt → answers issue token →
      (r = Ok () → succeeded answer) →
      exchange c s installationID q
        [(token_call c installationID jwt, issue); (request_call c q (it_value token), answer)] r.

(** ** Lemmas *)

Lemma appJWT_inv a s r s' :
  appJWT a s = (r, s') →
  cs_Log s' = cs_Log s ∧ cs_Tokens s' = cs_Tokens s ∧
  ∀ jwt, r = Ok jwt →
    signed_by a (to_unix (Now (cs_Readings s) - 30 * second)) (to_unix (Now (S (cs_Readings s)) + 9 * 60 * second)) jwt.
Proof.
  unfold appJWT, signed_by, read_clock, liftE, mbind, stateE_bind.
  destruct (SignPKCS1v15 _ _) as [signature|e]; cbn; intros [= <- <-]; (split_and!; [done|done|]).
  - intros jwt [= <-]. by exists signature.
  - done.
Qed.

Lemma do_inv call s r s' :
  do call s = (r, s') →
  (s' = s ∧ ∃ e, r = Err e) ∨
  ∃ answer,
    s' = mkClientState (cs_Log s ++ [(call, answer)]) (cs_Tokens s) (cs_Readings s) ∧
    ((∃ response, answer = Ok response ∧ ha_Status response < 400 ∧ r = Ok (ha_Body response)) ∨
     ∃ e, r = Err e ∧ ∀ response, answer = Ok response → 400 ≤ ha_Status response).
Proof.
  unfold do. destruct (RequestError _) as [err|]; [intros [= <- <-]; eauto|].
  intros [(response & s1 & [= Ha <-] & H)|(e & [= Ha <-] & ->)]%stateE_bind_inv; right; eexists; (split; [|]).
  - by destruct (400 <=? _); injection H as <- <-.
  - apply map_err_ok in Ha. revert H. rewrite Ha. destruct (Z.leb_spec 400 (ha_Status response)); intros [= <- <-].
    + right. eexists. split; [done|]. by intros ? [= <-].
    + left. by exists response.
  - done.
  - right. exists e. split; [done|]. intros response Hr. by rewrite Hr in Ha.
Qed.

Lemma token_endpoint_inj c id1 id2 : cl_baseURL c +:+ token_endpoint id1 = cl_baseURL c +:+ token_endpoint id2 → id1 = id2.
Proof.
  unfold token_endpoint. intros H%(inj _)%(inj _). by apply app_inj_tail_string in H as [?%(inj pretty) _].
Qed.

Lemma postWithBearer_token c installationID jwt :
  postWithBearer c (token_endpoint installationID) jwt None = do (token_call c installationID jwt).
Proof. done. Qed.

Lemma issues_token c id1 id2 jwt answer :
  issues c id2 (token_call c id1 jwt, answer) =
  if decide (id1 = id2) then
    match answer with
    | Err _ => None
    | Ok response =>
        if 400 <=? ha_Status response then None
        else match DecodeToken (ha_Body response) with Ok token => Some token | Err _ => None end
    end
  else None.
Proof.
  cbn. destruct (decide (id1 = id2)) as [<-|Hne]; [by rewrite decide_True|].
  rewrite decide_False; [done|]. by intros (_ & ?%token_endpoint_inj & _).
Qed.

Lemma issues_request c c' id q token answer : issues c id (request_call c' q token, answer) = None.
Proof. destruct q; cbn; by rewrite decide_False by (by intros (? & _ & ?)). Qed.

Lemma last_issued_app c log entry id :
  last_issued c (log ++ [entry]) id =
  match issues c id entry with Some token => Some token | None => last_issued c log id end.
Proof. unfold last_issued. by rewrite foldl_app. Qed.

(** The cache holds, for each installation, the last token that it was issued. *)
Definition cache_current (c : Client) (s : ClientState) : Prop :=
  ∀ installationID, cs_Tokens s !! installationID = last_issued c (cs_Log s) installationID.

Lemma cache_current_same c s s' :
  cs_Log s' = cs_Log s → cs_Tokens s' = cs_Tokens s → cache_current c s → cache_current c s'.
Proof. intros Hl Ht Hc id. by rewrite Hl, Ht. Qed.

(** A call for a token, with the token it got when the result is one. *)
Definition fetched (c : Client) (installationID : Z) (s s' : ClientState) (r : result ClientError string) : Prop :=
  (cs_Log s' = cs_Log s ∧ ∃ e, r = Err e) ∨
  ∃ jwt answer,
    signed_by (cl_authenticator c) (to_unix (Now (cs_Readings s) - 30 * second))
      (to_unix (Now (S (cs_Readings s)) + 9 * 60 * second)) jwt ∧
    cs_Log s' = cs_Log s ++ [(token_call c installationID jwt, answer)] ∧
    ∀ value, r = Ok value → ∃ token, it_value token = value ∧ answers answer token.

Lemma fetch_token_inv c installationID s r s' :
  fetch_token c installationID s = (r, s') → cache_current c s →
  cache_current c s' ∧ fetched c installationID s s' r.
Proof.
  unfold fetch_token, fetched.
  intros [(jwt & s1 & (Hl & Ht & Hsig)%appJWT_inv & H)|(e & (Hl & Ht & _)%appJWT_inv & ->)]%stateE_bind_inv Hc; cycle 1.
  { split; [by apply (cache_current_same c s)|by eauto]. }
  specialize (Hsig _ eq_refl). rewrite <- Hl. apply (cache_current_same c s s1) in Hc; [|done..]. clear Hl Ht.
  apply stateE_bind_inv in H as [(body & s2 & Hd & H)|(e & Hd & ->)]; rewrite postWithBearer_token in Hd.
  - apply do_inv in Hd as [[_ [e [=]]]|(answer & -> & [(response & -> & Hst & [= ->])|(e & [=] & _)])].
    apply stateE_bind_inv in H as [(token & s3 & [= Htok <-] & H)|(e & [= Htok <-] & ->)].
    + apply map_err_ok in Htok. injection H as <- <-. split.
      * intros id. cbn [cs_Tokens cs_Log]. rewrite last_issued_app, issues_token.
        destruct (decide (installationID = id)) as [<-|]; [|by rewrite lookup_insert_ne].
        rewrite lookup_insert_eq, Htok. by destruct (Z.leb_spec 400 (ha_Status response)); [lia|].
      * right. eexists jwt, (Ok response). split_and!; [done|done|]. intros ? [= <-]. exists token. split; [done|]. by exists response.
    + split; [|right; eexists jwt, (Ok response); by split_and!].
      intros id. cbn [cs_Tokens cs_Log]. rewrite last_issued_app, issues_token, <- Hc.
      case_decide; [|done]. destruct (400 <=? _); [done|].
      by destruct (DecodeToken (ha_Body response)).
  - apply do_inv in Hd as [[-> _]|(answer & -> & [(response & _ & _ & [=])|(e' & _ & Hfail)])]; [by eauto|].
    split; [|right; eexists jwt, answer; by split_and!].
    intros id. cbn [cs_Tokens cs_Log]. rewrite last_issued_app, issues_token, <- Hc. case_decide; [|done].
    destruct answer as [response|]; [|done]. specialize (Hfail response eq_refl).
    by destruct (Z.leb_spec 400 (ha_Status response)); [|lia].
Qed.

Lemma Token_inv c installationID s r s' :
  Token c installationID s = (r, s') → cache_current c s →
  cache_current c s' ∧
  ((cs_Log s' = cs_Log s ∧ ∃ token, fresh c s installationID token ∧ r = Ok (it_value token)) ∨
   (∀ token, ¬ fresh c s installationID token) ∧
   ∃ s1, (cs_Readings s ≤ cs_Readings s1 ≤ S (cs_Readings s))%nat ∧ cs_Log s1 = cs_Log s ∧ fetched c installationID s1 s' r).
Proof.
  unfold Token, fresh. intros [(cached & s1 & [= <- <-] & H)|(e & [=] & _)]%stateE_bind_inv Hc. rewrite <- Hc.
  destruct (cs_Tokens s !! installationID) as [token|] eqn:Et; cbn [default from_option id] in H; cycle 1.
  { rewrite decide_True in H by done. apply fetch_token_inv in H as [? Hf]; [|done]. split; [done|].
    right. split; [naive_solver|]. exists s. split_and!; [lia|lia|done|done]. }
  case_decide as Hv.
  { apply fetch_token_inv in H as [? Hf]; [|done]. split; [done|]. right. split; [naive_solver|]. exists s. split_and!; [lia|lia|done|done]. }
  apply stateE_bind_inv in H as [(now & s1 & [= <- <-] & H)|(e & [=] & _)].
  revert H. destruct (Z.ltb_spec (Now (cs_Readings s)) (it_expiresAt token - 60 * second)) as [Hlt|Hge]; intros H.
  - injection H as <- <-. split; [by apply (cache_current_same c s)|]. left. by eauto 6.
  - apply fetch_token_inv in H as [? Hf]; [|by apply (cache_current_same c s)]. split; [done|]. right. split; [intros t ([= <-] & _ & ?); lia|].
    eexists. split_and!; [| | |exact Hf]; cbn; [lia|lia|done].
Qed.

(** What only works on the answer leaves the state as the call did. *)
Definition asks {A} (call : HTTPCall) (m : M A) : Prop := ∀ s r s',
  m s = (r, s') → ∃ r0, do call s = (r0, s') ∧ ((∃ a, r = Ok a) → ∃ body, r0 = Ok body).

Lemma asks_do call : asks call (do call).
Proof. intros s r s' H. eauto. Qed.

Lemma asks_bind {A B} call (m : M A) (f : A → M B) :
  asks call m → (∀ a s, (f a s).2 = s) → asks call (m ≫= f).
Proof.
  intros Hm Hf s r s' [(a & s1 & (r0 & Hd & Hok)%Hm & H)|(e & (r0 & Hd & Hok)%Hm & ->)]%stateE_bind_inv.
  - pose proof (Hf a s1) as Hs. rewrite H in Hs. cbn in Hs. subst s1. exists r0. eauto.
  - exists r0. split; [done|]. by intros [? [=]].
Qed.

Lemma asks_unit {A} call (m : M A) : asks call m → asks call ((λ _, ()) <$> m).
Proof.
  intros Hm s r s'. unfold fmap, stateE_fmap. destruct (m s) as [[a|e] s1] eqn:E; intros [= <- <-];
    apply Hm in E as (r0 & Hd & Hok); exists r0; (split; [done|]); [eauto|by intros [? [=]]].
Qed.

Lemma fmap_bind_state {A B C} (g : B → C) (m : M A) (f : A → M B) s :
  (g <$> (m ≫= f)) s = (m ≫= λ a, g <$> f a) s.
Proof. unfold fmap, stateE_fmap, mbind, stateE_bind. by destruct (m s) as [[a|e] s1]. Qed.

Lemma perform_asks c q :
  ∃ ask, (∀ s, perform c q s = (Token c (cl_installationID c) ≫= ask) s) ∧
    ∀ token, asks (request_call c q token) (ask token).
Proof.
  destruct q; cbn [perform];
    (eexists; split; [first [intros; apply fmap_bind_state|intros; reflexivity]|]); intros token; cbn beta;
    repeat first [apply asks_unit|apply asks_do|apply asks_bind];
    intros a s; unfold liftE, throw, mbind, stateE_bind.
  - by destruct (map_err _ _).
  - destruct (map_err _ _) as [[content encoding]|e]; [|done]. destruct (negb _); [done|]. by destruct (StdDecode _).
Qed.

Lemma perform_inv c q s r s' :
  perform c q s = (r, s') →
  ∃ rt s1, Token c (cl_installationID c) s = (rt, s1) ∧
    match rt with
    | Err e => s' = s1 ∧ r = Err e
    | Ok token => ∃ r0, do (request_call c q token) s1 = (r0, s') ∧ (r = Ok () → ∃ body, r0 = Ok body)
    end.
Proof.
  destruct (perform_asks c q) as (ask & -> & Hask).
  intros [(token & s1 & Ht & (r0 & Hd & Hok)%Hask)|(e & Ht & ->)]%stateE_bind_inv.
  - exists (Ok token), s1. split; [done|]. exists r0. split; [done|]. intros ->. eauto.
  - exists (Err e), s'. done.
Qed.

Lemma reachable_current c s : reachable c s → cache_current c s.
Proof.
  induction 1 as [|s installationID q _ IH]; [intros id; apply lookup_empty|].
  destruct (perform _ q s) as [r s'] eqn:E. cbn. apply perform_inv in E as (rt & s1 & Ht & Hrt).
  apply Token_inv in Ht as [Hc _]; [|exact IH]. destruct rt as [token|e]; [|by destruct Hrt as [-> _]].
  destruct Hrt as (r0 & [[-> _]|(answer & -> & _)]%do_inv & _); [done|].
  intros id. cbn [cs_Tokens cs_Log]. rewrite last_issued_app, issues_request. apply Hc.
Qed.

(** ** Theorems *)

(** C12: in any history of a client and its clones, a request for an installation
    adds to the log an [exchange]: its call bears the token last issued to this very
    installation when that is good for more than another minute; only otherwise the
    app asks for one, with a JWT that it signed for the time, and the call bears the
    token it is then given.  A request that succeeds was sent, and answered below
    400. *)
Theorem requests_authorized c s installationID q r s' :
  reachable c s → perform (ForInstallation c installationID) q s = (r, s') →
  ∃ new, cs_Log s' = cs_Log s ++ new ∧ exchange c s installationID q new r.
Proof.
  intros Hc%reachable_current (rt & s1 & Ht & Hrt)%perform_inv. apply Token_inv in Ht as [_ Ht]; [|exact Hc].
  assert (∃ more, cs_Log s' = cs_Log s1 ++ more ∧
    (more = [] ∧ (∃ e, r = Err e) ∨
     ∃ token answer, rt = Ok token ∧ more = [(request_call c q token, answer)] ∧ (r = Ok () → succeeded answer)))
    as (more & Hl' & Hmore).
  { destruct rt as [token|e]; [|destruct Hrt as [-> ->]; exists []; rewrite app_nil_r; eauto].
    destruct Hrt as (r0 & [[-> [e ->]]|(answer & -> & Ha)]%do_inv & Hok).
    - exists []. rewrite app_nil_r. split; [done|]. left. split; [done|]. destruct r as [[]|e']; [|by eexists]. by destruct Hok.
    - eexists. split; [done|]. right. exists token, answer. split_and!; [done|done|].
      intros [body ->]%Hok. destruct Ha as [(response & ? & ? & _)|(e & [=] & _)]. by exists response. }
  destruct Ht as [(Hl & token & Hf & ->)|(Hn & s0 & Hr0 & Hl0 & [[Hl [e ->]]|(jwt & issue & Hs & Hl & Ht)])];
    rewrite Hl, ?Hl0 in Hl'; clear Hrt;
    change (request_call (ForInstallation c installationID)) with (request_call c) in Hmore.
  - exists more. split; [done|]. destruct Hmore as [[-> [e ->]]|(? & answer & [= <-] & -> & Hr)]; [constructor|].
    by apply exchange_cached.
  - exists more. split; [done|]. destruct Hmore as [[-> [e' ->]]|(? & ? & [=] & _)]. constructor.
  - assert (signed_now c s jwt) as Hnow by (by exists (cs_Readings s0)). change (∀ token, ¬ fresh c s installationID token) in Hn.
    change (token_call (ForInstallation c installationID) _ jwt) with (token_call c installationID jwt) in Hl'.
    rewrite <- app_assoc in Hl'. eexists. split; [exact Hl'|]. destruct Hmore as [[-> [e ->]]|(value & answer & -> & -> & Hr)].
    + by apply exchange_refused.
    + destruct (Ht value eq_refl) as (token & <- & Ha). by apply exchange_fetched.
Qed.

(** The configured file holds one of the two kinds of RSA key. *)
Definition key_readable (ReadFile : string → result string string) (path : string) : Prop :=
  ∃ raw block_type bytes rest key,
    ReadFile path = Ok raw ∧ pem_Decode raw = Some (block_type, bytes, rest) ∧
    (ParsePKCS1PrivateKey bytes = Ok key ∨
     (∃ err, ParsePKCS1PrivateKey bytes = Err err) ∧ ParsePKCS8PrivateKey bytes = Ok (Some key)).

Definition timeout_readable (timeout : string) : Prop := timeout = "" ∨ ∃ t, ParseDuration timeout = Ok t.

Lemma NewAppAuthenticator_ok ReadFile appID path :
  (∃ a, NewAppAuthenticator ReadFile appID path = Ok a) ↔ key_readable ReadFile path.
Proof.
  unfold NewAppAuthenticator, key_readable. split.
  - intros (a & (raw & Hr%map_err_ok & Ha)%bind_ok).
    destruct (pem_Decode raw) as [[[block_type bytes] rest]|] eqn:Ep; [|done].
    destruct (ParsePKCS1PrivateKey bytes) as [key|err] eqn:E1; [by eauto 10|].
    destruct (ParsePKCS8PrivateKey bytes) as [[key|]|err'] eqn:E8; [|done|done].
    exists raw, block_type, bytes, rest, key. eauto 8.
  - intros (raw & block_type & bytes & rest & key & -> & Hp & Hk). cbn. rewrite Hp.
    destruct Hk as [->|[[err ->] ->]]; by eexists.
Qed.

(** What a client needs; an unreadable timeout is reported as one. *)
Lemma NewClient_inv ReadFile cfg :
  match NewClient ReadFile cfg with
  | Ok c => timeout_readable (gcc_Timeout cfg) ∧ key_readable ReadFile (gcc_PrivateKeyPath cfg)
  | Err (BadTimeout _) => ¬ timeout_readable (gcc_Timeout cfg)
  | Err _ => timeout_readable (gcc_Timeout cfg) ∧ ¬ key_readable ReadFile (gcc_PrivateKeyPath cfg)
  end.
Proof.
  unfold NewClient, timeout_readable.
  pose proof (NewAppAuthenticator_ok ReadFile (gcc_AppID cfg) (gcc_PrivateKeyPath cfg)) as Hk.
  assert (∀ e, NewAppAuthenticator ReadFile (gcc_AppID cfg) (gcc_PrivateKeyPath cfg) = Err e → ∀ err, e ≠ BadTimeout err)
    as Hkey.
  { unfold NewAppAuthenticator. intros e H err ->. destruct (ReadFile _); [|done]. cbn in H. repeat case_match; done. }
  case_decide as Ht; [|destruct (ParseDuration _) as [t|err]]; cbn; try naive_solver;
    (destruct (NewAppAuthenticator _ _ _) as [a|e]; cbn; [naive_solver|]);
    specialize (Hkey e eq_refl); destruct e; naive_solver.
Qed.

Lemma to_unix_shift t n : to_unix (t + n * second) = to_unix t + n.
Proof. unfold to_unix, second. rewrite Z.div_add by done. lia. Qed.

(** The JWT of the app is one that the JWT verification of [internal/access]
    accepts under the matching public key: three segments that decode to the
    header, the claims and a good signature of the first two.  It is dated half a
    minute back and expires nine minutes ahead. *)
Theorem app_jwt_verifies a public s jwt s' :
  (∀ sum signature, SignPKCS1v15 (aa_privateKey a) sum = Ok signature → VerifyPKCS1v15 public sum signature = true) →
  appJWT a s = (Ok jwt, s') →
  ∃ header claims segment signature,
    Split "." jwt = [header; claims; segment] ∧
    RawURLDecode header = Some jwt_header ∧
    RawURLDecode claims =
      Some (jwt_payload a (to_unix (Now (cs_Readings s)) - 30) (to_unix (Now (S (cs_Readings s))) + 540)) ∧
    RawURLDecode segment = Some signature ∧
    Verify (rsaSHA256Verifier public) (header +:+ "." +:+ claims) signature = Ok ().
Proof.
  intros Hlaw (_ & _ & Hs)%appJWT_inv. destruct (Hs jwt eq_refl) as (signature & Hsig & ->). clear Hs.
  replace (Now (cs_Readings s) - 30 * second) with (Now (cs_Readings s) + -30 * second) in * by lia.
  replace (9 * 60 * second) with (540 * second) in * by done.
  rewrite !to_unix_shift in *. unfold unsigned_jwt in *. rewrite !app_assoc_string.
  eexists _, _, _, signature. split_and!.
  - repeat change ("." +:+ ?text) with (String "." text).
    rewrite !Split_piece, Split_whole by apply segment_no_dot. done.
  - apply RawURLDecode_encodeSegment.
  - apply RawURLDecode_encodeSegment.
  - apply RawURLDecode_encodeSegment.
  - cbn. rewrite (Hlaw _ _ Hsig). done.
Qed.
End client.

Section demo.
(** For the witnesses, a private key signs for the public key that is equal to it
    ([plain_crypto]); the API answers the first call for a token with a token that
    is good for an hour and every other call with an empty body; an hour passes
    between two readings of the clock after the third. *)
#[local] Existing Instance plain_crypto.
#[local] Instance plain_app_crypto : AppCrypto := {|
  RSAPrivateKey := string;
  SignPKCS1v15 key sum := Ok (key +:+ sum);
  ParsePKCS1PrivateKey bytes := Ok bytes;
  ParsePKCS8PrivateKey bytes := Ok None |}.
#[local] Instance plain_github : GitHubAPI := {|
  Respond log call := Ok (mkHTTPAnswer 200 (hc_URL call));
  RequestError url := None;
  DecodeToken body := Ok (mkInstallationToken ("t" +:+ body) (3600 * second));
  DecodePullRequest body := Ok (mkPullRequestResponse body "" "" "" "" "");
  DecodeContents body := Ok ("aGk=", "base64");
  EncodeCheckRun input := cri_Name input;
  EncodeString := quoted;
  ParseDuration text := Err "not used" |}.

Definition demo_clock (n : nat) : Time := if (n <=? 2)%nat then 0 else 3600 * second.
Definition demo_client : Client := mkClient "https://api" (mkAppAuthenticator "42" "k") 1 "".
Definition demo_request : Request := DiffOf "o" "r" 9.

(** The first request fetches a token, the second uses it, the third, after it has
    expired, fetches another; a refused answer is an error. *)
Definition demo_after (n : nat) : ClientState :=
  Nat.iter n (λ s, (perform demo_clock (ForInstallation demo_client 7) demo_request s).2) initial.

Lemma requests_authorized_witness :
  (λ n, length (cs_Log (demo_after n))) <$> seq 0 4 = [0; 2; 3; 5]%nat ∧
  ∃ new, cs_Log (demo_after 3) = cs_Log (demo_after 2) ++ new ∧
    exchange demo_clock demo_client (demo_after 2) 7 demo_request new (Ok ()).
Proof.
  split; [vm_compute; reflexivity|].
  assert (reachable demo_clock demo_client (demo_after 2)) as Hr.
  { exact (reachable_step _ _ _ 7 demo_request (reachable_step _ _ _ 7 demo_request (reachable_initial _ _))). }
  assert (perform demo_clock (ForInstallation demo_client 7) demo_request (demo_after 2) = (Ok (), demo_after 3)) as E
    by (vm_compute; reflexivity).
  exact (requests_authorized demo_clock _ _ _ _ _ _ Hr E).
Defined.

Lemma app_jwt_verifies_witness :
  ∃ jwt header claims segment signature,
    (appJWT demo_clock (cl_authenticator demo_client) initial).1 = Ok jwt ∧
    Split "." jwt = [header; claims; segment] ∧
    RawURLDecode header = Some jwt_header ∧
    RawURLDecode segment = Some signature ∧
    Verify (rsaSHA256Verifier "k") (header +:+ "." +:+ claims) signature = Ok ().
Proof.
  destruct (appJWT demo_clock (cl_authenticator demo_client) initial) as [[jwt|e] s'] eqn:E; [|vm_compute in E; discriminate E].
  destruct (app_jwt_verifies (HC := plain_crypto) demo_clock (cl_authenticator demo_client) "k" initial jwt s') as (h & c & g & sg & H1 & H2 & _ & H4 & H5).
  - intros sum signature [= <-]. by apply bool_decide_eq_true_2.
  - exact E.
  - exists jwt, h, c, g, sg. split; [reflexivity|]. exact (conj H1 (conj H2 (conj H4 H5))).
Defined.
End demo.
