(* ===== verification/Postgres.v ===== *)
(** [internal/store/postgres.go]: the repository over PostgreSQL.

    The tables are those of [postgres_migrations.go], keyed by their primary keys,
    and each statement of the code is a function on them that may fail.  The server
    is an environment: it may refuse any statement, or carry it out and lose the
    answer; a transaction that is not committed leaves no trace.  What the tables
    hold, and how this repository relates to the contract and to the memory
    repository, is in [PostgresView]. *)
From stdpp Require Import base list gmap strings sorting.
From S2P Require Import Prelude GoStrings Domain Events Store.

Local Open Scope string_scope.
Local Open Scope list_scope.
Local Open Scope Z_scope.

(** ** Tables *)

Record PacketRow := mkPacketRow {
  pk_repo_full_name : string;
  pk_pr_number : Z;
  pk_head_sha : option string;
  pk_author_login : string;
  pk_merge_lane : string;
  pk_risk_score : Z;
  pk_decision_status : string;
  pk_payload : string;
  pk_created_at : Time;
  pk_updated_at : Time;
}.

Record EventRow := mkEventRow {
  ev_event_type : string;
  ev_source : string;
  ev_correlation_id : string;
  ev_causation_id : string;
  ev_change_packet_id : string;
  ev_payload : string;
  ev_created_at : Time;
}.

(** The columns that a statement leaves out are null. *)
Record ExecutionRow := mkExecutionRow {
  ex_evidence_type : string;
  ex_status : string;
  ex_required : bool;
  ex_summary : option string;
  ex_details_url : option string;
  ex_updated_by : option string;
  ex_metadata : string;
  ex_updated_at : Time;
}.

Record AuditRow := mkAuditRow {
  au_change_packet_id : string;
  au_evidence_name : string;
  au_from_status : string;
  au_to_status : string;
  au_actor : string;
  au_summary : string;
  au_details_url : string;
  au_metadata : string;
  au_occurred_at : Time;
}.

Record OutcomeRow := mkOutcomeRow {
  ou_change_packet_id : string;
  ou_outcome : string;
  ou_source : string;
  ou_lane : string;
  ou_risk_types : string;
  ou_observed_at : Time;
}.

(** The executions are keyed by the packet and the name; the tables that are only
    inserted into are kept in the order of the inserts. *)
Record Tables := mkTables {
  t_change_packets : gmap string PacketRow;
  t_event_log : gmap string EventRow;
  t_evidence_executions : gmap string (gmap string ExecutionRow);
  t_evidence_audit_entries : list (string * AuditRow);
  t_deployment_outcomes : list (string * OutcomeRow);
}.

(** ** The server *)

(** What comes back from the n-th round trip: it was done, it was not, or it was and
    the answer got lost. *)
Inductive Outcome :=
  | Done
  | Refused (err : string)
  | Lost (err : string).

(** A [timestamptz] keeps microseconds, [jsonb] a normal form of the text (or
    refuses it), texts are ordered by the collation of the database, and a table is
    scanned in any order.  [encoding/json] is a parameter as elsewhere; the errors
    of decoding metadata and risk types are ignored by the code, so the decoders
    give what is left then. *)
Class PostgresServer := {
  Answer : nat → Outcome;
  StoredTime : Time → Time;
  stored_time_close t : Z.abs (StoredTime t - t) < 1000;
  stored_time_mono t u : t ≤ u → StoredTime t ≤ StoredTime u;
  jsonb : string → result string string;
  text_le : relation string;
  text_le_dec :: RelDecision text_le;
  text_le_total :: Total text_le;
  scanned {A} : list A → list A;
  scanned_perm {A} (l : list A) : scanned l ≡ₚ l;
  MarshalPacket : ChangePacket → result string string;
  UnmarshalPacket : string → result string ChangePacket;
  MarshalEnvelope : Envelope → result string string;
  MarshalMetadata : gmap string string → result string string;
  UnmarshalMetadata : string → gmap string string;
  null_metadata payload : jsonb "null" = Ok payload → UnmarshalMetadata payload = ∅;
  MarshalRiskTypes : list RiskType → result string string;
  UnmarshalRiskTypes : string → list RiskType;
}.

(** What is committed (inside a transaction, what it sees) and the number of round
    trips so far.  The tables of the repository are one thing a server holds, the
    schema they have is another ([Migrations]). *)
Record Database (T : Type) := mkDB {
  db_tables : T;
  db_trips : nat;
}.
Arguments mkDB {T}.
Arguments db_tables {T}.
Arguments db_trips {T}.
Abbreviation DB := (Database Tables).

Section server.
Context `{HP : PostgresServer} {T : Type}.

Definition Statement := T → result string T.

Definition after (t : T) (s : Database T) : Database T := mkDB t (S (db_trips s)).

(** [ExecContext], on the database or in a transaction. *)
Definition ExecContext (statement : Statement) : stateE (Database T) StoreError () := λ s,
  match Answer (db_trips s), statement (db_tables s) with
  | Done, Ok t => (Ok (), after t s)
  | Done, Err err | Refused err, _ | Lost err, Err _ => (Err (Backend err), after (db_tables s) s)
  | Lost err, Ok t => (Err (Backend err), after t s)
  end.

Definition QueryContext {A} (select : T → A) : stateE (Database T) StoreError A := λ s,
  match Answer (db_trips s) with
  | Done => (Ok (select (db_tables s)), after (db_tables s) s)
  | Refused err | Lost err => (Err (Backend err), after (db_tables s) s)
  end.

(** [BeginTx], the body, [Commit], and the deferred [Rollback]. *)
Definition transaction (body : stateE (Database T) StoreError ()) : stateE (Database T) StoreError () := λ s,
  match Answer (db_trips s) with
  | Refused err | Lost err => (Err (Backend err), after (db_tables s) s)
  | Done =>
      match body (after (db_tables s) s) with
      | (Err e, s2) => (Err e, mkDB (db_tables s) (db_trips s2))
      | (Ok _, s2) =>
          match Answer (db_trips s2) with
          | Done => (Ok (), after (db_tables s2) s2)
          | Refused err => (Err (Backend err), after (db_tables s) s2)
          | Lost err => (Err (Backend err), after (db_tables s2) s2)
          end
      end
  end.

(** All of a statement, or nothing and an error. *)
Definition all_or_nothing (statement : Statement) (s : Database T) (r : result StoreError ()) (s' : Database T) : Prop :=
  statement (db_tables s) = Ok (db_tables s') ∨ r ≠ Ok () ∧ db_tables s' = db_tables s.

Lemma ExecContext_inv statement s r s' : ExecContext statement s = (r, s') → all_or_nothing statement s r s'.
Proof.
  unfold ExecContext, all_or_nothing.
  destruct (Answer _), (statement (db_tables s)) eqn:E; intros [= <- <-]; cbn; auto.
Qed.

Lemma ExecContext_ok statement s u s' :
  ExecContext statement s = (Ok u, s') → statement (db_tables s) = Ok (db_tables s').
Proof. destruct u. by intros [H|[H _]]%ExecContext_inv. Qed.

Lemma transaction_inv body statement s r s' :
  (∀ s1 u s2, body s1 = (Ok u, s2) → statement (db_tables s1) = Ok (db_tables s2)) →
  transaction body s = (r, s') → all_or_nothing statement s r s'.
Proof.
  intros Hb. unfold transaction, all_or_nothing.
  destruct (Answer (db_trips s)) as [|err|err]; [|intros [= <- <-]; auto..].
  destruct (body _) as [[u|e] s2] eqn:E; [|intros [= <- <-]; auto].
  apply Hb in E. destruct (Answer (db_trips s2)); intros [= <- <-]; auto.
Qed.

Lemma Query_done {A} (select : T → A) s :
  Answer (db_trips s) = Done → (QueryContext select s).1 = Ok (select (db_tables s)).
Proof. unfold QueryContext. by intros ->. Qed.

Lemma Query_bind {A B} (select : T → A) (k : A → stateE (Database T) StoreError B) s :
  Answer (db_trips s) = Done →
  (QueryContext select ≫= k) s = k (select (db_tables s)) (after (db_tables s) s).
Proof. unfold QueryContext, mbind, stateE_bind. by intros ->. Qed.
End server.
Arguments Statement : clear implicits.

Section postgres.
Context `{HP : PostgresServer}.
(** The clock, by the round trips so far. *)
Context (Now : nat → Time).

Definition read_time : stateE DB StoreError Time := λ s, (Ok (Now (db_trips s)), s).

(** A column of type [integer]. *)
Definition int4 (n : Z) : result string Z :=
  if (- 2 ^ 31 <=? n) && (n <? 2 ^ 31) then Ok n else Err "integer out of range".

(** The rows of a table, in the order they are found in; [order by] sorts them. *)
Definition rows {A} (table : gmap string A) : list (string * A) := scanned (map_to_list table).

Definition limit_or (fallback limit : Z) : nat := Z.to_nat (if limit <=? 0 then fallback else limit).

(** ** Change packets *)

Definition upsert_packet (packet : ChangePacket) (payload : string) : Statement Tables := λ t,
  number ← int4 (pr_Number (cp_PR packet));
  score ← int4 (rs_Score (cp_RiskSummary_ packet));
  payload ← jsonb payload;
  let updated := StoredTime (cp_UpdatedAt packet) in
  let row :=
    match t_change_packets t !! cp_ID packet with
    | None => mkPacketRow (repo_FullName (cp_Repo packet)) number (Some (pr_HeadSHA (cp_PR packet)))
                (author_Login (cp_Author_ packet)) (cp_MergeLane_ packet) score (pd_Status (cp_Decision packet)) payload
                (StoredTime (cp_CreatedAt packet)) updated
    | Some old => mkPacketRow (pk_repo_full_name old) (pk_pr_number old) (Some (pr_HeadSHA (cp_PR packet)))
                    (pk_author_login old) (cp_MergeLane_ packet) score (pd_Status (cp_Decision packet)) payload
                    (pk_created_at old) updated
    end in
  Ok (mkTables (<[cp_ID packet := row]> (t_change_packets t)) (t_event_log t) (t_evidence_executions t)
        (t_evidence_audit_entries t) (t_deployment_outcomes t)).

Definition set_execution (packetID name : string) (row : ExecutionRow) (t : Tables) : Tables :=
  mkTables (t_change_packets t) (t_event_log t)
    (<[packetID := <[name := row]> (default ∅ (t_evidence_executions t !! packetID))]> (t_evidence_executions t))
    (t_evidence_audit_entries t) (t_deployment_outcomes t).

Definition find_execution (packetID name : string) (t : Tables) : option ExecutionRow :=
  default ∅ (t_evidence_executions t !! packetID) !! name.

Definition sync_requirement (packet : ChangePacket) (requirement : EvidenceRequirement) : Statement Tables := λ t,
  metadata ← jsonb "null";
  let row :=
    match find_execution (cp_ID packet) (er_Name requirement) t with
    | None => mkExecutionRow (er_Type_ requirement) EvidencePending (er_Required requirement) None None
                (Some "merger") metadata (StoredTime (cp_UpdatedAt packet))
    | Some old => mkExecutionRow (er_Type_ requirement) (ex_status old) (er_Required requirement) (ex_summary old)
                    (ex_details_url old) (ex_updated_by old) (ex_metadata old) (ex_updated_at old)
    end in
  Ok (set_execution (cp_ID packet) (er_Name requirement) row t).

Fixpoint syncEvidenceRequirements (packet : ChangePacket) (requirements : list EvidenceRequirement)
    : stateE DB StoreError () :=
  match requirements with
  | [] => mret ()
  | requirement :: rest =>
      ExecContext (sync_requirement packet requirement) ;;
      syncEvidenceRequirements packet rest
  end.

Definition pg_SaveChangePacket (packet : ChangePacket) : stateE DB StoreError () :=
  payload ← liftE (map_err Backend (MarshalPacket packet));
  transaction (
    ExecContext (upsert_packet packet payload) ;;
    syncEvidenceRequirements packet (cp_Evidence packet)).

(** [select payload ...], decoded. *)
Definition pg_GetChangePacket (id : string) : stateE DB StoreError ChangePacket :=
  found ← QueryContext (λ t, pk_payload <$> t_change_packets t !! id);
  match found with
  | None => throw ErrChangePacketNotFound
  | Some payload => liftE (map_err Backend (UnmarshalPacket payload))
  end.

Definition row_newer (a b : string * PacketRow) : Prop := pk_updated_at b.2 ≤ pk_updated_at a.2.
#[export] Instance row_newer_dec a b : Decision (row_newer a b).
Proof using Type. unfold row_newer. apply _. Defined.

Definition select_head (repoFullName : string) (prNumber : Z) (headSHA : string) (r : string * PacketRow) : Prop :=
  pk_repo_full_name r.2 = repoFullName ∧ pk_pr_number r.2 = prNumber ∧ pk_head_sha r.2 = Some headSHA.
#[export] Instance select_head_dec repo number sha r : Decision (select_head repo number sha r).
Proof using Type. unfold select_head. apply _. Defined.

Definition pg_FindLatestChangePacket (repoFullName : string) (prNumber : Z) (headSHA : string)
    : stateE DB StoreError ChangePacket :=
  found ← QueryContext (λ t,
    head (merge_sort row_newer (filter (select_head repoFullName prNumber headSHA) (rows (t_change_packets t)))));
  match found with
  | None => throw ErrChangePacketNotFound
  | Some (_, row) => liftE (map_err Backend (UnmarshalPacket (pk_payload row)))
  end.

Definition pg_ListChangePackets (limit : Z) : stateE DB StoreError (list ChangePacket) :=
  found ← QueryContext (λ t, take (limit_or 50 limit) (merge_sort row_newer (rows (t_change_packets t))));
  liftE (map_err Backend (mapM (λ r, UnmarshalPacket (pk_payload r.2)) found)).

(** ** Events *)

Definition insert_event (now : Time) (event : Envelope) (payload : string) : Statement Tables := λ t,
  payload ← jsonb payload;
  match t_event_log t !! env_ID event with
  | Some _ => Ok t
  | None =>
      Ok (mkTables (t_change_packets t)
            (<[env_ID event := mkEventRow (env_Type event) (env_Source event) (env_CorrelationID event)
                 (env_CausationID event) (env_ChangePacketID event) payload (StoredTime now)]> (t_event_log t))
            (t_evidence_executions t) (t_evidence_audit_entries t) (t_deployment_outcomes t))
  end.

Definition pg_SaveEvent (event : Envelope) : stateE DB StoreError () :=
  payload ← liftE (map_err Backend (MarshalEnvelope event));
  now ← read_time;
  ExecContext (insert_event now event payload).

(** ** Evidence *)

Definition upsert_execution (execution : EvidenceExecution) (metadata : string) : Statement Tables := λ t,
  metadata ← jsonb metadata;
  Ok (set_execution (ee_ChangePacketID execution) (ee_Name execution)
        (mkExecutionRow (ee_Type_ execution) (ee_Status execution) (ee_Required execution)
           (Some (ee_Summary execution)) (Some (ee_DetailsURL execution)) (Some (ee_UpdatedBy execution)) metadata
           (StoredTime (ee_UpdatedAt execution))) t).

Definition upsertEvidenceExecution (now : Time) (execution : EvidenceExecution) : stateE DB StoreError () :=
  metadata ← liftE (map_err Backend (MarshalMetadata (ee_Metadata execution)));
  ExecContext (upsert_execution (stamped now execution) metadata).

Definition pg_UpsertEvidenceExecution (now : Time) (execution : EvidenceExecution) : stateE DB StoreError () :=
  upsertEvidenceExecution now execution.

Definition insert_audit (audit : EvidenceAuditEntry) (metadata : string) : Statement Tables := λ t,
  metadata ← jsonb metadata;
  if decide (ea_ID audit ∈ (t_evidence_audit_entries t).*1) then Err "duplicate key value violates unique constraint"
  else
    let row := mkAuditRow (ea_ChangePacketID audit) (ea_EvidenceName audit) (ea_FromStatus audit) (ea_ToStatus audit)
                 (ea_Actor audit) (ea_Summary audit) (ea_DetailsURL audit) metadata (StoredTime (ea_OccurredAt audit)) in
    Ok (mkTables (t_change_packets t) (t_event_log t) (t_evidence_executions t)
          (t_evidence_audit_entries t ++ [(ea_ID audit, row)]) (t_deployment_outcomes t)).

Definition pg_RecordEvidenceUpdate (now : Time) (execution : EvidenceExecution) (audit : EvidenceAuditEntry)
    : stateE DB StoreError () :=
  transaction (
    upsertEvidenceExecution now execution ;;
    metadata ← liftE (map_err Backend (MarshalMetadata (ea_Metadata audit)));
    ExecContext (insert_audit audit metadata)).

(** [if len(metadata) > 0 { _ = json.Unmarshal(...) }]. *)
Definition scan_metadata (metadata : string) : gmap string string :=
  if decide (metadata = "") then ∅ else UnmarshalMetadata metadata.

Definition scan_audit (r : string * AuditRow) : EvidenceAuditEntry :=
  let '(id, row) := r in
  mkEvidenceAuditEntry id (au_change_packet_id row) (au_evidence_name row) (au_from_status row) (au_to_status row)
    (au_actor row) (au_summary row) (au_details_url row) (scan_metadata (au_metadata row)) (au_occurred_at row).

(** [order by occurred_at desc, id desc]. *)
Definition audit_newer (a b : string * AuditRow) : Prop :=
  au_occurred_at b.2 < au_occurred_at a.2 ∨ au_occurred_at b.2 = au_occurred_at a.2 ∧ text_le b.1 a.1.
#[export] Instance audit_newer_dec a b : Decision (audit_newer a b).
Proof using Type. unfold audit_newer. apply _. Defined.

Definition pg_ListEvidenceAuditEntries (changePacketID : string) (limit : Z)
    : stateE DB StoreError (list EvidenceAuditEntry) :=
  QueryContext (λ t, scan_audit <$> take (limit_or 50 limit)
    (merge_sort audit_newer
       (filter (λ r, au_change_packet_id r.2 = changePacketID) (scanned (t_evidence_audit_entries t))))).

Definition scan_execution (packetID : string) (r : string * ExecutionRow) : EvidenceExecution :=
  let '(name, row) := r in
  mkEvidenceExecution packetID name (ex_evidence_type row) (ex_status row) (ex_required row)
    (default "" (ex_summary row)) (default "" (ex_details_url row)) (default "" (ex_updated_by row))
    (scan_metadata (ex_metadata row)) (ex_updated_at row).

Definition row_name_le (a b : string * ExecutionRow) : Prop := text_le a.1 b.1.
#[export] Instance row_name_le_dec a b : Decision (row_name_le a b).
Proof using Type. unfold row_name_le. apply _. Defined.

Definition pg_ListEvidenceExecutions (changePacketID : string) : stateE DB StoreError (list EvidenceExecution) :=
  QueryContext (λ t, scan_execution changePacketID <$>
    merge_sort row_name_le (rows (default ∅ (t_evidence_executions t !! changePacketID)))).

(** ** Outcomes *)

Definition insert_outcome (outcome : DeploymentOutcome) (risk_types : string) : Statement Tables := λ t,
  risk_types ← jsonb risk_types;
  if decide (do_ID outcome ∈ (t_deployment_outcomes t).*1) then Err "duplicate key value violates unique constraint"
  else
    let row := mkOutcomeRow (do_ChangePacketID outcome) (do_Outcome outcome) (do_Source outcome) (do_Lane outcome)
                 risk_types (StoredTime (do_ObservedAt outcome)) in
    Ok (mkTables (t_change_packets t) (t_event_log t) (t_evidence_executions t) (t_evidence_audit_entries t)
          (t_deployment_outcomes t ++ [(do_ID outcome, row)])).

Definition pg_SaveDeploymentOutcome (outcome : DeploymentOutcome) : stateE DB StoreError () :=
  risk_types ← liftE (map_err Backend (MarshalRiskTypes (do_RiskTypes outcome)));
  ExecContext (insert_outcome outcome risk_types).

Definition scan_risk_types (risk_types : string) : list RiskType :=
  if decide (risk_types = "") then [] else UnmarshalRiskTypes risk_types.

Definition scan_outcome (r : string * OutcomeRow) : DeploymentOutcome :=
  let '(id, row) := r in
  mkDeploymentOutcome id (ou_change_packet_id row) (ou_outcome row) (ou_source row) (ou_lane row)
    (scan_risk_types (ou_risk_types row)) (ou_observed_at row).

Definition outcome_row_newer (a b : string * OutcomeRow) : Prop := ou_observed_at b.2 ≤ ou_observed_at a.2.
#[export] Instance outcome_row_newer_dec a b : Decision (outcome_row_newer a b).
Proof using Type. unfold outcome_row_newer. apply _. Defined.

Definition pg_ListDeploymentOutcomes (limit : Z) : stateE DB StoreError (list DeploymentOutcome) :=
  QueryContext (λ t, scan_outcome <$>
    take (limit_or 1000 limit) (merge_sort outcome_row_newer (scanned (t_deployment_outcomes t)))).

(** The second implementation of the interface. *)
#[export] Instance postgres_repository : Repository DB := {|
  SaveChangePacket := λ _, pg_SaveChangePacket;
  GetChangePacket := pg_GetChangePacket;
  FindLatestChangePacket := pg_FindLatestChangePacket;
  ListChangePackets := pg_ListChangePackets;
  SaveEvent := pg_SaveEvent;
  UpsertEvidenceExecution := pg_UpsertEvidenceExecution;
  ListEvidenceExecutions := pg_ListEvidenceExecutions;
  RecordEvidenceUpdate := pg_RecordEvidenceUpdate;
  ListEvidenceAuditEntries := pg_ListEvidenceAuditEntries;
  SaveDeploymentOutcome := pg_SaveDeploymentOutcome;
  ListDeploymentOutcomes := pg_ListDeploymentOutcomes |}.

(** ** Writes, and the statement each of them amounts to *)

Inductive Write :=
  | PacketWrite (packet : ChangePacket)
  | EventWrite (event : Envelope)
  | ExecutionWrite (execution : EvidenceExecution)
  | UpdateWrite (execution : EvidenceExecution) (audit : EvidenceAuditEntry)
  | OutcomeWrite (outcome : DeploymentOutcome).

Definition write {R} `{Repository R} (now : Time) (w : Write) : stateE R StoreError () :=
  match w with
  | PacketWrite packet => SaveChangePacket now packet
  | EventWrite event => SaveEvent event
  | ExecutionWrite execution => UpsertEvidenceExecution now execution
  | UpdateWrite execution audit => RecordEvidenceUpdate now execution audit
  | OutcomeWrite outcome => SaveDeploymentOutcome outcome
  end.

Definition written (n : nat) (now : Time) (w : Write) : Statement Tables := λ t,
  match w with
  | PacketWrite packet =>
      payload ← MarshalPacket packet;
      t ← upsert_packet packet payload t;
      foldM (λ t requirement, sync_requirement packet requirement t) t (cp_Evidence packet)
  | EventWrite event => payload ← MarshalEnvelope event; insert_event (Now n) event payload t
  | ExecutionWrite execution =>
      metadata ← MarshalMetadata (ee_Metadata execution); upsert_execution (stamped now execution) metadata t
  | UpdateWrite execution audit =>
      metadata ← MarshalMetadata (ee_Metadata execution);
      t ← upsert_execution (stamped now execution) metadata t;
      metadata ← MarshalMetadata (ea_Metadata audit);
      insert_audit audit metadata t
  | OutcomeWrite outcome => risk_types ← MarshalRiskTypes (do_RiskTypes outcome); insert_outcome outcome risk_types t
  end.

Lemma sync_ok packet requirements s u s' :
  syncEvidenceRequirements packet requirements s = (Ok u, s') →
  foldM (λ t requirement, sync_requirement packet requirement t) (db_tables s) requirements = Ok (db_tables s').
Proof.
  revert s. induction requirements as [|q rest IH]; intros s; cbn; [by intros [= _ <-]|].
  intros [([] & s1 & H1%ExecContext_ok & H2)|(e & _ & [=])]%stateE_bind_inv.
  rewrite H1. cbn. by apply IH.
Qed.

Lemma upsert_inv now e s r s' :
  upsertEvidenceExecution now e s = (r, s') →
  all_or_nothing (λ t, metadata ← MarshalMetadata (ee_Metadata e); upsert_execution (stamped now e) metadata t) s r s'.
Proof using Type.
  intros [(text & s1 & [= Hm%map_err_ok <-] & H%ExecContext_inv)|(err & [= Hm <-] & ->)]%stateE_bind_inv; [|by right].
  revert H. unfold all_or_nothing. by rewrite Hm.
Qed.

(** Every write of the repository is all or nothing, and all when it succeeds. *)
Lemma write_inv now w s r s' : write now w s = (r, s') → all_or_nothing (written (db_trips s) now w) s r s'.
Proof.
  destruct w as [packet|event|execution|execution audit|outcome]; cbn [write SaveChangePacket SaveEvent
    UpsertEvidenceExecution RecordEvidenceUpdate SaveDeploymentOutcome postgres_repository].
  - unfold pg_SaveChangePacket, liftE.
    intros [(payload & s1 & [= Hp <-] & H)|(e & [= Hp <-] & ->)]%stateE_bind_inv; [|by right].
    apply map_err_ok in Hp. revert H. apply transaction_inv. intros s1 u s2.
    intros [([] & s3 & H1%ExecContext_ok & H2%sync_ok)|(e & _ & [=])]%stateE_bind_inv.
    cbn. rewrite Hp. cbn. rewrite H1. done.
  - unfold pg_SaveEvent, liftE.
    intros [(payload & s1 & [= Hp <-] & H)|(e & [= Hp <-] & ->)]%stateE_bind_inv; [|by right].
    apply map_err_ok in Hp. apply stateE_bind_inv in H as [(now' & s1 & [= <- <-] & H)|(e & [=] & _)].
    apply ExecContext_inv in H. revert H. unfold all_or_nothing. cbn. by rewrite Hp.
  - by intros H%upsert_inv.
  - apply transaction_inv. intros s1 u s2.
    intros [([] & s3 & [H1|[? _]]%upsert_inv & H2)|(e & _ & [=])]%stateE_bind_inv; [|done].
    apply stateE_bind_inv in H2 as [(text & s4 & [= Hm%map_err_ok <-] & H2%ExecContext_ok)|(e & _ & [=])].
    cbn. apply bind_ok in H1 as (text' & -> & H1). cbn. rewrite H1. cbn. rewrite Hm. exact H2.
  - intros [(text & s1 & [= Hm%map_err_ok <-] & H%ExecContext_inv)|(e & [= Hm <-] & ->)]%stateE_bind_inv; [|by right].
    revert H. unfold all_or_nothing. cbn. by rewrite Hm.
Qed.

(** What fails of a write is the backend. *)
Definition fails_backend {A} (m : stateE DB StoreError A) : Prop := ∀ s e s', m s = (Err e, s') → ∃ err, e = Backend err.

Lemma fails_bind {A B} (m : stateE DB StoreError A) (k : A → stateE DB StoreError B) :
  fails_backend m → (∀ a, fails_backend (k a)) → fails_backend (m ≫= k).
Proof using Type. intros Hm Hk s e s' [(a & s1 & _ & H)|(e' & H & [= ->])]%stateE_bind_inv; [by eapply Hk|by eapply Hm]. Qed.

Lemma fails_ret {A} (a : A) : fails_backend (mret a).
Proof using Type. by intros s e s'. Qed.

Lemma fails_lift {A} (r : result string A) : fails_backend (liftE (map_err Backend r)).
Proof using Type. intros s e s'. unfold liftE. destruct r; intros [= <- <-]. by eexists. Qed.

Lemma fails_exec statement : fails_backend (ExecContext statement).
Proof.
  intros s e s'. unfold ExecContext. destruct (Answer _), (statement (db_tables s)); intros [= <- <-]; by eexists.
Qed.

Lemma fails_transaction body : fails_backend body → fails_backend (transaction body).
Proof.
  intros Hb s e s'. unfold transaction. destruct (Answer _); [|intros [= <- <-]; by eexists..].
  destruct (body _) as [[u|e1] s2] eqn:E; [destruct (Answer _)|]; intros [= <- <-]; by eauto.
Qed.

Lemma write_fails now w : fails_backend (write now w).
Proof.
  assert (∀ packet requirements, fails_backend (syncEvidenceRequirements packet requirements)) as Hsync.
  { intros packet requirements. induction requirements; [apply fails_ret|]. apply fails_bind; [apply fails_exec|done]. }
  assert (∀ e, fails_backend (upsertEvidenceExecution now e)) as Hup.
  { intros e. apply fails_bind; [apply fails_lift|intros; apply fails_exec]. }
  destruct w as [packet|event|execution|execution audit|outcome]; cbn [write SaveChangePacket SaveEvent
    UpsertEvidenceExecution RecordEvidenceUpdate SaveDeploymentOutcome postgres_repository].
  - apply fails_bind; [apply fails_lift|intros payload]. apply fails_transaction, fails_bind; [apply fails_exec|done].
  - apply fails_bind; [apply fails_lift|intros payload]. apply fails_bind; [by intros s e s'|intros; apply fails_exec].
  - apply Hup.
  - apply fails_transaction, fails_bind; [apply Hup|intros]. apply fails_bind; [apply fails_lift|intros; apply fails_exec].
  - apply fails_bind; [apply fails_lift|intros; apply fails_exec].
Qed.
End postgres.

