(* ===== verification/PostgresView.v ===== *)
(** What the database of [Postgres] holds, as a [View] that is read off its tables:
    the repository over PostgreSQL meets the contract of [Store], up to the
    precision of its times, so that the theorems about the clients of a repository
    hold over a database that fails at any point; and its rows agree with the memory
    repository's contents ([agree]) through every write, so that after any history
    the two repositories answer alike. *)
From stdpp Require Import base list gmap strings sorting.
From S2P Require Import Prelude GoStrings Domain Events Store Postgres.

Local Open Scope string_scope.
Local Open Scope list_scope.
Local Open Scope Z_scope.

(** ** The view *)

Section view.
Context `{HP : PostgresServer}.

Definition ok_of {E A} (r : result E A) : option A := match r with Ok a => Some a | Err _ => None end.

Definition row_head (row : PacketRow) : Head := (pk_repo_full_name row, pk_pr_number row, pk_head_sha row).

Definition scan_rows (id : string) (rs : gmap string ExecutionRow) : gmap string EvidenceExecution :=
  map_imap (λ name row, Some (scan_execution id (name, row))) rs.

Definition rows_at (t : Tables) (id : string) : gmap string ExecutionRow := default ∅ (t_evidence_executions t !! id).

(** A packet that is stored has executions, be it none. *)
Definition execution_rows (t : Tables) : gmap string (gmap string ExecutionRow) :=
  t_evidence_executions t ∪ ((λ _, ∅) <$> t_change_packets t).

Definition audit_step (m : gmap string (list EvidenceAuditEntry)) (r : string * AuditRow)
    : gmap string (list EvidenceAuditEntry) :=
  <[au_change_packet_id r.2 := default [] (m !! au_change_packet_id r.2) ++ [scan_audit r]]> m.

Definition db_view (t : Tables) : View := mkView
  (omap (λ row, ok_of (UnmarshalPacket (pk_payload row))) (t_change_packets t))
  (row_head <$> t_change_packets t)
  (map_imap (λ id rs, Some (scan_rows id rs)) (execution_rows t))
  (foldl audit_step ∅ (t_evidence_audit_entries t))
  (scan_outcome <$> t_deployment_outcomes t).

(** *** What the view says *)

Lemma lookup_scan_rows id rs name : scan_rows id rs !! name = (λ row, scan_execution id (name, row)) <$> rs !! name.
Proof. unfold scan_rows. rewrite map_lookup_imap. by destruct (rs !! name). Qed.

Lemma scan_rows_insert id name row rs :
  scan_rows id (<[name := row]> rs) = <[name := scan_execution id (name, row)]> (scan_rows id rs).
Proof.
  apply map_eq. intros n. rewrite lookup_scan_rows. destruct (decide (name = n)) as [<-|].
  - by rewrite !lookup_insert_eq.
  - by rewrite !lookup_insert_ne, lookup_scan_rows by done.
Qed.

Lemma scan_rows_empty id : scan_rows id ∅ = ∅.
Proof. apply map_eq. intros n. by rewrite lookup_scan_rows, !lookup_empty. Qed.

Lemma v_executions_view t id :
  v_executions (db_view t) !! id =
  match t_evidence_executions t !! id, t_change_packets t !! id with
  | None, None => None
  | _, _ => Some (scan_rows id (rows_at t id))
  end.
Proof.
  cbn. unfold execution_rows, rows_at. rewrite map_lookup_imap, lookup_union, lookup_fmap.
  by destruct (t_evidence_executions t !! id), (t_change_packets t !! id).
Qed.

Lemma executions_of_view t id : executions_of (db_view t) id = scan_rows id (rows_at t id).
Proof.
  unfold executions_of. rewrite v_executions_view. unfold rows_at.
  destruct (t_evidence_executions t !! id), (t_change_packets t !! id); cbn; by rewrite ?scan_rows_empty.
Qed.

Lemma audit_of_view t id :
  audit_of (db_view t) id = scan_audit <$> filter (λ r, au_change_packet_id r.2 = id) (t_evidence_audit_entries t).
Proof.
  unfold audit_of. cbn. induction (t_evidence_audit_entries t) as [|r rs IH] using rev_ind; [cbn; by rewrite lookup_empty|].
  rewrite foldl_app, filter_app, fmap_app, <- IH, filter_cons, filter_nil. cbn [foldl]. unfold audit_step at 1.
  destruct (decide (au_change_packet_id r.2 = id)) as [<-|].
  - by rewrite lookup_insert_eq.
  - by rewrite lookup_insert_ne, app_nil_r.
Qed.

Lemma scan_rows_list id rs :
  scan_execution id <$> map_to_list rs ≡ₚ (map_to_list (scan_rows id rs)).*2.
Proof.
  induction rs as [|name row rs Hn IH] using map_ind; [by rewrite scan_rows_empty, !map_to_list_empty|].
  rewrite scan_rows_insert, !map_to_list_insert; [|by rewrite lookup_scan_rows, Hn|done].
  cbn. by constructor.
Qed.

(** ** The writes, on the view *)

Lemma stamped_metadata now e : ee_Metadata (stamped now e) = ee_Metadata e.
Proof using Type. unfold stamped. by case_decide. Qed.

Definition metadata_reads_back (metadata : gmap string string) : Prop :=
  ∀ text payload, MarshalMetadata metadata = Ok text → jsonb text = Ok payload → scan_metadata payload = metadata.
Definition packet_reads_back (p : ChangePacket) : Prop :=
  ∀ text payload, MarshalPacket p = Ok text → jsonb text = Ok payload → UnmarshalPacket payload = Ok p.
Definition risk_types_read_back (l : list RiskType) : Prop :=
  ∀ text payload, MarshalRiskTypes l = Ok text → jsonb text = Ok payload → scan_risk_types payload = l.

Lemma int4_ok n k : int4 n = Ok k → k = n.
Proof using Type. unfold int4. case_match; naive_solver. Qed.

(** Only the executions of one packet change. *)
Definition touches_only (id : string) (t t' : Tables) : Prop :=
  t_change_packets t' = t_change_packets t ∧
  t_event_log t' = t_event_log t ∧
  t_evidence_audit_entries t' = t_evidence_audit_entries t ∧
  t_deployment_outcomes t' = t_deployment_outcomes t ∧
  ∀ i, i ≠ id → t_evidence_executions t' !! i = t_evidence_executions t !! i.

Lemma touches_only_trans id t1 t2 t3 : touches_only id t1 t2 → touches_only id t2 t3 → touches_only id t1 t3.
Proof using Type.
  unfold touches_only. intros (-> & -> & -> & -> & H1) (? & ? & ? & ? & H2). split_and!; [done..|]. intros. by rewrite H2, H1.
Qed.

Lemma set_execution_touches id name row t : touches_only id t (set_execution id name row t).
Proof using Type. split_and!; [done..|]. intros i Hi. cbn. by rewrite lookup_insert_ne. Qed.

Lemma rows_at_set id name row t : rows_at (set_execution id name row t) id = <[name := row]> (rows_at t id).
Proof using Type. unfold rows_at. cbn. by rewrite lookup_insert_eq. Qed.

Lemma sync_requirement_view p q t t' :
  sync_requirement p q t = Ok t' →
  touches_only (cp_ID p) t t' ∧
  scan_rows (cp_ID p) (rows_at t' (cp_ID p)) =
    sync_step (StoredTime (cp_UpdatedAt p)) p (scan_rows (cp_ID p) (rows_at t (cp_ID p))) q.
Proof.
  unfold sync_requirement. intros (metadata & Hj & [= <-])%bind_ok. split; [apply set_execution_touches|].
  rewrite rows_at_set, scan_rows_insert. unfold sync_step. f_equal.
  rewrite lookup_scan_rows. change (find_execution _ _ t) with (rows_at t (cp_ID p) !! er_Name q).
  destruct (rows_at t (cp_ID p) !! er_Name q) as [old|]; [done|]. cbn. f_equal.
  unfold scan_metadata. case_decide; [done|]. by apply null_metadata.
Qed.

Lemma sync_view p requirements t t' :
  foldM (λ t q, sync_requirement p q t) t requirements = Ok t' →
  touches_only (cp_ID p) t t' ∧
  scan_rows (cp_ID p) (rows_at t' (cp_ID p)) =
    foldl (sync_step (StoredTime (cp_UpdatedAt p)) p) (scan_rows (cp_ID p) (rows_at t (cp_ID p))) requirements.
Proof.
  revert t. induction requirements as [|q rest IH]; intros t; cbn.
  - by intros [= <-].
  - intros (t1 & [Ht1 Hs1]%sync_requirement_view & [Ht Hs]%IH)%bind_ok. rewrite Hs, Hs1.
    split; [by eapply touches_only_trans|done].
Qed.

Lemma saved_packet_view n Now now p t t' :
  packet_reads_back p → written Now n now (PacketWrite p) t = Ok t' → ∃ row,
  t_change_packets t' = <[cp_ID p := row]> (t_change_packets t) ∧
  UnmarshalPacket (pk_payload row) = Ok p ∧ pk_updated_at row = StoredTime (cp_UpdatedAt p) ∧
  db_view t' = saved_packet (StoredTime (cp_UpdatedAt p)) p (row_head row) (db_view t) ∧
  (same_pull (v_heads (db_view t) !! cp_ID p) p → row_head row = head_of p).
Proof.
  intros Hr. cbn [written].
  intros (text & Htext & (t1 & (number & ->%int4_ok & (score & _ & (payload & Hj & [= <-])%bind_ok)%bind_ok)%bind_ok & Hs)%bind_ok)%bind_ok.
  apply sync_view in Hs as [(Hp & _ & Hau & Ho & Hx) He]. cbn in Hp, Hau, Ho, Hx. set (row := match _ with None => _ | _ => _ end) in Hp.
  assert (pk_payload row = payload ∧ pk_updated_at row = StoredTime (cp_UpdatedAt p)) as [Hpay Hup]
    by (subst row; by case_match).
  assert (UnmarshalPacket (pk_payload row) = Ok p) as Hun by (rewrite Hpay; by eapply Hr).
  exists row. split_and!; [done..| |].
  - assert (v_executions (db_view t') = v_executions (saved_packet (StoredTime (cp_UpdatedAt p)) p (row_head row) (db_view t))) as Hex.
    { apply map_eq. intros id. rewrite v_executions_view. cbn [saved_packet v_executions].
      destruct (decide (cp_ID p = id)) as [<-|Hne].
      - rewrite lookup_insert_eq, executions_of_view, He, Hp, lookup_insert_eq.
        by destruct (t_evidence_executions t' !! cp_ID p).
      - rewrite lookup_insert_ne, v_executions_view, Hx, Hp, lookup_insert_ne by done. unfold rows_at. by rewrite Hx by done. }
    unfold db_view, saved_packet in *. cbn in Hex |- *. rewrite Hex, Hp, Hau, Ho. f_equal.
    + apply omap_insert_Some. by rewrite Hun.
    + apply fmap_insert.
  - cbn. rewrite lookup_fmap. subst row. destruct (t_change_packets t !! cp_ID p) as [old|]; [|done].
    cbn. unfold row_head, head_of. cbn. by intros [-> ->].
Qed.

Lemma upserted_view e text t t' :
  (∀ payload, jsonb text = Ok payload → scan_metadata payload = ee_Metadata e) →
  upsert_execution e text t = Ok t' → db_view t' = saved_execution (kept_execution StoredTime e) (db_view t).
Proof.
  intros Hr (payload & Hj & [= <-])%bind_ok.
  set (row := mkExecutionRow _ _ _ _ _ _ _ _).
  assert (scan_execution (ee_ChangePacketID e) (ee_Name e, row) = kept_execution StoredTime e) as Hscan.
  { unfold kept_execution. subst row. destruct e. cbn in *. by rewrite (Hr _ Hj). }
  assert (v_executions (db_view (set_execution (ee_ChangePacketID e) (ee_Name e) row t)) =
    v_executions (saved_execution (kept_execution StoredTime e) (db_view t))) as Hex.
  { apply map_eq. intros id. rewrite v_executions_view. cbn [saved_execution v_executions].
    change (ee_ChangePacketID (kept_execution _ e)) with (ee_ChangePacketID e).
    change (ee_Name (kept_execution _ e)) with (ee_Name e).
    destruct (decide (ee_ChangePacketID e = id)) as [<-|Hne].
    - rewrite lookup_insert_eq, executions_of_view, rows_at_set, scan_rows_insert, Hscan. cbn. by rewrite lookup_insert_eq.
    - rewrite lookup_insert_ne, v_executions_view by done. cbn. rewrite lookup_insert_ne by done.
      unfold rows_at. cbn. by rewrite lookup_insert_ne. }
  unfold db_view, saved_execution in *. cbn in Hex |- *. by rewrite Hex.
Qed.

Lemma inserted_audit_view a text t t' :
  (∀ payload, jsonb text = Ok payload → scan_metadata payload = ea_Metadata a) →
  insert_audit a text t = Ok t' → db_view t' = appended_audit (kept_audit StoredTime a) (db_view t).
Proof.
  intros Hr (payload & Hj & H)%bind_ok. case_decide; [done|]. injection H as <-.
  unfold db_view, appended_audit, audit_of. cbn. f_equal. rewrite foldl_app. cbn. unfold audit_step at 1. cbn.
  by rewrite (Hr _ Hj).
Qed.

Lemma inserted_outcome_view o text t t' :
  (∀ payload, jsonb text = Ok payload → scan_risk_types payload = do_RiskTypes o) →
  insert_outcome o text t = Ok t' → db_view t' = appended_outcome (kept_outcome StoredTime o) (db_view t).
Proof.
  intros Hr (payload & Hj & H)%bind_ok. case_decide; [done|]. injection H as <-.
  unfold db_view, appended_outcome. cbn. f_equal. rewrite fmap_app. cbn. by rewrite (Hr _ Hj).
Qed.

Lemma updated_view e a Now n now t t' :
  metadata_reads_back (ee_Metadata e) → metadata_reads_back (ea_Metadata a) →
  written Now n now (UpdateWrite e a) t = Ok t' →
  db_view t' = appended_audit (kept_audit StoredTime a)
    (saved_execution (kept_execution StoredTime (stamped now e)) (db_view t)).
Proof.
  intros He Ha (text & Hm & (t1 & H1 & (text2 & Hm2 & H2)%bind_ok)%bind_ok)%bind_ok.
  apply inserted_audit_view in H2 as ->; [|intros; by eapply Ha]. f_equal. eapply upserted_view; [|done].
  intros payload Hj. rewrite stamped_metadata. by eapply He.
Qed.
End view.

(** ** The contract *)

(** What [encoding/json] and [jsonb] make of a value reads back as the value, as it
    does for values whose texts are UTF-8: [encoding/json] replaces other bytes.  The
    agreement with the memory repository below assumes it only of what is written
    ([reads_back]). *)
Class CodecLaws `{HP : PostgresServer} := {
  packets_read_back p : packet_reads_back p;
  all_metadata_reads_back metadata : metadata_reads_back metadata;
  all_risk_types_read_back l : risk_types_read_back l;
}.

Section laws.
Context `{HP : PostgresServer} `{HC : !CodecLaws} (Now : nat → Time).
#[local] Existing Instance postgres_repository.

(** Calls that only query. *)
Definition only_reads {A} (m : stateE DB StoreError A) : Prop := ∀ s r s', m s = (r, s') → db_tables s' = db_tables s.

Lemma reads_query {A} (select : Tables → A) : only_reads (QueryContext select).
Proof using Type. intros s r s'. unfold QueryContext. by destruct (Answer _); intros [= <- <-]. Qed.

(** A query that answers gives what it selects. *)
Lemma query_inv {A} (select : Tables → A) s a s' : QueryContext select s = (Ok a, s') → a = select (db_tables s).
Proof using Type. unfold QueryContext. by destruct (Answer _); intros [= <- <-]. Qed.

Lemma query_failed {A} (select : Tables → A) s e s' : QueryContext select s = (Err e, s') → ∃ err, e = Backend err.
Proof using Type. unfold QueryContext. destruct (Answer _); intros [= <- <-]; by eexists. Qed.

Lemma elem_of_rows {A} (table : gmap string A) id row : (id, row) ∈ rows table ↔ table !! id = Some row.
Proof using Type. unfold rows. by rewrite scanned_perm, elem_of_map_to_list. Qed.

Lemma atomically_written w now s r s' v1 :
  write (H := postgres_repository Now) now w s = (r, s') →
  (written Now (db_trips s) now w (db_tables s) = Ok (db_tables s') → db_view (db_tables s') = v1) →
  atomically r (db_view (db_tables s)) v1 (db_view (db_tables s')).
Proof using Type.
  intros Hw Hv. pose proof (write_inv _ _ _ _ _ _ Hw) as Hinv. destruct r as [[]|e]; cbn.
  - by destruct Hinv as [H|[H _]]; [apply Hv|].
  - destruct (write_fails _ _ _ _ _ _ Hw) as [err ->]. destruct Hinv as [H|[_ ->]]; [right|by left]. eauto.
Qed.

(** The database is a repository for the service. *)
#[export] Program Instance postgres_laws : @RepositoryLaws DB (postgres_repository Now) := {|
  view s := db_view (db_tables s);
  kept_time := StoredTime;
  sync_time _ p := StoredTime (cp_UpdatedAt p) |}.
Next Obligation.
  intros id s r s' [(found & s1 & Hq & H)|(e & Hq & ->)]%stateE_bind_inv;
    pose proof (reads_query _ _ _ _ Hq) as Hs1.
  - apply query_inv in Hq as ->. cbn. rewrite lookup_omap.
    destruct (t_change_packets (db_tables s) !! id) as [row|]; cbn in *.
    + injection H as <- <-. rewrite Hs1. split; [done|]. by destruct (UnmarshalPacket _).
    + injection H as <- <-. by rewrite Hs1.
  - apply query_failed in Hq as [err ->]. by rewrite Hs1.
Qed.
Next Obligation.
  intros repo number sha s r s' [(found & s1 & Hq & H)|(e & Hq & ->)]%stateE_bind_inv;
    pose proof (reads_query _ _ _ _ Hq) as Hs1; cbn beta; [|by rewrite Hs1; apply query_failed in Hq as [err ->]].
  apply query_inv in Hq. destruct found as [[id row]|]; injection H as <- <-; rewrite Hs1; split; try done.
  destruct (UnmarshalPacket (pk_payload row)) as [p|] eqn:Hp; [|done]. cbn.
  assert ((id, row) ∈ filter (select_head repo number sha) (rows (t_change_packets (db_tables s)))) as Hin.
  { rewrite <- (merge_sort_Permutation row_newer). symmetry in Hq. by apply head_Some_elem_of in Hq. }
  apply list_elem_of_filter in Hin as [(Hr & Hn & Hh) Hrow%elem_of_rows]. cbn in Hr, Hn, Hh.
  exists id. rewrite lookup_omap, lookup_fmap, Hrow. cbn. rewrite Hp. unfold row_head. by rewrite Hr, Hn, Hh.
Qed.
Next Obligation.
  intros id s r s' Hq. pose proof (reads_query _ _ _ _ Hq) as Hs1. cbn beta. rewrite Hs1. split; [done|].
  destruct r as [es|]; [|done]. apply query_inv in Hq as ->. rewrite executions_of_view, <- scan_rows_list.
  rewrite merge_sort_Permutation. unfold rows. by rewrite scanned_perm.
Qed.
Next Obligation. intros id limit s r s' Hq%reads_query. cbn beta. by rewrite Hq. Qed.
Next Obligation.
  intros limit s r s' [(found & s1 & Hq%reads_query & [= _ <-])|(e & Hq%reads_query & _)]%stateE_bind_inv; cbn beta; by rewrite Hq.
Qed.
Next Obligation. intros limit s r s' Hq%reads_query. cbn beta. by rewrite Hq. Qed.
Next Obligation.
  intros now p s r s' Hw. cbn.
  destruct (write_inv Now now (PacketWrite p) s r s' Hw) as [Hd|[Hn Ht]].
  - apply saved_packet_view in Hd as (row & _ & _ & _ & Hv & Hh); [|apply packets_read_back].
    exists (row_head row). split; [|done].
    by apply (atomically_written (PacketWrite p) now _ _ _ _ Hw).
  - exists (head_of p). split; [|done]. destruct r as [[]|e]; [done|]. left. by rewrite Ht.
Qed.
Next Obligation.
  intros now e a s r s' Hw. apply (atomically_written (UpdateWrite e a) now _ _ _ _ Hw).
  apply updated_view; apply all_metadata_reads_back.
Qed.
Next Obligation.
  intros o s r s' Hw. apply (atomically_written (OutcomeWrite o) 0 _ _ _ _ Hw).
  intros (text & Hm & H)%bind_ok. eapply inserted_outcome_view; [|done]. intros. by eapply all_risk_types_read_back.
Qed.
End laws.

(** ** Agreement with the memory repository *)

Section agreement.
Context `{HP : PostgresServer} `{HO : MapOrder} (Now : nat → Time).
#[local] Hint Extern 0 (Repository DB) => exact (postgres_repository Now) : typeclass_instances.

(** A row holds a packet, and its columns are the packet's. *)
Definition row_holds (row : PacketRow) (p : ChangePacket) : Prop :=
  UnmarshalPacket (pk_payload row) = Ok p ∧ row_head row = head_of p ∧ pk_updated_at row = StoredTime (cp_UpdatedAt p).

(** The two repositories stamp a new execution with different times; everything
    else of it agrees. *)
Definition same_execution (a b : EvidenceExecution) : Prop := ee_with_UpdatedAt 0 a = ee_with_UpdatedAt 0 b.

Definition same_executions (es es' : gmap string EvidenceExecution) : Prop :=
  ∀ name, option_Forall2 same_execution (es !! name) (es' !! name).

(** Two views, of which the first keeps times as the database does. *)
Record same_contents (v v' : View) : Prop := {
  sc_executions id : same_executions (executions_of v id) (executions_of v' id);
  sc_audit id : audit_of v id = kept_audit StoredTime <$> audit_of v' id;
  sc_outcomes : v_outcomes v = kept_outcome StoredTime <$> v_outcomes v';
}.

Record agree (t : Tables) (m : MemoryRepository) : Prop := {
  agree_packets id : option_Forall2 row_holds (t_change_packets t !! id) (changePackets m !! id);
  agree_contents : same_contents (db_view t) (memory_view m);
  agree_events id : is_Some (t_event_log t !! id) ↔ is_Some (events m !! id);
}.

(** What a write stores can be read back, and a packet that is saved again is of the
    same pull request. *)
Definition reads_back (m : MemoryRepository) (w : Write) : Prop :=
  match w with
  | PacketWrite p => packet_reads_back p ∧ same_pull (head_of <$> changePackets m !! cp_ID p) p
  | EventWrite _ => True
  | ExecutionWrite e => metadata_reads_back (ee_Metadata e)
  | UpdateWrite e a => metadata_reads_back (ee_Metadata e) ∧ metadata_reads_back (ea_Metadata a)
  | OutcomeWrite o => risk_types_read_back (do_RiskTypes o)
  end.

(** *** The writes keep it *)

Lemma option_Forall2_insert {A B} (P : A → B → Prop) (m1 : gmap string A) (m2 : gmap string B) k a b :
  P a b → (∀ i, option_Forall2 P (m1 !! i) (m2 !! i)) →
  ∀ i, option_Forall2 P (<[k:=a]> m1 !! i) (<[k:=b]> m2 !! i).
Proof using Type.
  intros Hp Hm i. destruct (decide (k = i)) as [<-|].
  - rewrite !lookup_insert_eq. by constructor.
  - rewrite !lookup_insert_ne by done. apply Hm.
Qed.

Lemma same_synced now now' p requirements es es' :
  same_executions es es' →
  same_executions (foldl (sync_step now p) es requirements) (foldl (sync_step now' p) es' requirements).
Proof using Type.
  revert es es'. induction requirements as [|q rest IH]; intros es es' H; [done|]. cbn. apply IH.
  intros name. apply option_Forall2_insert; [|done]. unfold synced_execution.
  destruct (H (er_Name q)) as [e e' He|]; [|done]. unfold same_execution in *. destruct e, e'. injection He. by intros; subst.
Qed.

Lemma executions_of_insert v id es packets heads audit outcomes i :
  executions_of (mkView packets heads (<[id := es]> (v_executions v)) audit outcomes) i =
  if decide (id = i) then es else executions_of v i.
Proof using Type.
  unfold executions_of. cbn. case_decide as Hd; [subst; by rewrite lookup_insert_eq|by rewrite lookup_insert_ne].
Qed.

Lemma same_saved_packet now now' p head head' v v' :
  same_contents v v' → same_contents (saved_packet now p head v) (saved_packet now' p head' v').
Proof using Type.
  intros [He Ha Ho]. split; [|done..]. intros id. unfold saved_packet. rewrite !executions_of_insert.
  case_decide; [|done]. by apply same_synced.
Qed.

Lemma same_saved_execution e e' v v' :
  same_execution e e' → same_contents v v' → same_contents (saved_execution e v) (saved_execution e' v').
Proof using Type.
  intros Hee [He Ha Ho]. split; [|done..]. intros id. unfold saved_execution. rewrite !executions_of_insert.
  assert (ee_ChangePacketID e = ee_ChangePacketID e' ∧ ee_Name e = ee_Name e') as [-> ->]
    by (unfold same_execution in Hee; destruct e, e'; by injection Hee).
  case_decide; [|done]. intros name. apply option_Forall2_insert; [done|apply He].
Qed.

Lemma same_appended_audit a v v' :
  same_contents v v' → same_contents (appended_audit (kept_audit StoredTime a) v) (appended_audit a v').
Proof using Type.
  intros [He Ha Ho]. split; [done| |done]. intros id. unfold appended_audit, audit_of at 1 3. cbn.
  destruct (decide (ea_ChangePacketID a = id)) as [<-|Hne].
  - rewrite !lookup_insert_eq. cbn. by rewrite Ha, fmap_app.
  - rewrite !lookup_insert_ne by done. apply Ha.
Qed.

(** The two clocks may differ. *)
Lemma stamped_same now now' e : same_execution (kept_execution StoredTime (stamped now e)) (stamped now' e).
Proof using Type. unfold stamped, same_execution. by case_decide. Qed.

Lemma memory_view_executed now e m :
  memory_view (store_execution now e m) = saved_execution (stamped now e) (memory_view m).
Proof using Type. unfold store_execution, memory_view, saved_execution, stamped. cbn. by case_decide. Qed.

Lemma updated_packets n now e a t t' :
  written Now n now (UpdateWrite e a) t = Ok t' → t_change_packets t' = t_change_packets t ∧ t_event_log t' = t_event_log t.
Proof using Type.
  cbn. intros (text & _ & (t1 & H1 & (text2 & _ & H2)%bind_ok)%bind_ok)%bind_ok.
  apply bind_ok in H1 as (payload & _ & [= <-]). apply bind_ok in H2 as (payload2 & _ & H2).
  case_decide; [done|]. by injection H2 as <-.
Qed.

Lemma saved_packet_events n now p t t' : written Now n now (PacketWrite p) t = Ok t' → t_event_log t' = t_event_log t.
Proof using HO.
  cbn. intros (text & _ & (t1 & H1 & H2)%bind_ok)%bind_ok. apply sync_view in H2 as [(_ & -> & _) _].
  apply bind_ok in H1 as (? & _ & (? & _ & (? & _ & [= <-])%bind_ok)%bind_ok). done.
Qed.

(** A write that both take keeps them in agreement, whatever the clocks. *)
Lemma written_agree n now now' w t m t' :
  agree t m → reads_back m w → written Now n now w t = Ok t' → agree t' (write now' w m).2.
Proof.
  intros [Hp Hc Hev] Hr. destruct w as [p|event|e|e a|o].
  - destruct Hr as [Hr Hsame]. intros Hw.
    destruct (saved_packet_view _ _ _ _ _ _ Hr Hw) as (row & Ht & Hun & Hup & Hv & Hhead). split.
    + rewrite Ht. cbn. apply option_Forall2_insert; [|done]. split_and!; [done| |done]. apply Hhead.
      cbn. rewrite lookup_fmap. destruct (Hp (cp_ID p)) as [old q (_ & Hold & _)|]; [|done].
      change (same_pull (Some (row_head old)) p). by rewrite Hold.
    + rewrite Hv. destruct (save_packet_law now' p m _ _ (surjective_pairing _)) as (head & Hm & _).
      change (memory_view (write now' (PacketWrite p) m).2 = saved_packet now' p head (memory_view m)) in Hm. rewrite Hm.
      by apply same_saved_packet.
    + by rewrite (saved_packet_events _ _ _ _ _ Hw).
  - cbn. intros (payload & _ & (payload' & _ & H)%bind_ok)%bind_ok.
    destruct (_ !! env_ID event) eqn:E; injection H as <-; split; try done; intros id; cbn;
      destruct (decide (env_ID event = id)) as [<-|]; rewrite ?lookup_insert_eq, ?lookup_insert_ne by done; try apply Hev.
    + rewrite E. by split; eexists.
    + by split; eexists.
  - intros (text & Hm & Hu)%bind_ok. split.
    + apply bind_ok in Hu as (payload & _ & [= <-]). exact Hp.
    + erewrite (upserted_view _ text t t'); [|intros; rewrite stamped_metadata; by eapply Hr|done].
      cbn [write UpsertEvidenceExecution memory_repository memory_UpsertEvidenceExecution writes snd].
      rewrite memory_view_executed. apply same_saved_execution; [apply stamped_same|done].
    + apply bind_ok in Hu as (payload & _ & [= <-]). exact Hev.
  - destruct Hr as [Hr1 Hr2]. intros Hw. destruct (updated_packets _ _ _ _ _ _ Hw) as [Hpk He]. split.
    + rewrite Hpk. exact Hp.
    + erewrite updated_view by done.
      change (memory_view (write now' (UpdateWrite e a) m).2) with
        (appended_audit a (memory_view (store_execution now' e m))).
      rewrite memory_view_executed. apply same_appended_audit, same_saved_execution; [apply stamped_same|done].
    + rewrite He. exact Hev.
  - intros (text & Hm & Hw)%bind_ok. split.
    + apply bind_ok in Hw as (payload & _ & H). case_decide; [done|]. injection H as <-. exact Hp.
    + erewrite (inserted_outcome_view _ text); [|intros; by eapply Hr|done]. destruct Hc as [He Ha Ho]. split; [done..|].
      cbn in *. by rewrite Ho, fmap_app.
    + apply bind_ok in Hw as (payload & _ & H). case_decide; [done|]. injection H as <-. exact Hev.
Qed.

(** ** Reads *)

Lemma map_to_list_pointwise {A B C} (f : string * A → C) (g : string * B → C) (m1 : gmap string A) (m2 : gmap string B) :
  (∀ k, option_Forall2 (λ a b, f (k, a) = g (k, b)) (m1 !! k) (m2 !! k)) →
  f <$> map_to_list m1 ≡ₚ g <$> map_to_list m2.
Proof using Type.
  revert m2. induction m1 as [|k a m1 Hk IH] using map_ind; intros m2 Hm.
  - assert (m2 = ∅) as ->; [|by rewrite !map_to_list_empty].
    apply map_empty. intros k. specialize (Hm k). rewrite lookup_empty in Hm. by inversion Hm.
  - pose proof (Hm k) as Hb. rewrite lookup_insert_eq in Hb. inversion Hb as [? b He Ha Hb'|]; subst.
    rewrite <- (insert_delete_id m2 k b) by done.
    rewrite !map_to_list_insert by (done || apply lookup_delete_eq). cbn. rewrite He. constructor.
    apply IH. intros i. destruct (decide (k = i)) as [<-|Hne].
    + rewrite Hk, lookup_delete_eq. constructor.
    + specialize (Hm i). by rewrite lookup_insert_ne in Hm by done; rewrite lookup_delete_ne by done.
Qed.

#[local] Instance row_newer_total : Total row_newer.
Proof using Type. intros a b. unfold row_newer. lia. Qed.
#[local] Instance row_newer_trans : Transitive row_newer.
Proof using Type. intros a b c. unfold row_newer. lia. Qed.
#[local] Instance audit_newer_total : Total audit_newer.
Proof using Type. intros a b. unfold audit_newer. 
  destruct (Z.lt_trichotomy (au_occurred_at b.2) (au_occurred_at a.2)) as [|[?|]], (total text_le a.1 b.1); tauto || lia || auto.
Qed.
#[local] Instance outcome_row_newer_total : Total outcome_row_newer.
Proof using Type. intros a b. unfold outcome_row_newer. lia. Qed.

Lemma get_agree s m id :
  agree (db_tables s) m → Answer (db_trips s) = Done → (GetChangePacket id s).1 = (GetChangePacket id m).1.
Proof.
  intros Ha Hd. cbn [GetChangePacket postgres_repository memory_repository]. unfold pg_GetChangePacket. rewrite Query_bind by done.
  unfold memory_GetChangePacket, reads. cbn.
  destruct (agree_packets _ _ Ha id) as [row p (Hp & _ & _)|]; [|done]. cbn. by rewrite Hp.
Qed.

Lemma find_newest s m repo number sha :
  agree (db_tables s) m → Answer (db_trips s) = Done →
  match (FindLatestChangePacket repo number sha s).1 with
  | Ok p => (∃ id, changePackets m !! id = Some p) ∧ is_candidate repo number sha p ∧
            ∀ id q, changePackets m !! id = Some q → is_candidate repo number sha q →
              StoredTime (cp_UpdatedAt q) ≤ StoredTime (cp_UpdatedAt p)
  | Err e => e = ErrChangePacketNotFound ∧
             ∀ id q, changePackets m !! id = Some q → ¬ is_candidate repo number sha q
  end.
Proof.
  intros Ha Hd. cbn [FindLatestChangePacket postgres_repository]. unfold pg_FindLatestChangePacket. rewrite Query_bind by done.
  set (found := merge_sort _ _).
  assert (∀ id row, (id, row) ∈ found ↔ t_change_packets (db_tables s) !! id = Some row ∧ select_head repo number sha (id, row)) as Hin.
  { intros id row. unfold found. rewrite merge_sort_Permutation, list_elem_of_filter, elem_of_rows. tauto. }
  assert (∀ id q, changePackets m !! id = Some q → is_candidate repo number sha q →
    ∃ row, (id, row) ∈ found ∧ pk_updated_at row = StoredTime (cp_UpdatedAt q)) as Hcand.
  { intros id q Hq (Hc1 & Hc2 & Hc3). pose proof (agree_packets _ _ Ha id) as Hrow. rewrite Hq in Hrow.
    inversion Hrow as [row q' (Hp & Hh & H4) Hrow' Hq'|]; subst. exists row. split; [|done].
    apply Hin. split; [done|]. injection Hh as H1 H2 H3. unfold select_head. cbn. rewrite H1, H2, H3. done. }
  assert (Sorted row_newer found) as Hs.
  { apply (Sorted_merge_sort row_newer). }
  apply Sorted_StronglySorted in Hs; [|apply _].
  destruct found as [|[id row] rest]; cbn.
  - split; [done|]. intros id q Hq Hc. destruct (Hcand id q Hq Hc) as (row & Hr & _). by apply elem_of_nil in Hr.
  - destruct (proj1 (Hin id row) ltac:(set_solver)) as [Hrow (Hs1 & Hs2 & Hs3)].
    pose proof (agree_packets _ _ Ha id) as Hp. rewrite Hrow in Hp.
    inversion Hp as [row' p (Hu & Hh & H4) Hrow' Hp'|]; subst. injection Hh as H1 H2 H3. rewrite Hu. cbn. split_and!; [eauto| |].
    + cbn in *. split_and!; congruence.
    + intros id' q Hq Hc. destruct (Hcand id' q Hq Hc) as (row' & Hr & <-). rewrite <- H4.
      apply elem_of_cons in Hr as [[= -> ->]|Hr]; [done|].
      apply StronglySorted_inv in Hs as [_ Hs]. rewrite Forall_forall in Hs. apply (Hs _ Hr).
Qed.

(** Both find a newest packet of the head commit, as far as stored times tell. *)
Definition found_alike (m : MemoryRepository) (repo : string) (number : Z) (sha : string)
    (r1 r2 : result StoreError ChangePacket) : Prop :=
  match r1, r2 with
  | Ok p, Ok q => (∃ id, changePackets m !! id = Some p) ∧ is_candidate repo number sha p ∧
                  StoredTime (cp_UpdatedAt p) = StoredTime (cp_UpdatedAt q)
  | Err e1, Err e2 => e1 = ErrChangePacketNotFound ∧ e2 = ErrChangePacketNotFound
  | _, _ => False
  end.

Lemma find_agree s m repo number sha :
  agree (db_tables s) m → Answer (db_trips s) = Done →
  found_alike m repo number sha (FindLatestChangePacket repo number sha s).1 (FindLatestChangePacket repo number sha m).1.
Proof.
  intros Ha Hd. pose proof (find_newest s m repo number sha Ha Hd) as H1.
  pose proof (memory_FindLatest_spec repo number sha m) as H2.
  change (memory_FindLatestChangePacket repo number sha m) with (FindLatestChangePacket repo number sha m) in H2.
  unfold found_alike. destruct (FindLatestChangePacket _ _ _ s).1 as [p|e1], (FindLatestChangePacket _ _ _ m).1 as [q|e2].
  - destruct H1 as (Hp & Hc & Hmax), H2 as ([id Hq] & Hcq & Hmaxq). split_and!; [done..|]. destruct Hp as [id' Hp].
    pose proof (Hmax _ _ Hq Hcq). pose proof (stored_time_mono _ _ (Hmaxq _ _ Hp Hc)). lia.
  - destruct H1 as ([id Hp] & Hc & _), H2 as [_ Hn]. by destruct (Hn _ _ Hp).
  - destruct H1 as [_ Hn], H2 as ([id Hq] & Hcq & _). by destruct (Hn _ _ Hq).
  - by destruct H1, H2.
Qed.

(** A listing of the database and the one of the memory repository: the same
    values, which the database orders by their stored time, newest first, and cuts at
    the limit, or at its default when none is given; when the memory repository has
    them in that order already, by times that are stored apart, the answers to a
    limit are the same. *)
Definition listed_alike {A} (kept : A → A) (time : A → Time) (fallback : Z)
    (pg memory : Z → result StoreError (list A)) : Prop :=
  ∃ es, (∀ limit, memory limit = Ok (truncated limit es)) ∧
  (∃ all, all ≡ₚ kept <$> es ∧ Sorted (λ a b, time b ≤ time a) all ∧
     ∀ limit, pg limit = Ok (take (limit_or fallback limit) all)) ∧
  (StronglySorted (λ a b, time b < time a) (kept <$> es) → ∀ limit, 0 < limit →
     ∃ l, memory limit = Ok l ∧ pg limit = Ok (kept <$> l)).

Lemma strictly_sorted_times {A} (time : A → Time) l :
  StronglySorted (λ a b, time b < time a) l → ∀ x y, x ∈ l → y ∈ l → time x = time y → x = y.
Proof using Type.
  induction 1 as [|a l _ IH Ha]; [set_solver|]. rewrite Forall_forall in Ha. intros x y.
  intros [->|Hx]%elem_of_cons [->|Hy]%elem_of_cons He; [done| | |by apply IH].
  - specialize (Ha _ Hy). lia.
  - specialize (Ha _ Hx). lia.
Qed.

Lemma strictly_sorted {A} (time : A → Time) l :
  StronglySorted (λ a b, time b < time a) l → StronglySorted (λ a b, time b ≤ time a) l.
Proof using Type. induction 1 as [|a l _ IH Ha]; constructor; [done|]. eapply Forall_impl; [exact Ha|]. cbn. lia. Qed.

Lemma listed_alike_intro {A} (kept : A → A) (time : A → Time) fallback pg memory es all :
  (∀ limit, memory limit = Ok (truncated limit es)) → all ≡ₚ kept <$> es → Sorted (λ a b, time b ≤ time a) all →
  (∀ limit, pg limit = Ok (take (limit_or fallback limit) all)) → listed_alike kept time fallback pg memory.
Proof using Type.
  intros Hm Hp Hs Hpg. exists es. split; [done|]. split; [by exists all|]. intros Hstrict limit Hl.
  assert (all = kept <$> es) as Heq.
  { apply Sorted_StronglySorted in Hs; [|intros ? ? ? ? ?; lia].
    apply (StronglySorted_unique_strong (λ a b, time b ≤ time a)); [|done| |done].
    - intros x1 x2 H1 H2 H12 H21. rewrite Hp in H1. apply (strictly_sorted_times _ _ Hstrict); [done..|lia].
    - by apply strictly_sorted. }
  eexists. split; [apply Hm|]. rewrite Hpg, Heq. f_equal. unfold limit_or, truncated.
  destruct (Z.leb_spec limit 0); [lia|]. destruct (Z.ltb_spec 0 limit); [|lia]. by rewrite fmap_take.
Qed.

Lemma executions_listed s m id :
  agree (db_tables s) m → Answer (db_trips s) = Done →
  ∃ es es', (ListEvidenceExecutions id s).1 = Ok es ∧ (ListEvidenceExecutions id m).1 = Ok es' ∧
    ee_with_UpdatedAt 0 <$> es ≡ₚ ee_with_UpdatedAt 0 <$> es'.
Proof.
  intros Ha Hd. eexists _, _. split_and!; [by apply Query_done|done|].
  rewrite !merge_sort_Permutation, map_range_perm. unfold rows. rewrite scanned_perm, scan_rows_list.
  rewrite <- !list_fmap_compose. apply map_to_list_pointwise. intros name.
  pose proof (sc_executions _ _ (agree_contents _ _ Ha) id name) as H. by rewrite executions_of_view in H.
Qed.

Lemma audit_listed s m id :
  agree (db_tables s) m → Answer (db_trips s) = Done →
  listed_alike (kept_audit StoredTime) ea_OccurredAt 50
    (λ limit, (ListEvidenceAuditEntries id limit s).1) (λ limit, (ListEvidenceAuditEntries id limit m).1).
Proof.
  intros Ha Hd. eapply listed_alike_intro; [done| | |]; cycle 2.
  - intros limit. cbn [ListEvidenceAuditEntries postgres_repository]. unfold pg_ListEvidenceAuditEntries.
    rewrite Query_done by done. f_equal. apply fmap_take.
  - rewrite merge_sort_Permutation, scanned_perm.
    pose proof (sc_audit _ _ (agree_contents _ _ Ha) id) as H. rewrite audit_of_view in H. rewrite H.
    apply fmap_Permutation. unfold cloneAuditEntry. rewrite list_fmap_id. symmetry. apply reverse_Permutation.
  - eapply (Sorted_fmap scan_audit audit_newer); [|apply (Sorted_merge_sort audit_newer)].
    intros [i a] [j b]. unfold audit_newer. cbn. lia.
Qed.

Lemma outcomes_listed s m :
  agree (db_tables s) m → Answer (db_trips s) = Done →
  listed_alike (kept_outcome StoredTime) do_ObservedAt 1000
    (λ limit, (ListDeploymentOutcomes limit s).1) (λ limit, (ListDeploymentOutcomes limit m).1).
Proof.
  intros Ha Hd. eapply listed_alike_intro; [done| | |]; cycle 2.
  - intros limit. cbn [ListDeploymentOutcomes postgres_repository]. unfold pg_ListDeploymentOutcomes.
    rewrite Query_done by done. f_equal. apply fmap_take.
  - rewrite merge_sort_Permutation, scanned_perm.
    pose proof (sc_outcomes _ _ (agree_contents _ _ Ha)) as H. cbn in H. rewrite H.
    apply fmap_Permutation. by rewrite merge_sort_Permutation.
  - eapply (Sorted_fmap scan_outcome outcome_row_newer); [|apply (Sorted_merge_sort outcome_row_newer)].
    intros [i a] [j b]. done.
Qed.

Lemma Sorted_fmap_inv {A B} (f : A → B) (P : relation B) l : Sorted P (f <$> l) → Sorted (λ a b, P (f a) (f b)) l.
Proof using Type.
  induction l as [|a l IH]; intros Hs; [constructor|]. cbn in Hs. apply Sorted_inv in Hs as [Hs Hd]. constructor; [by apply IH|].
  destruct l as [|b l]; constructor. cbn in Hd. by apply HdRel_inv in Hd.
Qed.

Lemma mapM_fmap_ok {E A B} (f : A → result E B) l k : f <$> l = Ok <$> k → mapM f l = Ok k.
Proof using Type.
  revert k. induction l as [|a l IH]; intros [|b k]; cbn; intros H; simplify_eq; [done|].
  rewrite H. cbn. by rewrite (IH k).
Qed.

Lemma packets_listed s m :
  agree (db_tables s) m → Answer (db_trips s) = Done →
  listed_alike id (λ p, StoredTime (cp_UpdatedAt p)) 50
    (λ limit, (ListChangePackets limit s).1) (λ limit, (ListChangePackets limit m).1).
Proof.
  intros Ha Hd. set (t := db_tables s) in *.
  set (decoded := λ r : string * PacketRow, (UnmarshalPacket (pk_payload r.2), pk_updated_at r.2)).
  set (original := λ p, (Ok (E := string) p, StoredTime (cp_UpdatedAt p))).
  assert (decoded <$> merge_sort row_newer (rows (t_change_packets t)) ≡ₚ original <$> (map_to_list (changePackets m)).*2) as Hp.
  { rewrite merge_sort_Permutation. unfold rows. rewrite scanned_perm, <- list_fmap_compose.
    apply map_to_list_pointwise. intros id. destruct (agree_packets _ _ Ha id) as [row p (H1 & _ & H2)|]; constructor.
    unfold decoded, original. cbn. by rewrite H1, H2. }
  apply Permutation_map_inv in Hp as (all & He & Hall). apply (listed_alike_intro _ _ _ _ _
    (merge_sort newer_or_equal (map_range (changePackets m)).*2) all); [done| | |].
  - rewrite list_fmap_id, merge_sort_Permutation, map_range_perm. by symmetry.
  - apply (Sorted_fmap_inv original (λ x y, y.2 ≤ x.2)). change (original <$> all) with (map original all). rewrite <- He.
    apply (Sorted_fmap decoded row_newer); [done|apply (Sorted_merge_sort row_newer)].
  - intros limit. cbn [ListChangePackets postgres_repository]. unfold pg_ListChangePackets. rewrite Query_bind by done. fold t. cbn.
    rewrite (mapM_fmap_ok _ _ (take (limit_or 50 limit) all)); [done|].
    rewrite !fmap_take. f_equal. apply (f_equal (fmap fst)) in He.
    change (map original all) with (original <$> all) in He. rewrite <- !list_fmap_compose in He. exact He.
Qed.

(** ** Histories *)

Definition no_tables : Tables := mkTables ∅ ∅ ∅ [] [].

(** A database, and the memory repository that took the same writes: those the
    database carried out, whether or not the client has heard of it. *)
Inductive history : DB → MemoryRepository → Prop :=
  | history_empty n : history (mkDB no_tables n) NewMemoryRepository
  | history_write s m now now' w r s' :
      history s m → reads_back m w → write now w s = (r, s') →
      written Now (db_trips s) now w (db_tables s) = Ok (db_tables s') → history s' (write now' w m).2
  | history_nothing s m s' : history s m → db_tables s' = db_tables s → history s' m.

Lemma initial_agree : agree no_tables NewMemoryRepository.
Proof.
  split; [intros id; cbn; rewrite lookup_empty; constructor| |intros id; cbn; by rewrite !lookup_empty]. split; [|done..]. intros id name.
  unfold executions_of. cbn. rewrite !lookup_empty. cbn. rewrite lookup_empty. constructor.
Qed.

Lemma history_agree s m : history s m → agree (db_tables s) m.
Proof.
  induction 1 as [n|s m now now' w r s' _ IH Hr _ Hw|s m s' _ IH ->]; [apply initial_agree| |done].
  by eapply written_agree.
Qed.

(** ** Theorems *)

(** C10: every write, the transactions of several statements included, is all or
    nothing: when the contents of the database are those of a memory repository, they
    are afterwards those of the memory repository after the write (row by row: the
    packet and what it is found by, each execution but the time of its stamp, the
    audit entries and the outcomes in the order of their insertion, and which events
    there are), or the client got an error and the tables are as they were.  A failure
    anywhere in between, or an answer that is lost, cannot leave a packet without its
    evidence or an evidence update without its audit entry. *)
Theorem write_all_or_nothing s m now now' w r s' :
  agree (db_tables s) m → reads_back m w → write now w s = (r, s') →
  (agree (db_tables s') (write now' w m).2 ∨ r ≠ Ok () ∧ db_tables s' = db_tables s) ∧
  (r = Ok () → agree (db_tables s') (write now' w m).2).
Proof.
  intros Ha Hr Hw. pose proof (write_inv _ _ _ _ _ _ Hw) as [H|[Hn Ht]].
  - assert (agree (db_tables s') (write now' w m).2) by (by eapply written_agree). auto.
  - split; [by right|done].
Qed.

End agreement.

Section demo.
(** For the witnesses, one packet has an encoding, metadata and risk types are
    empty, times lose their last three digits, and the answer of the commit of the
    second write (round trip 7) is lost. *)
#[local] Existing Instance map_order_sorted.

Definition demo_saved : ChangePacket :=
  cp_with_ID "cp_1" (cp_with_Evidence [mkEvidenceRequirement "test" "integration" true "" "" None] zeroChangePacket).
Definition demo_running : EvidenceExecution :=
  mkEvidenceExecution "cp_1" "integration" "test" EvidenceRunning true "" "" "alice" ∅ 7000.
Definition demo_entry : EvidenceAuditEntry :=
  mkEvidenceAuditEntry "audit_1" "cp_1" "integration" EvidencePending EvidenceRunning "alice" "" "" ∅ 7000.

#[local] Program Instance demo_server : PostgresServer := {|
  Answer n := if decide (n = 7%nat) then Lost "connection reset" else Done;
  StoredTime t := t / 1000 * 1000;
  jsonb := Ok;
  text_le := String.le;
  MarshalPacket p := if decide (cp_ID p = "cp_1") then Ok "the packet" else Err "unsupported";
  scanned A l := l;
  UnmarshalPacket text := if decide (text = "the packet") then Ok demo_saved else Err "syntax";
  MarshalEnvelope e := Ok "";
  MarshalMetadata m := Ok "null";
  UnmarshalMetadata text := ∅;
  MarshalRiskTypes l := Ok "null";
  UnmarshalRiskTypes text := [] |}.
Next Obligation. intros t. cbn. Z.div_mod_to_equations. lia. Qed.
Next Obligation. intros t u. cbn. intros. Z.div_mod_to_equations. lia. Qed.
Next Obligation. done. Qed.
Next Obligation. done. Qed.

Definition demo_db : DB := mkDB no_tables 0.
Definition demo_db1 : DB := (write (H := postgres_repository (λ _, 9)) 5 (PacketWrite demo_saved) demo_db).2.
Definition demo_memory1 : MemoryRepository := (write 6 (PacketWrite demo_saved) NewMemoryRepository).2.

Lemma demo_reads_back : reads_back NewMemoryRepository (PacketWrite demo_saved).
Proof.
  split; [|exact I]. intros text payload H1 H2. injection H1 as <-. injection H2 as <-. reflexivity.
Defined.

Lemma demo_history : history (λ _, 9) demo_db1 demo_memory1.
Proof.
  apply (history_write _ demo_db NewMemoryRepository 5 6 (PacketWrite demo_saved) (Ok ())).
  - apply history_empty.
  - exact demo_reads_back.
  - vm_compute. reflexivity.
  - vm_compute. reflexivity.
Defined.

(** The packet and its evidence are saved; the update of the evidence is carried out
    although its client gets an error. *)
Lemma write_all_or_nothing_witness :
  (write (H := postgres_repository (λ _, 9)) 5 (UpdateWrite demo_running demo_entry) demo_db1).1 =
    Err (Backend "connection reset") ∧
  agree (db_tables (write (H := postgres_repository (λ _, 9)) 5 (UpdateWrite demo_running demo_entry) demo_db1).2)
    (write 6 (UpdateWrite demo_running demo_entry) demo_memory1).2.
Proof.
  destruct (write (H := postgres_repository (λ _, 9)) 5 (UpdateWrite demo_running demo_entry) demo_db1) as [r s'] eqn:E.
  assert (r = Err (Backend "connection reset")) as Hr by (vm_compute in E; by injection E).
  split; [exact Hr|].
  destruct (write_all_or_nothing (λ _, 9) demo_db1 demo_memory1 5 6 (UpdateWrite demo_running demo_entry) r s')
    as [[H|[_ Ht]] _].
  - exact (history_agree _ _ _ demo_history).
  - split; intros text payload H1 H2; injection H1 as <-; injection H2 as <-; reflexivity.
  - exact E.
  - exact H.
  - exfalso. vm_compute in E. injection E as _ <-. vm_compute in Ht. discriminate Ht.
Defined.

End demo.
