(* ===== verification/PostgresService.v ===== *)
(** The control-plane service over PostgreSQL: the theorems about the service are
    proved against the contract of a repository, which the database meets
    ([postgres_laws]), so that they hold whichever statement fails. *)
From stdpp Require Import base list gmap strings sorting.
From S2P Require Import Prelude Domain Identity Store Access ControlPlane Postgres PostgresView.

Local Open Scope string_scope.
Local Open Scope list_scope.
Local Open Scope Z_scope.

Section service.
Context `{HP : PostgresServer} `{HC : !CodecLaws} `{HO : MapOrder} `{HE : Entropy} (Now : nat → Time).
#[local] Hint Extern 0 (Repository DB) => exact (postgres_repository Now) : typeclass_instances.
#[local] Hint Extern 0 (RepositoryLaws DB) => exact (postgres_laws Now) : typeclass_instances.

Lemma no_tables_keyed : view_keyed (db_view no_tables).
Proof using Type.
  split; [intros id p; cbn; by rewrite lookup_omap, lookup_empty|]. intros id name e. rewrite executions_of_view, lookup_scan_rows.
  done.
Qed.

Lemma no_tables_trail : trail_consistent (db_view no_tables).
Proof using Type.
  intros id name. unfold status_of. rewrite executions_of_view, lookup_scan_rows, audit_of_view.
  done.
Qed.

(** Whatever the server refuses, and whichever answers are lost, the audit entries
    that a database was given by the service tell how each evidence came to its
    status. *)
Theorem trail_over_postgres s n requests :
  publisher_keeps_view s →
  let db := foldl (serve s) (mkDB no_tables n) requests in trail_consistent (db_view (db_tables db)).
Proof.
  intros Hpub db.
  assert (view_keyed (view db) ∧ trail_consistent (view db)) as [_ H]; [|exact H].
  subst db. set (db := mkDB no_tables n).
  assert (view_keyed (view db) ∧ trail_consistent (view db)) as Hinit by (split; [apply no_tables_keyed|apply no_tables_trail]).
  clearbody db. revert db Hinit. induction requests as [|q requests IH]; intros db [Hk Ht]; [done|]. apply IH.
  by destruct (serve_inv s db q Hpub Hk Ht) as (? & ? & _).
Qed.
End service.

Section demo.
#[local] Existing Instance map_order_sorted.
#[local] Existing Instance counting_entropy.

(** One packet has an encoding, and so do no metadata and no risk types. *)
#[local] Program Instance flaky_database : PostgresServer := {|
  Answer n := if decide (n = 9%nat) then Lost "connection reset" else Done;
  StoredTime t := t / 1000 * 1000;
  jsonb := Ok;
  text_le := String.le;
  scanned A l := l;
  MarshalPacket p := if decide (p = demo_packet) then Ok "the packet" else Err "unsupported";
  UnmarshalPacket text := if decide (text = "the packet") then Ok demo_packet else Err "syntax";
  MarshalEnvelope e := Ok "";
  MarshalMetadata m := if decide (m = ∅) then Ok "null" else Err "unsupported";
  UnmarshalMetadata text := ∅;
  MarshalRiskTypes l := if decide (l = []) then Ok "null" else Err "unsupported";
  UnmarshalRiskTypes text := [] |}.
Next Obligation. intros t. cbn. Z.div_mod_to_equations. lia. Qed.
Next Obligation. intros t u. cbn. intros. Z.div_mod_to_equations. lia. Qed.
Next Obligation. done. Qed.
Next Obligation. done. Qed.

#[local] Instance flaky_codec : CodecLaws.
Proof.
  split.
  - intros p text payload. cbn. case_decide as Hp; [|done]. by intros [= <-] [= <-]; subst.
  - intros m text payload. cbn. case_decide as Hm; [|done]. by intros [= <-] [= <-]; subst.
  - intros l text payload. cbn. case_decide as Hl; [|done]. by intros [= <-] [= <-]; subst.
Qed.

(** The evidence is recorded with its audit entry although the answer of the commit
    is lost. *)
Example lost_commit_keeps_trail :
  let postgres := postgres_repository (λ _, 9) in
  let service := NewService (W := DB) in
  let db := foldl (serve (HR := postgres) service) (mkDB no_tables 0)
    [SaveRequest 5 demo_packet; UpdateRequest demo_readings demo_writer (demo_execution EvidenceSatisfied)] in
  trail_consistent (db_view (db_tables db)) ∧
  status_of (db_view (db_tables db)) "cp_1" "integration-tests" = EvidenceSatisfied ∧
  ea_ToStatus <$> audit_of (db_view (db_tables db)) "cp_1" = [EvidenceSatisfied].
Proof.
  intros postgres service db. split; [|by vm_compute].
  refine (trail_over_postgres (λ _, 9) service 0 _ _). by intros publish p es w r w'.
Qed.
End demo.
