(* ===== verification/Migrations.v ===== *)
(** [internal/store/postgres_migrations.go] and [Migrate]: the schema the
    statements create, one at a time and not in a transaction, so that a run may
    stop anywhere and another may have to go on from there; and the columns the
    statements of [postgres.go] use of it. *)
From stdpp Require Import base list gmap strings.
From S2P Require Import Prelude Store Postgres.

Local Open Scope string_scope.
Local Open Scope list_scope.
Local Open Scope Z_scope.

(** ** Schemas *)

Record Column := mkColumn {
  col_name : string;
  col_type : string;
  col_not_null : bool;
}.
#[export] Instance Column_eq_dec : EqDecision Column.
Proof. solve_decision. Defined.

Record Table := mkTable {
  tb_columns : list Column;
  tb_primary_key : list string;
}.
#[export] Instance Table_eq_dec : EqDecision Table.
Proof. solve_decision. Defined.

(** A column of an index, in its order. *)
Inductive IndexColumn :=
  | Asc (name : string)
  | Desc (name : string).
#[export] Instance IndexColumn_eq_dec : EqDecision IndexColumn.
Proof. solve_decision. Defined.
Definition ic_name (column : IndexColumn) : string := match column with Asc name | Desc name => name end.

(** An index is known by its name; its table and columns are kept with it. *)
Record Schema := mkSchema {
  sc_tables : gmap string Table;
  sc_indexes : gmap string (string * list IndexColumn);
}.
#[export] Instance Schema_eq_dec : EqDecision Schema.
Proof. solve_decision. Defined.

Definition no_schema : Schema := mkSchema ∅ ∅.

Inductive DDL :=
  | CreateTableIfNotExists (name : string) (table : Table)
  | AddColumnIfNotExists (table : string) (column : Column)
  | CreateIndexIfNotExists (name table : string) (columns : list IndexColumn).

Definition column_names (table : Table) : list string := col_name <$> tb_columns table.

(** What exists under the name stays as it is. *)
Definition apply_ddl (statement : DDL) : Statement Schema := λ s,
  match statement with
  | CreateTableIfNotExists name table =>
      match sc_tables s !! name with
      | Some _ => Ok s
      | None => Ok (mkSchema (<[name := table]> (sc_tables s)) (sc_indexes s))
      end
  | AddColumnIfNotExists name column =>
      match sc_tables s !! name with
      | None => Err "relation does not exist"
      | Some table =>
          if decide (col_name column ∈ column_names table) then Ok s
          else Ok (mkSchema (<[name := mkTable (tb_columns table ++ [column]) (tb_primary_key table)]> (sc_tables s))
                     (sc_indexes s))
      end
  | CreateIndexIfNotExists name on columns =>
      match sc_tables s !! on with
      | None => Err "relation does not exist"
      | Some table =>
          match sc_indexes s !! name with
          | Some _ => Ok s
          | None =>
              if decide (Forall (λ column, ic_name column ∈ column_names table) columns) then
                Ok (mkSchema (sc_tables s) (<[name := (on, columns)]> (sc_indexes s)))
              else Err "column does not exist"
          end
      end
  end.

(** ** The migrations *)

Definition nullable (name type : string) : Column := mkColumn name type false.
Definition not_null (name type : string) : Column := mkColumn name type true.

Definition postgresMigrations : list DDL := [
  CreateTableIfNotExists "merger_change_packets" (mkTable [
    not_null "id" "text"; not_null "repo_full_name" "text"; not_null "pr_number" "integer";
    not_null "author_login" "text"; not_null "merge_lane" "text"; not_null "risk_score" "integer";
    not_null "decision_status" "text"; not_null "payload" "jsonb"; not_null "created_at" "timestamptz";
    not_null "updated_at" "timestamptz"] ["id"]);
  AddColumnIfNotExists "merger_change_packets" (nullable "head_sha" "text");
  CreateIndexIfNotExists "idx_merger_change_packets_repo_pr" "merger_change_packets"
    [Asc "repo_full_name"; Asc "pr_number"];
  CreateIndexIfNotExists "idx_merger_change_packets_exact_head" "merger_change_packets"
    [Asc "repo_full_name"; Asc "pr_number"; Asc "head_sha"; Desc "updated_at"];
  CreateTableIfNotExists "merger_event_log" (mkTable [
    not_null "id" "text"; not_null "event_type" "text"; not_null "source" "text"; nullable "correlation_id" "text";
    nullable "causation_id" "text"; nullable "change_packet_id" "text"; not_null "payload" "jsonb";
    not_null "created_at" "timestamptz"] ["id"]);
  CreateIndexIfNotExists "idx_merger_event_log_change_packet_id" "merger_event_log" [Asc "change_packet_id"];
  CreateIndexIfNotExists "idx_merger_event_log_event_type" "merger_event_log" [Asc "event_type"];
  CreateTableIfNotExists "merger_evidence_executions" (mkTable [
    not_null "change_packet_id" "text"; not_null "evidence_name" "text"; not_null "evidence_type" "text";
    not_null "status" "text"; not_null "required" "boolean"; nullable "summary" "text"; nullable "details_url" "text";
    nullable "updated_by" "text"; nullable "metadata" "jsonb"; not_null "updated_at" "timestamptz"]
    ["change_packet_id"; "evidence_name"]);
  CreateIndexIfNotExists "idx_merger_evidence_executions_change_packet_id" "merger_evidence_executions"
    [Asc "change_packet_id"];
  CreateTableIfNotExists "merger_evidence_audit_entries" (mkTable [
    not_null "id" "text"; not_null "change_packet_id" "text"; not_null "evidence_name" "text";
    not_null "from_status" "text"; not_null "to_status" "text"; nullable "actor" "text"; nullable "summary" "text";
    nullable "details_url" "text"; nullable "metadata" "jsonb"; not_null "occurred_at" "timestamptz"] ["id"]);
  CreateIndexIfNotExists "idx_merger_evidence_audit_entries_packet_time" "merger_evidence_audit_entries"
    [Asc "change_packet_id"; Desc "occurred_at"];
  CreateTableIfNotExists "merger_deployment_outcomes" (mkTable [
    not_null "id" "text"; not_null "change_packet_id" "text"; not_null "outcome" "text"; nullable "source" "text";
    not_null "lane" "text"; nullable "risk_types" "jsonb"; not_null "observed_at" "timestamptz"] ["id"]);
  CreateIndexIfNotExists "idx_merger_deployment_outcomes_observed_at" "merger_deployment_outcomes" [Desc "observed_at"]].

(** ** What the statements use *)

(** The columns of an insert, whether their value can be null, and the columns of
    its [on conflict]; the columns a select names. *)
Inductive Use :=
  | Inserts (table : string) (columns : list string) (on_conflict : option (list string))
  | Selects (table : string) (columns : list string).

(** The statements of [postgres.go], in the order of the file.  Every value that is
    inserted comes from a Go string, number, boolean or time, so it is not null. *)
Definition repository_uses : list Use := [
  Inserts "merger_change_packets" ["id"; "repo_full_name"; "pr_number"; "head_sha"; "author_login"; "merge_lane";
    "risk_score"; "decision_status"; "payload"; "created_at"; "updated_at"] (Some ["id"]);
  Selects "merger_change_packets" ["payload"; "repo_full_name"; "pr_number"; "head_sha"; "updated_at"];
  Inserts "merger_event_log" ["id"; "event_type"; "source"; "correlation_id"; "causation_id"; "change_packet_id";
    "payload"; "created_at"] (Some ["id"]);
  Selects "merger_change_packets" ["payload"; "id"];
  Selects "merger_change_packets" ["payload"; "updated_at"];
  Inserts "merger_evidence_audit_entries" ["id"; "change_packet_id"; "evidence_name"; "from_status"; "to_status";
    "actor"; "summary"; "details_url"; "metadata"; "occurred_at"] None;
  Inserts "merger_evidence_executions" ["change_packet_id"; "evidence_name"; "evidence_type"; "status"; "required";
    "summary"; "details_url"; "updated_by"; "metadata"; "updated_at"] (Some ["change_packet_id"; "evidence_name"]);
  Selects "merger_evidence_audit_entries" ["id"; "change_packet_id"; "evidence_name"; "from_status"; "to_status";
    "actor"; "summary"; "details_url"; "metadata"; "occurred_at"];
  Inserts "merger_deployment_outcomes" ["id"; "change_packet_id"; "outcome"; "source"; "lane"; "risk_types";
    "observed_at"] None;
  Selects "merger_deployment_outcomes" ["id"; "change_packet_id"; "outcome"; "source"; "lane"; "risk_types";
    "observed_at"];
  Selects "merger_evidence_executions" ["change_packet_id"; "evidence_name"; "evidence_type"; "status"; "required";
    "summary"; "details_url"; "updated_by"; "metadata"; "updated_at"];
  Inserts "merger_evidence_executions" ["change_packet_id"; "evidence_name"; "evidence_type"; "status"; "required";
    "updated_by"; "metadata"; "updated_at"] (Some ["change_packet_id"; "evidence_name"])].

(** The columns exist, an insert gives all that must not be null, and a conflict is
    one of the primary key. *)
Definition use_fits (s : Schema) (use : Use) : bool :=
  match use with
  | Inserts name columns on_conflict =>
      match sc_tables s !! name with
      | None => false
      | Some table =>
          forallb (λ column, bool_decide (column ∈ column_names table)) columns &&
          forallb (λ column, negb (col_not_null column) || bool_decide (col_name column ∈ columns)) (tb_columns table) &&
          match on_conflict with None => true | Some key => bool_decide (key = tb_primary_key table) end
      end
  | Selects name columns =>
      match sc_tables s !! name with
      | None => false
      | Some table => forallb (λ column, bool_decide (column ∈ column_names table)) columns
      end
  end.

Section migrate.
Context `{HP : PostgresServer}.

Fixpoint run_migrations (statements : list DDL) : stateE (Database Schema) StoreError () :=
  match statements with
  | [] => mret ()
  | statement :: rest => ExecContext (apply_ddl statement) ;; run_migrations rest
  end.

Definition Migrate : stateE (Database Schema) StoreError () := run_migrations postgresMigrations.

(** The schema after the first [n] statements. *)
Definition migrated (n : nat) : Schema :=
  default no_schema (match foldM (λ s d, apply_ddl d s) no_schema (take n postgresMigrations) with
                     | Ok s => Some s
                     | Err _ => None
                     end).

(** The databases that runs of [Migrate] lead to, failed ones included. *)
Inductive migrating : Database Schema → Prop :=
  | migrating_new n : migrating (mkDB no_schema n)
  | migrating_run s : migrating s → migrating (Migrate s).2.

(** A statement does what it does to the schema before it, and nothing to one after
    it. *)
Lemma migration_steps :
  forallb (λ '(i, d), forallb (λ k, bool_decide (apply_ddl d (migrated k) = Ok (migrated (k `max` S i))))
    (seq i (S (length postgresMigrations) - i))) (indexed postgresMigrations) = true.
Proof using Type. vm_compute. reflexivity. Qed.

Lemma migration_step i d k :
  postgresMigrations !! i = Some d → (i ≤ k ≤ length postgresMigrations)%nat →
  apply_ddl d (migrated k) = Ok (migrated (k `max` S i)).
Proof using Type.
  intros Hd Hk. pose proof migration_steps as H. rewrite forallb_elem in H.
  specialize (H (i, d) (proj2 (elem_of_indexed _ _ _) Hd)). cbn beta iota in H. rewrite forallb_elem in H.
  assert (k ∈ seq i (S (length postgresMigrations) - i)) as Hin by (apply elem_of_seq; lia).
  specialize (H k Hin). by apply bool_decide_eq_true in H.
Qed.

(** A run from the statement at [i] on goes forward, and to the end when it
    succeeds. *)
Lemma run_forward i k s r s' :
  run_migrations (drop i postgresMigrations) s = (r, s') →
  db_tables s = migrated k → (i ≤ k ≤ length postgresMigrations)%nat →
  ∃ j, db_tables s' = migrated j ∧ (k ≤ j ≤ length postgresMigrations)%nat ∧
    (r = Ok () → j = length postgresMigrations) ∧ ((∀ n, Answer n = Done) → r = Ok ()).
Proof.
  remember (drop i postgresMigrations) as rest eqn:Hrest. revert i k s Hrest.
  induction rest as [|d rest IH]; intros i k s Hrest Hrun Hs Hk.
  - injection Hrun as <- <-. exists k. split_and!; [done|lia|lia| |done]. intros _.
    assert (length (drop i postgresMigrations) = 0%nat) as Hl by by rewrite <- Hrest.
    rewrite length_drop in Hl. lia.
  - assert (postgresMigrations !! i = Some d) as Hd.
    { rewrite <- (Nat.add_0_r i), <- lookup_drop, <- Hrest. done. }
    pose proof (lookup_lt_Some _ _ _ Hd) as Hlt.
    assert (rest = drop (S i) postgresMigrations) as Hrest'.
    { rewrite <- Nat.add_1_r, <- drop_drop, <- Hrest. done. }
    assert (apply_ddl d (db_tables s) = Ok (migrated (k `max` S i))) as Happ by (rewrite Hs; by apply migration_step).
    cbn in Hrun. apply stateE_bind_inv in Hrun as [([] & s1 & H1%ExecContext_ok & H2)|(e & H1 & ->)].
    + rewrite Happ in H1. injection H1 as H1.
      destruct (IH (S i) (k `max` S i)%nat s1 Hrest' H2 (eq_sym H1) ltac:(lia)) as (j & ? & ? & ? & ?).
      exists j. split_and!; [done|lia|lia|done|done].
    + assert ((∀ n, Answer n = Done) → Err (A := ()) e = Ok ()) as Hans.
      { intros Hdone. unfold ExecContext in H1. by rewrite Hdone, Happ in H1. }
      apply ExecContext_inv in H1 as [H1|[_ H1]].
      * rewrite Happ in H1. injection H1 as H1. exists (k `max` S i)%nat. split_and!; [done|lia|lia|done|done].
      * exists k. split_and!; [congruence|lia|lia|done|done].
Qed.

Lemma migrating_prefix s :
  migrating s → ∃ k, db_tables s = migrated k ∧ (k ≤ length postgresMigrations)%nat.
Proof.
  induction 1 as [n|s _ (k & Hs & Hk)].
  - exists 0%nat. split; [done|lia].
  - destruct (Migrate s) as [r s'] eqn:E.
    destruct (run_forward 0 k s r s' E Hs ltac:(lia)) as (j & ? & ? & _ & _). exists j. split; [done|lia].
Qed.

Lemma migration_complete s s' u :
  migrating s → Migrate s = (Ok u, s') →
  db_tables s' = migrated (length postgresMigrations) ∧ forallb (use_fits (db_tables s')) repository_uses = true.
Proof.
  intros (k & Hk & Hle)%migrating_prefix Hr.
  destruct (run_forward 0 k s _ s' Hr Hk ltac:(lia)) as (j & Hj & _ & Hok & _). destruct u. rewrite (Hok eq_refl) in Hj.
  split; [done|]. rewrite Hj. clear. vm_compute. reflexivity.
Qed.

(** ** Theorem *)

(** C30: however many runs were cut off before, and wherever, a run of the migrations
    fails only when the server does, never undoes what another did, and when it
    succeeds the schema is the whole one: every statement of the repository finds
    its tables and columns in it, gives a value for every column that must not be
    null, and has a key for its conflicts. *)
Theorem migrations_resume s r s' :
  migrating s → Migrate s = (r, s') →
  (r = Ok () → db_tables s' = migrated (length postgresMigrations) ∧
     forallb (use_fits (db_tables s')) repository_uses = true) ∧
  ((∀ n, Answer n = Done) → r = Ok ()) ∧
  (∃ j k, db_tables s = migrated j ∧ db_tables s' = migrated k ∧ (j ≤ k)%nat).
Proof.
  intros Hm Hr. split; [intros ->; by apply (migration_complete _ _ _ Hm Hr)|].
  apply migrating_prefix in Hm as (k & Hk & Hle).
  destruct (run_forward 0 k s r s' Hr Hk ltac:(lia)) as (j & Hj & Hkj & _ & Hans).
  split; [done|]. exists k, j. split_and!; [done|done|lia].
Qed.
End migrate.

Section demo.
(** The third statement of the first run is refused; the second run goes through. *)
#[local] Program Instance flaky_server : PostgresServer := {|
  Answer n := if decide (n = 2%nat) then Refused "connection refused" else Done;
  StoredTime t := t;
  jsonb := Ok;
  text_le := String.le;
  scanned A l := l;
  MarshalPacket p := Ok "";
  UnmarshalPacket text := Err "syntax";
  MarshalEnvelope e := Ok "";
  MarshalMetadata m := Ok "null";
  UnmarshalMetadata text := ∅;
  MarshalRiskTypes l := Ok "null";
  UnmarshalRiskTypes text := [] |}.
Next Obligation. intros t. cbn. lia. Qed.
Next Obligation. done. Qed.
Next Obligation. done. Qed.
Next Obligation. done. Qed.

Definition demo_cut_off : Database Schema := (Migrate (mkDB no_schema 0)).2.

Lemma migrations_resume_witness :
  size (sc_tables (db_tables demo_cut_off)) = 1%nat ∧
  forallb (use_fits (db_tables demo_cut_off)) repository_uses = false ∧
  db_tables (Migrate demo_cut_off).2 = migrated (length postgresMigrations) ∧
  forallb (use_fits (db_tables (Migrate demo_cut_off).2)) repository_uses = true.
Proof.
  split; [vm_compute; reflexivity|]. split; [vm_compute; reflexivity|].
  destruct (Migrate demo_cut_off) as [r s'] eqn:E.
  destruct (migrations_resume demo_cut_off r s') as [Hok _].
  - exact (migrating_run _ (migrating_new 0)).
  - exact E.
  - apply Hok. vm_compute in E. by injection E.
Defined.
End demo.
