(* ===== verification/Nats.v ===== *)
(** [internal/events/nats.go]: the event bus over NATS JetStream.

    The client library is a parameter: what it answers to each call.  The server
    keeps a message for a durable consumer until it is acknowledged, and delivers it
    again when it is not; that documented behaviour is the step relation below. *)
From stdpp Require Import base list gmap strings.
From S2P Require Import Prelude GoStrings Events.

Local Open Scope string_scope.
Local Open Scope list_scope.
Local Open Scope Z_scope.

(** ** Names *)

Record NATSConfig := mkNATSConfig {
  nc_URL : string;
  nc_StreamName : string;
  nc_SubjectPrefix : string;
  nc_DurablePrefix : string;
}.

Definition sanitizeToken (value : string) : string :=
  ReplaceByte "." "_" (ReplaceByte " " "_" (ToLower value)).

Definition subjectFor (cfg : NATSConfig) (kind : string) : string :=
  nc_SubjectPrefix cfg +:+ ".events." +:+ sanitizeToken kind.

Definition stream_subjects (cfg : NATSConfig) : list string := [nc_SubjectPrefix cfg +:+ ".events.*"].

Definition durable_name (cfg : NATSConfig) (kind : string) : string :=
  nc_DurablePrefix cfg +:+ "-" +:+ sanitizeToken kind.

(** ** The bus *)

(** [nats.Msg]: the headers in the order they are set. *)
Record Msg := mkMsg {
  msg_Subject : string;
  msg_Data : string;
  msg_Header : list (string * string);
}.

(** The client library over a state [J], and [encoding/json] for envelopes. *)
Class JetStreamClient (J : Type) := {
  nats_Connect : string → stateE J string ();
  conn_JetStream : stateE J string ();
  conn_Drain : J → J;
  conn_Close : J → J;
  sub_Drain : string * string → J → J;
  js_StreamInfo : string → stateE J string ();
  js_AddStream : string → list string → stateE J string ();
  js_PublishMsg : Msg → stateE J string ();
  js_Subscribe : string → string → stateE J string ();
}.

Class EnvelopeCodec := {
  EncodeEnvelope : Envelope → result string string;
  DecodeEnvelope : string → result string Envelope;
}.

Section nats.
Context `{HJ : JetStreamClient J} `{HC : EnvelopeCodec}.

(** The connection is open; the subscriptions, by subject and durable name. *)
Record NATSBus := mkNATSBus {
  nb_cfg : NATSConfig;
  nb_subs : list (string * string);
}.

Definition ensureStream (cfg : NATSConfig) : stateE J string () := λ j,
  match js_StreamInfo (nc_StreamName cfg) j with
  | (Ok _, j') => (Ok (), j')
  | (Err _, j') => js_AddStream (nc_StreamName cfg) (stream_subjects cfg) j'
  end.

(** Run on; close the connection when that fails. *)
Definition closing {A} (m : stateE J string A) : stateE J string A := λ j,
  match m j with
  | (Ok a, j') => (Ok a, j')
  | (Err e, j') => (Err e, conn_Close j')
  end.

Definition NewNATSBus (cfg : NATSConfig) : stateE J string NATSBus :=
  nats_Connect (nc_URL cfg) ;;
  closing conn_JetStream ;;
  closing (ensureStream cfg) ;;
  mret (mkNATSBus cfg []).

Definition event_message (cfg : NATSConfig) (event : Envelope) (payload : string) : Msg :=
  mkMsg (subjectFor cfg (env_Type event)) payload
    ([("X-MergeR-Event-ID", env_ID event); ("X-MergeR-Event-Type", env_Type event)] ++
     (if decide (env_CorrelationID event = "") then [] else [("X-MergeR-Correlation-ID", env_CorrelationID event)])).

Definition nats_Publish (b : NATSBus) (event : Envelope) : stateE J string () :=
  payload ← liftE (EncodeEnvelope event);
  js_PublishMsg (event_message (nb_cfg b) event payload).

Definition nats_Subscribe (b : NATSBus) (kind : string) : stateE J string NATSBus :=
  let subject := subjectFor (nb_cfg b) kind in
  let durable := durable_name (nb_cfg b) kind in
  js_Subscribe subject durable ;;
  mret (mkNATSBus (nb_cfg b) (nb_subs b ++ [(subject, durable)])).

(** Errors of draining are ignored. *)
Definition nats_Close (b : NATSBus) (j : J) : J :=
  conn_Close (conn_Drain (foldl (λ j sub, sub_Drain sub j) j (nb_subs b))).
End nats.

(** *** The callback of a subscription *)

Inductive Reply := Ack | Nak.

Section delivery.
Context {W : Type} `{HC : EnvelopeCodec}.

Definition on_message (handler : Handler W) (msg : Msg) (w : W) : Reply * W :=
  match DecodeEnvelope (msg_Data msg) with
  | Err _ => (Nak, w)
  | Ok envelope =>
      match handler envelope w with
      | (Err _, w') => (Nak, w')
      | (Ok _, w') => (Ack, w')
      end
  end.

(** ** Delivery

    A subject is matched token by token, [*] being any one token and [>], at the
    end, one or more of them. *)
Fixpoint tokens_match (pattern subject : list string) : bool :=
  match pattern, subject with
  | [], [] => true
  | p :: pattern, s :: subject =>
      bool_decide (p = ">" ∧ pattern = []) ||
      ((bool_decide (p = "*") || bool_decide (p = s)) && tokens_match pattern subject)
  | _, _ => false
  end.
Definition subject_matches (pattern subject : string) : bool := tokens_match (Split "." pattern) (Split "." subject).

(** A consumer: the messages the server has for it, those acknowledged, and the
    world its handler acts on. *)
Record Consumer := mkConsumer {
  c_pending : list Msg;
  c_acked : list Msg;
  c_world : W;
}.

(** The histories of a subscription, with the messages published to its subject:
    the server delivers any message that is not acknowledged, as often as it takes,
    and an acknowledgement may get lost. *)
Inductive subscribed (subject : string) (handler : Handler W) : list Msg → Consumer → Prop :=
  | subscribed_new w : subscribed subject handler [] (mkConsumer [] [] w)
  | subscribed_published published c msg :
      subscribed subject handler published c → subject_matches subject (msg_Subject msg) = true →
      subscribed subject handler (published ++ [msg]) (mkConsumer (c_pending c ++ [msg]) (c_acked c) (c_world c))
  | subscribed_acked published c before msg after w :
      subscribed subject handler published c → c_pending c = before ++ msg :: after →
      on_message handler msg (c_world c) = (Ack, w) →
      subscribed subject handler published (mkConsumer (before ++ after) (c_acked c ++ [msg]) w)
  | subscribed_again published c msg reply w :
      subscribed subject handler published c → msg ∈ c_pending c →
      on_message handler msg (c_world c) = (reply, w) →
      subscribed subject handler published (mkConsumer (c_pending c) (c_acked c) w)
  | subscribed_elsewhere published c w :
      subscribed subject handler published c →
      subscribed subject handler published (mkConsumer (c_pending c) (c_acked c) w).

(** ** Lemmas *)

Lemma on_message_ack handler msg w w' :
  on_message handler msg w = (Ack, w') →
  ∃ envelope, DecodeEnvelope (msg_Data msg) = Ok envelope ∧ handler envelope w = (Ok (), w').
Proof.
  unfold on_message. destruct (DecodeEnvelope _) as [envelope|]; [|done].
  destruct (handler envelope w) as [[[]|] w1] eqn:E; [|done]. intros [= <-]. eauto.
Qed.
End delivery.
Arguments Consumer : clear implicits.

Lemma any_byte_map p f s : any_byte p (map_bytes f s) = any_byte (λ a, p (f a)) s.
Proof. induction s as [|a s IH]; cbn; [done|]. by rewrite IH. Qed.

Lemma any_byte_false p s : (∀ a, p a = false) → any_byte p s = false.
Proof. intros Hp. induction s as [|a s IH]; cbn; [done|]. by rewrite Hp, IH. Qed.

Lemma sanitizeToken_no_dot value : any_byte (is_byte ".") (sanitizeToken value) = false.
Proof.
  unfold sanitizeToken, ReplaceByte. rewrite any_byte_map. apply any_byte_false.
  intros a. unfold is_byte. apply bool_decide_eq_false. by case_decide.
Qed.

Lemma Split_app_sep sep p s : Split sep (p +:+ String sep s) = Split sep p ++ Split sep s.
Proof.
  induction p as [|a p IH].
  { change ("" +:+ String sep s) with (String sep s). cbn [Split]. by rewrite decide_True. }
  change (String a p +:+ String sep s) with (String a (p +:+ String sep s)). cbn [Split]. rewrite IH.
  case_decide; [done|]. by destruct (Split_cons sep p) as (h & t & ->).
Qed.

Lemma subject_tokens prefix token :
  any_byte (is_byte ".") token = false →
  Split "." (prefix +:+ ".events." +:+ token) = Split "." prefix ++ ["events"; token].
Proof.
  intros Ht. change (".events." +:+ token) with (String "." ("events" +:+ String "." token)).
  rewrite Split_app_sep, Split_piece by reflexivity. by rewrite (Split_whole _ token Ht).
Qed.

Lemma tokens_match_app l p s : p ≠ [] → tokens_match (l ++ p) (l ++ s) = tokens_match p s.
Proof.
  intros Hp. induction l as [|t l IH]; cbn; [done|].
  rewrite (bool_decide_eq_false_2 (t = ">" ∧ l ++ p = [])) by (intros [_ [_ ?]%app_eq_nil]; done).
  rewrite (bool_decide_eq_true_2 (t = t)), orb_true_r by done. apply IH.
Qed.

Lemma subject_matches_events prefix pattern token :
  any_byte (is_byte ".") pattern = false → any_byte (is_byte ".") token = false →
  subject_matches (prefix +:+ ".events." +:+ pattern) (prefix +:+ ".events." +:+ token) = true ↔
  pattern ∈ ["*"; ">"] ∨ pattern = token.
Proof.
  intros Hp Ht. unfold subject_matches. rewrite !subject_tokens, tokens_match_app by done. clear Hp Ht. cbn.
  change (bool_decide ("events" = "*") || bool_decide ("events" = "events")) with true.
  rewrite andb_true_r, !orb_true_iff, !bool_decide_eq_true, elem_of_cons, list_elem_of_singleton. cbn [andb].
  rewrite !orb_true_iff, !bool_decide_eq_true.
  split; intros H; destruct_or! H; destruct_and? H; subst; try done; auto 6.
Qed.

(** The kinds of the program. *)
Definition event_types : list string :=
  [EventPROpened; EventChangePacketCreated; EventMutationDetected; EventRiskAssigned; EventMergeLaneAssigned;
   EventPolicyViolationDetected].

Lemma event_types_apart :
  forallb (λ k, negb (bool_decide (sanitizeToken k ∈ ["*"; ">"])) &&
                forallb (λ k', Bool.eqb (bool_decide (sanitizeToken k = sanitizeToken k')) (bool_decide (k = k'))) event_types)
    event_types = true.
Proof. vm_compute. reflexivity. Qed.

Lemma event_types_distinct kind kind' :
  kind ∈ event_types → kind' ∈ event_types →
  sanitizeToken kind ∉ ["*"; ">"] ∧ (sanitizeToken kind = sanitizeToken kind' ↔ kind = kind').
Proof.
  intros Hk Hk'. pose proof event_types_apart as Hd. rewrite forallb_elem in Hd.
  specialize (Hd kind Hk). cbv beta in Hd. apply andb_true_iff in Hd as [Hn Hd].
  rewrite forallb_elem in Hd. specialize (Hd _ Hk'). apply Bool.eqb_prop in Hd. split.
  - apply negb_true_iff, bool_decide_eq_false in Hn. done.
  - by rewrite <- (bool_decide_eq_true (sanitizeToken kind = sanitizeToken kind')), Hd, bool_decide_eq_true.
Qed.

Lemma subjectFor_matches cfg kind event payload :
  sanitizeToken kind ∉ ["*"; ">"] →
  subject_matches (subjectFor cfg kind) (msg_Subject (event_message cfg event payload)) = true ↔
  sanitizeToken kind = sanitizeToken (env_Type event).
Proof.
  intros Hn. cbn [event_message msg_Subject]. unfold subjectFor.
  rewrite subject_matches_events by apply sanitizeToken_no_dot. tauto.
Qed.

(** ** Theorems *)

(** C38: subjects route events.  When there is no stream yet, the one that is created
    takes every message that is ever published, whatever the type of the event holds:
    one of its subjects matches it.  A subscription to a kind asks for a subject that
    matches the messages of exactly the events whose sanitized type is the kind's, so
    for the program's own kinds of exactly that kind, under a durable name that no
    other of these kinds has.  A publication that succeeds handed the encoded event
    to the client. *)
Theorem subjects_route `{HJ : JetStreamClient J, HC : EnvelopeCodec} cfg kind :
  (∀ j e j', js_StreamInfo (nc_StreamName cfg) j = (Err e, j') →
     ∃ subjects, ensureStream cfg j = js_AddStream (nc_StreamName cfg) subjects j' ∧
       ∀ event payload,
         Exists (λ pattern, subject_matches pattern (msg_Subject (event_message cfg event payload)) = true) subjects) ∧
  (∀ b j b' j', nb_cfg b = cfg → nats_Subscribe b kind j = (Ok b', j') →
     ∃ subject durable,
       js_Subscribe subject durable j = (Ok (), j') ∧ b' = mkNATSBus cfg (nb_subs b ++ [(subject, durable)]) ∧
       (∀ event payload, sanitizeToken kind ∉ ["*"; ">"] →
          subject_matches subject (msg_Subject (event_message cfg event payload)) = true ↔
          sanitizeToken kind = sanitizeToken (env_Type event)) ∧
       (∀ event payload, kind ∈ event_types → env_Type event ∈ event_types →
          subject_matches subject (msg_Subject (event_message cfg event payload)) = true ↔ kind = env_Type event) ∧
       (∀ kind', kind ∈ event_types → kind' ∈ event_types → durable = durable_name cfg kind' ↔ kind = kind')) ∧
  (∀ b event j j', nb_cfg b = cfg → nats_Publish b event j = (Ok (), j') →
     ∃ msg, EncodeEnvelope event = Ok (msg_Data msg) ∧ msg = event_message cfg event (msg_Data msg) ∧
       js_PublishMsg msg j = (Ok (), j')).
Proof.
  split_and!.
  - intros j e j' Hi. exists (stream_subjects cfg). unfold ensureStream. rewrite Hi. split; [done|].
    intros event payload. apply Exists_cons_hd. cbn [event_message msg_Subject]. unfold subjectFor.
    change (".events.*") with (".events." +:+ "*").
    apply subject_matches_events; [done|apply sanitizeToken_no_dot|]. left. left.
  - intros b j b' j' <- [([] & j1 & Hsub & [= <- <-])|(e & _ & [=])]%stateE_bind_inv.
    exists (subjectFor (nb_cfg b) kind), (durable_name (nb_cfg b) kind). split_and!; [done|done| | |].
    + intros event payload. apply subjectFor_matches.
    + intros event payload Hk Ht. destruct (event_types_distinct _ _ Hk Ht) as [Hn <-]. by apply subjectFor_matches.
    + intros kind' Hk Hk'. destruct (event_types_distinct _ _ Hk Hk') as [_ <-]. unfold durable_name.
      split; [|by intros ->]. intros H%(inj _). by injection H.
  - intros b event j j' <- [(payload & j1 & [= He <-] & Hp)|(e & _ & [=])]%stateE_bind_inv.
    by exists (event_message (nb_cfg b) event payload).
Qed.

(** C31: delivery is at least once and loses nothing: in any history of a
    subscription every published message is pending or acknowledged; an
    acknowledged one was decoded and its handler succeeded on it; and a message that
    does not decode is never acknowledged, so that it stays pending and is delivered
    again for ever. *)
Theorem delivery_at_least_once `{HC : EnvelopeCodec} {W} subject (handler : Handler W) published c :
  subscribed subject handler published c →
  c_acked c ++ c_pending c ≡ₚ published ∧
  Forall (λ msg, subject_matches subject (msg_Subject msg) = true) published ∧
  (∀ msg, msg ∈ c_acked c →
     ∃ envelope w w', DecodeEnvelope (msg_Data msg) = Ok envelope ∧ handler envelope w = (Ok (), w')) ∧
  (∀ msg err, msg ∈ published → DecodeEnvelope (msg_Data msg) = Err err → msg ∈ c_pending c).
Proof.
  intros Hs.
  enough (c_acked c ++ c_pending c ≡ₚ published ∧
    Forall (λ msg, subject_matches subject (msg_Subject msg) = true) published ∧
    (∀ msg, msg ∈ c_acked c →
       ∃ envelope w w', DecodeEnvelope (msg_Data msg) = Ok envelope ∧ handler envelope w = (Ok (), w')))
    as (Hp & Hm & Ha).
  { split_and!; [done..|]. intros msg err Hin Herr. rewrite <- Hp in Hin.
    apply elem_of_app in Hin as [(envelope & ? & ? & Hok & _)%Ha|Hin]; [congruence|done]. }
  induction Hs as [w|published c msg _ (IHp & IHm & IHa) Hmsg|published c before msg after w _ (IHp & IHm & IHa) Hpend Hack
    |published c msg reply w _ IH _ _|published c w _ IH]; cbn in *; try done.
  - split_and!; [done|constructor|]. intros msg Hin. by apply elem_of_nil in Hin.
  - rewrite app_assoc, IHp. split_and!; [done| |done]. apply Forall_app. by repeat constructor.
  - split_and!; [|done|].
    + rewrite <- IHp, Hpend, <- app_assoc. cbn. by rewrite Permutation_middle.
    + intros m [Hm| ->%list_elem_of_singleton]%elem_of_app; [by apply IHa|].
      apply on_message_ack in Hack as (envelope & ? & ?). by exists envelope, (c_world c), w.
Qed.

Section demo.
(** A handler that fails the first time it is called; one message decodes. *)
#[local] Instance demo_envelopes : EnvelopeCodec := {|
  EncodeEnvelope event := Ok (env_ID event);
  DecodeEnvelope text := if decide (text = "evt_1") then Ok (mkEnvelope "evt_1" EventRiskAssigned "" "" "" "" ∅ (RisksPayload []))
                         else Err "invalid character" |}.

Definition demo_handler : Handler nat := λ _ calls, (if decide (calls = 0%nat) then Err "busy" else Ok (), S calls).
Definition demo_msg (payload : string) : Msg := mkMsg "merger.events.riskassigned" payload [].

Definition demo_consumer : Consumer nat := mkConsumer [demo_msg "junk"] [demo_msg "evt_1"] 2%nat.

Lemma demo_subscribed :
  subscribed "merger.events.riskassigned" demo_handler [demo_msg "evt_1"; demo_msg "junk"] demo_consumer.
Proof.
  pose proof (subscribed_new "merger.events.riskassigned" demo_handler 0%nat) as H.
  apply (subscribed_published _ _ _ _ (demo_msg "evt_1")) in H; [|vm_compute; reflexivity].
  apply (subscribed_published _ _ _ _ (demo_msg "junk")) in H; [|vm_compute; reflexivity].
  apply (subscribed_again _ _ _ _ (demo_msg "evt_1") Nak 1%nat) in H; [|cbn; set_solver|vm_compute; reflexivity].
  apply (subscribed_again _ _ _ _ (demo_msg "junk") Nak 1%nat) in H; [|cbn; set_solver|vm_compute; reflexivity].
  exact (subscribed_acked _ _ _ _ [] (demo_msg "evt_1") [demo_msg "junk"] 2%nat H eq_refl eq_refl).
Defined.

Lemma delivery_at_least_once_witness :
  c_acked demo_consumer ++ c_pending demo_consumer ≡ₚ [demo_msg "evt_1"; demo_msg "junk"] ∧
  demo_msg "junk" ∈ c_pending demo_consumer.
Proof.
  destruct (delivery_at_least_once "merger.events.riskassigned" demo_handler _ _ demo_subscribed) as (Hp & _ & _ & Hj).
  split; [exact Hp|]. apply (Hj (demo_msg "junk") "invalid character"); [|reflexivity].
  apply elem_of_cons. right. apply elem_of_cons. left. reflexivity.
Defined.
(** A JetStream without a stream that accepts everything; its state is the log of the
    subjects it was asked for. *)
#[local] Instance new_jetstream : JetStreamClient (list string) := {|
  nats_Connect url := mret ();
  conn_JetStream := mret ();
  conn_Drain j := j;
  conn_Close j := j;
  sub_Drain sub j := j;
  js_StreamInfo name := throw "stream not found";
  js_AddStream name subjects j := (Ok (), j ++ subjects);
  js_PublishMsg msg j := (Ok (), j ++ [msg_Subject msg]);
  js_Subscribe subject durable j := (Ok (), j ++ [subject]) |}.
Definition demo_config : NATSConfig := mkNATSConfig "nats://localhost" "MERGER" "merger" "ingest".

Lemma subjects_route_witness :
  ∃ subjects, (ensureStream demo_config []).2 = subjects ∧
    Exists (λ pattern, subject_matches pattern "merger.events.riskassigned" = true) subjects.
Proof.
  destruct (subjects_route demo_config EventRiskAssigned) as (Hstream & _ & _).
  destruct (Hstream [] "stream not found" [] eq_refl) as (subjects & Hadd & Hroute).
  exists subjects. rewrite Hadd. split; [reflexivity|].
  exact (Hroute (mkEnvelope "evt_1" EventRiskAssigned "" "" "" "" ∅ (RisksPayload [])) "").
Defined.
End demo.
