(* ===== verification/Bootstrap.v ===== *)
(** [internal/bootstrap], [internal/app/ingest/app.go] and the two service mains:
    how a configuration becomes a repository, a bus, a GitHub client and a
    processor, and what a start can fail of: [ingest_main] and [controlplane_main]
    are the two [main] functions up to the call of [Run].

    The database server and JetStream are the environments of [Postgres] and
    [Nats]; a start leaves the schema it migrated and the connections it made. *)
From stdpp Require Import base list gmap strings.
From S2P Require Import Prelude GoStrings GoPath Domain Identity Documents Lanes Events Store Access ControlPlane.
From S2P Require Import Github Checks Jwt Ingest GithubClient Postgres Migrations Nats.
From S2P Require Config PolicyValidation Mutations Analyzers RuntimeGraph Risk Startup.

Local Open Scope string_scope.
Local Open Scope list_scope.
Local Open Scope Z_scope.

Import Config.

(** ** Failures and parts *)

Inductive StartFailure :=
  | ConfigRefused (err : string)
  | PolicyRefused (err : PolicyLoadError)
  | AuthenticatorRefused (err : Startup.StartError)
  | RepositoryFailed (err : string)
  | MigrationFailed (err : StoreError)
  | UnsupportedPersistence (backend : string)
  | BusUnavailable (err : string)
  | UnsupportedEvents (backend : string)
  | GitHubClientFailed (err : ClientError)
  | Panicked (err : string).

Inductive RepositoryChoice :=
  | MemoryChoice
  | PostgresChoice (databaseURL : string).

Inductive BusChoice :=
  | MemoryBusChoice
  | NATSChoice (bus : NATSBus).

(** ** External analyzers of a configuration *)

Section ingest_app.
Context `{HG : GitHubAPI}.

Definition external_timeout (timeout : string) : Z :=
  if decide (timeout = "") then 5 * Analyzers.second
  else match ParseDuration timeout with Ok parsed => parsed | Err _ => 5 * Analyzers.second end.

Definition external_config (declaration : ExternalAnalyzerConfig) : Analyzers.ExternalAnalyzerConfig :=
  Analyzers.mkExternalAnalyzerConfig (xa_Name declaration) (xa_Executable declaration) (xa_Allowlist declaration)
    (external_timeout (xa_Timeout declaration)) (xa_Paths declaration).

Context `{HH : Analyzers.Host}.

(** An error panics. *)
Definition external_analyzers (declarations : list ExternalAnalyzerConfig) : result string (list Mutations.Analyzer) :=
  mapM (λ declaration, Analyzers.NewExternalAnalyzer (external_config declaration)) declarations.

(** ** The ingest application *)

Definition app_lanes (cfg : Config) : Lanes.LanesConfig :=
  Lanes.mkLanesConfig (ln_GreenMax (cf_Lanes cfg)) (ln_YellowMax (cf_Lanes cfg)) (ln_RedMax (cf_Lanes cfg)).

Definition app_graph (cfg : Config) : RuntimeGraph.Options :=
  RuntimeGraph.mkOptions (rg_EnableCodeOwners (cf_RuntimeGraph cfg)) (rg_GraphManifestPath (cf_RuntimeGraph cfg))
    (rg_MaxTraversalDepth (cf_RuntimeGraph cfg)).

Section processor.
Context `{HR : Repository W} `{HE : Entropy} `{HS : Mutations.SliceGrowth} `{HM : MapOrder} `{HP : Parsers}
  `{HD : RuntimeGraph.GraphDecoder}.
(** The bus, the GitHub service with its [ForInstallation], and the clock readings
    of an evidence update. *)
Context (bus : Envelope → stateE W string ()) (github : GitHubService W) (binder : option (Z → GitHubService W))
  (readings : Readings).

Definition app_publisher : GitHubCheckPublisher W := mkGitHubCheckPublisher (Some github) binder.

Definition app_service (cfg : Config) : Service W :=
  NewServiceWithOptions [
    Some (WithLaneAssigner (λ packet, Ok (Assign (app_lanes cfg) packet)));
    Some (WithCheckPublisher (PublishWithEvidence app_publisher))].

Definition NewProcessor (cfg : Config) (policy : PolicyValidation.Config) (external : list Mutations.Analyzer)
    : Processor W :=
  mkProcessor bus github binder (Analyzers.DefaultEngineWithExternal external) Risk.defaultWeights policy
    (app_lanes cfg) (Publish app_publisher) (RuntimeGraph.NewResolver (app_graph cfg)) true
    (Some (UpdateEvidenceExecution (app_service cfg) readings None)).

Definition NewIngestApp (cfg : Config) (policy : PolicyValidation.Config) : result string (Processor W) :=
  external ← external_analyzers (cf_MutationAnalyzers cfg);
  Ok (NewProcessor cfg policy external).

(** The routes of the server, for a path that is clean: a status, the packet a webhook reports, and the world
    after it. *)
Definition ingest_route `{HW : WebhookCodec} (cfg : Config) (p : Processor W) (k : nat) (now : Clock) (path : string)
    (r : WebhookRequest) (w : W) : Z * option ChangePacket * W :=
  if decide (path = "/webhooks/github") then webhook_ServeHTTP (gc_WebhookSecret (cf_GitHub cfg)) p k now r w
  else if decide (path = "/healthz") then (200, None, w)
  else (404, None, w).
End processor.
End ingest_app.

(** ** The start of a service *)

Section start.
Context `{HL : Loader} `{HP : PostgresServer} `{HJ : JetStreamClient J} `{HG : GitHubAPI} `{HC : Crypto} `{HA : AppCrypto}.
Context `{HX : ClaimCodec} `{HH : Analyzers.Host}.
(** [sql.Open], which only looks at the data source name. *)
Context (sql_Open : string → result string ()) (LookupEnv : string → option string).

(** What a start acts on: the schema of the database and JetStream. *)
Definition World : Type := Database Schema * J.
Definition M := stateE World StartFailure.

Definition on_database {A} (m : stateE (Database Schema) StoreError A) : M A := λ w,
  let '(r, s) := m w.1 in (map_err MigrationFailed r, (s, w.2)).
Definition on_jetstream {A} (m : stateE J string A) : M A := λ w,
  let '(r, j) := m w.2 in (map_err BusUnavailable r, (w.1, j)).

Definition BuildRepository (cfg : Config) : M RepositoryChoice :=
  let persistence := cf_Persistence cfg in
  if decide (pc_Backend persistence = "" ∨ pc_Backend persistence = "memory") then mret MemoryChoice
  else if decide (pc_Backend persistence = "postgres") then
    liftE (map_err RepositoryFailed (sql_Open (pc_DatabaseURL persistence))) ;;
    (if pc_AutoMigrate persistence then on_database Migrate else mret ()) ;;
    mret (PostgresChoice (pc_DatabaseURL persistence))
  else throw (UnsupportedPersistence (pc_Backend persistence)).

Definition nats_config (cfg : EventsConfig) : NATSConfig :=
  mkNATSConfig (evc_NATSURL cfg) (evc_StreamName cfg) (evc_SubjectPrefix cfg) (evc_DurablePrefix cfg).

Definition NewBusFromConfig (cfg : EventsConfig) : M BusChoice :=
  if decide (evc_Backend cfg = "" ∨ evc_Backend cfg = "memory") then mret MemoryBusChoice
  else if decide (evc_Backend cfg = "nats") then
    bus ← on_jetstream (NewNATSBus (nats_config cfg));
    mret (NATSChoice bus)
  else throw (UnsupportedEvents (evc_Backend cfg)).

(** The bus records what it publishes in the repository. *)
Definition BuildEventBus (cfg : Config) (repository : RepositoryChoice) : M (BusChoice * RepositoryChoice) :=
  base ← NewBusFromConfig (cf_Events cfg);
  mret (base, repository).

Definition client_config (cfg : GitHubConfig) : ClientConfig :=
  mkClientConfig (gc_AppID cfg) (gc_InstallationID cfg) (gc_PrivateKeyPath cfg) (gc_WebhookSecret cfg)
    (gc_APIBaseURL cfg) (gc_Timeout cfg).

(** [None] is the no-op service. *)
Definition BuildGitHubService (cfg : Config) : result StartFailure (option Client) :=
  if negb (gc_Enabled (cf_GitHub cfg)) then Ok None
  else
    client ← map_err GitHubClientFailed (NewClient ReadFile (client_config (cf_GitHub cfg)));
    Ok (Some client).

Definition config_path : string :=
  let path := default "" (LookupEnv "MERGER_CONFIG_PATH") in
  if decide (path = "") then "config/merger.yaml" else path.

(** The parts both services are made of. *)
Record Parts := mkParts {
  pt_repository : RepositoryChoice;
  pt_bus : BusChoice * RepositoryChoice;
  pt_github : option Client;
}.

Definition build_parts (cfg : Config) : M Parts :=
  repository ← BuildRepository cfg;
  bus ← BuildEventBus cfg repository;
  github ← liftE (BuildGitHubService cfg);
  mret (mkParts repository bus github).

(** [main] of [cmd/merger-ingest], up to [app.Run]. *)
Definition build_ingest (cfg : Config) : M (Parts * list Mutations.Analyzer) :=
  parts ← build_parts cfg;
  external ← liftE (map_err Panicked (external_analyzers (cf_MutationAnalyzers cfg)));
  mret (parts, external).

Definition ingest_main : M (Config * PolicyValidation.Config * Parts * list Mutations.Analyzer) :=
  cfg ← liftE (map_err ConfigRefused (Load config_path));
  liftE (map_err ConfigRefused (ValidateForIngest cfg)) ;;
  policy ← liftE (map_err PolicyRefused (LoadConfig (cf_PolicyPath cfg)));
  '(parts, external) ← build_ingest cfg;
  mret (cfg, policy, parts, external).

(** [main] of [cmd/merger-controlplane], up to [app.Run]. *)
Definition controlplane_main : M (Config * (Time → Authenticator) * Parts) :=
  cfg ← liftE (map_err ConfigRefused (Load config_path));
  liftE (map_err ConfigRefused (ValidateForControlPlane cfg)) ;;
  authenticator ← liftE (map_err AuthenticatorRefused (Startup.buildAuthenticator LookupEnv ReadFile (cf_Access cfg)));
  parts ← build_parts cfg;
  mret (cfg, authenticator, parts).

(** ** What a start can fail of *)

(** The executables are absolute and allowed. *)
Definition analyzers_allowed (declarations : list ExternalAnalyzerConfig) : Prop :=
  Forall (λ d, IsAbs (xa_Executable d) = true ∧ xa_Executable d ∈ xa_Allowlist d) declarations.

(** A configuration that the loader and the validation accept. *)
Definition configured (cfg : Config) : Prop := Load config_path = Ok cfg ∧ ValidateForIngest cfg = Ok ().

(** What a failure of the start tells of the configuration and of what it names: the
    policy file is refused; the data source is refused, the migration fails or
    JetStream does, each only where the configuration asks for it; the timeout of
    the GitHub client is no duration, or its key cannot be read; an external analyzer
    is not allowed. *)
Definition blames (cfg : Config) (e : StartFailure) : Prop :=
  let github := cf_GitHub cfg in
  let persistence := cf_Persistence cfg in
  match e with
  | PolicyRefused err => LoadConfig (cf_PolicyPath cfg) = Err err
  | RepositoryFailed err => pc_Backend persistence = "postgres" ∧ sql_Open (pc_DatabaseURL persistence) = Err err
  | MigrationFailed _ => pc_Backend persistence = "postgres" ∧ pc_AutoMigrate persistence = true
  | BusUnavailable _ => evc_Backend (cf_Events cfg) = "nats"
  | GitHubClientFailed (BadTimeout _) => gc_Enabled github = true ∧ ¬ timeout_readable (gc_Timeout github)
  | GitHubClientFailed _ =>
      gc_Enabled github = true ∧ timeout_readable (gc_Timeout github) ∧
      ¬ key_readable ReadFile (gc_PrivateKeyPath github)
  | Panicked _ => ¬ analyzers_allowed (cf_MutationAnalyzers cfg)
  | ConfigRefused _ | AuthenticatorRefused _ | UnsupportedPersistence _ | UnsupportedEvents _ => False
  end.

(** The GitHub client is there exactly when it is enabled, and then it could be built. *)
Definition github_ready (cfg : Config) (github : option Client) : Prop :=
  (github = None ↔ gc_Enabled (cf_GitHub cfg) = false) ∧
  (gc_Enabled (cf_GitHub cfg) = true →
   timeout_readable (gc_Timeout (cf_GitHub cfg)) ∧ key_readable ReadFile (gc_PrivateKeyPath (cf_GitHub cfg))).

Definition repository_of (cfg : Config) : RepositoryChoice :=
  if decide (pc_Backend (cf_Persistence cfg) = "postgres") then PostgresChoice (pc_DatabaseURL (cf_Persistence cfg))
  else MemoryChoice.

(** The tables are there for the statements of the repository, when the start is to
    make them. *)
Definition schema_ready (cfg : Config) (w : World) : Prop :=
  pc_Backend (cf_Persistence cfg) = "postgres" → pc_AutoMigrate (cf_Persistence cfg) = true →
  forallb (use_fits (db_tables w.1)) repository_uses = true.

(** Nothing outside the process is configured. *)
Definition self_contained (cfg : Config) : Prop :=
  pc_Backend (cf_Persistence cfg) = "memory" ∧ evc_Backend (cf_Events cfg) = "memory" ∧
  gc_Enabled (cf_GitHub cfg) = false.

Lemma NewExternalAnalyzer_ok config :
  (∃ a, Analyzers.NewExternalAnalyzer config = Ok a) ↔
  IsAbs (Analyzers.ext_Executable config) = true ∧ Analyzers.ext_Executable config ∈ Analyzers.ext_Allowlist config.
Proof.
  unfold Analyzers.NewExternalAnalyzer. destruct (IsAbs _); cbn [negb]; [|naive_solver].
  destruct (existsb _ _) eqn:E; cbn [negb].
  - apply existsb_elem in E as (path & Hin & ->%bool_decide_eq_true). naive_solver.
  - rewrite existsb_none in E. split; [by intros [? [=]]|]. intros [_ Hin]. specialize (E _ Hin).
    by rewrite bool_decide_eq_true_2 in E.
Qed.

Lemma external_analyzers_ok declarations :
  (∃ l, external_analyzers declarations = Ok l) ↔ analyzers_allowed declarations.
Proof.
  unfold external_analyzers, analyzers_allowed. induction declarations as [|d ds IH]; cbn.
  { split; [constructor|by eauto]. }
  rewrite Forall_cons, <- IH, <- (NewExternalAnalyzer_ok (external_config d)). split.
  - intros (l & (a & Ha & (l' & Hl & _)%bind_ok)%bind_ok). eauto.
  - intros [[a ->] [l Hl]]. cbn. rewrite Hl. cbn. eauto.
Qed.

Lemma on_database_inv {A} (m : stateE (Database Schema) StoreError A) w r w' :
  on_database m w = (r, w') → ∃ r0, m w.1 = (r0, w'.1) ∧ r = map_err MigrationFailed r0 ∧ w'.2 = w.2.
Proof using Type. unfold on_database. destruct (m w.1) as [r0 s]. intros [= <- <-]. by exists r0. Qed.

Lemma on_jetstream_inv {A} (m : stateE J string A) w r w' :
  on_jetstream m w = (r, w') → ∃ r0, r = map_err BusUnavailable r0 ∧ w'.1 = w.1.
Proof using Type. unfold on_jetstream. destruct (m w.2) as [r0 j]. intros [= <- <-]. by exists r0. Qed.

Lemma BuildRepository_inv cfg w r w' :
  valid cfg → migrating w.1 → BuildRepository cfg w = (r, w') →
  match r with
  | Ok repository => repository = repository_of cfg ∧ schema_ready cfg w'
  | Err e => blames cfg e
  end ∧ (pc_Backend (cf_Persistence cfg) = "memory" → w' = w ∧ r = Ok (repository_of cfg)).
Proof using Type.
  intros Hv Hm. unfold BuildRepository, repository_of, schema_ready. pose proof (v_persistence _ Hv) as Hb.
  apply elem_of_cons in Hb as [Hb|Hb%list_elem_of_singleton]; rewrite Hb.
  - rewrite decide_True by auto. intros [= <- <-]. by split_and!.
  - rewrite decide_False, !decide_True by (done || by intros [[=]|[=]]). intros H. split; [|done].
    apply stateE_bind_inv in H as [([] & w1 & [= Ho <-] & H)|(e & [= Ho <-] & ->)]; cycle 1.
    { destruct (sql_Open _) eqn:Eo; simplify_eq/=. done. }
    apply stateE_bind_inv in H as [([] & w2 & Hmig & [= <- <-])|(e & Hmig & ->)].
    + split; [done|]. intros _ Hauto. rewrite Hauto in Hmig.
      apply on_database_inv in Hmig as (r0 & Hmig & Hr & _). symmetry in Hr. apply map_err_ok in Hr as ->.
      by destruct (migration_complete _ _ _ Hm Hmig).
    + destruct (pc_AutoMigrate _) eqn:Eauto; [|done]. apply on_database_inv in Hmig as (r0 & _ & Hr & _).
      destruct r0; simplify_eq/=. done.
Qed.

Lemma NewBusFromConfig_inv cfg w r w' :
  valid cfg → NewBusFromConfig (cf_Events cfg) w = (r, w') →
  w'.1 = w.1 ∧ match r with Ok _ => True | Err e => blames cfg e end ∧
  (evc_Backend (cf_Events cfg) = "memory" → w' = w ∧ r = Ok MemoryBusChoice).
Proof using Type.
  intros Hv. unfold NewBusFromConfig. pose proof (v_events _ Hv) as Hb.
  apply elem_of_cons in Hb as [Hb|Hb%list_elem_of_singleton]; rewrite Hb.
  - rewrite decide_True by auto. intros [= <- <-]. by split_and!.
  - rewrite decide_False, decide_True by (done || by intros [[=]|[=]]).
    intros [(bus & w1 & (r0 & _ & H1)%on_jetstream_inv & [= <- <-])|(e & (r0 & Hr & H1)%on_jetstream_inv & ->)]%stateE_bind_inv.
    + by split_and!.
    + destruct r0; simplify_eq/=. by split_and!.
Qed.

Lemma BuildGitHubService_inv cfg :
  match BuildGitHubService cfg with
  | Ok github => github_ready cfg github
  | Err e => blames cfg e ∧ gc_Enabled (cf_GitHub cfg) = true
  end.
Proof using Type.
  unfold BuildGitHubService, github_ready. destruct (gc_Enabled _) eqn:Ee; cbn [negb]; [|done].
  pose proof (NewClient_inv ReadFile (client_config (cf_GitHub cfg))) as H. cbn in H.
  destruct (NewClient _ _) as [c|e]; cbn; [done|]. split; [|done]. by destruct e.
Qed.

Lemma build_parts_inv cfg w r w' :
  valid cfg → migrating w.1 → build_parts cfg w = (r, w') →
  match r with
  | Ok parts => pt_repository parts = repository_of cfg ∧ (pt_bus parts).2 = repository_of cfg ∧ schema_ready cfg w' ∧
                github_ready cfg (pt_github parts)
  | Err e => blames cfg e
  end ∧ (self_contained cfg → w' = w ∧ ∃ parts, r = Ok parts).
Proof using Type.
  intros Hv Hm. unfold build_parts, BuildEventBus, self_contained.
  intros [(repository & w1 & (Hr & Hmem)%BuildRepository_inv & H)|(e & (Hr & Hmem)%BuildRepository_inv & ->)]%stateE_bind_inv;
    try done; cycle 1.
  { split; [done|]. intros (?%Hmem & _). naive_solver. }
  destruct Hr as [-> Hs].
  apply stateE_bind_inv in H as [(bus & w2 & Hb & H)|(e & Hb & ->)];
    apply stateE_bind_inv in Hb as [(base & w3 & (H1 & Hbase & Hmb)%NewBusFromConfig_inv & Hret)|(e' & (H1 & Hbase & Hmb)%NewBusFromConfig_inv & Hret)];
    try done; cycle 1.
  { injection Hret as ->. split; [done|]. intros (? & ?%Hmb & _). naive_solver. }
  injection Hret as <- <-.
  assert (schema_ready cfg w3) as Hs2 by (unfold schema_ready in *; by rewrite H1).
  pose proof (BuildGitHubService_inv cfg) as Hg.
  apply stateE_bind_inv in H as [(github & w4 & [= Hgo <-] & [= <- <-])|(e & [= Hgo <-] & ->)]; rewrite Hgo in Hg.
  - split; [done|]. intros (Hp & He & _). destruct (Hmem Hp) as [-> _], (Hmb He) as [-> _]. split; [done|by eexists].
  - split; [apply Hg|]. intros (_ & _ & Hd). destruct Hg as [_ Hg]. congruence.
Qed.

(** ** Theorem *)

Lemma build_ingest_inv cfg w r w' :
  valid cfg → migrating w.1 → build_ingest cfg w = (r, w') →
  match r with
  | Ok (parts, external) =>
      pt_repository parts = repository_of cfg ∧ (pt_bus parts).2 = repository_of cfg ∧ schema_ready cfg w' ∧
      github_ready cfg (pt_github parts) ∧ analyzers_allowed (cf_MutationAnalyzers cfg)
  | Err e => blames cfg e
  end ∧
  (self_contained cfg → w' = w ∧ ((∃ started, r = Ok started) ↔ analyzers_allowed (cf_MutationAnalyzers cfg))).
Proof using Type.
  intros Hv Hm. unfold build_ingest.
  intros [(parts & w1 & Hp & H)|(e & Hp & ->)]%stateE_bind_inv; apply build_parts_inv in Hp as [Hp Hself]; try done; cycle 1.
  { split; [done|]. intros (_ & ? & [=])%Hself. }
  destruct Hp as (Hrep & Hbus & Hs & Hg).
  apply stateE_bind_inv in H as [(external & w2 & [= He <-] & [= <- <-])|(e & [= He <-] & ->)].
  - apply map_err_ok in He.
    assert (analyzers_allowed (cf_MutationAnalyzers cfg)) as Ha by (apply external_analyzers_ok; eauto).
    split; [done|]. intros [-> _]%Hself. split; [done|]. split; [done|]. by eexists.
  - assert (¬ analyzers_allowed (cf_MutationAnalyzers cfg)) as Hn.
    { intros [l Hl]%external_analyzers_ok. by rewrite Hl in He. }
    destruct (external_analyzers _); simplify_eq/=. split; [done|]. intros [-> _]%Hself. split; [done|].
    split; [by intros [? [=]]|done].
Qed.

End start.

Section demo.
#[local] Existing Instance plain_crypto.
#[local] Existing Instance plain_app_crypto.
#[local] Existing Instance plain_github.
#[local] Existing Instance flaky_server.
#[local] Existing Instance Analyzers.one_mutation_host.
#[local] Instance no_jetstream : JetStreamClient () := {|
  nats_Connect url := throw "no server";
  conn_JetStream := throw "no server";
  conn_Drain j := j;
  conn_Close j := j;
  sub_Drain sub j := j;
  js_StreamInfo name := throw "no server";
  js_AddStream name subjects := throw "no server";
  js_PublishMsg msg := throw "no server";
  js_Subscribe subject durable := throw "no server" |}.

Definition with_analyzer (executable : string) : Config :=
  mkConfig (cf_Service Defaults) (cf_Access Defaults) (cf_LoggingLevel Defaults) (cf_GitHub Defaults) (cf_Events Defaults)
    (cf_Persistence Defaults) (cf_PolicyPath Defaults) (cf_Lanes Defaults) (cf_Telemetry Defaults) (cf_RuntimeGraph Defaults)
    [mkExternalAnalyzerConfig "lint" executable ["/usr/bin/lint"; "bin/lint"] "" []].

(** The configuration file names the executable of its analyzer; the policy file is
    there or not. *)
Definition files (executable : string) (with_policy : bool) : Loader := {|
  ReadFile path :=
    if decide (path = "config/merger.yaml") then Ok executable
    else if decide (with_policy = true ∧ path = cf_PolicyPath Defaults) then Ok "rules: []" else Err "no file";
  DecodeConfig cfg raw := Ok (with_analyzer raw);
  DecodePolicy config raw := Ok config;
  DecodeTrailing raw := TrailingEOF |}.

Definition demo_world : World (J := ()) := (mkDB no_schema 0, ()).
Definition no_driver (dsn : string) : result string () := Err "no driver".
Definition demo_start (executable : string) (with_policy : bool) :=
  ingest_main (HL := files executable with_policy) no_driver (λ _, None) demo_world.

(** A validated configuration that panics: the executable is on its list, but not
    absolute. *)
Example relative_analyzer_panics :
  ValidateForIngest (with_analyzer "bin/lint") = Ok () ∧
  (demo_start "bin/lint" true).1 = Err (Panicked "external analyzer executable must be absolute").
Proof. split; vm_compute; reflexivity. Qed.

Lemma demo_configured executable with_policy :
  ValidateForIngest (with_analyzer executable) = Ok () →
  configured (HL := files executable with_policy) (λ _, None) (with_analyzer executable).
Proof. split; [vm_compute; reflexivity|done]. Qed.

End demo.
