(* ===== verification/Scm.v ===== *)
(** [pkg/extensions/scm_clients.go] and [interfaces.go]: the GitLab and Bitbucket
    clients of the SDK.

    The provider behind the network is an environment that answers each attempt
    from those before it, and says how much of the request's body was read; what is
    left of the body is what a second attempt sends.  Answers are JSON values, read
    into the clients' structs by the rules of [encoding/json] (a field by its name
    or tag, exactly or else up to case; null changes nothing; another type is an
    error). *)
From stdpp Require Import base list gmap strings.
From S2P Require Import Prelude GoStrings Base64 Documents GithubClient.

Local Open Scope string_scope.
Local Open Scope list_scope.
Local Open Scope Z_scope.

(** ** Escaping *)

(** [url.PathEscape]: a segment keeps these bytes. *)
Definition kept_in_segment (a : ascii) : bool :=
  unreserved a || existsb (λ c, is_byte c a) ["$"; "&"; "+"; "="; ":"; "@"]%char.

Definition escaped (a : ascii) : string :=
  String "%" (String (hex_upper (byte_val a / 16)) (String (hex_upper (byte_val a mod 16)) "")).

Fixpoint PathEscape (s : string) : string :=
  match s with
  | EmptyString => ""
  | String a s' => (if kept_in_segment a then String a "" else escaped a) +:+ PathEscape s'
  end.

(** ** Data *)

Record SCMPullRequest := mkSCMPullRequest {
  spr_Owner : string;
  spr_Repo : string;
  spr_Number : Z;
  spr_Title : string;
  spr_Body : string;
  spr_Author : string;
  spr_URL : string;
  spr_HeadSHA : string;
  spr_BaseSHA : string;
}.

Record SCMCheckRunInput := mkSCMCheckRunInput {
  sci_RepoOwner : string;
  sci_RepoName : string;
  sci_HeadSHA : string;
  sci_Name : string;
  sci_Status : string;
  sci_Conclusion : string;
  sci_Summary : string;
  sci_DetailsURL : string;
}.

(** [SCMProvider] over the calls made. *)
Record SCMProvider (W : Type) := mkSCMProvider {
  scm_GetPullRequest : string → string → Z → stateE W string SCMPullRequest;
  scm_GetPullRequestDiff : string → string → Z → stateE W string string;
  scm_GetFileContent : string → string → string → string → stateE W string string;
  scm_PublishCheckRun : SCMCheckRunInput → stateE W string ();
}.
Arguments mkSCMProvider {W}.
Arguments scm_GetPullRequest {W}.
Arguments scm_GetPullRequestDiff {W}.
Arguments scm_GetFileContent {W}.
Arguments scm_PublishCheckRun {W}.

Inductive SCMAuth :=
  | PrivateToken (token : string)
  | BasicAuth (username token : string).

Record SCMRequest := mkSCMRequest {
  sr_Method : string;
  sr_URL : string;
  sr_Auth : SCMAuth;
  sr_ContentType : string;
  sr_Body : string;
}.

(** An attempt fails in the network, or is answered with a status and what was read
    of the body, with the error that reading ended in. *)
Inductive SCMReply :=
  | NetworkError (err : string)
  | Replied (status : Z) (body : string) (read_error : option string).

(** ** Reading answers *)

Class SCMEnvironment := {
  Exchange : list (SCMRequest * SCMReply) → SCMRequest → SCMReply;
  BodyRead : list (SCMRequest * SCMReply) → SCMRequest → nat;
  NewRequestError : string → option string;
  ParseJSON : string → result string json;
  EncodeFields : list (string * string) → string;
}.

(** The field a key belongs to. *)
Definition field_of (fields : list string) (key : string) : option string :=
  match find (λ f, bool_decide (f = key)) fields with
  | Some f => Some f
  | None => find (λ f, EqualFold f key) fields
  end.

Definition type_error : string := "json: cannot unmarshal into Go struct field".

Definition decode_string (old : string) (value : json) : result string string :=
  match value with
  | JString text => Ok text
  | JNull => Ok old
  | _ => Err type_error
  end.

(** A struct: its fields, and how the value of one of them changes it. *)
Definition decode_struct {A} (fields : list string) (set : A → string → json → result string A) (old : A) (value : json)
    : result string A :=
  match value with
  | JObject entries =>
      foldM (λ v '(key, value), match field_of fields key with Some f => set v f value | None => Ok v end) old entries
  | JNull => Ok old
  | _ => Err type_error
  end.

(** A struct with one field that is read. *)
Definition decode_only {A} (field : string) (decode : A → json → result string A) : A → json → result string A :=
  decode_struct [field] (λ v _ value, decode v value).

Record MergeRequest := mkMergeRequest {
  mr_Title : string;
  mr_Description : string;
  mr_WebURL : string;
  mr_Author : string;
  mr_SHA : string;
  mr_BaseSHA : string;
}.

(** The struct of [GitLabClient.GetPullRequest]; only two fields have tags. *)
Definition set_merge_request (v : MergeRequest) (field : string) (value : json) : result string MergeRequest :=
  let '(mkMergeRequest title description web_url author sha base) := v in
  if decide (field = "Title") then (λ x, mkMergeRequest x description web_url author sha base) <$> decode_string title value
  else if decide (field = "Description") then
    (λ x, mkMergeRequest title x web_url author sha base) <$> decode_string description value
  else if decide (field = "WebURL") then (λ x, mkMergeRequest title description x author sha base) <$> decode_string web_url value
  else if decide (field = "Author") then
    (λ x, mkMergeRequest title description web_url x sha base) <$> decode_only "Username" decode_string author value
  else if decide (field = "sha") then (λ x, mkMergeRequest title description web_url author x base) <$> decode_string sha value
  else (λ x, mkMergeRequest title description web_url author sha x) <$> decode_only "base_sha" decode_string base value.

(** [Changes []struct{ Diff string }]. *)
Definition decode_changes (old : list string) (value : json) : result string (list string) :=
  match value with
  | JArray items => mapM (decode_only "Diff" decode_string "") items
  | JNull => Ok []
  | _ => Err type_error
  end.

Record BitbucketPullRequest := mkBitbucketPullRequest {
  bb_Title : string;
  bb_Description : string;
  bb_HTML_Href : string;
  bb_Nickname : string;
  bb_SourceHash : string;
  bb_DestinationHash : string;
}.

Definition decode_commit : string → json → result string string := decode_only "Commit" (decode_only "Hash" decode_string).

Definition set_bitbucket (v : BitbucketPullRequest) (field : string) (value : json) : result string BitbucketPullRequest :=
  let '(mkBitbucketPullRequest title description href nickname source destination) := v in
  if decide (field = "Title") then
    (λ x, mkBitbucketPullRequest x description href nickname source destination) <$> decode_string title value
  else if decide (field = "Description") then
    (λ x, mkBitbucketPullRequest title x href nickname source destination) <$> decode_string description value
  else if decide (field = "Links") then
    (λ x, mkBitbucketPullRequest title description x nickname source destination) <$>
      decode_only "HTML" (decode_only "Href" decode_string) href value
  else if decide (field = "Author") then
    (λ x, mkBitbucketPullRequest title description href x source destination) <$>
      decode_only "Nickname" decode_string nickname value
  else if decide (field = "Source") then
    (λ x, mkBitbucketPullRequest title description href nickname x destination) <$> decode_commit source value
  else (λ x, mkBitbucketPullRequest title description href nickname source x) <$> decode_commit destination value.

(** ** Requests *)

Section clients.
Context `{HE : SCMEnvironment}.

Definition Log : Type := list (SCMRequest * SCMReply).
Definition M := stateE Log string.

Definition provider_status (status : Z) : string := "provider status " +:+ itoa status.

Definition drop_bytes (n : nat) (s : string) : string :=
  String.string_of_list_ascii (drop n (String.list_ascii_of_string s)).

(** The loop over the attempts that are left; [unread] is what is left of the
    reader over the body, and [last] the error so far.  The error of reading an
    answer is dropped. *)
Fixpoint attempts (n : nat) (method url content_type : string) (auth : SCMAuth) (unread last : string) : M string :=
  match n with
  | O => throw last
  | S n => λ log,
      match NewRequestError url with
      | Some e => (Err e, log)
      | None =>
          let sent := mkSCMRequest method url auth content_type unread in
          let reply := Exchange log sent in
          let unread := drop_bytes (BodyRead log sent) unread in
          let again (last : string) := attempts n method url content_type auth unread last (log ++ [(sent, reply)]) in
          match reply with
          | NetworkError e => again e
          | Replied status raw _ =>
              if 500 <=? status then again (provider_status status)
              else if 300 <=? status then (Err (provider_status status), log ++ [(sent, reply)])
              else (Ok raw, log ++ [(sent, reply)])
          end
      end
  end.

Definition request (method url : string) (payload : option (list (string * string))) (auth : SCMAuth) : M string :=
  attempts 2 method url (match payload with Some _ => "application/json" | None => "" end) auth
    (match payload with Some fields => EncodeFields fields | None => "" end) "".

(** An [out] that is a struct: an empty answer leaves it. *)
Definition decode_answer {A} (decode : A → json → result string A) (zero : A) (raw : string) : result string A :=
  if decide (raw = "") then Ok zero else (value ← ParseJSON raw; decode zero value).

(** *** GitLab *)

Record GitLabClient := mkGitLabClient {
  gl_baseURL : string;
  gl_token : string;
}.

Definition NewGitLabClient (baseURL token : string) : result string GitLabClient :=
  if decide (token = "") then Err "GitLab token is required" else Ok (mkGitLabClient (TrimRight baseURL "/") token).

Definition gitlab_request (c : GitLabClient) (method path : string) (payload : option (list (string * string))) : M string :=
  request method (gl_baseURL c +:+ path) payload (PrivateToken (gl_token c)).

Definition project (owner repo : string) : string := "/projects/" +:+ PathEscape (owner +:+ "/" +:+ repo).

Definition gitlab_GetPullRequest (c : GitLabClient) (o r : string) (n : Z) : M SCMPullRequest :=
  raw ← gitlab_request c "GET" (project o r +:+ "/merge_requests/" +:+ itoa n) None;
  v ← liftE (decode_answer
        (decode_struct ["Title"; "Description"; "WebURL"; "Author"; "sha"; "DiffRefs"] set_merge_request)
        (mkMergeRequest "" "" "" "" "" "") raw);
  mret (mkSCMPullRequest o r n (mr_Title v) (mr_Description v) (mr_Author v) (mr_WebURL v) (mr_SHA v) (mr_BaseSHA v)).

Definition gitlab_GetPullRequestDiff (c : GitLabClient) (o r : string) (n : Z) : M string :=
  raw ← gitlab_request c "GET" (project o r +:+ "/merge_requests/" +:+ itoa n +:+ "/changes") None;
  changes ← liftE (decode_answer (decode_only "Changes" decode_changes) [] raw);
  mret (concat_all changes).

Definition gitlab_file (o r p ref : string) : string :=
  project o r +:+ "/repository/files/" +:+ PathEscape p +:+ "/raw?ref=" +:+ QueryEscape ref.

Definition gitlab_GetFileContent (c : GitLabClient) (o r p ref : string) : M string :=
  gitlab_request c "GET" (gitlab_file o r p ref) None.

Definition gitlab_PublishCheckRun (c : GitLabClient) (input : SCMCheckRunInput) : M () :=
  let state := if decide (sci_Conclusion input = "success") then "success" else "failed" in
  gitlab_request c "POST"
    (project (sci_RepoOwner input) (sci_RepoName input) +:+ "/statuses/" +:+ sci_HeadSHA input)
    (Some [("state", state); ("name", sci_Name input); ("target_url", sci_DetailsURL input);
           ("description", sci_Summary input)]) ;;
  mret ().

(** *** Bitbucket *)

Record BitbucketClient := mkBitbucketClient {
  bc_baseURL : string;
  bc_username : string;
  bc_token : string;
}.

Definition NewBitbucketClient (baseURL username token : string) : result string BitbucketClient :=
  if decide (username = "" ∨ token = "") then Err "Bitbucket username and token are required"
  else Ok (mkBitbucketClient (TrimRight baseURL "/") username token).

Definition bitbucket_request (c : BitbucketClient) (method path : string) (payload : option (list (string * string)))
    : M string :=
  request method (bc_baseURL c +:+ path) payload (BasicAuth (bc_username c) (bc_token c)).

Definition repository_path (owner repo : string) : string := "/repositories/" +:+ owner +:+ "/" +:+ repo.

Definition bitbucket_GetPullRequest (c : BitbucketClient) (o r : string) (n : Z) : M SCMPullRequest :=
  raw ← bitbucket_request c "GET" (repository_path o r +:+ "/pullrequests/" +:+ itoa n) None;
  v ← liftE (decode_answer
        (decode_struct ["Title"; "Description"; "Links"; "Author"; "Source"; "Destination"] set_bitbucket)
        (mkBitbucketPullRequest "" "" "" "" "" "") raw);
  mret (mkSCMPullRequest o r n (bb_Title v) (bb_Description v) (bb_Nickname v) (bb_HTML_Href v) (bb_SourceHash v)
          (bb_DestinationHash v)).

Definition bitbucket_GetPullRequestDiff (c : BitbucketClient) (o r : string) (n : Z) : M string :=
  bitbucket_request c "GET" (repository_path o r +:+ "/pullrequests/" +:+ itoa n +:+ "/diff") None.

Definition bitbucket_GetFileContent (c : BitbucketClient) (o r p ref : string) : M string :=
  bitbucket_request c "GET" (repository_path o r +:+ "/src/" +:+ PathEscape ref +:+ "/" +:+ p) None.

Definition bitbucket_PublishCheckRun (c : BitbucketClient) (input : SCMCheckRunInput) : M () :=
  let state := if decide (sci_Conclusion input = "success") then "SUCCESSFUL" else "FAILED" in
  bitbucket_request c "POST"
    (repository_path (sci_RepoOwner input) (sci_RepoName input) +:+ "/commit/" +:+ sci_HeadSHA input +:+ "/statuses/build")
    (Some [("state", state); ("key", sci_Name input); ("url", sci_DetailsURL input); ("description", sci_Summary input)]) ;;
  mret ().

(** Both are providers. *)
Definition gitlab_provider (c : GitLabClient) : SCMProvider Log :=
  mkSCMProvider (gitlab_GetPullRequest c) (gitlab_GetPullRequestDiff c) (gitlab_GetFileContent c)
    (gitlab_PublishCheckRun c).
Definition bitbucket_provider (c : BitbucketClient) : SCMProvider Log :=
  mkSCMProvider (bitbucket_GetPullRequest c) (bitbucket_GetPullRequestDiff c) (bitbucket_GetFileContent c)
    (bitbucket_PublishCheckRun c).

(** ** Lemmas *)

Definition retryable (reply : SCMReply) : bool :=
  match reply with NetworkError _ => true | Replied status _ _ => 500 <=? status end.

(** What a reply means when there is no further attempt. *)
Definition outcome (reply : SCMReply) : result string string :=
  match reply with
  | NetworkError e => Err e
  | Replied status raw _ => if 300 <=? status then Err (provider_status status) else Ok raw
  end.

Lemma attempts_0 method url ct auth unread last log : attempts 0 method url ct auth unread last log = (Err last, log).
Proof using Type. done. Qed.

Lemma attempts_S n method url ct auth unread last log :
  NewRequestError url = None →
  let sent := mkSCMRequest method url auth ct unread in
  let reply := Exchange log sent in
  attempts (S n) method url ct auth unread last log =
  if retryable reply then
    attempts n method url ct auth (drop_bytes (BodyRead log sent) unread)
      (match outcome reply with Err e => e | Ok _ => "" end) (log ++ [(sent, reply)])
  else (outcome reply, log ++ [(sent, reply)]).
Proof using Type.
  intros Hurl. cbn. rewrite Hurl. destruct (Exchange _ _) as [e|status raw re]; cbn; [done|].
  destruct (Z.leb_spec 500 status); [by rewrite (proj2 (Z.leb_le 300 status)) by lia|].
  by destruct (300 <=? status).
Qed.

Lemma drop_bytes_none n : drop_bytes n "" = "".
Proof using Type. unfold drop_bytes. cbn. by rewrite drop_nil. Qed.

Lemma drop_bytes_all n s : (String.length s ≤ n)%nat → drop_bytes n s = "".
Proof using Type.
  intros Hn. unfold drop_bytes. rewrite drop_ge; [done|].
  enough (length (String.list_ascii_of_string s) = String.length s) by lia.
  clear. induction s as [|a s IH]; cbn; [done|]. by rewrite IH.
Qed.

Definition content_type (payload : option (list (string * string))) : string :=
  match payload with Some _ => "application/json" | None => "" end.
Definition payload_text (payload : option (list (string * string))) : string :=
  match payload with Some fields => EncodeFields fields | None => "" end.

(** ** Theorems *)

(** C37: a request makes one call, or a second one exactly when the first failed in
    the network or with a server error, and its result is what the last call
    means: a status below 300 is success whatever the reading of the body ended in.
    Both calls carry the method, the URL and the credentials; but the second sends
    what the first has left of the body: for a request without a body the same
    call again, and nothing at all when the first has read the body. *)
Theorem request_attempts method url payload auth log r log' :
  NewRequestError url = None → request method url payload auth log = (r, log') →
  let sent1 := mkSCMRequest method url auth (content_type payload) (payload_text payload) in
  let reply1 := Exchange log sent1 in
  let sent2 := mkSCMRequest method url auth (content_type payload) (drop_bytes (BodyRead log sent1) (payload_text payload)) in
  let reply2 := Exchange (log ++ [(sent1, reply1)]) sent2 in
  (retryable reply1 = false → r = outcome reply1 ∧ log' = log ++ [(sent1, reply1)]) ∧
  (retryable reply1 = true → r = outcome reply2 ∧ log' = log ++ [(sent1, reply1); (sent2, reply2)]) ∧
  (payload = None → sent2 = sent1) ∧
  ((String.length (payload_text payload) ≤ BodyRead log sent1)%nat → sr_Body sent2 = "").
Proof.
  intros Hurl. unfold request. rewrite attempts_S by done.
  change (match payload with Some fields => EncodeFields fields | None => "" end) with (payload_text payload).
  change (match payload with Some _ => "application/json" | None => "" end) with (content_type payload).
  set (sent1 := mkSCMRequest method url auth (content_type payload) (payload_text payload)).
  cbv zeta. intros H. split_and!.
  - intros Hr. rewrite Hr in H. by injection H as <- <-.
  - intros Hr. rewrite Hr, attempts_S in H by done. cbv zeta in H. set (sent2 := mkSCMRequest _ _ _ _ (drop_bytes _ _)) in *.
    set (reply2 := Exchange (log ++ _) sent2) in *. rewrite attempts_0, <- app_assoc in H.
    destruct (retryable reply2) eqn:Hr2; injection H as <- <-; [|done]. split; [|done].
    unfold retryable, outcome in *. destruct reply2 as [e|status raw re]; [done|].
    apply Z.leb_le in Hr2. by rewrite (proj2 (Z.leb_le 300 status)) by lia.
  - intros ->. unfold sent1. cbn. by rewrite drop_bytes_none.
  - intros Hl. cbn. by apply drop_bytes_all.
Qed.
End clients.

(** ** Escaped endpoints *)

(** The reading of an escaped text: [%] and two digits are a byte, and in a query [+]
    is a space. *)
Definition hex_value (a : ascii) : option Z :=
  if in_range "0" "9" a then Some (byte_val a - 48)
  else if in_range "A" "F" a then Some (byte_val a - 55) else None.

Fixpoint unescape (plus_is_space : bool) (s : string) : option string :=
  match s with
  | EmptyString => Some ""
  | String "%" (String h (String l s')) =>
      high ← hex_value h;
      low ← hex_value l;
      String (byte_of (high * 16 + low)) <$> unescape plus_is_space s'
  | String a s' => String (if plus_is_space && is_byte "+" a then " "%char else a) <$> unescape plus_is_space s'
  end.

(** One escaped byte, for each of the two escapings. *)
Definition path_piece (a : ascii) : string := if kept_in_segment a then String a "" else escaped a.
Definition query_piece (a : ascii) : string :=
  if unreserved a then String a "" else if is_byte " " a then "+" else escaped a.

Lemma unescape_path_piece a s : unescape false (path_piece a +:+ s) = String a <$> unescape false s.
Proof. destruct a as [[] [] [] [] [] [] [] []]; reflexivity. Qed.

Lemma unescape_query_piece a s : unescape true (query_piece a +:+ s) = String a <$> unescape true s.
Proof. destruct a as [[] [] [] [] [] [] [] []]; reflexivity. Qed.

Lemma piece_no_slash a : any_byte (is_byte "/") (path_piece a) = false ∧ any_byte (is_byte "/") (query_piece a) = false.
Proof. destruct a as [[] [] [] [] [] [] [] []]; split; reflexivity. Qed.

Lemma unescape_path s : unescape false (PathEscape s) = Some s.
Proof.
  induction s as [|a s IH]; [done|]. change (PathEscape (String a s)) with (path_piece a +:+ PathEscape s).
  by rewrite unescape_path_piece, IH.
Qed.

Lemma unescape_query s : unescape true (QueryEscape s) = Some s.
Proof.
  induction s as [|a s IH]; [done|]. change (QueryEscape (String a s)) with (query_piece a +:+ QueryEscape s).
  by rewrite unescape_query_piece, IH.
Qed.

Lemma PathEscape_no_slash s : any_byte (is_byte "/") (PathEscape s) = false.
Proof.
  induction s as [|a s IH]; [done|]. change (PathEscape (String a s)) with (path_piece a +:+ PathEscape s).
  by rewrite any_byte_app, IH, (proj1 (piece_no_slash a)).
Qed.

Lemma QueryEscape_no_slash s : any_byte (is_byte "/") (QueryEscape s) = false.
Proof.
  induction s as [|a s IH]; [done|]. change (QueryEscape (String a s)) with (query_piece a +:+ QueryEscape s).
  by rewrite any_byte_app, IH, (proj2 (piece_no_slash a)).
Qed.

Lemma PathEscape_inj s t : PathEscape s = PathEscape t → s = t.
Proof. intros H. pose proof (unescape_path s) as Hs. rewrite H, unescape_path in Hs. by injection Hs. Qed.

Lemma QueryEscape_inj s t : QueryEscape s = QueryEscape t → s = t.
Proof. intros H. pose proof (unescape_query s) as Hs. rewrite H, unescape_query in Hs. by injection Hs. Qed.

Lemma gitlab_file_elements o r p ref :
  Split "/" (gitlab_file o r p ref) =
  [""; "projects"; PathEscape (o +:+ "/" +:+ r); "repository"; "files"; PathEscape p; "raw?ref=" +:+ QueryEscape ref].
Proof.
  unfold gitlab_file, project. rewrite !app_assoc_string.
  change ("/projects/" +:+ ?t) with ("" +:+ String "/" ("projects" +:+ String "/" t)).
  change ("/repository/files/" +:+ ?t) with (String "/" ("repository" +:+ String "/" ("files" +:+ String "/" t))).
  change ("/raw?ref=" +:+ ?t) with (String "/" ("raw?ref=" +:+ t)).
  rewrite !Split_piece by (reflexivity || apply PathEscape_no_slash).
  rewrite Split_whole; [done|]. by rewrite any_byte_app, QueryEscape_no_slash.
Qed.

(** Whatever a repository, a path and a ref hold (slashes, question marks,
    percent signs, white space), the endpoint of a GitLab file has the same seven
    elements, the server reads them back from it, and different files have
    different endpoints. *)
Theorem gitlab_file_injective o r p ref o' r' p' ref' :
  (∃ project path query,
     Split "/" (gitlab_file o r p ref) = [""; "projects"; project; "repository"; "files"; path; "raw?ref=" +:+ query] ∧
     unescape false project = Some (o +:+ "/" +:+ r) ∧ unescape false path = Some p ∧ unescape true query = Some ref) ∧
  (gitlab_file o r p ref = gitlab_file o' r' p' ref' → o +:+ "/" +:+ r = o' +:+ "/" +:+ r' ∧ p = p' ∧ ref = ref').
Proof.
  split.
  - eexists _, _, _. rewrite gitlab_file_elements. split_and!; [done|apply unescape_path..|apply unescape_query].
  - intros H. apply (f_equal (Split "/")) in H. rewrite !gitlab_file_elements in H.
    injection H as Hproject Hpath Hq. apply PathEscape_inj in Hproject, Hpath. split_and!; [done|done|].
    by apply QueryEscape_inj.
Qed.

Section demo.
(** A provider that is down for the first call; the first attempt reads the body. *)
#[local] Instance demo_scm : SCMEnvironment := {|
  Exchange log sent := match log with [] => Replied 503 "" None | _ => Replied 201 "{}" None end;
  BodyRead log sent := String.length (sr_Body sent);
  NewRequestError url := None;
  ParseJSON text := Ok (JObject []);
  EncodeFields fields := concat_all (snd <$> fields) |}.

Definition demo_status : SCMCheckRunInput := mkSCMCheckRunInput "group" "app" "abc" "merger" "completed" "success" "ok" "".
Definition demo_gitlab : GitLabClient := mkGitLabClient "https://gitlab" "t".

(** The status is reported as published, by a call without a body. *)
Example retried_status_is_empty :
  let '(r, log) := gitlab_PublishCheckRun demo_gitlab demo_status [] in
  r = Ok () ∧ sr_Body ∘ fst <$> log = ["successmergerok"; ""].
Proof. vm_compute. by split. Qed.

Lemma request_attempts_witness :
  let url := "https://gitlab/projects/group%2Fapp/statuses/abc" in
  let payload := Some [("state", "success")] in
  ∃ log', request "POST" url payload (PrivateToken "t") [] = (Ok "{}", log') ∧ length log' = 2%nat.
Proof.
  cbv zeta. destruct (request "POST" "https://gitlab/projects/group%2Fapp/statuses/abc" (Some [("state", "success")])
    (PrivateToken "t") []) as [r log'] eqn:E.
  destruct (request_attempts (HE := demo_scm) "POST" "https://gitlab/projects/group%2Fapp/statuses/abc"
    (Some [("state", "success")]) (PrivateToken "t") [] r log' eq_refl E) as (_ & H & _).
  destruct (H eq_refl) as [Hr Hl]. exists log'. split.
  - rewrite Hr. vm_compute. reflexivity.
  - rewrite Hl. reflexivity.
Defined.

(** An answer whose reading broke off is taken for the whole file. *)
#[local] Instance broken_scm : SCMEnvironment := {|
  Exchange log sent := Replied 200 "package ma" (Some "unexpected EOF");
  BodyRead log sent := 0%nat;
  NewRequestError url := None;
  ParseJSON text := Ok JNull;
  EncodeFields fields := "" |}.

Example truncated_file_is_content :
  (gitlab_GetFileContent (HE := broken_scm) demo_gitlab "group" "app" "main.go" "abc" []).1 = Ok "package ma".
Proof. vm_compute. reflexivity. Qed.

(** The fields of a merge request as GitLab names them: the two with an underscore
    belong to no field of the struct. *)
Definition gitlab_answer : json :=
  JObject [("title", JString "Add login"); ("web_url", JString "https://gitlab/mr/7"); ("sha", JString "head");
    ("author", JObject [("username", JString "dev")]); ("diff_refs", JObject [("base_sha", JString "base")])].

Example gitlab_base_is_lost :
  decode_struct ["Title"; "Description"; "WebURL"; "Author"; "sha"; "DiffRefs"] set_merge_request
    (mkMergeRequest "" "" "" "" "" "") gitlab_answer = Ok (mkMergeRequest "Add login" "" "" "dev" "head" "").
Proof. vm_compute. reflexivity. Qed.
End demo.
