(* ===== verification/Telemetry.v ===== *)
(** [internal/telemetry]: the identifiers a request's context carries, and the
    logger.  The tracer's spans do nothing ([tracing.go]).

    The text of a time and of a JSON object are those of Go's standard library and
    parameters; standard output is the list of the lines printed so far. *)
From stdpp Require Import base list gmap strings sorting.
From S2P Require Import Prelude GoStrings Documents.

Local Open Scope string_scope.
Local Open Scope list_scope.
Local Open Scope Z_scope.

(** ** Contexts *)

(** The values of a context; a value added later hides the one before it. *)
Abbreviation ContextValues := (gmap string string).

Definition correlationIDKey : string := "correlation_id".
Definition requestIDKey : string := "request_id".

Definition WithCorrelationID (ctx : ContextValues) (value : string) : ContextValues := <[correlationIDKey := value]> ctx.
Definition CorrelationID (ctx : ContextValues) : string := default "" (ctx !! correlationIDKey).
Definition WithRequestID (ctx : ContextValues) (value : string) : ContextValues := <[requestIDKey := value]> ctx.
Definition RequestID (ctx : ContextValues) : string := default "" (ctx !! requestIDKey).

(** ** The logger *)

(** An argument of type [any]: a string, which may be a key; any other value that
    [json.Marshal] takes; or one that it refuses. *)
Inductive LogArg :=
  | LogText (text : string)
  | LogValue (value : json)
  | LogOpaque (err : string).

Definition log_json (v : LogArg) : result string json :=
  match v with
  | LogText text => Ok (JString text)
  | LogValue value => Ok value
  | LogOpaque err => Err err
  end.

Record Logger := mkLogger { lg_level : string }.

Definition NewLogger (level : string) : Logger := mkLogger (ToLower level).

(** The loop over the arguments two by two: a key that is no string is skipped with
    its value, and a key without a value is dropped. *)
Fixpoint log_fields (record : gmap string LogArg) (keyvals : list LogArg) : gmap string LogArg :=
  match keyvals with
  | LogText key :: value :: rest => log_fields (<[key := value]> record) rest
  | _ :: _ :: rest => log_fields record rest
  | _ => record
  end.

Definition dquoted (s : string) : string := String "034" (s +:+ String "034" "").

(** The line for a record that does not marshal. *)
Definition marshal_failed (err : string) : string :=
  "{" +:+ dquoted "level" +:+ ":" +:+ dquoted "error" +:+ "," +:+ dquoted "msg" +:+ ":" +:+
  dquoted "failed to marshal log record" +:+ "," +:+ dquoted "error" +:+ ":" +:+ Quote err +:+ "}".

Definition key_le (a b : string * LogArg) : Prop := String.le a.1 b.1.
#[export] Instance key_le_dec a b : Decision (key_le a b).
Proof. unfold key_le. apply _. Defined.

Section logger.
(** [json.Marshal] of an object, its keys sorted, and the time as text. *)
Context (EncodeObject : list (string * json) → string) (now : string).

Definition log_record (level msg : string) (keyvals : list LogArg) : gmap string LogArg :=
  log_fields (<["ts" := LogText now]> (<["level" := LogText level]> {["msg" := LogText msg]})) keyvals.

Definition log_line (record : gmap string LogArg) : string :=
  match mapM (λ '(key, v), pair key <$> log_json v) (merge_sort key_le (map_to_list record)) with
  | Ok entries => EncodeObject entries
  | Err err => marshal_failed err
  end.

Definition log_write (level msg : string) (keyvals : list LogArg) (out : list string) : list string :=
  out ++ [line (log_line (log_record level msg keyvals))].

Definition log_Debug (l : Logger) (msg : string) (keyvals : list LogArg) (out : list string) : list string :=
  if decide (lg_level l = "debug") then log_write "debug" msg keyvals out else out.

Definition log_Info (l : Logger) (msg : string) (keyvals : list LogArg) (out : list string) : list string :=
  log_write "info" msg keyvals out.

Definition log_Warn (l : Logger) (msg : string) (keyvals : list LogArg) (out : list string) : list string :=
  if decide (lg_level l = "debug" ∨ lg_level l = "info" ∨ lg_level l = "warn") then log_write "warn" msg keyvals out
  else out.

Definition log_Error (l : Logger) (msg : string) (keyvals : list LogArg) (out : list string) : list string :=
  log_write "error" msg keyvals out.

(** ** Theorems *)

Lemma log_fields_lookup pairs record k :
  log_fields record (concat ((λ '(key, v), [LogText key; v]) <$> pairs)) !! k =
  match last (filter (λ p, p.1 = k) pairs) with
  | Some (_, v) => Some v
  | None => record !! k
  end.
Proof using Type.
  revert record. induction pairs as [|[key v] pairs IH]; intros record; [done|].
  cbn [fmap list_fmap concat app log_fields]. rewrite IH, filter_cons. cbn [fst].
  destruct (decide (key = k)) as [->|Hne]; [|by rewrite lookup_insert_ne].
  rewrite last_cons. by destruct (last _) as [[]|]; [|rewrite lookup_insert_eq].
Qed.

(** Keys with values become fields, the last value of a key standing; the three
    fields of the logger itself can be overwritten too. *)
Theorem log_record_lookup level msg pairs k :
  log_record level msg (concat ((λ '(key, v), [LogText key; v]) <$> pairs)) !! k =
  match last (filter (λ p, p.1 = k) pairs) with
  | Some (_, v) => Some v
  | None => log_record level msg [] !! k
  end.
Proof using Type. apply log_fields_lookup. Qed.
End logger.

(** The level does not order the calls: a logger for errors prints what is of the
    level info, but no warning. *)
Example error_level_prints_info :
  length (log_Info (λ _, "{}") "12:00" (NewLogger "ERROR") "started" [] []) = 1%nat ∧
  log_Warn (λ _, "{}") "12:00" (NewLogger "ERROR") "slow" [] [] = [].
Proof. by split. Qed.

(** A key that is no string is skipped, and the last argument has no value; a value
    that cannot be encoded loses the whole record. *)
Example log_lines :
  let text (entries : list (string * json)) := Join "," (fst <$> entries) in
  log_Info text "12:00" (NewLogger "info") "m" [LogText "a"; LogValue JNull; LogValue JNull; LogText "b"; LogText "c"] [] =
    [line "a,level,msg,ts"] ∧
  log_Info text "12:00" (NewLogger "info") "m" [LogText "a"; LogOpaque "json: unsupported type: chan int"] [] =
    [line (marshal_failed "json: unsupported type: chan int")].
Proof. vm_compute. by split. Qed.

Lemma context_values ctx correlation request :
  let ctx' := WithCorrelationID (WithRequestID ctx request) correlation in
  CorrelationID ctx' = correlation ∧ RequestID ctx' = request.
Proof.
  intros ctx'. unfold ctx', CorrelationID, RequestID, WithCorrelationID, WithRequestID.
  split; [by rewrite lookup_insert_eq|by rewrite lookup_insert_ne, lookup_insert_eq].
Qed.
