(* ===== verification/Serve.v ===== *)
(** [internal/app/controlplane/app.go]: the control-plane application, its two
    servers and the loop that waits for them.

    [Run] starts a goroutine for each server; a goroutine sends on a channel of two
    places what its server ended with, and the loop takes one answer after the
    other.  The goroutines and the loop are the steps of a relation ([runs]), over
    the ends of the servers so far, in the order in which they were sent.  Listening
    and the servers' work are the environment. *)
From stdpp Require Import base list gmap strings relations.
From S2P Require Import Prelude GoStrings Domain Identity Documents Events Store Access ControlPlane Http Grpc Nats Telemetry.
From S2P Require Config.

Local Open Scope string_scope.
Local Open Scope list_scope.

(** ** The application *)

Section app.
Context `{HR : Repository W} `{HE : Entropy} `{HM : MapOrder} `{HB : BodyDecoder}.

Record App := mkApp {
  app_http : HTTPRequest → W → Response * W;
  app_httpAddress : string;
  app_grpc : list string → GrpcRequest → stateE W Status GrpcResponse;
  app_grpcAddress : string;
}.

(** [None] is a nil authenticator, which panics. *)
Definition NewWithAccess (cfg : Config.Config) (authenticator : option Authenticator) (service : Service W) (t : Readings)
    : result string App :=
  match authenticator with
  | None => Err "control-plane authenticator is required"
  | Some authenticator =>
      Ok (mkApp (http_server service t authenticator) (Config.sc_ControlPlaneAddress (Config.cf_Service cfg))
            (grpc_server service t authenticator) (Config.sc_ControlPlaneGRPC (Config.cf_Service cfg)))
  end.

Definition NewApp (cfg : Config.Config) (service : Service W) (t : Readings) : result string App :=
  NewWithAccess cfg (Some DisabledAuthenticator) service t.
End app.
Arguments App : clear implicits.

(** ** The lanes it observes *)

Section observe.
Context (EncodeObject : list (string * json) → string) (now : string) (envelope_arg : Envelope → LogArg).

(** The handler of lane decisions only logs. *)
Definition observe (l : Logger) : Events.Handler (list string) := λ event out,
  (Ok (), log_Info EncodeObject now l "controlplane observed lane decision" [LogText "event"; envelope_arg event] out).
End observe.

(** ** Running *)

Section run.
(** The bus to subscribe to, and the network. *)
Context {J : Type} (bus_Subscribe : string → stateE J string ()) (Listen : string → stateE J string ()).

(** What [Run] does before the servers serve; its errors are those of [Run]. *)
Definition before_serving (grpcAddress : string) : stateE J string () :=
  bus_Subscribe EventMergeLaneAssigned ;;
  Listen grpcAddress.
End run.

Inductive Server := GRPCServer | HTTPServer.
#[export] Instance Server_eq_dec : EqDecision Server.
Proof. solve_decision. Defined.

Inductive ServeError :=
  | ErrServerStopped
  | ErrServerClosed
  | ServeFailed (err : string).

(** What a goroutine sends when its server ended with this (nil is [None]): a
    server that was shut down did not fail. *)
Definition sent (srv : Server) (serveErr : option ServeError) : option ServeError :=
  match srv, serveErr with
  | GRPCServer, Some ErrServerStopped | HTTPServer, Some ErrServerClosed => None
  | _, _ => serveErr
  end.

(** The servers that serve, the channel, the counter of the loop and what [Run] has
    returned. *)
Record Running := mkRunning {
  rn_serving : list Server;
  rn_errCh : list (option ServeError);
  rn_i : nat;
  rn_returned : option (option ServeError);
}.

Definition capacity : nat := 2.
Definition started : Running := mkRunning [GRPCServer; HTTPServer] [] 0 None.

(** The body of the loop, when there is something to receive. *)
Definition receive (st : Running) : option Running :=
  match rn_returned st, rn_errCh st with
  | None, Some serveErr :: rest => Some (mkRunning (rn_serving st) rest (rn_i st) (Some (Some serveErr)))
  | None, None :: rest =>
      let i := S (rn_i st) in
      Some (mkRunning (rn_serving st) rest i (if decide (i < 2)%nat then None else Some None))
  | _, _ => None
  end.

Inductive runs : list (Server * option ServeError) → Running → Prop :=
  | runs_started : runs [] started
  | runs_ended ends st srv serveErr before after :
      runs ends st → rn_serving st = before ++ srv :: after → (length (rn_errCh st) < capacity)%nat →
      runs (ends ++ [(srv, serveErr)])
        (mkRunning (before ++ after) (rn_errCh st ++ [sent srv serveErr]) (rn_i st) (rn_returned st))
  | runs_received ends st st' : runs ends st → receive st = Some st' → runs ends st'.

(** ** Lemmas *)

Definition all_sent (ends : list (Server * option ServeError)) : list (option ServeError) :=
  (λ '(srv, serveErr), sent srv serveErr) <$> ends.

(** What the loop has taken off the channel. *)
Definition taken (st : Running) : list (option ServeError) :=
  replicate (rn_i st) None ++ match rn_returned st with Some (Some e) => [Some e] | _ => [] end.

Definition running_invariant (ends : list (Server * option ServeError)) (st : Running) : Prop :=
  all_sent ends = taken st ++ rn_errCh st ∧ rn_serving st ++ ends.*1 ≡ₚ [GRPCServer; HTTPServer] ∧
  (rn_i st ≤ 2)%nat ∧ (rn_i st = 2%nat ↔ rn_returned st = Some None).

Lemma receive_inv ends st st' : running_invariant ends st → receive st = Some st' → running_invariant ends st'.
Proof.
  destruct st as [serving ch i returned]. intros (Hs & Hp & Hi & Hr). unfold receive, running_invariant, taken in *. cbn in *.
  destruct returned as [|]; [done|]. assert (i ≠ 2%nat) by (intros ->; discriminate (proj1 Hr eq_refl)).
  destruct ch as [|[e|] rest]; [done|..]; intros [= <-]; cbn in *.
  - rewrite Hs, app_nil_r, <- app_assoc. split_and!; done.
  - split_and!; [|done|lia|case_decide; split; (done || lia)].
    rewrite Hs. case_decide; by rewrite !app_nil_r, app_comm_cons, replicate_cons_app, <- app_assoc.
Qed.

Lemma runs_invariant ends st : runs ends st → running_invariant ends st.
Proof.
  induction 1 as [|ends st srv serveErr before after _ (Hs & Hp & Hi & Hr) Hserving _|ends st st' _ IH Hst].
  - unfold running_invariant. cbn. split_and!; [done..|lia|done].
  - unfold running_invariant, all_sent, taken in *. cbn. rewrite !fmap_app, Hs. split_and!; [|rewrite <- Hp, Hserving|done..].
    + cbn. by rewrite app_assoc.
    + cbn. rewrite <- !app_assoc. cbn. rewrite <- Permutation_middle. solve_Permutation.
  - by eapply receive_inv.
Qed.

(** From a point where the loop must return, it does after what the channel holds. *)
Lemma receive_returns ends st :
  running_invariant ends st → rn_returned st = None →
  rn_serving st = [] ∨ Exists (λ e, e ≠ None) (all_sent ends) →
  ∃ st' e, rtc (λ a b, receive a = Some b) st st' ∧ rn_returned st' = Some e.
Proof.
  remember (length (rn_errCh st)) as n eqn:Hn. revert st Hn.
  induction n as [|n IH]; intros st Hn Hinv Hret Hend; pose proof Hinv as (Hs & Hp & Hi & Hr).
  - exfalso. apply eq_sym, nil_length_inv in Hn. unfold taken in Hs. rewrite Hn, Hret, !app_nil_r in Hs.
    destruct Hend as [Hserv|Hex].
    + rewrite Hserv in Hp. apply Permutation_length in Hp. apply (f_equal length) in Hs. unfold all_sent in Hs.
      rewrite !length_fmap, length_replicate in *. cbn in Hp. rewrite length_fmap in Hp.
      assert (rn_i st = 2%nat) as Hi2 by lia. apply Hr in Hi2. congruence.
    + rewrite Hs in Hex. apply Exists_exists in Hex as (e & He & Hne). by apply elem_of_replicate_inv in He.
  - destruct (receive st) as [st1|] eqn:Hst1.
    + destruct (rn_returned st1) as [e|] eqn:Hret1.
      * exists st1, e. split; [by apply rtc_once|done].
      * assert (n = length (rn_errCh st1) ∧ rn_serving st1 = rn_serving st) as [Hn1 Hs1].
        { unfold receive in Hst1. rewrite Hret in Hst1.
          destruct (rn_errCh st) as [|[] ?]; simplify_eq/=. by split. }
        destruct (IH st1 Hn1) as (st' & e & Hsteps & He); [by eapply receive_inv|done|by rewrite Hs1|].
        exists st', e. split; [by eapply rtc_l|done].
    + unfold receive in Hst1. rewrite Hret in Hst1. by destruct (rn_errCh st) as [|[] ?].
Qed.

(** The errors among what was sent: none before the one the loop returned. *)
Lemma omap_replicate_none n : omap id (replicate n (@None ServeError)) = [].
Proof. by induction n. Qed.

(** ** Theorem *)

(** C29: however the two servers end, the goroutines never block on the channel;
    [Run] returns the first error that was sent, and nil only when both servers were
    shut down or ended without one; and once a server failed, or both ended, it
    returns after receiving what is in the channel, while the other server may go on
    serving. *)
Theorem run_returns ends st :
  runs ends st →
  (rn_serving st ≠ [] → (length (rn_errCh st) < capacity)%nat) ∧
  (∀ e, rn_returned st = Some (Some e) → head (omap id (all_sent ends)) = Some e) ∧
  (rn_returned st = Some None → ends.*1 ≡ₚ [GRPCServer; HTTPServer] ∧ Forall (λ e, e = None) (all_sent ends)) ∧
  (rn_returned st = None → rn_serving st = [] ∨ Exists (λ e, e ≠ None) (all_sent ends) →
   ∃ st' e, rtc (λ a b, receive a = Some b) st st' ∧ rn_returned st' = Some e ∧ runs ends st').
Proof.
  intros Hruns. pose proof (runs_invariant _ _ Hruns) as Hinv. pose proof Hinv as (Hs & Hp & Hi & Hr).
  pose proof (Permutation_length Hp) as Hlen. pose proof (f_equal length Hs) as Hsent.
  unfold all_sent in Hsent. rewrite !length_app, !length_fmap in *. cbn in Hlen. split_and!.
  - intros Hserv. unfold capacity. destruct (rn_serving st); [done|]. cbn in Hlen. lia.
  - intros e He. rewrite Hs. unfold taken. by rewrite He, !omap_app, omap_replicate_none.
  - intros He. apply Hr in He as Hi2. unfold taken in Hs, Hsent. rewrite He, Hi2 in Hs, Hsent. cbn in Hsent.
    destruct (rn_errCh st); cbn in Hsent; [|lia]. rewrite Hs. split; [|by repeat constructor].
    destruct (rn_serving st); [done|]. cbn in Hlen. lia.
  - intros Hret Hend. destruct (receive_returns ends st Hinv Hret Hend) as (st' & e & Hsteps & He).
    exists st', e. split_and!; [done|done|]. clear -Hruns Hsteps. induction Hsteps; [done|]. apply IHHsteps. by eapply runs_received.
Qed.

(** The control plane's subscription acknowledges every lane decision that is one. *)
Lemma observe_acknowledges `{HC : EnvelopeCodec} encode now arg l msg out :
  (on_message (observe encode now arg l) msg out).1 =
  match DecodeEnvelope (msg_Data msg) with Ok _ => Ack | Err _ => Nak end.
Proof. unfold on_message. by destruct (DecodeEnvelope _). Qed.

(** The HTTP server was shut down, and the gRPC server fails: its error is what
    [Run] returns. *)
Lemma run_returns_witness :
  ∃ st', runs [(HTTPServer, Some ErrServerClosed); (GRPCServer, Some (ServeFailed "accept"))] st' ∧
    rn_returned st' = Some (Some (ServeFailed "accept")).
Proof.
  assert (runs [(HTTPServer, Some ErrServerClosed); (GRPCServer, Some (ServeFailed "accept"))]
    (mkRunning [] [None; Some (ServeFailed "accept")] 0 None)) as H.
  { apply (runs_ended [(HTTPServer, Some ErrServerClosed)] (mkRunning [GRPCServer] [None] 0 None) GRPCServer
      (Some (ServeFailed "accept")) [] []); [|reflexivity|cbn; unfold capacity; lia].
    apply (runs_ended [] started HTTPServer (Some ErrServerClosed) [GRPCServer] []); [constructor|reflexivity|].
    cbn. unfold capacity. lia. }
  destruct (run_returns _ _ H) as (_ & _ & _ & Hret).
  destruct (Hret eq_refl (or_introl eq_refl)) as (st' & e & _ & He & Hst').
  exists st'. split; [exact Hst'|]. destruct (run_returns _ _ Hst') as (_ & Hfirst & Hclean & _).
  destruct e as [e|].
  - apply Hfirst in He as Hhead. injection Hhead as <-. exact He.
  - destruct (Hclean He) as [_ Hall]. inversion Hall as [|? ? _ Hall2]. inversion Hall2 as [|? ? Hn _]. discriminate Hn.
Defined.
